(** * DCTap Dancer: format converters over the per-workspace store

    A shallow embedding of the conversion services of the backend
    ([services/csv-parser.ts], [services/marva-profile.ts],
    [services/starting-point.ts]) together with the part of
    [services/database.ts] they call, and the properties the
    specification states about them.

    JavaScript strings are modelled as lists of 8-bit code units (the
    Latin-1 range of UTF-16); [null] and [undefined] are [None]. *)

From Stdlib Require Import String Ascii List ZArith Lia Bool Arith DecimalString.
From stdpp Require Import base gmap strings list.
Import ListNotations.
Local Open Scope string_scope.
Local Open Scope list_scope.

(** ** Strings *)

Definition str := list ascii.

Definition lit (s : string) : str := list_ascii_of_string s.
Coercion lit : string >-> str.

Module Str.

Definition nl : ascii := "010"%char.
Definition cr : ascii := "013"%char.
Definition tab : ascii := "009"%char.
Definition dquote : ascii := "034"%char.
Definition comma : ascii := ","%char.
Definition colon : ascii := ":"%char.
Definition pipe : ascii := "|"%char.

(** [String.prototype.trim] and the regex class [\s] agree on the code
    units below 256: TAB, LF, VT, FF, CR, SP and NBSP. *)
Definition is_ws (c : ascii) : bool :=
  let n := nat_of_ascii c in
  ((9 <=? n)%nat && (n <=? 13)%nat) || (n =? 32)%nat || (n =? 160)%nat.

Fixpoint trimStart (s : str) : str :=
  match s with
  | [] => []
  | c :: r => if is_ws c then trimStart r else s
  end.

Definition trimEnd (s : str) : str := rev (trimStart (rev s)).

Definition trim (s : str) : str := trimEnd (trimStart s).

(** Truthiness of a JS string: the empty string is falsy. *)
Definition nonempty (s : str) : bool :=
  match s with [] => false | _ :: _ => true end.

(** [s.split(sep)] for a separator that is one code unit out of a class
    (a one-character string, or a bracket class such as [[,|\n]]). The
    result always has at least one element. *)
Fixpoint split (p : ascii -> bool) (s : str) : list str :=
  match s with
  | [] => [[]]
  | c :: r =>
      if p c then [] :: split p r
      else match split p r with
           | h :: t => (c :: h) :: t
           | [] => [[c]]
           end
  end.

Definition is_char (d : ascii) (c : ascii) : bool := Ascii.eqb c d.

(** [s.split(/\r?\n/)]: at a CR followed by LF both are consumed. *)
Fixpoint splitLines (s : str) : list str :=
  match s with
  | [] => [[]]
  | c :: r =>
      if Ascii.eqb c nl then [] :: splitLines r
      else
        match r with
        | c' :: r' =>
            if Ascii.eqb c cr && Ascii.eqb c' nl then [] :: splitLines r'
            else match splitLines r with
                 | h :: t => (c :: h) :: t
                 | [] => [[c]]
                 end
        | [] => [[c]]
        end
  end.

(** [l.join(sep)] *)
Fixpoint join (sep : str) (l : list str) : str :=
  match l with
  | [] => []
  | [x] => x
  | x :: rest => x ++ sep ++ join sep rest
  end.

Fixpoint startsWith (s p : str) : bool :=
  match p, s with
  | [], _ => true
  | _ :: _, [] => false
  | a :: p', b :: s' => Ascii.eqb a b && startsWith s' p'
  end.

(** [s.includes(sub)] *)
Fixpoint includes (s sub : str) : bool :=
  startsWith s sub ||
  match s with
  | [] => false
  | _ :: r => includes r sub
  end.

(** [s.indexOf(c)] for a one-character [c]; [None] stands for [-1]. *)
Fixpoint indexOf (c : ascii) (s : str) : option nat :=
  match s with
  | [] => None
  | a :: r => if Ascii.eqb a c then Some 0 else option_map S (indexOf c r)
  end.

Definition count (c : ascii) (s : str) : nat :=
  length (List.filter (is_char c) s).

Definition is_upper (c : ascii) : bool :=
  let n := nat_of_ascii c in
  ((65 <=? n)%nat && (n <=? 90)%nat) ||
  ((192 <=? n)%nat && (n <=? 222)%nat && negb (n =? 215)%nat).

Definition lower_char (c : ascii) : ascii :=
  if is_upper c then ascii_of_nat (nat_of_ascii c + 32) else c.

Definition toLowerCase (s : str) : str := map lower_char s.

Definition is_lower_az (c : ascii) : bool :=
  let n := nat_of_ascii c in (97 <=? n)%nat && (n <=? 122)%nat.

Definition is_word (c : ascii) : bool :=
  let n := nat_of_ascii c in
  ((97 <=? n)%nat && (n <=? 122)%nat) || ((65 <=? n)%nat && (n <=? 90)%nat) ||
  ((48 <=? n)%nat && (n <=? 57)%nat) || (n =? 95)%nat.

(** [s.replace(/c/g, by)] for a one-character pattern. *)
Definition replaceAll (c : ascii) (by_ : str) (s : str) : str :=
  flat_map (fun a => if Ascii.eqb a c then by_ else [a]) s.

(** [s.replace(/\s+/g, by)]: every maximal run of whitespace becomes one
    copy of [by]. [inrun] records that the previous unit was whitespace. *)
Fixpoint replaceWsRuns (by_ : str) (inrun : bool) (s : str) : str :=
  match s with
  | [] => []
  | c :: r =>
      if is_ws c then
        (if inrun then [] else by_) ++ replaceWsRuns by_ true r
      else c :: replaceWsRuns by_ false r
  end.

(** [s.replace(pat, '')] with a string pattern: only the first
    occurrence is removed. *)
Fixpoint removeFirst (pat : str) (s : str) : str :=
  if startsWith s pat then drop (length pat) s
  else match s with
       | [] => []
       | c :: r => c :: removeFirst pat r
       end.

(** Code-unit order, the order of SQLite's BINARY collation on these
    strings. *)
Fixpoint ltb (a b : str) : bool :=
  match a, b with
  | [], [] => false
  | [], _ :: _ => true
  | _ :: _, [] => false
  | x :: a', y :: b' =>
      if Ascii.ltb x y then true
      else if Ascii.eqb x y then ltb a' b' else false
  end.

Definition leb (a b : str) : bool := negb (ltb b a).

End Str.

(** [x || undefined] on an optional string: the empty string is falsy. *)
Definition truthy (x : option str) : option str :=
  match x with
  | Some ((_ :: _) as s) => Some s
  | _ => None
  end.

Definition is_truthy (x : option str) : bool :=
  match truthy x with Some _ => true | None => false end.

(** [l.includes(x)] *)
Definition inb (x : str) (l : list str) : bool :=
  existsb (fun y => bool_decide (y = x)) l.

(** [x || d] *)
Definition or_else (x : option str) (d : str) : str :=
  match truthy x with Some s => s | None => d end.

(** ** Namespaces ([types/dctap.ts]) *)

Record Namespace := mkNamespace { prefix : str; namespace : str }.

Definition DEFAULT_NAMESPACES : list Namespace :=
  [ mkNamespace "rdf" "http://www.w3.org/1999/02/22-rdf-syntax-ns#";
    mkNamespace "rdfs" "http://www.w3.org/2000/01/rdf-schema#";
    mkNamespace "xsd" "http://www.w3.org/2001/XMLSchema#";
    mkNamespace "owl" "http://www.w3.org/2002/07/owl#";
    mkNamespace "skos" "http://www.w3.org/2004/02/skos/core#";
    mkNamespace "dcterms" "http://purl.org/dc/terms/";
    mkNamespace "foaf" "http://xmlns.com/foaf/0.1/";
    mkNamespace "bf" "http://id.loc.gov/ontologies/bibframe/";
    mkNamespace "bflc" "http://id.loc.gov/ontologies/bflc/";
    mkNamespace "bfsimple" "http://id.loc.gov/ontologies/bfsimple/";
    mkNamespace "cc" "http://creativecommons.org/ns#";
    mkNamespace "sp" "http://id.loc.gov/ontologies/sp/";
    mkNamespace "pom" "http://performedmusicontology.org/ontology/";
    mkNamespace "mads" "http://www.loc.gov/mads/rdf/v1#" ].

(** ** Namespace resolver ([services/marva-profile.ts]) *)

Module Ns.

Fixpoint prefixUri (uri : str) (namespaces : list Namespace) : str :=
  match namespaces with
  | [] => uri
  | ns :: rest =>
      if Str.startsWith uri (namespace ns)
      then prefix ns ++ lit ":" ++ drop (length (namespace ns)) uri
      else prefixUri uri rest
  end.

Definition expandUri (prefixedUri : str) (namespaces : list Namespace) : str :=
  match Str.indexOf Str.colon prefixedUri with
  | None => prefixedUri
  | Some colonIndex =>
      let pfx := take colonIndex prefixedUri in
      let localPart := drop (colonIndex + 1) prefixedUri in
      if Str.includes prefixedUri "://" then prefixedUri
      else
        match List.find (fun ns => bool_decide (prefix ns = pfx)) namespaces with
        | Some ns => namespace ns ++ localPart
        | None => prefixedUri
        end
  end.

End Ns.

(** ** Sorting as the store's [ORDER BY] does it

    A stable insertion sort: among equal keys the earlier inserted record
    stays first (the row order SQLite yields for ties is not fixed by SQL;
    the tables here are scanned in rowid order and sorted stably). *)

Fixpoint insert_sorted {A : Type} (le : A -> A -> bool) (x : A) (l : list A) : list A :=
  match l with
  | [] => [x]
  | y :: r => if le y x then y :: insert_sorted le x r else x :: l
  end.

Definition sort_by {A : Type} (le : A -> A -> bool) (l : list A) : list A :=
  fold_left (fun acc x => insert_sorted le x acc) l [].

(** Every element of the list is below all later ones. *)
Fixpoint ascending {A : Type} (le : A -> A -> bool) (l : list A) : Prop :=
  match l with
  | [] => True
  | x :: r => Forall (fun y => le x y = true) r /\ ascending le r
  end.

(** ** Records of the store ([types/dctap.ts]) *)

Record Folder := mkFolder { folder_id : nat; folder_name : str }.

Record Shape := mkShape {
  shapeId : str;
  shapeLabel : option str;
  description : option str;
  resourceURI : option str;
  folderId : option nat }.

(** A statement row. The columns [id], [has_errors], [error_details] and
    the two timestamps are not read by any converter and are left out.
    [row_order] is a natural number: the importers pass list indices and
    counters from 0, and [rowService.create] computes the next one; a
    negative or fractional order, which only a request body can carry,
    is not modelled. *)
Record StatementRow := mkRow {
  rowOrder : nat;
  propertyId : option str;
  propertyLabel : option str;
  mandatory : option str;
  repeatable : option str;
  valueNodeType : option str;
  valueDataType : option str;
  valueShape : option str;
  valueConstraint : option str;
  valueConstraintType : option str;
  note : option str;
  lcDefaultLiteral : option str;
  lcDefaultURI : option str;
  lcDataTypeURI : option str;
  lcRemark : option str }.

Module Req.
(** [CreateRowRequest]: every field is optional. *)
Record t := mk {
  rowOrder : option nat;
  propertyId : option str;
  propertyLabel : option str;
  mandatory : option str;
  repeatable : option str;
  valueNodeType : option str;
  valueDataType : option str;
  valueShape : option str;
  valueConstraint : option str;
  valueConstraintType : option str;
  note : option str;
  lcDefaultLiteral : option str;
  lcDefaultURI : option str;
  lcDataTypeURI : option str;
  lcRemark : option str }.

Definition empty : t :=
  mk None None None None None None None None None None None None None None None.
End Req.

(** ** The workspace database ([services/database.ts])

    One SQLite database per workspace: the [_namespaces], [_folders] and
    [_shapes] tables in insertion order, and one row table per shape,
    keyed by its table name. *)

Record Db := mkDb {
  db_name : str;
  namespaces : list Namespace;
  folders : list Folder;
  folder_seq : nat;
  shapes : list Shape;
  tables : gmap str (list StatementRow);
  useLCColumns : bool }.

Inductive error :=
| UniqueConstraint (column : str)
| NoSuchTable (table : str)
| Thrown (message : str).

Inductive result (A : Type) :=
| Ok (a : A)
| Err (e : error).
Arguments Ok {A} a.
Arguments Err {A} e.

(** Store operations thread the database and may throw. *)
Definition M (A : Type) : Type := Db -> result (A * Db).

Definition ret {A : Type} (a : A) : M A := fun db => Ok (a, db).

Definition bind {A B : Type} (m : M A) (k : A -> M B) : M B :=
  fun db =>
    match m db with
    | Ok (a, db') => k a db'
    | Err e => Err e
    end.

Definition throw {A : Type} (e : error) : M A := fun _ => Err e.

Definition get_db : M Db := fun db => Ok (db, db).

Definition put_db (db : Db) : M unit := fun _ => Ok (tt, db).

Notation "'let*' x ':=' c 'in' k" := (bind c (fun x => k))
  (at level 10, x name, c at level 100, k at level 200).

(** [for (const x of l) { acc = body(acc, x) }] *)
Fixpoint foldM {A S : Type} (body : S -> A -> M S) (l : list A) (acc : S) : M S :=
  match l with
  | [] => ret acc
  | x :: r => let* acc' := body acc x in foldM body r acc'
  end.

Definition DEFAULT_USE_LC_COLUMNS : bool := false.

Definition initializeWorkspaceDb (name : str) : Db :=
  mkDb name DEFAULT_NAMESPACES [] 0 [] ∅ DEFAULT_USE_LC_COLUMNS.

Definition sanitizeTableName (name : str) : str :=
  Str.toLowerCase (map (fun c => if Str.is_word c then c else "_"%char) name).

Definition tableName (shapeId : str) : str := lit "shape_" ++ sanitizeTableName shapeId.

(** [CREATE TABLE IF NOT EXISTS] *)
Definition createShapeTable (shapeId : str) : M unit :=
  let* db := get_db in
  match tables db !! tableName shapeId with
  | Some _ => ret tt
  | None =>
      put_db (mkDb (db_name db) (namespaces db) (folders db) (folder_seq db)
                (shapes db) (<[tableName shapeId := []]> (tables db)) (useLCColumns db))
  end.

Definition or_null (x : option str) : option str := truthy x.

Module shapeService.

Definition list : M (list Shape) :=
  let* db := get_db in
  ret (sort_by (fun a b => Str.leb (shapeId a) (shapeId b)) (shapes db)).

Definition get (id : str) : M (option Shape) :=
  let* db := get_db in
  ret (List.find (fun s => bool_decide (shapeId s = id)) (shapes db)).

(** [INSERT INTO _shapes]: the column [shape_id] is [UNIQUE]. *)
Definition create (id : str) (label resourceURI : option str)
    (folder : option nat) (descr : option str) : M Shape :=
  let* db := get_db in
  if existsb (fun s => bool_decide (shapeId s = id)) (shapes db)
  then throw (UniqueConstraint "_shapes.shape_id")
  else
    let sh := mkShape id (or_null label) (or_null descr) (or_null resourceURI) folder in
    let* _ := put_db (mkDb (db_name db) (namespaces db) (folders db) (folder_seq db)
                        (shapes db ++ [sh]) (tables db) (useLCColumns db)) in
    let* _ := createShapeTable id in
    ret sh.

(** [DROP TABLE IF EXISTS] then [DELETE FROM _shapes]. *)
Definition delete (id : str) : M bool :=
  let* existing := get id in
  match existing with
  | None => ret false
  | Some _ =>
      let* db := get_db in
      let* _ :=
        put_db (mkDb (db_name db) (namespaces db) (folders db) (folder_seq db)
                  (List.filter (fun s => negb (bool_decide (shapeId s = id))) (shapes db))
                  (base.delete (tableName id) (tables db)) (useLCColumns db)) in
      ret true
  end.

End shapeService.

(** The row an insert stores: [data.x || null] in every column. *)
Definition storedRow (order : nat) (data : Req.t) : StatementRow :=
  mkRow order
    (or_null (Req.propertyId data)) (or_null (Req.propertyLabel data))
    (or_null (Req.mandatory data)) (or_null (Req.repeatable data))
    (or_null (Req.valueNodeType data)) (or_null (Req.valueDataType data))
    (or_null (Req.valueShape data)) (or_null (Req.valueConstraint data))
    (or_null (Req.valueConstraintType data)) (or_null (Req.note data))
    (or_null (Req.lcDefaultLiteral data)) (or_null (Req.lcDefaultURI data))
    (or_null (Req.lcDataTypeURI data)) (or_null (Req.lcRemark data)).

(** The double nearest to a non-negative integer: 53 significant bits,
    round to nearest, ties to even. (Doubles end below [2^1024]; SQLite
    holds integers below [2^63].) *)
Definition to_double (n : N) : N :=
  let e := (N.size n - 53)%N in
  if (e =? 0)%N then n
  else
    let q := N.shiftr n e in
    let rest := (n - N.shiftl q e)%N in
    let half := N.shiftl 1 (e - 1) in
    if (half <? rest)%N || ((rest =? half)%N && N.odd q)
    then N.shiftl (q + 1) e
    else N.shiftl q e.

(** [max_order + 1] as JavaScript computes it: [MAX(row_order)] is read
    as a double and the sum is rounded to a double, so from [2^53] on
    the sum need not exceed [max_order]. *)
Definition js_succ (maxOrder : nat) : nat :=
  N.to_nat (to_double (to_double (N.of_nat maxOrder) + 1)).

(** [data.rowOrder], or [(maxOrder?.max_order ?? -1) + 1] when it is
    undefined. Row orders are the non-negative integers the program
    itself assigns. *)
Definition nextOrder (data : Req.t) (rows : list StatementRow) : nat :=
  match Req.rowOrder data with
  | Some n => n
  | None =>
      match rows with
      | [] => 0
      | _ :: _ => js_succ (list_max (map rowOrder rows))
      end
  end.

Module rowService.

Definition list (shape : str) : M (list StatementRow) :=
  let* db := get_db in
  match tables db !! tableName shape with
  | None => throw (NoSuchTable (tableName shape))
  | Some rows => ret (sort_by (fun a b => rowOrder a <=? rowOrder b)%nat rows)
  end.

Definition create (shape : str) (data : Req.t) : M StatementRow :=
  let* db := get_db in
  match tables db !! tableName shape with
  | None => throw (NoSuchTable (tableName shape))
  | Some rows =>
      let row := storedRow (nextOrder data rows) data in
      let* _ :=
        put_db (mkDb (db_name db) (namespaces db) (folders db) (folder_seq db)
                  (shapes db) (<[tableName shape := rows ++ [row]]> (tables db))
                  (useLCColumns db)) in
      ret row
  end.

End rowService.

Module namespaceService.

Definition list : M (list Namespace) :=
  let* db := get_db in
  ret (sort_by (fun a b => Str.leb (prefix a) (prefix b)) (namespaces db)).

(** [INSERT INTO _namespaces]: the column [prefix] is [UNIQUE]. *)
Definition create (pfx uri : str) : M Namespace :=
  let* db := get_db in
  if existsb (fun n => bool_decide (prefix n = pfx)) (namespaces db)
  then throw (UniqueConstraint "_namespaces.prefix")
  else
    let ns := mkNamespace pfx uri in
    let* _ := put_db (mkDb (db_name db) (namespaces db ++ [ns]) (folders db)
                        (folder_seq db) (shapes db) (tables db) (useLCColumns db)) in
    ret ns.

End namespaceService.

Module folderService.

Definition list : M (list Folder) :=
  let* db := get_db in
  ret (sort_by (fun a b => Str.leb (folder_name a) (folder_name b)) (folders db)).

Definition create (name : str) : M Folder :=
  let* db := get_db in
  let f := mkFolder (S (folder_seq db)) name in
  let* _ := put_db (mkDb (db_name db) (namespaces db) (folders db ++ [f])
                      (S (folder_seq db)) (shapes db) (tables db) (useLCColumns db)) in
  ret f.

End folderService.

Module optionsService.

Definition update (lc : bool) : M unit :=
  let* db := get_db in
  put_db (mkDb (db_name db) (namespaces db) (folders db) (folder_seq db)
            (shapes db) (tables db) lc).

End optionsService.

(** ** The master database: one workspace database per id

    [workspaceService.create] draws the id from [uuidv4()]; the drawn id
    is an argument here. The [workspaces] table has [id] as primary key. *)

Abbreviation World := (gmap str Db).

Module workspaceService.

Definition create (uuid name : str) (w : World) : result World :=
  match w !! uuid with
  | Some _ => Err (UniqueConstraint "workspaces.id")
  | None => Ok (<[uuid := initializeWorkspaceDb name]> w)
  end.

End workspaceService.

(** Runs store operations of one workspace inside the world;
    [getWorkspaceDb] throws for an unknown id. *)
Definition in_workspace {A : Type} (id : str) (m : M A) (w : World) : result (A * World) :=
  match w !! id with
  | None => Err (Thrown (lit "Workspace database not found: " ++ id))
  | Some db =>
      match m db with
      | Ok (a, db') => Ok (a, <[id := db']> w)
      | Err e => Err e
      end
  end.

(** Decimal rendering of a number inside a template string. *)
Definition show_nat (n : nat) : str :=
  lit (NilEmpty.string_of_uint (Nat.to_uint n)).

Definition quoted (s : str) : str := [Str.dquote] ++ s ++ [Str.dquote].

(** ** CSV/TSV converter ([services/csv-parser.ts]) *)

Module Csv.

Inductive column :=
| ShapeID | ShapeLabel | ResourceURI
| PropertyId | PropertyLabel | Mandatory | Repeatable
| ValueNodeType | ValueDataType | ValueShape | ValueConstraint
| ValueConstraintType | Note
| LcDefaultLiteral | LcDefaultURI | LcDataTypeURI | LcRemark.

Definition column_eqb (a b : column) : bool :=
  match a, b with
  | ShapeID, ShapeID | ShapeLabel, ShapeLabel | ResourceURI, ResourceURI
  | PropertyId, PropertyId | PropertyLabel, PropertyLabel
  | Mandatory, Mandatory | Repeatable, Repeatable
  | ValueNodeType, ValueNodeType | ValueDataType, ValueDataType
  | ValueShape, ValueShape | ValueConstraint, ValueConstraint
  | ValueConstraintType, ValueConstraintType | Note, Note
  | LcDefaultLiteral, LcDefaultLiteral | LcDefaultURI, LcDefaultURI
  | LcDataTypeURI, LcDataTypeURI | LcRemark, LcRemark => true
  | _, _ => false
  end.

(** The header table. (A header normalising to [constructor] finds
    [Object.prototype.constructor] in the JS object and stores an index
    under a key that is never read; it is unmapped here.) *)
Definition COLUMN_MAPPINGS : list (str * column) :=
  [ (lit "shapeid", ShapeID);
    (lit "shapelabel", ShapeLabel);
    (lit "resourceuri", ResourceURI);
    (lit "propertyid", PropertyId);
    (lit "propertylabel", PropertyLabel);
    (lit "mandatory", Mandatory);
    (lit "repeatable", Repeatable);
    (lit "valuenodetype", ValueNodeType);
    (lit "valuedatatype", ValueDataType);
    (lit "valueshape", ValueShape);
    (lit "valueconstraint", ValueConstraint);
    (lit "valueconstrainttype", ValueConstraintType);
    (lit "note", Note);
    (lit "lcdefaultliteral", LcDefaultLiteral);
    (lit "lcdefaulturi", LcDefaultURI);
    (lit "lcdatatypeuri", LcDataTypeURI);
    (lit "lcremark", LcRemark) ].

Definition lookup_mapping (normalized : str) : option column :=
  option_map snd (List.find (fun kv => bool_decide (fst kv = normalized)) COLUMN_MAPPINGS).

Module Parsed.
(** [ParsedRow] *)
Record t := mk {
  shapeID : option str;
  shapeLabel : option str;
  resourceURI : option str;
  data : Req.t }.
End Parsed.
Definition ParsedRow := Parsed.t.

Record ValidationError := mkError {
  row : option nat;
  message : str;
  severity : str }.

Inductive format := csv | tsv.

Record ParseResult := mkParseResult {
  success : bool;
  rows : option (list ParsedRow);
  errors : option (list ValidationError);
  warnings : option (list ValidationError);
  detectedFormat : option format }.

Definition detectDelimiter (content : str) : ascii :=
  let firstLine := hd [] (Str.split (Str.is_char Str.nl) content) in
  let tabCount := Str.count Str.tab firstLine in
  let commaCount := Str.count Str.comma firstLine in
  if (commaCount <? tabCount)%nat then Str.tab else Str.comma.

(** The scan of [parseCSVLine]: [line] is what is left of the line at
    index [i]; skipping the second quote of a doubled quote advances it
    by two. *)
Fixpoint parseCSVLine_from (delimiter : ascii) (line : str)
    (current : str) (inQuotes : bool) (result : list str) : list str :=
  match line with
  | [] => result ++ [Str.trim current]
  | char :: rest =>
      if Ascii.eqb char Str.dquote then
        match rest with
        | nextChar :: rest' =>
            if inQuotes && Ascii.eqb nextChar Str.dquote
            then parseCSVLine_from delimiter rest' (current ++ [Str.dquote]) inQuotes result
            else parseCSVLine_from delimiter rest current (negb inQuotes) result
        | [] => parseCSVLine_from delimiter rest current (negb inQuotes) result
        end
      else if Ascii.eqb char delimiter && negb inQuotes then
        parseCSVLine_from delimiter rest [] inQuotes (result ++ [Str.trim current])
      else parseCSVLine_from delimiter rest (current ++ [char]) inQuotes result
  end.

Definition parseCSVLine (line : str) (delimiter : ascii) : list str :=
  parseCSVLine_from delimiter line [] false [].

Definition escapeCSVValue (value : option str) (delimiter : ascii)
    (convertNewlinesToPipes : bool) : str :=
  match value with
  | None => []
  | Some v =>
      let s := if convertNewlinesToPipes then Str.replaceAll Str.nl " | " v else v in
      if existsb (Str.is_char delimiter) s || existsb (Str.is_char Str.dquote) s
         || existsb (Str.is_char Str.nl) s
      then quoted (Str.replaceAll Str.dquote [Str.dquote; Str.dquote] s)
      else s
  end.

(** [columnIndices]: the latest assignment to a key is looked up first. *)
Definition columnIndices := list (column * nat).

(** [h.toLowerCase().replace(/[^a-z]/g, '')] *)
Definition normalizeHeader (h : str) : str :=
  List.filter Str.is_lower_az (Str.toLowerCase h).

Fixpoint headerIndices (header : list str) (i : nat) (acc : columnIndices) : columnIndices :=
  match header with
  | [] => acc
  | h :: rest =>
      let normalized := normalizeHeader h in
      match lookup_mapping normalized with
      | Some mapped => headerIndices rest (S i) ((mapped, i) :: acc)
      | None => headerIndices rest (S i) acc
      end
  end.

Definition index_of (cols : columnIndices) (c : column) : option nat :=
  option_map snd (List.find (fun kv => column_eqb (fst kv) c) cols).

(** ['c' in cols] *)
Definition has_column (cols : columnIndices) (c : column) : bool :=
  match index_of cols c with Some _ => true | None => false end.

(** [cols.c !== undefined ? values[cols.c] || null : null] *)
Definition cell (cols : columnIndices) (values : list str) (c : column) : option str :=
  match index_of cols c with
  | Some i => truthy (values !! i)
  | None => None
  end.

Definition rowData (cols : columnIndices) (values : list str) : Req.t :=
  Req.mk None
    (cell cols values PropertyId) (cell cols values PropertyLabel)
    (cell cols values Mandatory) (cell cols values Repeatable)
    (cell cols values ValueNodeType) (cell cols values ValueDataType)
    (cell cols values ValueShape) (cell cols values ValueConstraint)
    (cell cols values ValueConstraintType) (cell cols values Note)
    (cell cols values LcDefaultLiteral) (cell cols values LcDefaultURI)
    (cell cols values LcDataTypeURI) (cell cols values LcRemark).

(** [Object.values(data).some(v => v !== undefined && v !== '')] *)
Definition hasData (d : Req.t) : bool :=
  existsb is_truthy
    [ Req.propertyId d; Req.propertyLabel d; Req.mandatory d; Req.repeatable d;
      Req.valueNodeType d; Req.valueDataType d; Req.valueShape d;
      Req.valueConstraint d; Req.valueConstraintType d; Req.note d;
      Req.lcDefaultLiteral d; Req.lcDefaultURI d; Req.lcDataTypeURI d;
      Req.lcRemark d ].

(** The variables of the row loop of [parseCSV]. *)
Record LoopState := mkLoop {
  currentShapeID : option str;
  currentShapeLabel : option str;
  currentResourceURI : option str;
  out_rows : list ParsedRow;
  out_errors : list ValidationError;
  out_warnings : list ValidationError }.

Definition noShapeWarning (lineNum : nat) : ValidationError :=
  mkError (Some lineNum)
    (lit "Row has no associated shapeID, will use " ++ quoted "default")
    "warning".

(** One iteration of the row loop, for the line at index [i]. *)
Definition rowStep (cols : columnIndices) (delimiter : ascii)
    (st : LoopState) (i : nat) (line : str) : LoopState :=
  let values := parseCSVLine line delimiter in
  let lineNum := i + 1 in
  let rowShapeID := cell cols values ShapeID in
  let rowShapeLabel := cell cols values ShapeLabel in
  let rowResourceURI := cell cols values ResourceURI in
  let '(curID, curLabel, curURI) :=
    if is_truthy rowShapeID then (rowShapeID, rowShapeLabel, rowResourceURI)
    else if is_truthy rowShapeLabel && negb (is_truthy (currentShapeLabel st))
    then (currentShapeID st, rowShapeLabel, currentResourceURI st)
    else (currentShapeID st, currentShapeLabel st, currentResourceURI st) in
  let d := rowData cols values in
  if negb (hasData d) && negb (is_truthy rowShapeID) then
    mkLoop curID curLabel curURI (out_rows st) (out_errors st) (out_warnings st)
  else
    let '(curID', warns) :=
      if is_truthy curID then (curID, out_warnings st)
      else (Some (lit "default"), out_warnings st ++ [noShapeWarning lineNum]) in
    mkLoop curID' curLabel curURI
      (out_rows st ++ [Parsed.mk curID' curLabel curURI d])
      (out_errors st) warns.

Fixpoint rowLoop (cols : columnIndices) (delimiter : ascii)
    (lines : list str) (i : nat) (st : LoopState) : LoopState :=
  match lines with
  | [] => st
  | line :: rest => rowLoop cols delimiter rest (S i) (rowStep cols delimiter st i line)
  end.

Definition contentLines (content : str) : list str :=
  List.filter (fun line => Str.nonempty (Str.trim line)) (Str.splitLines content).

Definition parseCSV (content : str) : ParseResult :=
  let delimiter := detectDelimiter content in
  match contentLines content with
  | [] =>
      mkParseResult false None (Some [mkError None "Empty file" "error"]) None None
  | header :: dataLines =>
      let headerLine := parseCSVLine header delimiter in
      let cols := headerIndices headerLine 0 [] in
      if negb (has_column cols PropertyId) && negb (has_column cols ShapeID)
      then
        mkParseResult false None
          (Some [mkError None "File must contain at least propertyID or shapeID column"
                   "error"]) None None
      else
        let st := rowLoop cols delimiter dataLines 1 (mkLoop None None None [] [] []) in
        mkParseResult (Nat.eqb (length (out_errors st)) 0)
          (Some (out_rows st)) (Some (out_errors st)) (Some (out_warnings st))
          (Some (if Ascii.eqb delimiter Str.tab then tsv else csv))
  end.

Record ImportResult := mkImportResult {
  i_success : bool;
  workspaceId : option str;
  shapesCreated : option nat;
  rowsImported : option nat;
  i_errors : option (list ValidationError);
  i_warnings : option (list ValidationError);
  unknownNamespaces : option (list str) }.

Record Group := mkGroup {
  g_label : option str;
  g_resourceURI : option str;
  g_rows : list Req.t }.

(** [shapeGroups]: a [Map], iterated in insertion order. *)
Fixpoint updateGroup (groups : list (str * Group)) (k : str) (f : Group -> Group)
    : option (list (str * Group)) :=
  match groups with
  | [] => None
  | (k', g) :: rest =>
      if bool_decide (k' = k) then Some ((k', f g) :: rest)
      else option_map (cons (k', g)) (updateGroup rest k f)
  end.

Definition addRow (groups : list (str * Group)) (r : ParsedRow) : list (str * Group) :=
  let shapeId := or_else (Parsed.shapeID r) "default" in
  let touch (g : Group) :=
    mkGroup (if is_truthy (Parsed.shapeLabel r) && negb (is_truthy (g_label g))
             then Parsed.shapeLabel r else g_label g)
            (if is_truthy (Parsed.resourceURI r) && negb (is_truthy (g_resourceURI g))
             then Parsed.resourceURI r else g_resourceURI g)
            (g_rows g ++ [Parsed.data r]) in
  match updateGroup groups shapeId touch with
  | Some groups' => groups'
  | None => groups ++ [(shapeId, touch (mkGroup (Parsed.shapeLabel r) (Parsed.resourceURI r) []))]
  end.

Definition groupRows (rows : list ParsedRow) : list (str * Group) :=
  fold_left addRow rows [].

Definition fullUriWarning (shapeId : str) (i : nat) (propertyId : str) : ValidationError :=
  mkError None
    (lit "Shape " ++ quoted shapeId ++ lit ", row " ++ show_nat (i + 1)
     ++ lit ": Property ID " ++ quoted propertyId
     ++ lit " appears to be a full URI. Consider using a prefixed form.")
    "warning".

Definition unknownPrefixWarning (pfx : str) : ValidationError :=
  mkError None
    (lit "Unknown namespace prefix " ++ quoted pfx
     ++ lit " - placeholder URI created. You may want to update this in the Namespaces panel.")
    "warning".

Definition with_rowOrder (d : Req.t) (i : nat) : Req.t :=
  Req.mk (Some i) (Req.propertyId d) (Req.propertyLabel d) (Req.mandatory d)
    (Req.repeatable d) (Req.valueNodeType d) (Req.valueDataType d) (Req.valueShape d)
    (Req.valueConstraint d) (Req.valueConstraintType d) (Req.note d)
    (Req.lcDefaultLiteral d) (Req.lcDefaultURI d) (Req.lcDataTypeURI d) (Req.lcRemark d).

(** What the two nested import loops carry along. *)
Record ImportState := mkImport {
  unknown : list str;
  allWarnings : list ValidationError;
  totalRows : nat }.

Definition knownPrefixes : list str := map prefix DEFAULT_NAMESPACES.

Definition checkPrefix (shapeId : str) (i : nat) (d : Req.t) (st : ImportState) : ImportState :=
  match truthy (Req.propertyId d) with
  | None => st
  | Some pid =>
      match Str.indexOf Str.colon pid with
      | Some (S n) =>
          let pfx := take (S n) pid in
          if bool_decide (pfx = lit "http") || bool_decide (pfx = lit "https") then
            mkImport (unknown st) (allWarnings st ++ [fullUriWarning shapeId i pid]) (totalRows st)
          else if negb (inb pfx knownPrefixes) && negb (inb pfx (unknown st)) then
            mkImport (unknown st ++ [pfx]) (allWarnings st) (totalRows st)
          else st
      | _ => st
      end
  end.

Fixpoint importRows (shapeId : str) (rows : list Req.t) (i : nat) (st : ImportState)
    : M ImportState :=
  match rows with
  | [] => ret st
  | rowData :: rest =>
      let st1 := checkPrefix shapeId i rowData st in
      let* _ := rowService.create shapeId (with_rowOrder rowData i) in
      importRows shapeId rest (S i)
        (mkImport (unknown st1) (allWarnings st1) (S (totalRows st1)))
  end.

Definition importShape (st : ImportState) (kg : str * Group) : M ImportState :=
  let '(shapeId, group) := kg in
  let* _ := shapeService.create shapeId (truthy (g_label group))
              (truthy (g_resourceURI group)) None None in
  importRows shapeId (g_rows group) 0 st.

Definition addPlaceholder (ws : list ValidationError) (pfx : str) : M (list ValidationError) :=
  let* _ := namespaceService.create pfx (lit "http://example.org/" ++ pfx ++ lit "/") in
  ret (ws ++ [unknownPrefixWarning pfx]).

Definition non_empty {A : Type} (l : list A) : option (list A) :=
  match l with [] => None | _ :: _ => Some l end.

(** The store calls of [importToWorkspace] inside the new workspace. *)
Definition importGroups (uuid : str) (groups : list (str * Group))
    (parseWarnings : list ValidationError) : M ImportResult :=
  let* st := foldM importShape groups (mkImport [] parseWarnings 0) in
  let* ws := foldM addPlaceholder (unknown st) (allWarnings st) in
  ret (mkImportResult true (Some uuid) (Some (length groups)) (Some (totalRows st))
         None (non_empty ws) (non_empty (unknown st))).

Definition importToWorkspace (content : str) (workspaceName : str) (uuid : str)
    (w : World) : result (ImportResult * World) :=
  let parseResult := parseCSV content in
  match success parseResult, rows parseResult with
  | true, Some parsed =>
      let shapeGroups := groupRows parsed in
      match workspaceService.create uuid workspaceName w with
      | Err e => Err e
      | Ok w' =>
          in_workspace uuid
            (importGroups uuid shapeGroups (default [] (warnings parseResult))) w'
      end
  | _, _ =>
      Ok (mkImportResult false None None None (errors parseResult) None None, w)
  end.

Definition headers : list str :=
  [ lit "shapeID"; lit "shapeLabel"; lit "resourceURI"; lit "propertyID";
    lit "propertyLabel"; lit "mandatory"; lit "repeatable"; lit "valueNodeType";
    lit "valueDataType"; lit "valueShape"; lit "valueConstraint";
    lit "valueConstraintType"; lit "note"; lit "lcDefaultLiteral";
    lit "lcDefaultURI"; lit "lcDataTypeURI"; lit "lcRemark" ].

Definition delimiterOf (f : format) : ascii :=
  match f with tsv => Str.tab | csv => Str.comma end.

Definition rowLine (delimiter : ascii) (shape : Shape) (isFirstRow : bool)
    (r : StatementRow) : str :=
  Str.join [delimiter]
    [ escapeCSVValue (if isFirstRow then Some (shapeId shape) else Some []) delimiter false;
      escapeCSVValue (if isFirstRow then shapeLabel shape else Some []) delimiter false;
      escapeCSVValue (if isFirstRow then resourceURI shape else Some []) delimiter false;
      escapeCSVValue (propertyId r) delimiter false;
      escapeCSVValue (propertyLabel r) delimiter false;
      escapeCSVValue (mandatory r) delimiter false;
      escapeCSVValue (repeatable r) delimiter false;
      escapeCSVValue (valueNodeType r) delimiter false;
      escapeCSVValue (valueDataType r) delimiter false;
      escapeCSVValue (valueShape r) delimiter true;
      escapeCSVValue (valueConstraint r) delimiter true;
      escapeCSVValue (valueConstraintType r) delimiter false;
      escapeCSVValue (note r) delimiter false;
      escapeCSVValue (lcDefaultLiteral r) delimiter false;
      escapeCSVValue (lcDefaultURI r) delimiter false;
      escapeCSVValue (lcDataTypeURI r) delimiter false;
      escapeCSVValue (lcRemark r) delimiter false ].

Definition emptyShapeLine (delimiter : ascii) (shape : Shape) : str :=
  Str.join [delimiter]
    ([ escapeCSVValue (Some (shapeId shape)) delimiter false;
       escapeCSVValue (shapeLabel shape) delimiter false;
       escapeCSVValue (resourceURI shape) delimiter false ]
     ++ repeat [] 14).

Fixpoint rowLines (delimiter : ascii) (shape : Shape) (isFirstRow : bool)
    (rs : list StatementRow) : list str :=
  match rs with
  | [] => []
  | r :: rest => rowLine delimiter shape isFirstRow r :: rowLines delimiter shape false rest
  end.

Definition shapeLines (delimiter : ascii) (lines : list str) (shape : Shape)
    : M (list str) :=
  let* rs := rowService.list (shapeId shape) in
  ret (lines ++ rowLines delimiter shape true rs
       ++ (if Nat.eqb (length rs) 0 then [emptyShapeLine delimiter shape] else [])).

Definition exportWorkspace (f : format) : M str :=
  let delimiter := delimiterOf f in
  let* shapes := shapeService.list in
  let* lines := foldM (shapeLines delimiter) shapes [Str.join [delimiter] headers] in
  ret (Str.join [Str.nl] lines).

End Csv.

(** ** Starting Point converter ([services/starting-point.ts],
       [types/starting-point.ts]) *)

Module StartingPoint.

Definition STARTING_POINT_FOLDER_NAME : str := "Starting Points".
Definition STARTING_POINT_PREFIX : str := "startingpoint:".
Definition STARTING_POINT_INDEX_ID : str := "startingpoint:index".

Record StartingPointMenuItem := mkItem {
  label : str;
  type : list str;
  useResourceTemplates : list str }.

Record StartingPointMenuGroup := mkMenuGroup {
  menuGroup : str;
  menuItems : list StartingPointMenuItem }.

Record StartingPointConfig := mkConfig {
  config_id : str;
  config_name : str;
  configType : str;
  json : list StartingPointMenuGroup }.

Definition StartingPointFile := list StartingPointConfig.

Record ImportStartingPointResult := mkResult {
  shapesCreated : nat;
  rowsCreated : nat;
  result_folderId : nat }.

Definition isStartingPointShape (shapeId : str) : bool :=
  Str.startsWith (Str.toLowerCase shapeId) (Str.toLowerCase STARTING_POINT_PREFIX)
  || Str.includes (Str.toLowerCase shapeId) "startingpoint".

Definition isInStartingPointFolder (folderId : option nat) : M bool :=
  match folderId with
  | None => ret false
  | Some fid =>
      let* folders := folderService.list in
      match List.find (fun f => Nat.eqb (folder_id f) fid) folders with
      | Some folder => ret (bool_decide (folder_name folder = STARTING_POINT_FOLDER_NAME))
      | None => ret false
      end
  end.

Definition getOrCreateStartingPointFolder : M nat :=
  let* folders := folderService.list in
  match List.find (fun f => bool_decide (folder_name f = STARTING_POINT_FOLDER_NAME)) folders with
  | Some existingFolder => ret (folder_id existingFolder)
  | None =>
      let* newFolder := folderService.create STARTING_POINT_FOLDER_NAME in
      ret (folder_id newFolder)
  end.

(** [`${STARTING_POINT_PREFIX}${group.menuGroup.replace(/\s+/g, '_')}`] *)
Definition groupShapeId (g : StartingPointMenuGroup) : str :=
  STARTING_POINT_PREFIX ++ Str.replaceWsRuns "_" false (menuGroup g).

Definition itemRow (rowOrder : nat) (item : StartingPointMenuItem) : Req.t :=
  let type_ := or_else (head (type item)) [] in
  let resourceTemplate := or_else (head (useResourceTemplates item)) [] in
  Req.mk (Some rowOrder) (Some (lit "dcterms:hasPart")) (Some (label item))
    None None (Some (lit "IRI")) None (Some resourceTemplate) (Some type_)
    (Some (lit "picklist")) None None None None None.

Fixpoint importItems (shapeId : str) (items : list StartingPointMenuItem)
    (rowOrder : nat) (rowsCreated : nat) : M nat :=
  match items with
  | [] => ret rowsCreated
  | item :: rest =>
      let* _ := rowService.create shapeId (itemRow rowOrder item) in
      importItems shapeId rest (S rowOrder) (S rowsCreated)
  end.

(** The counters and the list [createdShapeIds] of the import loop. *)
Record ImportState := mkState {
  st_shapes : nat;
  st_rows : nat;
  createdShapeIds : list (str * str) }.

Definition importGroup (folderId : nat) (st : ImportState)
    (group : StartingPointMenuGroup) : M ImportState :=
  let shapeId := groupShapeId group in
  let shapeLabel := menuGroup group in
  let* existing := shapeService.get shapeId in
  let* _ := match existing with
            | Some _ => shapeService.delete shapeId
            | None => ret false
            end in
  let* _ := shapeService.create shapeId (Some shapeLabel) None (Some folderId) None in
  let* rows := importItems shapeId (menuItems group) 0 (st_rows st) in
  ret (mkState (S (st_shapes st)) rows (createdShapeIds st ++ [(shapeId, shapeLabel)])).

Definition indexRow (rowOrder : nat) (entry : str * str) : Req.t :=
  Req.mk (Some rowOrder) (Some (lit "dcterms:hasPart")) (Some (snd entry))
    None None None None (Some (fst entry)) None None None None None None None.

Fixpoint importIndexRows (entries : list (str * str)) (rowOrder : nat)
    (rowsCreated : nat) : M nat :=
  match entries with
  | [] => ret rowsCreated
  | e :: rest =>
      let* _ := rowService.create STARTING_POINT_INDEX_ID (indexRow rowOrder e) in
      importIndexRows rest (S rowOrder) (S rowsCreated)
  end.

Definition importStartingPoints (data : StartingPointFile) : M ImportStartingPointResult :=
  match List.find (fun item => bool_decide (configType item = lit "startingPoints")) data with
  | None => throw (Thrown "No startingPoints config found in file")
  | Some config =>
      let menuGroups := json config in
      match menuGroups with
      | [] => throw (Thrown "No menu groups found in starting points config")
      | _ :: _ =>
          let* folderId := getOrCreateStartingPointFolder in
          let* st := foldM (importGroup folderId) menuGroups (mkState 0 0 []) in
          let* existingIndex := shapeService.get STARTING_POINT_INDEX_ID in
          let* _ := match existingIndex with
                    | Some _ => shapeService.delete STARTING_POINT_INDEX_ID
                    | None => ret false
                    end in
          let* _ := shapeService.create STARTING_POINT_INDEX_ID
                      (Some (lit "Starting Point Index")) None (Some folderId) None in
          let* rows := importIndexRows (createdShapeIds st) 0 (st_rows st) in
          ret (mkResult (S (st_shapes st)) rows folderId)
      end
  end.

Definition is_hasPart (r : StatementRow) : bool :=
  bool_decide (propertyId r = Some (lit "dcterms:hasPart")).

Definition menuItemOf (r : StatementRow) : StartingPointMenuItem :=
  mkItem (or_else (propertyLabel r) [])
    (match truthy (valueConstraint r) with Some v => [v] | None => [] end)
    (match truthy (valueShape r) with Some v => [v] | None => [] end).

(** [new Map(shapes.map(s => [s.shapeId, s]))]: a later entry replaces
    an earlier one with the same key. *)
Definition shapeMapOf (shapes : list Shape) : gmap str Shape :=
  fold_left (fun m s => <[shapeId s := s]> m) shapes ∅.

Definition groupLabel (shape : Shape) : str :=
  or_else (shapeLabel shape)
    (Str.replaceAll "_"%char " "
       (Str.removeFirst STARTING_POINT_PREFIX (shapeId shape))).

Definition exportGroup (menuGroups : list StartingPointMenuGroup) (shape : Shape)
    : M (list StartingPointMenuGroup) :=
  let* rows := rowService.list (shapeId shape) in
  let items := map menuItemOf (List.filter is_hasPart rows) in
  match items with
  | [] => ret menuGroups
  | _ :: _ => ret (menuGroups ++ [mkMenuGroup (groupLabel shape) items])
  end.

(** The ids the index rows name, in [rowOrder]. *)
Definition indexOrder (shapes : list Shape) : M (list str) :=
  match List.find (fun s => bool_decide (shapeId s = STARTING_POINT_INDEX_ID)) shapes with
  | Some _ =>
      let* indexRows := rowService.list STARTING_POINT_INDEX_ID in
      ret (omap (fun r => truthy (valueShape r)) indexRows)
  | None => ret []
  end.

Definition orderShapes (startingPointShapes : list Shape) (orderedShapeIds : list str)
    : list Shape :=
  let shapeMap := shapeMapOf startingPointShapes in
  omap (fun id => shapeMap !! id) orderedShapeIds
  ++ List.filter (fun s => negb (inb (shapeId s) orderedShapeIds)) startingPointShapes.

Definition exportStartingPoints (uuid : str) : M (option StartingPointFile) :=
  let* shapes := shapeService.list in
  let startingPointShapes :=
    List.filter (fun s => isStartingPointShape (shapeId s)
                          && negb (bool_decide (shapeId s = STARTING_POINT_INDEX_ID)))
      shapes in
  match startingPointShapes with
  | [] => ret None
  | _ :: _ =>
      let* orderedShapeIds := indexOrder shapes in
      let orderedShapes := orderShapes startingPointShapes orderedShapeIds in
      let* menuGroups := foldM exportGroup orderedShapes [] in
      match menuGroups with
      | [] => ret None
      | _ :: _ => ret (Some [mkConfig uuid "config" "startingPoints" menuGroups])
      end
  end.

Definition hasStartingPoints : M bool :=
  let* shapes := shapeService.list in
  ret (existsb (fun s => isStartingPointShape (shapeId s)) shapes).

End StartingPoint.

(** ** Multi-value decoding as the editor and the validator do it
       ([getMultilineValues] of the spreadsheet view, rule 7 of
       [services/validation.ts]): [value.split(/[,|\n]/)], trimmed, empty
       elements dropped. *)

Definition is_multi_delimiter (c : ascii) : bool :=
  Ascii.eqb c Str.comma || Ascii.eqb c Str.pipe || Ascii.eqb c Str.nl.

Definition getMultilineValues (value : option str) : list str :=
  match truthy value with
  | None => []
  | Some v => List.filter Str.nonempty (map Str.trim (Str.split is_multi_delimiter v))
  end.

(** ** Marva profile converter ([services/marva-profile.ts],
       [types/marva-profile.ts]) *)

Module Marva.

Inductive PropertyType := literal | resource | lookup | list_.

Module Default.
Record t := mk { defaultURI : option str; defaultLiteral : option str }.
End Default.

Module VC.
(** [MarvaValueConstraint]; [dataTypeURI] is [valueDataType.dataTypeURI]. *)
Record t := mk {
  valueTemplateRefs : list str;
  useValuesFrom : list str;
  defaults : list Default.t;
  dataTypeURI : option str;
  repeatable : option str }.
Definition empty : t := mk [] [] [] None None.
End VC.

Module PT.
(** [MarvaPropertyTemplate] *)
Record t := mk {
  propertyURI : str;
  propertyLabel : str;
  mandatory : str;
  repeatable : str;
  type : PropertyType;
  remark : option str;
  valueConstraint : option VC.t }.
End PT.

Module RT.
(** [MarvaResourceTemplate] *)
Record t := mk {
  id : str;
  resourceURI : option str;
  resourceLabel : option str;
  remark : option str;
  propertyTemplates : list PT.t }.
End RT.

Module Profile.
Record t := mk {
  id : str;
  title : str;
  description : option str;
  resourceTemplates : list RT.t }.
End Profile.

Module Doc.
(** [MarvaProfileDocument]; [Profile] is [json.Profile]. *)
Record t := mk {
  id : str;
  name : str;
  configType : str;
  Profile : option Profile.t;
  createDate : str;
  updateDate : str;
  created : str;
  modified : str }.
End Doc.

Record ImportMarvaProfileResult := mkResult {
  workspaceId : str;
  workspaceName : str;
  shapesCreated : nat;
  rowsCreated : nat }.

(** [l.flatMap(x => x.split(',').map(s => s.trim()).filter(Boolean))] *)
Definition flattenCommas (l : list str) : list str :=
  flat_map (fun x => List.filter Str.nonempty
                       (map Str.trim (Str.split (Str.is_char Str.comma) x))) l.

Definition propertyTemplateToRow (prop : PT.t) (rowOrder : nat)
    (namespaces : list Namespace) : Req.t :=
  let vc := default VC.empty (PT.valueConstraint prop) in
  let refs := VC.valueTemplateRefs vc in
  let vals := VC.useValuesFrom vc in
  let withRefs :=
    match PT.type prop, refs with
    | (resource | list_), _ :: _ => true
    | _, _ => false
    end in
  let withVals :=
    match PT.type prop, vals with
    | lookup, _ :: _ => true
    | _, _ => false
    end in
  let literals := omap (fun d => truthy (Default.defaultLiteral d)) (VC.defaults vc) in
  let uris := omap (fun d => truthy (Default.defaultURI d)) (VC.defaults vc) in
  Req.mk (Some rowOrder)
    (Some (Ns.prefixUri (PT.propertyURI prop) namespaces))
    (Some (PT.propertyLabel prop))
    (Some (PT.mandatory prop))
    (Some (or_else (Some (PT.repeatable prop)) (or_else (VC.repeatable vc) "false")))
    (match PT.type prop with
     | literal => Some (lit "literal")
     | _ => if withRefs then Some (lit "bnode") else None
     end)
    None
    (if withRefs then Some (Str.join [Str.nl] (flattenCommas refs)) else None)
    (if withVals then Some (Str.join [Str.nl] (flattenCommas vals)) else None)
    (if withVals then Some (lit "IRIstem") else None)
    None
    (match literals with [] => None | _ :: _ => Some (Str.join [Str.nl] literals) end)
    (match uris with [] => None | _ :: _ => Some (Str.join [Str.nl] uris) end)
    (match truthy (VC.dataTypeURI vc) with
     | Some u => Some (Ns.prefixUri u namespaces)
     | None => None
     end)
    (truthy (PT.remark prop)).

Definition short_tag (bound : nat) (s : str) : bool :=
  Str.nonempty s && (length s <=? bound)%nat && negb (existsb (Str.is_char " "%char) s).

Definition extractFolderName (shapeId : str) : option str :=
  match Str.split (Str.is_char Str.colon) shapeId with
  | root :: type :: group :: more =>
      if bool_decide (root = lit "lc") && Str.nonempty type && short_tag 20 group then
        match more with
        | fourth :: _ =>
            if bool_decide (type = lit "RT") && short_tag 30 fourth
            then Some (type ++ lit "_" ++ group ++ lit "_" ++ fourth)
            else Some (type ++ lit "_" ++ group)
        | [] => Some (type ++ lit "_" ++ group)
        end
      else None
  | _ => None
  end.

(** The counters and the local [folderMap] of the import. *)
Record ImportState := mkState {
  st_shapes : nat;
  st_rows : nat;
  folderMap : gmap str nat }.

Definition getOrCreateFolder (st : ImportState) (folderName : str)
    : M (nat * ImportState) :=
  match folderMap st !! folderName with
  | Some fid => ret (fid, st)
  | None =>
      let* folder := folderService.create folderName in
      ret (folder_id folder,
           mkState (st_shapes st) (st_rows st)
             (<[folderName := folder_id folder]> (folderMap st)))
  end.

Definition folderFor (st : ImportState) (shapeId : str) : M (option nat * ImportState) :=
  match extractFolderName shapeId with
  | Some folderName =>
      let* r := getOrCreateFolder st folderName in
      ret (Some (fst r), snd r)
  | None => ret (None, st)
  end.

Fixpoint importProperties (namespaces : list Namespace) (rtId : str)
    (props : list PT.t) (rowOrder : nat) (st : ImportState) : M ImportState :=
  match props with
  | [] => ret st
  | prop :: rest =>
      let* _ := rowService.create rtId (propertyTemplateToRow prop rowOrder namespaces) in
      importProperties namespaces rtId rest (S rowOrder)
        (mkState (st_shapes st) (S (st_rows st)) (folderMap st))
  end.

Definition importResourceTemplate (namespaces : list Namespace)
    (st : ImportState) (rt : RT.t) : M ImportState :=
  let* f := folderFor st (RT.id rt) in
  let '(rtFolderId, st1) := f in
  let prefixedResourceURI :=
    match truthy (RT.resourceURI rt) with
    | Some u => Some (Ns.prefixUri u namespaces)
    | None => None
    end in
  let* _ := shapeService.create (RT.id rt) (truthy (RT.resourceLabel rt))
              prefixedResourceURI rtFolderId (truthy (RT.remark rt)) in
  importProperties namespaces (RT.id rt) (RT.propertyTemplates rt) 0
    (mkState (S (st_shapes st1)) (st_rows st1) (folderMap st1)).

Definition linkRow (linkRowOrder : nat) (rtId : str) : Req.t :=
  Req.mk (Some linkRowOrder) (Some (lit "dcterms:hasPart")) (Some (lit "Has Shape"))
    None None (Some (lit "bnode")) None (Some rtId) None None None None None None None.

Fixpoint importLinks (profileShapeId : str) (rtIds : list str) (linkRowOrder : nat)
    (st : ImportState) : M ImportState :=
  match rtIds with
  | [] => ret st
  | rtId :: rest =>
      let* _ := rowService.create profileShapeId (linkRow linkRowOrder rtId) in
      importLinks profileShapeId rest (S linkRowOrder)
        (mkState (st_shapes st) (S (st_rows st)) (folderMap st))
  end.

Definition importDocument (namespaces : list Namespace)
    (st : ImportState) (doc : Doc.t) : M ImportState :=
  match Doc.Profile doc with
  | None => ret st
  | Some profile =>
      let profileShapeId := Profile.id profile in
      let* f := folderFor st profileShapeId in
      let '(profileFolderId, st1) := f in
      let* _ := shapeService.create profileShapeId (Some (Profile.title profile))
                  None profileFolderId (truthy (Profile.description profile)) in
      let st2 := mkState (S (st_shapes st1)) (st_rows st1) (folderMap st1) in
      let* st3 := foldM (importResourceTemplate namespaces)
                    (Profile.resourceTemplates profile) st2 in
      importLinks profileShapeId (map RT.id (Profile.resourceTemplates profile)) 0 st3
  end.

(** The store calls of [importMarvaProfiles] inside the new workspace. *)
Definition importDocuments (uuid workspaceName : str) (profiles : list Doc.t)
    : M ImportMarvaProfileResult :=
  let* _ := optionsService.update true in
  let* namespaces := namespaceService.list in
  let* st := foldM (importDocument namespaces) profiles (mkState 0 0 ∅) in
  ret (mkResult uuid workspaceName (st_shapes st) (st_rows st)).

Definition importMarvaProfiles (workspaceName : str) (profiles : list Doc.t)
    (uuid : str) (w : World) : result (ImportMarvaProfileResult * World) :=
  match workspaceService.create uuid workspaceName w with
  | Err e => Err e
  | Ok w' => in_workspace uuid (importDocuments uuid workspaceName profiles) w'
  end.

(** [s.split('\n').map(s => s.trim()).filter(Boolean)] *)
Definition splitNewlines (s : str) : list str :=
  List.filter Str.nonempty (map Str.trim (Str.split (Str.is_char Str.nl) s)).

(** The defaults of one exported property: position [i] of the
    literals pairs with position [i] of the URIs. *)
Fixpoint pairDefaults (literals uris : list str) : list Default.t :=
  match literals with
  | [] => map (fun u => Default.mk (Some u) None) uris
  | l :: ls =>
      match uris with
      | [] => Default.mk None (Some l) :: pairDefaults ls []
      | u :: us => Default.mk (Some u) (Some l) :: pairDefaults ls us
      end
  end.

Definition exportedDefaults (r : StatementRow) : list Default.t :=
  let defaultLiterals :=
    match lcDefaultLiteral r with
    | Some v => List.filter Str.nonempty (Str.split (Str.is_char Str.nl) v)
    | None => []
    end in
  let defaultURIs :=
    match lcDefaultURI r with
    | Some v => List.filter Str.nonempty (Str.split (Str.is_char Str.nl) v)
    | None => []
    end in
  pairDefaults defaultLiterals defaultURIs.

Definition exportedDataType (namespaces : list Namespace) (r : StatementRow) : option str :=
  match truthy (lcDataTypeURI r) with
  | Some u => Some (Ns.expandUri u namespaces)
  | None => None
  end.

Definition is_ (x : option str) (s : str) : bool := bool_decide (x = Some s).

(** A row as a property template, in a document built from a profile
    shape (lines 347-413). *)
Definition rowToProperty (namespaces : list Namespace) (r : StatementRow) : PT.t :=
  let '(type, refs, vals) :=
    if is_ (valueNodeType r) "literal" then (literal, [], [])
    else if is_ (valueNodeType r) "bnode" && is_truthy (valueShape r)
    then (resource, splitNewlines (or_else (valueShape r) []), [])
    else if is_ (valueConstraintType r) "IRIstem" && is_truthy (valueConstraint r)
    then (lookup, [], splitNewlines (or_else (valueConstraint r) []))
    else if is_truthy (valueShape r)
    then (resource, splitNewlines (or_else (valueShape r) []), [])
    else (literal, [], []) in
  PT.mk (Ns.expandUri (or_else (propertyId r) []) namespaces)
    (or_else (propertyLabel r) [])
    (or_else (mandatory r) "false")
    (or_else (repeatable r) "false")
    type
    (truthy (lcRemark r))
    (Some (VC.mk refs vals (exportedDefaults r) (exportedDataType namespaces r) None)).

(** A row as a property template, in the single document built when no
    profile shape was found (lines 456-512). *)
Definition rowToPropertyFallback (namespaces : list Namespace) (r : StatementRow) : PT.t :=
  let '(type, refs, vals) :=
    if is_ (valueNodeType r) "literal" then (literal, [], [])
    else if is_ (valueNodeType r) "bnode" && is_truthy (valueShape r)
    then (resource, splitNewlines (or_else (valueShape r) []), [])
    else if is_ (valueConstraintType r) "IRIstem" && is_truthy (valueConstraint r)
    then (lookup, [], splitNewlines (or_else (valueConstraint r) []))
    else (literal, [], []) in
  PT.mk (Ns.expandUri (or_else (propertyId r) []) namespaces)
    (or_else (propertyLabel r) [])
    (or_else (mandatory r) "false")
    (or_else (repeatable r) "false")
    type
    (truthy (lcRemark r))
    (Some (VC.mk refs vals (exportedDefaults r) (exportedDataType namespaces r) None)).

Definition resourceTemplateOf (namespaces : list Namespace) (shape : Shape)
    (props : list PT.t) : RT.t :=
  RT.mk (shapeId shape)
    (match truthy (resourceURI shape) with
     | Some u => Some (Ns.expandUri u namespaces)
     | None => None
     end)
    (truthy (shapeLabel shape))
    (truthy (description shape))
    props.

Definition is_link (r : StatementRow) : bool :=
  is_ (propertyId r) "dcterms:hasPart" && is_ (propertyLabel r) "Has Shape"
  && is_truthy (valueShape r).

(** The exported shapes: neither a starting-point id nor in the
    Starting Points folder. *)
Fixpoint exportableShapes (allShapes : list Shape) : M (list Shape) :=
  match allShapes with
  | [] => ret []
  | shape :: rest =>
      let* inFolder :=
        if StartingPoint.isStartingPointShape (shapeId shape) then ret true
        else StartingPoint.isInStartingPointFolder (folderId shape) in
      let* rest' := exportableShapes rest in
      ret (if inFolder then rest' else shape :: rest')
  end.

(** The loop that finds the profile shapes and their linked ids. *)
Definition findProfile (acc : list (Shape * list str)) (shape : Shape)
    : M (list (Shape * list str)) :=
  let* rows := rowService.list (shapeId shape) in
  let hasPartRows := List.filter is_link rows in
  match hasPartRows with
  | [] => ret acc
  | _ :: _ =>
      let ids :=
        List.filter (fun id => negb (StartingPoint.isStartingPointShape id))
          (flat_map (fun r => splitNewlines (or_else (valueShape r) [])) hasPartRows) in
      match ids with
      | [] => ret acc
      | _ :: _ => ret (acc ++ [(shape, ids)])
      end
  end.

Definition exportLinked (namespaces : list Namespace) (shapes : list Shape)
    (acc : list RT.t) (rtId : str) : M (list RT.t) :=
  match List.find (fun s => bool_decide (shapeId s = rtId)) shapes with
  | None => ret acc
  | Some rtShape =>
      let* rtRows := rowService.list rtId in
      ret (acc ++ [resourceTemplateOf namespaces rtShape
                     (map (rowToProperty namespaces) rtRows)])
  end.

(** The environment of an export: the ids [uuidv4()] yields and the
    clock readings, per emitted document. *)
Record Env := mkEnv { uuidv4 : nat -> str; now : nat -> str }.

Definition exportProfile (env : Env) (namespaces : list Namespace) (shapes : list Shape)
    (documents : list Doc.t) (profileInfo : Shape * list str) : M (list Doc.t) :=
  let '(shape, linked) := profileInfo in
  let title := or_else (shapeLabel shape) (shapeId shape) in
  let* rts := foldM (exportLinked namespaces shapes) linked [] in
  let profile := Profile.mk (shapeId shape) title (truthy (description shape)) rts in
  let k := length documents in
  ret (documents ++ [Doc.mk (uuidv4 env k) title "profile" (Some profile)
                       (now env k) (now env k) (now env k) (now env k)]).

Definition exportFallbackTemplate (namespaces : list Namespace)
    (acc : list RT.t) (shape : Shape) : M (list RT.t) :=
  let* rows := rowService.list (shapeId shape) in
  ret (acc ++ [resourceTemplateOf namespaces shape
                 (map (rowToPropertyFallback namespaces) rows)]).

Definition exportMarvaProfiles (env : Env) : M (list Doc.t) :=
  let* db := get_db in
  let* namespaces := namespaceService.list in
  let* allShapes := shapeService.list in
  let* shapes := exportableShapes allShapes in
  let* profileShapes := foldM findProfile shapes [] in
  let* documents := foldM (exportProfile env namespaces shapes) profileShapes [] in
  match documents, shapes with
  | [], _ :: _ =>
      let* rts := foldM (exportFallbackTemplate namespaces) shapes [] in
      let profile :=
        Profile.mk
          (lit "lc:profile:" ++ Str.replaceWsRuns "_" false (Str.toLowerCase (db_name db)))
          (db_name db) None rts in
      ret [Doc.mk (uuidv4 env 0) (db_name db) "profile" (Some profile)
             (now env 0) (now env 0) (now env 0) (now env 0)]
  | _, _ => ret documents
  end.

(** What the properties below read off an export: per resource
    template, the URI, type and template references of each property. *)
Definition propertySummary (docs : list Doc.t)
    : list (str * list (str * PropertyType * list str)) :=
  flat_map (fun d =>
    match Doc.Profile d with
    | Some p =>
        map (fun rt =>
               (RT.id rt,
                map (fun pt =>
                       (PT.propertyURI pt, PT.type pt,
                        VC.valueTemplateRefs (default VC.empty (PT.valueConstraint pt))))
                  (RT.propertyTemplates rt)))
          (Profile.resourceTemplates p)
    | None => []
    end) docs.

End Marva.

(** ** Notions used in the statements *)

Definition shapeIds (db : Db) : list str := map shapeId (shapes db).

Definition has_table (db : Db) (id : str) : Prop :=
  is_Some (tables db !! tableName id).

(** The database after [shapeService.create] stored [sh]. *)
Definition with_shape (sh : Shape) (db : Db) : Db :=
  mkDb (db_name db) (namespaces db) (folders db) (folder_seq db)
    (shapes db ++ [sh])
    (match tables db !! tableName (shapeId sh) with
     | Some _ => tables db
     | None => <[tableName (shapeId sh) := []]> (tables db)
     end)
    (useLCColumns db).

(** The database after [rowService.create] appended [row] to the table
    of [shape]. *)
Definition with_row (shape : str) (row : StatementRow) (db : Db) : Db :=
  mkDb (db_name db) (namespaces db) (folders db) (folder_seq db) (shapes db)
    (<[tableName shape := default [] (tables db !! tableName shape) ++ [row]]> (tables db))
    (useLCColumns db).

(** The prefixes collected so far are pairwise distinct and unknown. *)
Definition fresh_prefixes (l : list str) : Prop :=
  NoDup l /\ forall p, In p l -> ~ In p Csv.knownPrefixes.

(** The header cells of an input, when it has a header line. *)
Definition headerCells (content : str) : option (list str) :=
  match Csv.contentLines content with
  | [] => None
  | header :: _ => Some (Csv.parseCSVLine header (Csv.detectDelimiter content))
  end.

(** The header names a [propertyID] or a [shapeID] column. *)
Definition namesRequiredColumn (cells : list str) : Prop :=
  exists h, In h cells /\
    (Csv.normalizeHeader h = lit "propertyid" \/ Csv.normalizeHeader h = lit "shapeid").

(** The input has a header line that names a required column. *)
Definition wellHeaded (content : str) : Prop :=
  match headerCells content with
  | None => False
  | Some cells => namesRequiredColumn cells
  end.

(** Malformed input: no line with content, or a header that names
    neither required column. *)
Definition malformed (content : str) : Prop :=
  match headerCells content with
  | None => True
  | Some cells => ~ namesRequiredColumn cells
  end.


(** *** The shape context of a parsed row

    The cells of a data line from which [parseCSV] makes the shape
    context, and whether the line yields a row at all. *)

Record LineCells := mkCells {
  l_shapeID : option str;
  l_shapeLabel : option str;
  l_resourceURI : option str;
  l_data : Req.t }.

Definition lineCells (cols : Csv.columnIndices) (delimiter : ascii) (line : str) : LineCells :=
  let values := Csv.parseCSVLine line delimiter in
  mkCells (Csv.cell cols values Csv.ShapeID) (Csv.cell cols values Csv.ShapeLabel)
    (Csv.cell cols values Csv.ResourceURI) (Csv.rowData cols values).

Definition dataCells (content : str) : list LineCells :=
  match Csv.contentLines content with
  | [] => []
  | header :: dataLines =>
      let delimiter := Csv.detectDelimiter content in
      map (lineCells (Csv.headerIndices (Csv.parseCSVLine header delimiter) 0 []) delimiter)
        dataLines
  end.

Definition kept (c : LineCells) : bool :=
  Csv.hasData (l_data c) || is_truthy (l_shapeID c).

(** The first non-empty value of a cell in a list of lines; on the lines
    read so far, newest first, this is the nearest preceding value. *)
Fixpoint firstValue (f : LineCells -> option str) (ls : list LineCells) : option str :=
  match ls with
  | [] => None
  | c :: rest => if is_truthy (f c) then f c else firstValue f rest
  end.

(** The rows for the lines [todo], each with the shape id nearest to it
    and the label and resource URI that [label] and [uri] read off the
    lines up to it ([seen], newest first). *)
Fixpoint contextRows (label uri : list LineCells -> option str)
    (seen todo : list LineCells) : list Csv.ParsedRow :=
  match todo with
  | [] => []
  | c :: rest =>
      let upto := c :: seen in
      (if kept c
       then [Csv.Parsed.mk (Some (or_else (firstValue l_shapeID upto) "default"))
               (label upto) (uri upto) (l_data c)]
       else [])
      ++ contextRows label uri upto rest
  end.

(** Following the spec's words: label and resource URI are carried
    forward independently of the shape id, each from the nearest line at
    or before the row that has one. *)
Definition claimedRows (cells : list LineCells) : list Csv.ParsedRow :=
  contextRows (firstValue l_shapeLabel) (firstValue l_resourceURI) [] cells.

(** What the code does: the line with the nearest shape id sets label and
    resource URI together; after it the first labelled line without a
    shape id fills in a missing label, and [currentResourceURI] is
    assigned nowhere else. *)
Fixpoint definingLine (upto : list LineCells) : option LineCells :=
  match upto with
  | [] => None
  | c :: older => if is_truthy (l_shapeID c) then Some c else definingLine older
  end.

(** The lines after the defining line, oldest first. *)
Fixpoint linesSince (upto : list LineCells) : list LineCells :=
  match upto with
  | [] => []
  | c :: older => if is_truthy (l_shapeID c) then [] else linesSince older ++ [c]
  end.

Definition resourceURIOf (upto : list LineCells) : option str :=
  match definingLine upto with
  | Some c => l_resourceURI c
  | None => None
  end.

(** A cell of the shape context that belongs to the shape: the value of
    the line that set the shape id, a missing one filled in by the first
    later line without a shape id that has one. *)
Definition contextValue (f : LineCells -> option str) (upto : list LineCells) : option str :=
  match definingLine upto with
  | Some c =>
      if is_truthy (f c) then f c
      else firstValue f (linesSince upto)
  | None => firstValue f (linesSince upto)
  end.

(** [currentShapeLabel]: the [else if (rowShapeLabel && !currentShapeLabel)]
    branch fills a missing label in. *)
Definition shapeLabelOf (upto : list LineCells) : option str :=
  contextValue l_shapeLabel upto.

(** The line gives a resource URI only together with a shape id. *)
Definition uriWithShapeID (c : LineCells) : bool :=
  is_truthy (l_shapeID c) || negb (is_truthy (l_resourceURI c)).

(** One warning, at the first line that yields a row, when that line has
    no shape id. *)
Fixpoint contextWarnings (i : nat) (cells : list LineCells) : list Csv.ValidationError :=
  match cells with
  | [] => []
  | c :: rest =>
      if kept c
      then (if is_truthy (l_shapeID c) then [] else [Csv.noShapeWarning (i + 1)])
      else contextWarnings (S i) rest
  end.

(** *** What a Marva import is given *)

Definition profilesOf (docs : list Marva.Doc.t) : list Marva.Profile.t :=
  omap Marva.Doc.Profile docs.

Definition propertyCountOf (rts : list Marva.RT.t) : nat :=
  list_sum (map (fun rt => length (Marva.RT.propertyTemplates rt)) rts).

(** The number of resource templates of all documents. *)
Definition templateCount (docs : list Marva.Doc.t) : nat :=
  list_sum (map (fun p => length (Marva.Profile.resourceTemplates p)) (profilesOf docs)).

(** The number of property templates of all documents. *)
Definition propertyCount (docs : list Marva.Doc.t) : nat :=
  list_sum (map (fun p => propertyCountOf (Marva.Profile.resourceTemplates p))
              (profilesOf docs)).

(** The shape ids an import creates, in the order it creates them: per
    document the profile id, then the ids of its resource templates. *)
Definition importedShapeIds (docs : list Marva.Doc.t) : list str :=
  flat_map (fun p => Marva.Profile.id p :: map Marva.RT.id (Marva.Profile.resourceTemplates p))
    (profilesOf docs).

(** The two counts an import returned. *)
Definition returnedCounts (res : result (Marva.ImportMarvaProfileResult * World))
    : option (nat * nat) :=
  match res with
  | Ok (r, _) => Some (Marva.shapesCreated r, Marva.rowsCreated r)
  | Err _ => None
  end.

(** *** What a starting-point export reads from the store *)

(** The listing of the shapes, as [shapeService.list] returns it. *)
Definition listedShapes (db : Db) : list Shape :=
  sort_by (fun a b => Str.leb (shapeId a) (shapeId b)) (shapes db).

(** The rows of a shape, as [rowService.list] returns them. *)
Definition listedRows (db : Db) (id : str) : list StatementRow :=
  sort_by (fun a b => rowOrder a <=? rowOrder b)%nat
    (default [] (tables db !! tableName id)).

(** Every shape of the store has its row table. *)
Definition tables_exist (db : Db) : Prop :=
  forall s, In s (shapes db) -> has_table db (shapeId s).

(** The starting-point shapes other than the index, in listing order. *)
Definition startingPointShapesOf (db : Db) : list Shape :=
  List.filter
    (fun s => StartingPoint.isStartingPointShape (shapeId s)
              && negb (bool_decide (shapeId s = StartingPoint.STARTING_POINT_INDEX_ID)))
    (listedShapes db).

(** The shape ids the rows of the index shape name, in row order. *)
Definition indexReferences (db : Db) : list str :=
  match List.find (fun s => bool_decide (shapeId s = StartingPoint.STARTING_POINT_INDEX_ID))
          (listedShapes db) with
  | Some _ =>
      omap (fun r => truthy (valueShape r))
        (listedRows db StartingPoint.STARTING_POINT_INDEX_ID)
  | None => []
  end.

(** The menu group a shape contributes: none when it has no
    [dcterms:hasPart] row. *)
Definition groupOf (db : Db) (shape : Shape) : list StartingPoint.StartingPointMenuGroup :=
  match map StartingPoint.menuItemOf
          (List.filter StartingPoint.is_hasPart (listedRows db (shapeId shape))) with
  | [] => []
  | items => [StartingPoint.mkMenuGroup (StartingPoint.groupLabel shape) items]
  end.

(** The file an export returns for a list of groups. *)
Definition exportedFile (uuid : str) (groups : list StartingPoint.StartingPointMenuGroup)
    : option StartingPoint.StartingPointFile :=
  match groups with
  | [] => None
  | _ :: _ => Some [StartingPoint.mkConfig uuid "config" "startingPoints" groups]
  end.

(** *** What a starting-point import stores, and what comes back *)

(** [[l[0]]] when [l[0]] is a non-empty string, else [[]]: what an export
    gives back for a list of which the import stored the first element. *)
Definition firstOnly (l : list str) : list str :=
  match truthy (head l) with
  | Some v => [v]
  | None => []
  end.

Definition normalItem (i : StartingPoint.StartingPointMenuItem)
    : StartingPoint.StartingPointMenuItem :=
  StartingPoint.mkItem (StartingPoint.label i) (firstOnly (StartingPoint.type i))
    (firstOnly (StartingPoint.useResourceTemplates i)).

Definition normalGroup (g : StartingPoint.StartingPointMenuGroup)
    : StartingPoint.StartingPointMenuGroup :=
  StartingPoint.mkMenuGroup (StartingPoint.menuGroup g)
    (map normalItem (StartingPoint.menuItems g)).

(** The row tables an import of [groups] writes: one per group, then
    that of the index. *)
Definition groupTables (groups : list StartingPoint.StartingPointMenuGroup) : list str :=
  map (fun g => tableName (StartingPoint.groupShapeId g)) groups
  ++ [tableName StartingPoint.STARTING_POINT_INDEX_ID].

Definition groupShape (folder : nat) (g : StartingPoint.StartingPointMenuGroup) : Shape :=
  mkShape (StartingPoint.groupShapeId g) (or_null (Some (StartingPoint.menuGroup g)))
    None None (Some folder).

Definition indexShape (folder : nat) : Shape :=
  mkShape StartingPoint.STARTING_POINT_INDEX_ID (Some (lit "Starting Point Index"))
    None None (Some folder).

Fixpoint itemRowsFrom (n : nat) (items : list StartingPoint.StartingPointMenuItem)
    : list StatementRow :=
  match items with
  | [] => []
  | i :: rest => storedRow n (StartingPoint.itemRow n i) :: itemRowsFrom (S n) rest
  end.

Fixpoint indexRowsFrom (n : nat) (entries : list (str * str)) : list StatementRow :=
  match entries with
  | [] => []
  | e :: rest => storedRow n (StartingPoint.indexRow n e) :: indexRowsFrom (S n) rest
  end.

Definition indexEntries (groups : list StartingPoint.StartingPointMenuGroup)
    : list (str * str) :=
  map (fun g => (StartingPoint.groupShapeId g, StartingPoint.menuGroup g)) groups.

(** The store [db] holds, on top of [db0], what an import of [groups]
    into the folder [folder] writes. *)
Definition imported (db0 : Db) (folder : nat)
    (groups : list StartingPoint.StartingPointMenuGroup) (db : Db) : Prop :=
  shapes db = shapes db0 ++ map (groupShape folder) groups ++ [indexShape folder]
  /\ (forall g, In g groups ->
        tables db !! tableName (StartingPoint.groupShapeId g)
        = Some (itemRowsFrom 0 (StartingPoint.menuItems g)))
  /\ tables db !! tableName StartingPoint.STARTING_POINT_INDEX_ID
     = Some (indexRowsFrom 0 (indexEntries groups))
  /\ (forall t, ~ In t (groupTables groups) -> tables db !! t = tables db0 !! t).

(** The file an export writes for [groups]. *)
Definition startingPointFile (uuid : str)
    (groups : list StartingPoint.StartingPointMenuGroup) : StartingPoint.StartingPointFile :=
  [StartingPoint.mkConfig uuid "config" "startingPoints" groups].

(** The groups of a file: those of its first [startingPoints] config. *)
Definition groupsOf (data : StartingPoint.StartingPointFile)
    : list StartingPoint.StartingPointMenuGroup :=
  match List.find (fun item => bool_decide (StartingPoint.configType item = lit "startingPoints"))
          data with
  | Some config => StartingPoint.json config
  | None => []
  end.

(** *** What a CSV export writes, and what its import stores *)

(** [s.replace(/\n/g, ' | ')], the conversion the export applies to
    [valueShape] and [valueConstraint]. *)
Definition piped (s : str) : str := Str.replaceAll Str.nl " | " s.

(** A cell value that a line of the file carries unchanged: not empty,
    no white space at either end, no line feed. *)
Definition clean (s : str) : bool :=
  Str.nonempty s && bool_decide (Str.trim s = s) && negb (existsb (Str.is_char Str.nl) s).

Definition cleanCell (x : option str) : bool :=
  match x with None => true | Some s => clean s end.

(** The statement columns of a row as the export writes them, in header
    order. *)
Definition statementCells (r : StatementRow) : list (option str) :=
  [ propertyId r; propertyLabel r; mandatory r; repeatable r; valueNodeType r;
    valueDataType r; option_map piped (valueShape r); option_map piped (valueConstraint r);
    valueConstraintType r; note r; lcDefaultLiteral r; lcDefaultURI r; lcDataTypeURI r;
    lcRemark r ].

(** The three shape columns: filled in on the first row of a shape. *)
Definition shapeCells (shape : Shape) (isFirstRow : bool) : list (option str) :=
  if isFirstRow then [Some (shapeId shape); shapeLabel shape; resourceURI shape]
  else [None; None; None].

(** The cell values of an exported line, before escaping. *)
Definition exportedCells (shape : Shape) (isFirstRow : bool) (r : StatementRow) : list str :=
  map (default []) (shapeCells shape isFirstRow ++ statementCells r).

(** [escapeCSVValue] on a string, without the pipe conversion. *)
Definition escaped (delimiter : ascii) (s : str) : str :=
  Csv.escapeCSVValue (Some s) delimiter false.

Definition cleanRow (r : StatementRow) : bool := forallb cleanCell (statementCells r).

(** Some statement column of the row holds a value. *)
Definition rowHasData (r : StatementRow) : bool := existsb is_truthy (statementCells r).

(** The row request [parseCSV] builds from an exported line. *)
Definition requested (r : StatementRow) : Req.t :=
  Req.mk None (propertyId r) (propertyLabel r) (mandatory r) (repeatable r)
    (valueNodeType r) (valueDataType r) (option_map piped (valueShape r))
    (option_map piped (valueConstraint r)) (valueConstraintType r) (note r)
    (lcDefaultLiteral r) (lcDefaultURI r) (lcDataTypeURI r) (lcRemark r).

(** The row the import stores for an exported row: the same statement
    columns, with the pipe conversion in [valueShape] and
    [valueConstraint], at row order [i]. *)
Definition reimported (i : nat) (r : StatementRow) : StatementRow :=
  mkRow i (propertyId r) (propertyLabel r) (mandatory r) (repeatable r)
    (valueNodeType r) (valueDataType r) (option_map piped (valueShape r))
    (option_map piped (valueConstraint r)) (valueConstraintType r) (note r)
    (lcDefaultLiteral r) (lcDefaultURI r) (lcDataTypeURI r) (lcRemark r).

Fixpoint reimportedFrom (i : nat) (rs : list StatementRow) : list StatementRow :=
  match rs with
  | [] => []
  | r :: rest => reimported i r :: reimportedFrom (S i) rest
  end.

(** The shape the import stores for an exported shape: description and
    folder are not part of the file. *)
Definition reimportedShape (s : Shape) : Shape :=
  mkShape (shapeId s) (shapeLabel s) None (resourceURI s) None.

(** A shape whose lines the import reads back as they were written: its
    id, label and resource URI are clean, it has a row table with at
    least one row, every cell of every row is clean, and every row after
    the first holds a value. *)
Definition cleanShape (db : Db) (s : Shape) : bool :=
  clean (shapeId s) && cleanCell (shapeLabel s) && cleanCell (resourceURI s)
  && match tables db !! tableName (shapeId s) with
     | None => false
     | Some _ =>
         match listedRows db (shapeId s) with
         | [] => false
         | r :: rest => forallb cleanRow (r :: rest) && forallb rowHasData rest
         end
     end.

(** A workspace of clean shapes in pairwise distinct row tables. *)
Definition roundTrippable (db : Db) : bool :=
  bool_decide (NoDup (map (fun s => tableName (shapeId s)) (shapes db)))
  && forallb (cleanShape db) (shapes db).

(** The column indices [parseCSV] derives from the exported header. *)
Definition headerCols : Csv.columnIndices := Csv.headerIndices Csv.headers 0 [].

Definition columnIndex (c : Csv.column) : nat :=
  match c with
  | Csv.ShapeID => 0 | Csv.ShapeLabel => 1 | Csv.ResourceURI => 2
  | Csv.PropertyId => 3 | Csv.PropertyLabel => 4 | Csv.Mandatory => 5
  | Csv.Repeatable => 6 | Csv.ValueNodeType => 7 | Csv.ValueDataType => 8
  | Csv.ValueShape => 9 | Csv.ValueConstraint => 10 | Csv.ValueConstraintType => 11
  | Csv.Note => 12 | Csv.LcDefaultLiteral => 13 | Csv.LcDefaultURI => 14
  | Csv.LcDataTypeURI => 15 | Csv.LcRemark => 16
  end.

(** The string has a character that is not white space. *)
Definition has_ink (s : str) : bool := existsb (fun c => negb (Str.is_ws c)) s.

(** The lines the export writes for a shape that has rows. *)
Definition blockLines (delimiter : ascii) (db : Db) (s : Shape) : list str :=
  Csv.rowLines delimiter s true (listedRows db (shapeId s)).

Definition exportedLines (f : Csv.format) (db : Db) : list str :=
  Str.join [Csv.delimiterOf f] Csv.headers
  :: flat_map (blockLines (Csv.delimiterOf f) db) (listedShapes db).

(** The rows [parseCSV] reads from the lines of a shape. *)
Definition parsedBlock (s : Shape) (rs : list StatementRow) : list Csv.ParsedRow :=
  map (fun r => Csv.Parsed.mk (Some (shapeId s)) (shapeLabel s) (resourceURI s) (requested r))
    rs.

(** The group [importToWorkspace] builds for a shape. *)
Definition csvGroup (db : Db) (s : Shape) : str * Csv.Group :=
  (shapeId s,
   Csv.mkGroup (shapeLabel s) (resourceURI s) (map requested (listedRows db (shapeId s)))).

(** The rows an import stores for the requests [ds], from row order [i]. *)
Fixpoint storedFrom (i : nat) (ds : list Req.t) : list StatementRow :=
  match ds with
  | [] => []
  | d :: rest => storedRow i (Csv.with_rowOrder d i) :: storedFrom (S i) rest
  end.

(** ** Example inputs and derived notions *)

Definition bare_valueShape_csv : str :=
  Str.join [Str.nl]
    [ lit "shapeID,propertyID,propertyLabel,valueNodeType,valueShape";
      lit "Book,dcterms:creator,Creator,IRI,Person";
      lit "Person,foaf:name,Name,literal," ].

Definition book_row : StatementRow :=
  mkRow 0 (Some (lit "dcterms:creator")) (Some (lit "Creator")) None None
    (Some (lit "IRI")) None (Some (lit "Person")) None None None None None None None.

Definition person_row : StatementRow :=
  mkRow 0 (Some (lit "foaf:name")) (Some (lit "Name")) None None
    (Some (lit "literal")) None None None None None None None None None.

(** The workspace the import of [bare_valueShape_csv] creates. *)
Definition library_db : Db :=
  mkDb "Library" DEFAULT_NAMESPACES [] 0
    [ mkShape "Book" None None None None; mkShape "Person" None None None None ]
    (<[lit "shape_person" := [person_row]]> (<[lit "shape_book" := [book_row]]> ∅))
    false.

Definition piped_valueShape_csv : str :=
  Str.join [Str.nl]
    [ lit "shapeID,propertyID,propertyLabel,valueNodeType,valueShape";
      lit "Profile,dcterms:hasPart,Has Shape,bnode,Work";
      lit "Work,bf:title,Title,bnode,Title|VariantTitle" ].

Definition link_row : StatementRow :=
  mkRow 0 (Some (lit "dcterms:hasPart")) (Some (lit "Has Shape")) None None
    (Some (lit "bnode")) None (Some (lit "Work")) None None None None None None None.

Definition title_row : StatementRow :=
  mkRow 0 (Some (lit "bf:title")) (Some (lit "Title")) None None
    (Some (lit "bnode")) None (Some (lit "Title|VariantTitle")) None None None None None
    None None.

(** The workspace the import of [piped_valueShape_csv] creates. *)
Definition profile_db : Db :=
  mkDb "Profiles" DEFAULT_NAMESPACES [] 0
    [ mkShape "Profile" None None None None; mkShape "Work" None None None None ]
    (<[lit "shape_work" := [title_row]]> (<[lit "shape_profile" := [link_row]]> ∅))
    false.

Definition mixed_delimiters : str :=
  lit "A,B|C" ++ [Str.nl] ++ lit "D".

Definition no_required_columns_csv : str :=
  Str.join [Str.nl] [ lit "name,age"; lit "Ada,36" ].

(** The variables of the row loop after the lines [seen]. *)
Definition loop_context (st : Csv.LoopState) (seen : list LineCells) : Prop :=
  Csv.currentShapeID st
  = (if existsb kept seen
     then Some (or_else (firstValue l_shapeID seen) "default") else None)
  /\ Csv.currentShapeLabel st = shapeLabelOf seen
  /\ Csv.currentResourceURI st = resourceURIOf seen.

Definition context_csv : str :=
  Str.join [Str.nl]
    [ lit "shapeID,shapeLabel,resourceURI,propertyID";
      lit ",,,dcterms:title";
      lit ",,,dcterms:creator";
      lit "Book,,,dcterms:subject";
      lit ",Books,http://example.org/Book,dcterms:date";
      lit ",,,dcterms:publisher" ].

(** Two shapes, the second without label and resource URI. *)
Definition reset_csv : str :=
  Str.join [Str.nl]
    [ lit "shapeID,shapeLabel,resourceURI,propertyID";
      lit "Book,Books,http://example.org/Book,dcterms:title";
      lit "Person,,,foaf:name";
      lit ",,,foaf:mbox" ].

(** Shape id, label and resource URI of the parsed rows. *)
Definition contextOf (rows : list Csv.ParsedRow)
    : list (option str * option str * option str) :=
  map (fun r => (Csv.Parsed.shapeID r, Csv.Parsed.shapeLabel r, Csv.Parsed.resourceURI r))
    rows.

Definition title_property : Marva.PT.t :=
  Marva.PT.mk "http://id.loc.gov/ontologies/bibframe/mainTitle" "Main title"
    "true" "false" Marva.literal None (Some Marva.VC.empty).

Definition title_template : Marva.RT.t :=
  Marva.RT.mk "lc:RT:bf2:Title" (Some (lit "http://id.loc.gov/ontologies/bibframe/Title"))
    (Some (lit "Title")) None [title_property].

Definition profile_document (id title : str) (rts : list Marva.RT.t) : Marva.Doc.t :=
  Marva.Doc.mk "doc" title "profile" (Some (Marva.Profile.mk id title None rts))
    "2024-01-01" "2024-01-01" "2024-01-01" "2024-01-01".

Definition work_document : Marva.Doc.t :=
  profile_document "lc:profile:bf2:Work" "Work" [title_template].

Definition instance_document : Marva.Doc.t :=
  profile_document "lc:profile:bf2:Instance" "Instance" [title_template].

Definition menu_row (n : nat) (label template : str) : StatementRow :=
  mkRow n (Some (lit "dcterms:hasPart")) (Some label) None None (Some (lit "IRI")) None
    (Some template) None (Some (lit "picklist")) None None None None None.

Definition index_row (n : nat) (label target : str) : StatementRow :=
  mkRow n (Some (lit "dcterms:hasPart")) (Some label) None None None None
    (Some target) None None None None None None None.

Definition menu_shapes : list Shape :=
  [ mkShape "startingpoint:Archive" (Some (lit "Archive")) None None (Some 1);
    mkShape "startingpoint:Monograph" (Some (lit "Monograph")) None None (Some 1);
    mkShape "startingpoint:Serial" (Some (lit "Serial")) None None (Some 1);
    mkShape "startingpoint:index" (Some (lit "Starting Point Index")) None None (Some 1) ].

Definition menu_tables (indexRows : list StatementRow) : gmap str (list StatementRow) :=
  <[lit "shape_startingpoint_index" := indexRows]>
    (<[lit "shape_startingpoint_serial" := [menu_row 0 "Serial" "lc:RT:bf2:Serial"]]>
       (<[lit "shape_startingpoint_monograph" := [menu_row 0 "Book" "lc:RT:bf2:Monograph"]]>
          (<[lit "shape_startingpoint_archive" := [menu_row 0 "Fonds" "lc:RT:bf2:Archive"]]>
             ∅))).

(** The index names Serial, then Monograph; Archive is not named. *)
Definition menu_db : Db :=
  mkDb "Menus" DEFAULT_NAMESPACES [mkFolder 1 "Starting Points"] 1 menu_shapes
    (menu_tables [ index_row 0 "Serial" "startingpoint:Serial";
                   index_row 1 "Monograph" "startingpoint:Monograph" ])
    false.

(** The index names nothing. *)
Definition standalone_db : Db :=
  mkDb "Menus" DEFAULT_NAMESPACES [mkFolder 1 "Starting Points"] 1 menu_shapes
    (menu_tables []) false.

Definition exportedGroupNames (res : result (option StartingPoint.StartingPointFile * Db))
    : option (list str) :=
  match res with
  | Ok (Some [config], _) => Some (map StartingPoint.menuGroup (StartingPoint.json config))
  | _ => None
  end.

(** A starting-point file with two menu groups; the second group's item
    lists two types. *)
Definition monograph_serial_file : StartingPoint.StartingPointFile :=
  [ StartingPoint.mkConfig "config-0" "config" "startingPoints"
      [ StartingPoint.mkMenuGroup "Monograph"
          [ StartingPoint.mkItem "Instance" [lit "http://id.loc.gov/ontologies/bibframe/Instance"]
              [lit "lc:RT:bf2:Monograph:Instance"];
            StartingPoint.mkItem "Work" [lit "http://id.loc.gov/ontologies/bibframe/Work"]
              [lit "lc:RT:bf2:Monograph:Work"] ];
        StartingPoint.mkMenuGroup "Rare Materials"
          [ StartingPoint.mkItem "Instance"
              [lit "http://id.loc.gov/ontologies/bibframe/Instance";
               lit "http://id.loc.gov/ontologies/bibframe/Manuscript"]
              [lit "lc:RT:bf2:RareMat:Instance"] ] ] ].

(** A starting-point file whose only menu group is labelled [Index]: its
    shape id [startingpoint:Index] is not the index shape's id
    [startingpoint:index], but the two have the same row table
    [shape_startingpoint_index]. *)
Definition index_group_file : StartingPoint.StartingPointFile :=
  [ StartingPoint.mkConfig "config-0" "config" "startingPoints"
      [ StartingPoint.mkMenuGroup "Index"
          [ StartingPoint.mkItem "Work" [lit "http://id.loc.gov/ontologies/bibframe/Work"]
              [lit "lc:RT:bf2:Monograph:Work"] ] ] ].

(** A starting-point file whose second menu group has no item. *)
Definition empty_group_file : StartingPoint.StartingPointFile :=
  [ StartingPoint.mkConfig "config-0" "config" "startingPoints"
      [ StartingPoint.mkMenuGroup "Monograph"
          [ StartingPoint.mkItem "Work" [lit "http://id.loc.gov/ontologies/bibframe/Work"]
              [lit "lc:RT:bf2:Monograph:Work"] ];
        StartingPoint.mkMenuGroup "Drafts" [] ] ].

(** The group order the index shape of a store records. *)
Definition recordedOrder {A : Type} (res : result (A * Db)) : option (list str) :=
  match res with
  | Ok (_, db) => Some (indexReferences db)
  | Err _ => None
  end.

(** The export of the store an import has produced. *)
Definition exportOf {A : Type} (uuid : str) (res : result (A * Db))
    : result (option StartingPoint.StartingPointFile * Db) :=
  match res with
  | Ok (_, db) => StartingPoint.exportStartingPoints uuid db
  | Err e => Err e
  end.

(** The import of an exported file into [target]. *)
Definition importInto (target : Db)
    (res : result (option StartingPoint.StartingPointFile * Db))
    : result (StartingPoint.ImportStartingPointResult * Db) :=
  match res with
  | Ok (Some file, _) => StartingPoint.importStartingPoints file target
  | Ok (None, _) => Err (Thrown "nothing exported")
  | Err e => Err e
  end.

(** The import of an exported file into the store it was exported from. *)
Definition importInPlace (res : result (option StartingPoint.StartingPointFile * Db))
    : result (StartingPoint.ImportStartingPointResult * Db) :=
  match res with
  | Ok (Some file, db) => StartingPoint.importStartingPoints file db
  | Ok (None, _) => Err (Thrown "nothing exported")
  | Err e => Err e
  end.

(** The menu group names of an export, each with its item labels. *)
Definition exportedLabels (res : result (option StartingPoint.StartingPointFile * Db))
    : option (list (str * list str)) :=
  match res with
  | Ok (Some [config], _) =>
      Some (map (fun g => (StartingPoint.menuGroup g,
                           map StartingPoint.label (StartingPoint.menuItems g)))
              (StartingPoint.json config))
  | _ => None
  end.

(** A workspace with a two-row shape: a label with a comma, a note with
    quotation marks, and a [valueShape] of two lines. *)
Definition catalog_db : Db :=
  mkDb "Catalog" DEFAULT_NAMESPACES [] 0
    [ mkShape "Person" None None None None;
      mkShape "Book" (Some (lit "Book, printed")) (Some (lit "a printed book"))
        (Some (lit "http://example.org/Book")) (Some 1) ]
    (<[lit "shape_person" :=
         [ mkRow 0 (Some (lit "foaf:name")) (Some (lit "Name")) (Some (lit "true")) None
             (Some (lit "literal")) (Some (lit "xsd:string")) None None None None None None
             None None ]]>
       (<[lit "shape_book" :=
            [ mkRow 1 (Some (lit "dcterms:creator")) (Some (lit "Creator")) None
                (Some (lit "true")) (Some (lit "IRI")) None
                (Some (lit "Person" ++ [Str.nl] ++ lit "Organization")) None None None None
                None None None;
              mkRow 0 (Some (lit "dcterms:title")) (Some (lit "Title, main")) None None
                (Some (lit "literal")) None None None None
                (Some (lit "the " ++ quoted "main" ++ lit " title")) None None None None ]]>
          ∅))
    false.

(** A workspace whose only shape has no rows. *)
Definition empty_shape_db : Db :=
  mkDb "Shelf" DEFAULT_NAMESPACES [] 0 [mkShape "Book" None None None None]
    (<[lit "shape_book" := []]> ∅) false.

(** The workspace an import has created under [uuid]. *)
Definition importedDb (uuid : str) (res : result (Csv.ImportResult * World)) : option Db :=
  match res with
  | Ok (_, w) => w !! uuid
  | Err _ => None
  end.

(** The import, under [uuid] into the empty world, of the CSV export of
    [db]. *)
Definition csvRoundTrip (f : Csv.format) (uuid : str) (db : Db) : option Db :=
  match Csv.exportWorkspace f db with
  | Ok (content, _) => importedDb uuid (Csv.importToWorkspace content (db_name db) uuid ∅)
  | Err _ => None
  end.


(** ** More of the store ([services/database.ts]) *)

(** [namespaceService.get] *)
Definition namespaceService_get (pfx : str) : M (option Namespace) :=
  let* db := get_db in
  ret (List.find (fun n => bool_decide (prefix n = pfx)) (namespaces db)).

(** [namespaceService.update]: [UPDATE _namespaces SET namespace = ?
    WHERE prefix = ?]. *)
Definition namespaceService_update (pfx uri : str) : M (option Namespace) :=
  let* existing := namespaceService_get pfx in
  match existing with
  | None => ret None
  | Some existing =>
      let* db := get_db in
      let* _ :=
        put_db (mkDb (db_name db)
                  (map (fun n => if bool_decide (prefix n = pfx)
                                 then mkNamespace (prefix n) uri else n)
                     (namespaces db))
                  (folders db) (folder_seq db) (shapes db) (tables db) (useLCColumns db)) in
      ret (Some (mkNamespace (prefix existing) uri))
  end.

(** [namespaceService.delete] *)
Definition namespaceService_delete (pfx : str) : M bool :=
  let* existing := namespaceService_get pfx in
  match existing with
  | None => ret false
  | Some _ =>
      let* db := get_db in
      let* _ :=
        put_db (mkDb (db_name db)
                  (List.filter (fun n => negb (bool_decide (prefix n = pfx))) (namespaces db))
                  (folders db) (folder_seq db) (shapes db) (tables db) (useLCColumns db)) in
      ret true
  end.

(** The [updates] argument of [shapeService.update]: an absent key is
    [None]; [folderId] may be given as [null]. *)
Record ShapeUpdates := mkUpdates {
  new_shapeId : option str;
  new_shapeLabel : option str;
  new_description : option str;
  new_resourceURI : option str;
  new_folderId : option (option nat) }.

(** [ALTER TABLE old RENAME TO new]: SQLite refuses an unknown table and
    a name that is in use (also when it is the table's own). *)
Definition renameTable (oldTable newTable : str) : M unit :=
  let* db := get_db in
  match tables db !! oldTable with
  | None => throw (NoSuchTable oldTable)
  | Some rows =>
      match tables db !! newTable with
      | Some _ =>
          throw (Thrown (lit "there is already another table or index with this name: "
                         ++ newTable))
      | None =>
          put_db (mkDb (db_name db) (namespaces db) (folders db) (folder_seq db) (shapes db)
                    (<[newTable := rows]> (base.delete oldTable (tables db)))
                    (useLCColumns db))
      end
  end.

(** [shapeService.update]. The [UPDATE _shapes] runs after the table was
    renamed; the column [shape_id] is [UNIQUE]. *)
Definition shapeService_update (id : str) (updates : ShapeUpdates) : M (option Shape) :=
  let* existing := shapeService.get id in
  match existing with
  | None => ret None
  | Some existing =>
      let newShapeId := or_else (new_shapeId updates) id in
      let newShapeLabel :=
        match new_shapeLabel updates with Some v => Some v | None => shapeLabel existing end in
      let newDescription :=
        match new_description updates with Some v => Some v | None => description existing end in
      let newResourceURI :=
        match new_resourceURI updates with Some v => Some v | None => resourceURI existing end in
      let newFolderId :=
        match new_folderId updates with Some v => v | None => folderId existing end in
      let* _ :=
        if is_truthy (new_shapeId updates) && negb (bool_decide (new_shapeId updates = Some id))
        then renameTable (tableName id) (tableName newShapeId)
        else ret tt in
      let* db := get_db in
      if negb (bool_decide (newShapeId = id))
         && existsb (fun s => bool_decide (shapeId s = newShapeId)) (shapes db)
      then throw (UniqueConstraint "_shapes.shape_id")
      else
        let newShape :=
          mkShape newShapeId newShapeLabel newDescription newResourceURI newFolderId in
        let* _ :=
          put_db (mkDb (db_name db) (namespaces db) (folders db) (folder_seq db)
                    (map (fun s => if bool_decide (shapeId s = id) then newShape else s)
                       (shapes db))
                    (tables db) (useLCColumns db)) in
        ret (Some newShape)
  end.

(** The loop of [shapeService.getUsages]: [SELECT COUNT( * ) ... WHERE
    value_shape = ?] compares the whole cell. *)
Fixpoint usagesIn (id : str) (shapes : list Shape) (usages : list str) : M (list str) :=
  match shapes with
  | [] => ret usages
  | shape :: rest =>
      if bool_decide (shapeId shape = id) then usagesIn id rest usages
      else
        let* db := get_db in
        match tables db !! tableName (shapeId shape) with
        | None => throw (NoSuchTable (tableName (shapeId shape)))
        | Some rows =>
            let count :=
              length (List.filter (fun r => bool_decide (valueShape r = Some id)) rows) in
            usagesIn id rest
              (if (0 <? count)%nat then usages ++ [shapeId shape] else usages)
        end
  end.

Definition shapeService_getUsages (id : str) : M (list str) :=
  let* shapes := shapeService.list in
  usagesIn id shapes [].

Record CopyResult := mkCopy {
  copied_shape : Shape;
  rowsCopied : nat;
  overwrote : bool }.

(** The request [copyToWorkspace] builds from a source row: [x ??
    undefined] in every column, the row order kept. *)
Definition copyRequest (row : StatementRow) : Req.t :=
  Req.mk (Some (rowOrder row)) (propertyId row) (propertyLabel row) (mandatory row)
    (repeatable row) (valueNodeType row) (valueDataType row) (valueShape row)
    (valueConstraint row) (valueConstraintType row) (note row) (lcDefaultLiteral row)
    (lcDefaultURI row) (lcDataTypeURI row) (lcRemark row).

Fixpoint copyRows (id : str) (rows : list StatementRow) : M unit :=
  match rows with
  | [] => ret tt
  | row :: rest =>
      let* _ := rowService.create id (copyRequest row) in
      copyRows id rest
  end.

(** The store calls of [copyToWorkspace] in the target workspace. *)
Definition copyInto (id : str) (sourceShape : Shape) (sourceRows : list StatementRow)
    : M CopyResult :=
  let* existingShape := shapeService.get id in
  let* _ := match existingShape with
            | Some _ => shapeService.delete id
            | None => ret false
            end in
  let* newShape :=
    shapeService.create (shapeId sourceShape) (truthy (shapeLabel sourceShape))
      (truthy (resourceURI sourceShape)) None (truthy (description sourceShape)) in
  let* _ := copyRows id sourceRows in
  ret (mkCopy newShape (length sourceRows)
         (match existingShape with Some _ => true | None => false end)).

(** [shapeService.copyToWorkspace]; [workspaceService.get] looks the
    target up in the world. *)
Definition shapeService_copyToWorkspace (sourceWorkspaceId id targetWorkspaceId : str)
    (w : World) : result (CopyResult * World) :=
  match in_workspace sourceWorkspaceId (shapeService.get id) w with
  | Err e => Err e
  | Ok (None, _) => Err (Thrown "Source shape not found")
  | Ok (Some sourceShape, w1) =>
      match w1 !! targetWorkspaceId with
      | None => Err (Thrown "Target workspace not found")
      | Some _ =>
          match in_workspace sourceWorkspaceId (rowService.list id) w1 with
          | Err e => Err e
          | Ok (sourceRows, w2) =>
              in_workspace targetWorkspaceId (copyInto id sourceShape sourceRows) w2
          end
      end
  end.


(** ** Multi-value cells in the editor ([components/SpreadsheetGrid.vue],
       [components/CellEditor.vue]) *)

(** [hasMultipleValues]: [/[,|\n]/.test(value)] *)
Definition hasMultipleValues (value : option str) : bool :=
  match truthy value with
  | None => false
  | Some v => existsb is_multi_delimiter v
  end.

(** [multilineValue]: what the text area of the cell editor shows,
    [localValue.replace(/[,|]/g, '\n')]. *)
Definition multilineValue (localValue : str) : str :=
  map (fun c => if Ascii.eqb c Str.comma || Ascii.eqb c Str.pipe then Str.nl else c)
    localValue.

(** [handleMultilineInput]: what the editor keeps for the text of the
    text area, [split('\n').map(s => s.trim()).filter(s => s).join('|')]. *)
Definition handleMultilineInput (text : str) : str :=
  Str.join [Str.pipe]
    (List.filter Str.nonempty (map Str.trim (Str.split (Str.is_char Str.nl) text))).

(** ** Row validation ([services/validation.ts], constants of
       [types/dctap.ts]) *)

Module Validation.

Definition VALUE_NODE_TYPES : list str := [lit "IRI"; lit "literal"; lit "bnode"].

Definition VALUE_CONSTRAINT_TYPES : list str :=
[ lit "picklist"; lit "IRIstem"; lit "pattern"; lit "languageTag"; lit "minLength";
  lit "maxLength"; lit "minInclusive"; lit "maxInclusive" ].

Definition XSD_DATATYPES : list str :=
[ lit "xsd:string"; lit "xsd:boolean"; lit "xsd:decimal"; lit "xsd:integer";
  lit "xsd:float"; lit "xsd:double"; lit "xsd:date"; lit "xsd:dateTime"; lit "xsd:time";
  lit "xsd:duration"; lit "xsd:gYear"; lit "xsd:gYearMonth"; lit "xsd:anyURI";
  lit "rdf:langString" ].

(** [ValidationError] with its [column]. *)
Record ValidationError := mkError {
row : option nat;
column : str;
message : str;
severity : str }.

Record ValidationResult := mkResult {
valid : bool;
errors : list ValidationError;
warnings : list ValidationError }.

Definition warning (column message : str) : ValidationError :=
mkError None column message "warning".

Definition error (column message : str) : ValidationError :=
mkError None column message "error".

(** [row.valueNodeType?.toLowerCase()] *)
Definition nodeTypeLower (r : StatementRow) : option str :=
option_map Str.toLowerCase (valueNodeType r).

(** Rule 1 *)
Definition hasAnyData (r : StatementRow) : bool :=
is_truthy (propertyLabel r) || is_truthy (mandatory r) || is_truthy (repeatable r)
|| is_truthy (valueNodeType r) || is_truthy (valueDataType r) || is_truthy (valueShape r)
|| is_truthy (valueConstraint r) || is_truthy (valueConstraintType r)
|| is_truthy (note r).

Definition rule1 (r : StatementRow) : list ValidationError :=
if negb (is_truthy (propertyId r)) && hasAnyData r
then [warning "propertyId" "Property ID is required"] else [].

(** Rule 2 *)
Definition rule2 (prefixes : list str) (r : StatementRow) : list ValidationError :=
match truthy (propertyId r) with
| None => []
| Some pid =>
    match Str.indexOf Str.colon pid with
    | Some (S n) =>
        let pfx := take (S n) pid in
        if bool_decide (pfx = lit "http") || bool_decide (pfx = lit "https") then
          [warning "propertyId"
             (lit "Property ID " ++ quoted pid
              ++ lit " appears to be a full URI. Consider using a prefixed form (e.g., dcterms:title) instead.")]
        else if negb (inb pfx prefixes) then
          [warning "propertyId"
             (lit "Unknown namespace prefix " ++ quoted pfx ++ lit " in property ID "
              ++ quoted pid)]
        else []
    | _ => []
    end
end.

(** Rule 3 *)
Definition rule3 (r : StatementRow) : list ValidationError :=
match truthy (valueNodeType r) with
| Some t =>
    if negb (inb (Str.toLowerCase t) (map Str.toLowerCase VALUE_NODE_TYPES)) then
      [error "valueNodeType"
         (lit "Invalid valueNodeType: " ++ t ++ lit ". Must be one of: "
          ++ Str.join ", " VALUE_NODE_TYPES)]
    else []
| None => []
end.

(** Rule 4 *)
Definition rule4 (r : StatementRow) : list ValidationError :=
if is_truthy (valueDataType r) && is_truthy (nodeTypeLower r)
   && negb (bool_decide (nodeTypeLower r = Some (lit "literal")))
then [error "valueDataType"
        (lit "valueDataType can only be used when valueNodeType is " ++ quoted "literal")]
else [].

(** Rule 5 *)
Definition rule5 (r : StatementRow) : list ValidationError :=
match truthy (valueDataType r) with
| Some t =>
    if negb (inb t XSD_DATATYPES) then
      [warning "valueDataType"
         (lit "Unknown datatype: " ++ t ++ lit ". Common types: "
          ++ Str.join ", " (take 5 XSD_DATATYPES) ++ lit "...")]
    else []
| None => []
end.

(** Rule 6 *)
Definition rule6 (r : StatementRow) : list ValidationError :=
if is_truthy (valueShape r) && bool_decide (nodeTypeLower r = Some (lit "literal"))
then [error "valueShape"
        (lit "valueShape cannot be used when valueNodeType is " ++ quoted "literal")]
else [].

(** Rule 7: [row.valueShape.split(/[,|\n]/).map(s => s.trim()).filter(s => s)] *)
Definition invalidShapes (shapes : list str) (r : StatementRow) : list str :=
match truthy (valueShape r) with
| Some v =>
    let valueShapes :=
      List.filter Str.nonempty (map Str.trim (Str.split is_multi_delimiter v)) in
    List.filter (fun vs => negb (inb vs shapes)) valueShapes
| None => []
end.

Definition rule7 (shapes : list str) (r : StatementRow) : list ValidationError :=
match invalidShapes shapes r with
| [] => []
| (_ :: _) as invalid =>
    [error "valueShape"
       (lit "valueShape references non-existent shape(s): " ++ Str.join ", " invalid)]
end.

(** Rule 8 *)
Definition rule8 (r : StatementRow) : list ValidationError :=
match truthy (valueConstraintType r) with
| Some t =>
    if negb (inb t VALUE_CONSTRAINT_TYPES) then
      [error "valueConstraintType"
         (lit "Invalid valueConstraintType: " ++ t ++ lit ". Must be one of: "
          ++ Str.join ", " VALUE_CONSTRAINT_TYPES)]
    else []
| None => []
end.

(** The body of [validateRow] once the shape ids and the namespaces are
  at hand: the rules push in this order. *)
Definition checkRow (shapes : list str) (nsList : list Namespace) (r : StatementRow)
  : ValidationResult :=
let prefixes := map prefix nsList in
let errors := rule3 r ++ rule4 r ++ rule6 r ++ rule7 shapes r ++ rule8 r in
let warnings := rule1 r ++ rule2 prefixes r ++ rule5 r in
mkResult (Nat.eqb (length errors) 0) errors warnings.

(** [validateRow]: [existingShapes || shapeService.list(...)], and the
  same for the namespaces (an array, also an empty one, is truthy). *)
Definition validateRow (r : StatementRow) (existingShapes : option (list str))
  (namespaces : option (list Namespace)) : M ValidationResult :=
let* shapes :=
  match existingShapes with
  | Some l => ret l
  | None => let* ss := shapeService.list in ret (map shapeId ss)
  end in
let* nsList :=
  match namespaces with
  | Some l => ret l
  | None => namespaceService.list
  end in
ret (checkRow shapes nsList r).

Definition at_row (i : nat) (e : ValidationError) : ValidationError :=
mkError (Some i) (column e) (message e) (severity e).

(** The loop of [validateShape], from row index [i]. *)
Fixpoint validateRows (shapes : list str) (namespaces : list Namespace)
  (rows : list StatementRow) (i : nat)
  (allErrors allWarnings : list ValidationError)
  : M (list ValidationError * list ValidationError) :=
match rows with
| [] => ret (allErrors, allWarnings)
| r :: rest =>
    let* result := validateRow r (Some shapes) (Some namespaces) in
    validateRows shapes namespaces rest (S i)
      (allErrors ++ map (at_row i) (errors result))
      (allWarnings ++ map (at_row i) (warnings result))
end.

Definition validateShape (rows : list StatementRow) : M ValidationResult :=
let* ss := shapeService.list in
let shapes := map shapeId ss in
let* namespaces := namespaceService.list in
let* all := validateRows shapes namespaces rows 0 [] [] in
ret (mkResult (Nat.eqb (length (fst all)) 0) (fst all) (snd all)).

End Validation.


(** *** Notions for the further properties *)

(** The key under which [importToWorkspace] groups a parsed row. *)
Definition shapeKey (r : Csv.ParsedRow) : str := or_else (Csv.Parsed.shapeID r) "default".

(** The number of rows in a list of groups. *)
Definition rowsOfGroups (groups : list (str * Csv.Group)) : nat :=
  list_sum (map (fun kg => length (Csv.g_rows (snd kg))) groups).

(** The namespace [importToWorkspace] creates for an unknown prefix. *)
Definition placeholder (pfx : str) : Namespace :=
  mkNamespace pfx (lit "http://example.org/" ++ pfx ++ lit "/").

(** A character of a table name: [a-z], [0-9] or [_]. *)
Definition is_table_char (c : ascii) : bool :=
  let n := nat_of_ascii c in
  ((97 <=? n)%nat && (n <=? 122)%nat) || ((48 <=? n)%nat && (n <=? 57)%nat)
  || (n =? 95)%nat.

(** The shape [id] is named, as the whole cell, by a [valueShape] of
    the row table of [s]. *)
Definition usesShape (db : Db) (id : str) (s : Shape) : bool :=
  negb (bool_decide (shapeId s = id))
  && existsb (fun r => bool_decide (valueShape r = Some id))
       (default [] (tables db !! tableName (shapeId s))).

(** The row a copy stores for a source row: the row order kept, an
    empty string stored as [null]. *)
Definition storedCopy (r : StatementRow) : StatementRow :=
  storedRow (rowOrder r) (copyRequest r).

(** A CSV file with a full URI and two unknown prefixes. *)
Definition unknown_prefix_csv : str :=
  Str.join [Str.nl]
    [ lit "shapeID,propertyID,propertyLabel";
      lit "Book,ex:title,Title";
      lit "Book,http://purl.org/dc/terms/creator,Creator";
      lit ",my:shelf,Shelf";
      lit "Person,ex:name,Name";
      lit "Person,foaf:mbox,Mail" ].

(** The database after [shapeService.delete] removed the shape [id]. *)
Definition without_shape (id : str) (db : Db) : Db :=
  mkDb (db_name db) (namespaces db) (folders db) (folder_seq db)
    (List.filter (fun s => negb (bool_decide (shapeId s = id))) (shapes db))
    (base.delete (tableName id) (tables db)) (useLCColumns db).

(** Two workspaces: the library and a new, empty one. *)
Definition two_workspaces : World :=
  <[lit "ws-library" := library_db]> (<[lit "ws-new" := initializeWorkspaceDb "New"]> ∅).

(** The type an export gives back for a property template that an
    import stored: [list] comes back as [resource], and a [resource],
    [list] or [lookup] without any reference comes back as [literal]. *)
Definition returnedType (p : Marva.PT.t) : Marva.PropertyType :=
  let vc := default Marva.VC.empty (Marva.PT.valueConstraint p) in
  match Marva.PT.type p with
  | Marva.literal => Marva.literal
  | Marva.resource | Marva.list_ =>
      match Marva.flattenCommas (Marva.VC.valueTemplateRefs vc) with
      | [] => Marva.literal
      | _ :: _ => Marva.resource
      end
  | Marva.lookup =>
      match Marva.flattenCommas (Marva.VC.useValuesFrom vc) with
      | [] => Marva.literal
      | _ :: _ => Marva.lookup
      end
  end.

(** A property template of type [list] with two component references,
    one of them in the comma-separated form. *)
Definition list_property : Marva.PT.t :=
  Marva.PT.mk "http://id.loc.gov/ontologies/bibframe/title" "Title" "true" "true"
    Marva.list_ None
    (Some (Marva.VC.mk [lit "lc:RT:bf2:Title, lc:RT:bf2:VarTitle"; lit "lc:RT:bf2:ParTitle"]
             [] [] None None)).

(** The findings [validateShape] collects for [rows], numbered from
    [i]: those of each row, in row order, tagged with its index. *)
Fixpoint rowFindings (pick : Validation.ValidationResult -> list Validation.ValidationError)
    (shapes : list str) (namespaces : list Namespace) (rows : list StatementRow) (i : nat)
    : list Validation.ValidationError :=
  match rows with
  | [] => []
  | r :: rest =>
      map (Validation.at_row i) (pick (Validation.checkRow shapes namespaces r))
      ++ rowFindings pick shapes namespaces rest (S i)
  end.

(** A row with the node type [IRI], a datatype and a shape reference. *)
Definition conflicting_row : StatementRow :=
  mkRow 0 (Some (lit "dcterms:creator")) (Some (lit "Creator")) None None
    (Some (lit "IRI")) (Some (lit "xsd:string")) (Some (lit "Person")) None None None None
    None None None.

(** * Properties *)

Section StrFacts.

Lemma startsWith_app (s p : str) :
  Str.startsWith s p = true -> s = p ++ drop (length p) s.
Proof.
  revert s. induction p as [|a p IH]; intros s H; simpl in *.
  - reflexivity.
  - destruct s as [|b s]; [discriminate|].
    apply andb_true_iff in H as [Hab Hs].
    apply Ascii.eqb_eq in Hab. subst b. simpl.
    f_equal. apply IH, Hs.
Qed.

Lemma indexOf_app_fresh (c : ascii) (p l : str) :
  ~ In c p -> Str.indexOf c (p ++ c :: l) = Some (length p).
Proof.
  induction p as [|a p IH]; intros Hn; simpl.
  - rewrite Ascii.eqb_refl. reflexivity.
  - destruct (Ascii.eqb_spec a c) as [->|Hne].
    + exfalso. apply Hn. left. reflexivity.
    + rewrite IH; [reflexivity|]. intros Hin. apply Hn. right. exact Hin.
Qed.

Lemma find_prefix_unique (nss : list Namespace) (ns : Namespace) :
  NoDup (map prefix nss) -> In ns nss ->
  List.find (fun n => bool_decide (prefix n = prefix ns)) nss = Some ns.
Proof.
  induction nss as [|n nss IH]; intros Hnd Hin; [destruct Hin|].
  simpl in *. apply NoDup_cons in Hnd as [Hnotin Hnd'].
  destruct Hin as [->|Hin].
  - rewrite bool_decide_eq_true_2 by reflexivity. reflexivity.
  - rewrite bool_decide_eq_false_2.
    + apply IH; assumption.
    + intros Heq. apply Hnotin. rewrite Heq.
      apply list_elem_of_In. apply in_map. exact Hin.
Qed.

End StrFacts.

(** ** Namespace resolver *)

Section NamespaceResolver.

Lemma prefixUri_first (uri : str) (nss : list Namespace) (ns : Namespace) :
  List.find (fun n => Str.startsWith uri (namespace n)) nss = Some ns ->
  Ns.prefixUri uri nss
  = prefix ns ++ lit ":" ++ drop (length (namespace ns)) uri
  /\ In ns nss /\ Str.startsWith uri (namespace ns) = true.
Proof.
  induction nss as [|n nss IH]; simpl; [discriminate|].
  destruct (Str.startsWith uri (namespace n)) eqn:E.
  - intros [= <-]. rewrite E. auto.
  - intros H. destruct (IH H) as (? & ? & ?). auto.
Qed.

(** C4 (as amended). Compressing a URI with its first matching
    namespace and expanding the result gives the URI back, provided
    the prefixes of the table are unique, the matched prefix holds no
    colon, and the compressed form holds no [://]. A value that holds
    [://] is returned unchanged by [expandUri], whatever the table: so
    is a compressed form that holds it. With an empty table
    [prefixUri] is the identity. *)
Theorem expand_prefix_roundtrip (uri : str) (nss : list Namespace) (ns : Namespace) :
  List.find (fun n => Str.startsWith uri (namespace n)) nss = Some ns ->
  NoDup (map prefix nss) ->
  ~ In Str.colon (prefix ns) ->
  (Str.includes (Ns.prefixUri uri nss) "://" = false ->
   Ns.expandUri (Ns.prefixUri uri nss) nss = uri)
  /\ (Str.includes (Ns.prefixUri uri nss) "://" = true ->
      Ns.expandUri (Ns.prefixUri uri nss) nss = Ns.prefixUri uri nss)
  /\ (forall (value : str) (table : list Namespace),
        Str.includes value "://" = true -> Ns.expandUri value table = value)
  /\ Ns.prefixUri uri [] = uri.
Proof.
  intros Hfind Hnd Hcolon.
  assert (Hguard : forall (value : str) (table : list Namespace),
             Str.includes value "://" = true -> Ns.expandUri value table = value).
  { intros value table H. unfold Ns.expandUri.
    destruct (Str.indexOf Str.colon value); [|reflexivity]. rewrite H. reflexivity. }
  split; [|split; [apply Hguard|split; [exact Hguard|reflexivity]]].
  intros Hinc.
  destruct (prefixUri_first _ _ _ Hfind) as (Hp & Hin & Hsw).
  unfold Ns.expandUri. rewrite Hinc. rewrite Hp.
  change (lit ":" ++ ?l) with (Str.colon :: l).
  rewrite indexOf_app_fresh by exact Hcolon.
  rewrite take_app_length.
  rewrite find_prefix_unique by assumption.
  rewrite drop_app_add'; [|reflexivity]. simpl.
  symmetry. apply startsWith_app, Hsw.
Qed.

Lemma expand_prefix_roundtrip_witness :
  Ns.expandUri (Ns.prefixUri "http://purl.org/dc/terms/title" DEFAULT_NAMESPACES)
    DEFAULT_NAMESPACES = lit "http://purl.org/dc/terms/title"
  /\ Ns.prefixUri "http://purl.org/dc/terms/title" [] = lit "http://purl.org/dc/terms/title".
Proof.
  destruct (expand_prefix_roundtrip "http://purl.org/dc/terms/title" DEFAULT_NAMESPACES
              (mkNamespace "dcterms" "http://purl.org/dc/terms/"))
    as (Hback & _ & _ & Hempty).
  - reflexivity.
  - apply (bool_decide_unpack _). vm_compute. exact I.
  - intros H. vm_compute in H. intuition discriminate.
  - split; [apply Hback; vm_compute; reflexivity|exact Hempty].
Defined.

(** C4 (as stated) fails: a URI under a known namespace whose local part
    itself holds [://] is compressed, and [expandUri] then returns the
    compressed form unchanged. *)
Lemma expand_prefix_roundtrip_fails :
  let uri : str := "http://purl.org/dc/terms/relation?to=http://example.org/a" in
  (exists ns, In ns DEFAULT_NAMESPACES /\ Str.startsWith uri (namespace ns) = true)
  /\ Ns.prefixUri uri DEFAULT_NAMESPACES = lit "dcterms:relation?to=http://example.org/a"
  /\ Ns.expandUri (Ns.prefixUri uri DEFAULT_NAMESPACES) DEFAULT_NAMESPACES <> uri.
Proof.
  split; [|split].
  - exists (mkNamespace "dcterms" "http://purl.org/dc/terms/").
    split; [|reflexivity]. simpl. tauto.
  - reflexivity.
  - vm_compute. discriminate.
Qed.

End NamespaceResolver.

(** ** Marva export: type inference and multi-value decoding *)

Section MarvaExport.

(** The precedence of the type inference in a document built from a
    profile shape. *)
Lemma rowToProperty_type (nss : list Namespace) (r : StatementRow) :
  Marva.PT.type (Marva.rowToProperty nss r) =
    if Marva.is_ (valueNodeType r) "literal" then Marva.literal
    else if Marva.is_ (valueNodeType r) "bnode" && is_truthy (valueShape r) then Marva.resource
    else if Marva.is_ (valueConstraintType r) "IRIstem" && is_truthy (valueConstraint r)
    then Marva.lookup
    else if is_truthy (valueShape r) then Marva.resource
    else Marva.literal.
Proof.
  unfold Marva.rowToProperty.
  repeat match goal with |- context [if ?b then _ else _] => destruct b end; reflexivity.
Qed.

(** A non-bnode row with both a [valueShape] and an [IRIstem] constraint
    is a lookup on both paths. *)
Lemma lookup_wins_over_bare_valueShape (nss : list Namespace) (r : StatementRow) :
  Marva.is_ (valueNodeType r) "literal" = false ->
  Marva.is_ (valueNodeType r) "bnode" = false ->
  Marva.is_ (valueConstraintType r) "IRIstem" = true ->
  is_truthy (valueConstraint r) = true ->
  Marva.PT.type (Marva.rowToProperty nss r) = Marva.lookup
  /\ Marva.PT.type (Marva.rowToPropertyFallback nss r) = Marva.lookup.
Proof.
  intros H1 H2 H3 H4. unfold Marva.rowToProperty, Marva.rowToPropertyFallback.
  rewrite H1, H2, H3, H4. simpl. split; reflexivity.
Qed.

(** C3. In a workspace without profile shapes the single fallback
    document is built; there a row with a bare [valueShape] (node type
    [IRI], no constraint) is exported as [literal] with no template
    references, where the precedence of the claim, and the same row in a
    document built from a profile shape, gives [resource]. *)
Theorem fallback_export_drops_bare_valueShape (env : Marva.Env) :
  Csv.importToWorkspace bare_valueShape_csv "Library" "ws-1" ∅
  = Ok (Csv.mkImportResult true (Some (lit "ws-1")) (Some 2) (Some 2) None None None,
        <[lit "ws-1" := library_db]> ∅)
  /\ rowService.list "Book" library_db = Ok ([book_row], library_db)
  /\ (exists docs,
        Marva.exportMarvaProfiles env library_db = Ok (docs, library_db)
        /\ Marva.propertySummary docs =
             [ (lit "Book", [ (lit "http://purl.org/dc/terms/creator", Marva.literal, []) ]);
               (lit "Person", [ (lit "http://xmlns.com/foaf/0.1/name", Marva.literal, []) ]) ])
  /\ Marva.PT.type (Marva.rowToPropertyFallback DEFAULT_NAMESPACES book_row) = Marva.literal
  /\ Marva.PT.type (Marva.rowToProperty DEFAULT_NAMESPACES book_row) = Marva.resource.
Proof.
  split; [vm_compute; reflexivity|].
  split; [vm_compute; reflexivity|].
  split.
  - destruct (Marva.exportMarvaProfiles env library_db) as [[docs db]|e] eqn:H;
      vm_compute in H; [|discriminate].
    injection H as <- <-. eexists. split; [reflexivity|]. vm_compute. reflexivity.
  - split; vm_compute; reflexivity.
Qed.

(** C5. The editor and the validator decode a multi-valued cell on
    comma, pipe and newline; the Marva exporter splits [valueShape] and
    [valueConstraint] on newline only. A [valueShape] holding two ids
    joined by a pipe, as the editor stores them, is exported as one
    template reference. *)
Theorem marva_export_splits_on_newline_only (env : Marva.Env) :
  getMultilineValues (Some mixed_delimiters) = [lit "A"; lit "B"; lit "C"; lit "D"]
  /\ Marva.splitNewlines mixed_delimiters = [lit "A,B|C"; lit "D"]
  /\ Csv.importToWorkspace piped_valueShape_csv "Profiles" "ws-1" ∅
     = Ok (Csv.mkImportResult true (Some (lit "ws-1")) (Some 2) (Some 2) None None None,
           <[lit "ws-1" := profile_db]> ∅)
  /\ getMultilineValues (valueShape title_row) = [lit "Title"; lit "VariantTitle"]
  /\ (exists docs,
        Marva.exportMarvaProfiles env profile_db = Ok (docs, profile_db)
        /\ Marva.propertySummary docs =
             [ (lit "Work", [ (lit "http://id.loc.gov/ontologies/bibframe/title",
                               Marva.resource, [lit "Title|VariantTitle"]) ]) ]).
Proof.
  split; [vm_compute; reflexivity|].
  split; [vm_compute; reflexivity|].
  split; [vm_compute; reflexivity|].
  split; [vm_compute; reflexivity|].
  destruct (Marva.exportMarvaProfiles env profile_db) as [[docs db]|e] eqn:H;
    vm_compute in H; [|discriminate].
  injection H as <- <-. eexists. split; [reflexivity|]. vm_compute. reflexivity.
Qed.

End MarvaExport.

(** ** Running store operations *)

Section StoreRuns.

Lemma bind_Ok {A B : Type} (m : M A) (k : A -> M B) (db db' : Db) (a : A) :
  m db = Ok (a, db') -> bind m k db = k a db'.
Proof. intros H. unfold bind. rewrite H. reflexivity. Qed.

Lemma bind_Err {A B : Type} (m : M A) (k : A -> M B) (db : Db) (e : error) :
  m db = Err e -> bind m k db = Err e.
Proof. intros H. unfold bind. rewrite H. reflexivity. Qed.

Lemma bind_Ok_inv {A B : Type} (m : M A) (k : A -> M B) (db db'' : Db) (b : B) :
  bind m k db = Ok (b, db'') ->
  exists a db', m db = Ok (a, db') /\ k a db' = Ok (b, db'').
Proof.
  unfold bind. destruct (m db) as [[a db']|e]; [|discriminate].
  intros H. exists a, db'. auto.
Qed.

End StoreRuns.

(** ** CSV import: malformed input and the required columns *)

Section CsvHeader.

Lemma lookup_mapping_propertyId (n : str) :
  Csv.lookup_mapping n = Some Csv.PropertyId <-> n = lit "propertyid".
Proof.
  split.
  - unfold Csv.lookup_mapping, Csv.COLUMN_MAPPINGS. simpl.
    repeat (case_bool_decide; [simpl; intros; try discriminate; subst; reflexivity|]).
    discriminate.
  - intros ->. reflexivity.
Qed.

Lemma lookup_mapping_shapeID (n : str) :
  Csv.lookup_mapping n = Some Csv.ShapeID <-> n = lit "shapeid".
Proof.
  split.
  - unfold Csv.lookup_mapping, Csv.COLUMN_MAPPINGS. simpl.
    repeat (case_bool_decide; [simpl; intros; try discriminate; subst; reflexivity|]).
    discriminate.
  - intros ->. reflexivity.
Qed.

Lemma column_eqb_eq (a b : Csv.column) : Csv.column_eqb a b = true <-> a = b.
Proof. destruct a, b; simpl; split; intros; congruence. Qed.

Lemma has_column_cons (c c' : Csv.column) (i : nat) (acc : Csv.columnIndices) :
  Csv.has_column ((c', i) :: acc) c = true <-> c' = c \/ Csv.has_column acc c = true.
Proof.
  unfold Csv.has_column, Csv.index_of. simpl.
  destruct (Csv.column_eqb c' c) eqn:E.
  - apply column_eqb_eq in E. simpl. tauto.
  - assert (c' <> c) by (intros ->; rewrite (proj2 (column_eqb_eq c c)) in E; congruence).
    tauto.
Qed.

(** A column is indexed exactly when some header cell maps to it. *)
Lemma has_column_headerIndices (hs : list str) (i : nat) (acc : Csv.columnIndices)
    (c : Csv.column) :
  Csv.has_column (Csv.headerIndices hs i acc) c = true <->
  Csv.has_column acc c = true
  \/ exists h, In h hs /\ Csv.lookup_mapping (Csv.normalizeHeader h) = Some c.
Proof.
  revert i acc. induction hs as [|h hs IH]; intros i acc; simpl.
  - split; [auto|]. intros [H|(h & [] & _)]. exact H.
  - destruct (Csv.lookup_mapping (Csv.normalizeHeader h)) as [m|] eqn:E.
    + rewrite IH, has_column_cons. split.
      * intros [[->|H]|(h' & Hin & Hm)]; eauto 6.
      * intros [H|(h' & [<-|Hin] & Hm)]; eauto 6.
        left. left. congruence.
    + rewrite IH. split.
      * intros [H|(h' & Hin & Hm)]; eauto 6.
      * intros [H|(h' & [<-|Hin] & Hm)]; eauto 6. congruence.
Qed.

Lemma required_columns_spec (cells : list str) :
  let cols := Csv.headerIndices cells 0 [] in
  negb (Csv.has_column cols Csv.PropertyId) && negb (Csv.has_column cols Csv.ShapeID) = false
  <-> namesRequiredColumn cells.
Proof.
  intros cols. unfold namesRequiredColumn.
  rewrite andb_false_iff, !negb_false_iff. subst cols.
  rewrite !has_column_headerIndices. split.
  - intros [[H|(h & Hin & Hm)]|[H|(h & Hin & Hm)]]; try discriminate H.
    + exists h. split; [exact Hin|]. left. apply lookup_mapping_propertyId, Hm.
    + exists h. split; [exact Hin|]. right. apply lookup_mapping_shapeID, Hm.
  - intros (h & Hin & [Hn|Hn]).
    + left. right. exists h. split; [exact Hin|]. apply lookup_mapping_propertyId, Hn.
    + right. right. exists h. split; [exact Hin|]. apply lookup_mapping_shapeID, Hn.
Qed.

(** C9. When the input has no line with content, or its header names
    neither a [propertyID] nor a [shapeID] column, [parseCSV] fails with
    one error and no rows, and [importToWorkspace] returns that error
    and leaves every workspace as it was. *)
Theorem import_rejects_malformed_input (content : str) :
  malformed content ->
  Csv.success (Csv.parseCSV content) = false
  /\ Csv.rows (Csv.parseCSV content) = None
  /\ (exists msg, Csv.errors (Csv.parseCSV content) = Some [Csv.mkError None msg "error"]
                  /\ (headerCells content = None -> msg = lit "Empty file"))
  /\ forall (workspaceName uuid : str) (w : World),
       Csv.importToWorkspace content workspaceName uuid w
       = Ok (Csv.mkImportResult false None None None
               (Csv.errors (Csv.parseCSV content)) None None, w).
Proof.
  unfold malformed, headerCells, Csv.importToWorkspace, Csv.parseCSV.
  destruct (Csv.contentLines content) as [|header rest].
  - intros _. simpl. repeat split; eauto.
  - intros Hno. cbv zeta.
    destruct (negb (Csv.has_column _ Csv.PropertyId) && negb (Csv.has_column _ Csv.ShapeID))
      eqn:E.
    + simpl. repeat split; eauto. eexists. split; [reflexivity|discriminate].
    + exfalso. apply Hno. apply required_columns_spec. exact E.
Qed.

Lemma import_rejects_malformed_input_witness :
  Csv.success (Csv.parseCSV no_required_columns_csv) = false
  /\ Csv.rows (Csv.parseCSV no_required_columns_csv) = None
  /\ (exists msg, Csv.errors (Csv.parseCSV no_required_columns_csv)
                  = Some [Csv.mkError None msg "error"]
                  /\ (headerCells no_required_columns_csv = None -> msg = lit "Empty file"))
  /\ forall (workspaceName uuid : str) (w : World),
       Csv.importToWorkspace no_required_columns_csv workspaceName uuid w
       = Ok (Csv.mkImportResult false None None None
               (Csv.errors (Csv.parseCSV no_required_columns_csv)) None None, w).
Proof.
  apply (import_rejects_malformed_input no_required_columns_csv).
  unfold malformed. change (headerCells no_required_columns_csv)
    with (Some [lit "name"; lit "age"]).
  intros (h & Hin & Hn). simpl in Hin.
  destruct Hin as [<-|[<-|[]]]; vm_compute in Hn; destruct Hn; discriminate.
Defined.

End CsvHeader.

(** ** Running the store operations *)

Section StoreOperations.

Lemma existsb_shapeId_false (db : Db) (id : str) :
  ~ In id (shapeIds db) ->
  existsb (fun s => bool_decide (shapeId s = id)) (shapes db) = false.
Proof.
  unfold shapeIds. intros Hn. apply not_true_is_false. intros H.
  apply existsb_exists in H as (s & Hin & Heq).
  apply bool_decide_eq_true_1 in Heq. apply Hn. subst id. apply in_map, Hin.
Qed.

Lemma shape_create_run (db : Db) (id : str) (label uri : option str)
    (folder : option nat) (descr : option str) :
  ~ In id (shapeIds db) ->
  let sh := mkShape id (or_null label) (or_null descr) (or_null uri) folder in
  shapeService.create id label uri folder descr db = Ok (sh, with_shape sh db).
Proof.
  intros Hn sh. unfold shapeService.create, bind, get_db.
  rewrite existsb_shapeId_false by exact Hn.
  unfold put_db, createShapeTable, bind, get_db, with_shape. simpl.
  destruct (tables db !! tableName id); reflexivity.
Qed.

Lemma shape_create_dup (db : Db) (id : str) (label uri : option str)
    (folder : option nat) (descr : option str) :
  In id (shapeIds db) ->
  shapeService.create id label uri folder descr db
  = Err (UniqueConstraint "_shapes.shape_id").
Proof.
  intros Hin. unfold shapeService.create, bind, get_db.
  replace (existsb _ (shapes db)) with true; [reflexivity|].
  symmetry. apply existsb_exists. unfold shapeIds in Hin.
  apply in_map_iff in Hin as (s & Hs & Hin). exists s. split; [exact Hin|].
  apply bool_decide_eq_true_2, Hs.
Qed.

Lemma row_create_run (db : Db) (shape : str) (data : Req.t) (rows : list StatementRow) :
  tables db !! tableName shape = Some rows ->
  let row := storedRow (nextOrder data rows) data in
  rowService.create shape data db = Ok (row, with_row shape row db).
Proof.
  intros Ht row. unfold rowService.create, bind, get_db, with_row. rewrite Ht. reflexivity.
Qed.

Lemma with_shape_ids (sh : Shape) (db : Db) :
  shapeIds (with_shape sh db) = shapeIds db ++ [shapeId sh].
Proof. unfold shapeIds, with_shape. simpl. rewrite map_app. reflexivity. Qed.

Lemma with_shape_has_table (sh : Shape) (db : Db) :
  has_table (with_shape sh db) (shapeId sh).
Proof.
  unfold has_table, with_shape. simpl.
  destruct (tables db !! tableName (shapeId sh)) eqn:E.
  - rewrite E. eauto.
  - rewrite lookup_insert_eq. eauto.
Qed.

Lemma with_shape_keeps_tables (sh : Shape) (db : Db) (id : str) :
  has_table db id -> has_table (with_shape sh db) id.
Proof.
  unfold has_table, with_shape. simpl. intros H.
  destruct (tables db !! tableName (shapeId sh)) eqn:E; [exact H|].
  destruct (decide (tableName (shapeId sh) = tableName id)) as [Heq|Hne].
  - rewrite Heq, lookup_insert_eq. eauto.
  - rewrite lookup_insert_ne by exact Hne. exact H.
Qed.

Lemma with_row_keeps_tables (shape : str) (row : StatementRow) (db : Db) (id : str) :
  has_table db id -> has_table (with_row shape row db) id.
Proof.
  unfold has_table, with_row. simpl. intros H.
  destruct (decide (tableName shape = tableName id)) as [Heq|Hne].
  - rewrite Heq, lookup_insert_eq. eauto.
  - rewrite lookup_insert_ne by exact Hne. exact H.
Qed.

End StoreOperations.

(** ** CSV import never fails once the header is accepted *)

Section CsvImportSucceeds.

Lemma rowStep_errors (cols : Csv.columnIndices) (d : ascii) (st : Csv.LoopState)
    (i : nat) (line : str) :
  Csv.out_errors (Csv.rowStep cols d st i line) = Csv.out_errors st.
Proof.
  unfold Csv.rowStep.
  repeat match goal with
         | |- context [if ?b then _ else _] => destruct b
         end; reflexivity.
Qed.

Lemma rowLoop_errors (cols : Csv.columnIndices) (d : ascii) (lines : list str)
    (i : nat) (st : Csv.LoopState) :
  Csv.out_errors (Csv.rowLoop cols d lines i st) = Csv.out_errors st.
Proof.
  revert i st. induction lines as [|l lines IH]; intros i st; simpl; [reflexivity|].
  rewrite IH. apply rowStep_errors.
Qed.

Lemma parseCSV_wellHeaded (content : str) :
  wellHeaded content ->
  Csv.success (Csv.parseCSV content) = true
  /\ Csv.errors (Csv.parseCSV content) = Some []
  /\ exists parsed ws, Csv.rows (Csv.parseCSV content) = Some parsed
                       /\ Csv.warnings (Csv.parseCSV content) = Some ws.
Proof.
  unfold wellHeaded, headerCells, Csv.parseCSV.
  destruct (Csv.contentLines content) as [|header rest]; [intros []|].
  intros Hreq. apply required_columns_spec in Hreq. cbv zeta in *.
  rewrite Hreq. simpl. rewrite rowLoop_errors. simpl. eauto 6.
Qed.

Lemma updateGroup_keys (gs : list (str * Csv.Group)) (k : str) (f : Csv.Group -> Csv.Group) :
  match Csv.updateGroup gs k f with
  | Some gs' => map fst gs' = map fst gs
  | None => ~ In k (map fst gs)
  end.
Proof.
  induction gs as [|[k' g] gs IH]; simpl; [tauto|].
  case_bool_decide as Hk; simpl; [reflexivity|].
  destruct (Csv.updateGroup gs k f); simpl.
  - f_equal. exact IH.
  - intros [H|H]; [congruence|tauto].
Qed.

Lemma addRow_NoDup (gs : list (str * Csv.Group)) (r : Csv.ParsedRow) :
  NoDup (map fst gs) -> NoDup (map fst (Csv.addRow gs r)).
Proof.
  intros Hnd. unfold Csv.addRow.
  match goal with |- context [Csv.updateGroup gs ?k ?f] =>
    pose proof (updateGroup_keys gs k f) as Hk; destruct (Csv.updateGroup gs k f) end.
  - rewrite Hk. exact Hnd.
  - rewrite map_app. simpl. apply NoDup_app. split; [exact Hnd|]. split.
    + intros x Hx Hx'. apply list_elem_of_In in Hx. apply list_elem_of_In in Hx'.
      simpl in Hx'. destruct Hx' as [<-|[]]. exact (Hk Hx).
    + apply NoDup_singleton.
Qed.

Lemma groupRows_NoDup (parsed : list Csv.ParsedRow) :
  NoDup (map fst (Csv.groupRows parsed)).
Proof.
  unfold Csv.groupRows.
  assert (H : forall gs, NoDup (map fst gs) -> NoDup (map fst (fold_left Csv.addRow parsed gs))).
  { induction parsed as [|r parsed IH]; intros gs Hgs; simpl; [exact Hgs|].
    apply IH, addRow_NoDup, Hgs. }
  apply H. constructor.
Qed.

Lemma inb_false (x : str) (l : list str) : inb x l = false <-> ~ In x l.
Proof.
  unfold inb. split.
  - intros H Hin. apply not_true_iff_false in H. apply H.
    apply existsb_exists. exists x. split; [exact Hin|]. apply bool_decide_eq_true_2. reflexivity.
  - intros Hn. apply not_true_is_false. intros H.
    apply existsb_exists in H as (y & Hin & Hy). apply bool_decide_eq_true_1 in Hy.
    subst y. tauto.
Qed.

Lemma checkPrefix_fresh (shapeId : str) (i : nat) (d : Req.t) (st : Csv.ImportState) :
  fresh_prefixes (Csv.unknown st) ->
  fresh_prefixes (Csv.unknown (Csv.checkPrefix shapeId i d st)).
Proof.
  intros Hf. unfold Csv.checkPrefix.
  destruct (truthy (Req.propertyId d)) as [pid|]; [|exact Hf].
  destruct (Str.indexOf Str.colon pid) as [[|n]|]; try exact Hf.
  destruct (_ || _); [exact Hf|].
  destruct (negb (inb _ Csv.knownPrefixes) && negb (inb _ (Csv.unknown st))) eqn:E;
    [|exact Hf].
  apply andb_true_iff in E as [E1 E2].
  apply negb_true_iff, inb_false in E1. apply negb_true_iff, inb_false in E2.
  destruct Hf as [Hnd Hk]. simpl. split.
  - apply NoDup_app. split; [exact Hnd|]. split; [|apply NoDup_singleton].
    intros x Hx Hx'. apply list_elem_of_In in Hx. apply list_elem_of_In in Hx'.
    destruct Hx' as [<-|[]]. exact (E2 Hx).
  - intros p Hp. apply in_app_iff in Hp as [Hp|[<-|[]]]; auto.
Qed.

Lemma importRows_run (id : str) (rows : list Req.t) (i : nat) (st : Csv.ImportState)
    (db : Db) :
  has_table db id ->
  fresh_prefixes (Csv.unknown st) ->
  exists st' db',
    Csv.importRows id rows i st db = Ok (st', db')
    /\ shapes db' = shapes db
    /\ namespaces db' = namespaces db
    /\ (forall x, has_table db x -> has_table db' x)
    /\ fresh_prefixes (Csv.unknown st')
    /\ Csv.totalRows st' = Csv.totalRows st + length rows.
Proof.
  revert i st db. induction rows as [|r rows IH]; intros i st db Ht Hf; simpl.
  - exists st, db. repeat split; auto; try apply Hf.
  - destruct Ht as [old Hold].
    erewrite bind_Ok by (apply row_create_run; exact Hold).
    edestruct (IH (S i)) as (st' & db' & Hrun & Hs & Hn & Hk & Hf' & Hc);
      [| |exists st', db'; split; [exact Hrun|]].
    + apply with_row_keeps_tables. exists old. exact Hold.
    + simpl. apply checkPrefix_fresh, Hf.
    + split; [exact Hs|]. split; [exact Hn|].
      split; [intros x Hx; apply Hk, with_row_keeps_tables, Hx|].
      split; [exact Hf'|].
      rewrite Hc. simpl.
      assert (Csv.totalRows (Csv.checkPrefix id i r st) = Csv.totalRows st).
      { unfold Csv.checkPrefix.
        repeat match goal with
               | |- context [match ?x with _ => _ end] => destruct x
               end; reflexivity. }
      lia.
Qed.

Lemma importShapes_run (groups : list (str * Csv.Group)) (st : Csv.ImportState) (db : Db) :
  NoDup (map fst groups) ->
  (forall k, In k (map fst groups) -> ~ In k (shapeIds db)) ->
  fresh_prefixes (Csv.unknown st) ->
  exists st' db',
    foldM Csv.importShape groups st db = Ok (st', db')
    /\ namespaces db' = namespaces db
    /\ fresh_prefixes (Csv.unknown st').
Proof.
  revert st db. induction groups as [|[id g] groups IH]; intros st db Hnd Hnew Hf; simpl.
  - exists st, db. auto.
  - simpl in Hnd, Hnew. apply NoDup_cons in Hnd as [Hid Hnd].
    rewrite list_elem_of_In in Hid.
    unfold Csv.importShape at 1.
    pose (sh := mkShape id (or_null (truthy (Csv.g_label g))) (or_null None)
                  (or_null (truthy (Csv.g_resourceURI g))) None).
    assert (Hc : shapeService.create id (truthy (Csv.g_label g))
                   (truthy (Csv.g_resourceURI g)) None None db
                 = Ok (sh, with_shape sh db)).
    { apply shape_create_run. apply Hnew. left. reflexivity. }
    destruct (importRows_run id (Csv.g_rows g) 0 st (with_shape sh db))
      as (st1 & db1 & Hrun & Hs & Hn & Hk & Hf1 & _).
    { apply (with_shape_has_table sh). }
    { exact Hf. }
    erewrite bind_Ok; [|erewrite bind_Ok by exact Hc; exact Hrun].
    destruct (IH st1 db1) as (st' & db' & Hrun' & Hn' & Hf'); auto.
    + intros k Hk' Hin. unfold shapeIds in Hin. rewrite Hs in Hin.
      fold (shapeIds (with_shape sh db)) in Hin. rewrite with_shape_ids in Hin.
      apply in_app_iff in Hin as [Hin|[<-|[]]].
      * apply (Hnew k); [right; exact Hk'|exact Hin].
      * apply Hid, Hk'.
    + exists st', db'. split; [exact Hrun'|]. split; [|exact Hf'].
      rewrite Hn', Hn. reflexivity.
Qed.

Lemma addPlaceholders_run (l : list str) (ws : list Csv.ValidationError) (db : Db) :
  NoDup l ->
  (forall p, In p l -> ~ In p (map prefix (namespaces db))) ->
  exists ws' db', foldM Csv.addPlaceholder l ws db = Ok (ws', db').
Proof.
  revert ws db. induction l as [|p l IH]; intros ws db Hnd Hnew; simpl.
  - eauto.
  - apply NoDup_cons in Hnd as [Hp Hnd]. rewrite list_elem_of_In in Hp.
    unfold Csv.addPlaceholder at 1, namespaceService.create.
    unfold bind at 1 2 3. unfold get_db at 1.
    replace (existsb _ (namespaces db)) with false.
    + simpl. apply IH; [exact Hnd|]. simpl.
      intros q Hq Hin. rewrite map_app in Hin. apply in_app_iff in Hin as [Hin|[<-|[]]].
      * apply (Hnew q); [right; exact Hq|exact Hin].
      * apply Hp, Hq.
    + symmetry. apply not_true_is_false. intros H.
      apply existsb_exists in H as (n & Hin & Hn). apply bool_decide_eq_true_1 in Hn.
      apply (Hnew p); [left; reflexivity|]. subst p. apply in_map, Hin.
Qed.

(** C10. Once the header names a [propertyID] or a [shapeID] column,
    [parseCSV] succeeds with an empty error list whatever the data
    lines hold, and [importToWorkspace], given a workspace id that is
    not in use, creates the workspace and returns success. *)
Theorem import_succeeds_once_header_accepted (content : str) :
  wellHeaded content ->
  Csv.success (Csv.parseCSV content) = true
  /\ Csv.errors (Csv.parseCSV content) = Some []
  /\ forall (workspaceName uuid : str) (w : World),
       w !! uuid = None ->
       exists r w',
         Csv.importToWorkspace content workspaceName uuid w = Ok (r, w')
         /\ Csv.i_success r = true
         /\ Csv.i_errors r = None
         /\ is_Some (w' !! uuid).
Proof.
  intros Hh. destruct (parseCSV_wellHeaded content Hh) as (Hs & He & parsed & ws & Hr & Hw).
  split; [exact Hs|]. split; [exact He|].
  intros name uuid w Hfresh. unfold Csv.importToWorkspace.
  rewrite Hs, Hr, Hw. unfold workspaceService.create. rewrite Hfresh.
  unfold in_workspace. rewrite lookup_insert_eq. simpl.
  unfold Csv.importGroups.
  destruct (importShapes_run (Csv.groupRows parsed) (Csv.mkImport [] ws 0)
              (initializeWorkspaceDb name))
    as (st & db & Hrun & Hn & Hf).
  { apply groupRows_NoDup. }
  { intros k _ []. }
  { split; [constructor|intros p []]. }
  destruct (addPlaceholders_run (Csv.unknown st) (Csv.allWarnings st) db)
    as (ws' & db' & Hrun').
  { apply Hf. }
  { rewrite Hn. apply Hf. }
  erewrite bind_Ok by exact Hrun. erewrite bind_Ok by exact Hrun'.
  unfold ret. eexists _, _. split; [reflexivity|]. simpl.
  rewrite lookup_insert_eq. eauto.
Qed.

Lemma import_succeeds_once_header_accepted_witness :
  Csv.success (Csv.parseCSV bare_valueShape_csv) = true
  /\ Csv.errors (Csv.parseCSV bare_valueShape_csv) = Some []
  /\ forall (workspaceName uuid : str) (w : World),
       w !! uuid = None ->
       exists r w',
         Csv.importToWorkspace bare_valueShape_csv workspaceName uuid w = Ok (r, w')
         /\ Csv.i_success r = true
         /\ Csv.i_errors r = None
         /\ is_Some (w' !! uuid).
Proof.
  apply (import_succeeds_once_header_accepted bare_valueShape_csv).
  unfold wellHeaded.
  change (headerCells bare_valueShape_csv)
    with (Some [lit "shapeID"; lit "propertyID"; lit "propertyLabel";
                lit "valueNodeType"; lit "valueShape"]).
  exists (lit "shapeID"). split; [simpl; tauto|]. right. reflexivity.
Defined.

End CsvImportSucceeds.

(** ** CSV import: the shape context of the parsed rows *)

Section ShapeContext.

Variable cols : Csv.columnIndices.
Variable delimiter : ascii.

Lemma truthy_idem (x : option str) : truthy (truthy x) = truthy x.
Proof. destruct x as [[|c s]|]; reflexivity. Qed.

Lemma not_truthy_None (x : option str) : is_truthy (truthy x) = false -> truthy x = None.
Proof. destruct x as [[|c s]|]; cbv; congruence. Qed.

Lemma cell_normal (values : list str) (c : Csv.column) :
  is_truthy (Csv.cell cols values c) = false -> Csv.cell cols values c = None.
Proof.
  unfold Csv.cell. destruct (Csv.index_of cols c); [|reflexivity].
  apply not_truthy_None.
Qed.

Lemma firstValue_normal (f : LineCells -> option str) (ls : list LineCells) :
  is_truthy (firstValue f ls) = false -> firstValue f ls = None.
Proof.
  induction ls as [|c ls IH]; simpl; [reflexivity|].
  destruct (is_truthy (f c)) eqn:E; [congruence|exact IH].
Qed.

Lemma firstValue_snoc (f : LineCells -> option str) (ls : list LineCells) (c : LineCells) :
  firstValue f (ls ++ [c]) =
    if is_truthy (firstValue f ls) then firstValue f ls
    else if is_truthy (f c) then f c else None.
Proof.
  induction ls as [|x ls IH]; simpl.
  - reflexivity.
  - destruct (is_truthy (f x)) eqn:E; [rewrite E; reflexivity|exact IH].
Qed.

Lemma is_truthy_or_else (x : option str) (d : str) :
  d <> [] -> is_truthy (Some (or_else x d)) = true.
Proof.
  intros Hd. destruct x as [[|c s]|], d; cbv; congruence.
Qed.

Lemma not_kept_no_id (seen : list LineCells) :
  existsb kept seen = false -> firstValue l_shapeID seen = None.
Proof.
  induction seen as [|c seen IH]; simpl; [reflexivity|].
  intros H. apply orb_false_iff in H as [Hc Hs]. unfold kept in Hc.
  apply orb_false_iff in Hc as [_ Hc]. rewrite Hc. apply IH, Hs.
Qed.

Lemma shapeLabelOf_normal (seen : list LineCells) :
  is_truthy (shapeLabelOf seen) = false -> shapeLabelOf seen = None.
Proof.
  unfold shapeLabelOf, contextValue. destruct (definingLine seen) as [d|].
  - destruct (is_truthy (l_shapeLabel d)) eqn:E; [congruence|apply firstValue_normal].
  - apply firstValue_normal.
Qed.

Lemma firstValue_explicit (c : LineCells) (seen : list LineCells) :
  is_truthy (l_shapeID c) = true ->
  or_else (firstValue l_shapeID (c :: seen)) "default" = or_else (l_shapeID c) "default"
  /\ Some (or_else (l_shapeID c) "default") = l_shapeID c.
Proof.
  simpl. intros H. rewrite H. split; [reflexivity|].
  destruct (l_shapeID c) as [[|a s]|]; try discriminate H. reflexivity.
Qed.

Lemma rowStep_context (st : Csv.LoopState) (seen : list LineCells) (i : nat) (line : str) :
  loop_context st seen ->
  let c := lineCells cols delimiter line in
  let st' := Csv.rowStep cols delimiter st i line in
  loop_context st' (c :: seen)
  /\ Csv.out_rows st' =
       Csv.out_rows st
       ++ (if kept c
           then [Csv.Parsed.mk (Some (or_else (firstValue l_shapeID (c :: seen)) "default"))
                   (shapeLabelOf (c :: seen)) (resourceURIOf (c :: seen)) (l_data c)]
           else [])
  /\ Csv.out_warnings st' =
       Csv.out_warnings st
       ++ (if kept c && negb (existsb kept seen) && negb (is_truthy (l_shapeID c))
           then [Csv.noShapeWarning (i + 1)] else []).
Proof.
  intros (Hid & Hlab & Huri) c st'.
  assert (HnL : is_truthy (l_shapeLabel c) = false -> l_shapeLabel c = None)
    by apply cell_normal.
  subst st'. unfold Csv.rowStep.
  change (Csv.cell cols (Csv.parseCSVLine line delimiter) Csv.ShapeID) with (l_shapeID c).
  change (Csv.cell cols (Csv.parseCSVLine line delimiter) Csv.ShapeLabel)
    with (l_shapeLabel c).
  change (Csv.cell cols (Csv.parseCSVLine line delimiter) Csv.ResourceURI)
    with (l_resourceURI c).
  change (Csv.rowData cols (Csv.parseCSVLine line delimiter)) with (l_data c).
  clearbody c.
  unfold loop_context, shapeLabelOf, contextValue, resourceURIOf. simpl existsb. simpl definingLine.
  simpl linesSince.
  destruct (is_truthy (l_shapeID c)) eqn:Eid.
  - (* the line names its shape *)
    destruct (firstValue_explicit c seen Eid) as [Hf1 Hf2].
    rewrite Hf1, Hf2. unfold kept at 1 2 3. rewrite Eid, orb_true_r. simpl.
    rewrite andb_false_r. simpl.
    assert (Hl : l_shapeLabel c =
                 (if is_truthy (l_shapeLabel c) then l_shapeLabel c else None)).
    { destruct (is_truthy (l_shapeLabel c)) eqn:E; auto. }
    rewrite <- Hl. rewrite andb_false_r, app_nil_r. auto.
  - (* the line inherits *)
    assert (Hk : kept c = Csv.hasData (l_data c)).
    { unfold kept. rewrite Eid. apply orb_false_r. }
    assert (Hnone : existsb kept seen = false -> firstValue l_shapeID seen = None)
      by apply not_kept_no_id.
    rewrite firstValue_snoc.
    assert (Hcur : (if is_truthy (l_shapeLabel c) && negb (is_truthy (Csv.currentShapeLabel st))
                    then l_shapeLabel c else Csv.currentShapeLabel st)
                   = match definingLine seen with
                     | Some d =>
                         if is_truthy (l_shapeLabel d) then l_shapeLabel d
                         else if is_truthy (firstValue l_shapeLabel (linesSince seen))
                              then firstValue l_shapeLabel (linesSince seen)
                              else if is_truthy (l_shapeLabel c) then l_shapeLabel c else None
                     | None =>
                         if is_truthy (firstValue l_shapeLabel (linesSince seen))
                         then firstValue l_shapeLabel (linesSince seen)
                         else if is_truthy (l_shapeLabel c) then l_shapeLabel c else None
                     end).
    { rewrite Hlab. unfold shapeLabelOf, contextValue.
      pose proof (firstValue_normal l_shapeLabel (linesSince seen)) as Hn.
      destruct (definingLine seen) as [d|].
      - destruct (is_truthy (l_shapeLabel d)) eqn:Ed.
        + rewrite Ed, andb_false_r. reflexivity.
        + destruct (is_truthy (firstValue l_shapeLabel (linesSince seen))) eqn:Ef.
          * rewrite andb_false_r. reflexivity.
          * rewrite andb_true_r. destruct (is_truthy (l_shapeLabel c)); auto.
      - destruct (is_truthy (firstValue l_shapeLabel (linesSince seen))) eqn:Ef.
        + rewrite andb_false_r. reflexivity.
        + rewrite andb_true_r. destruct (is_truthy (l_shapeLabel c)); auto. }
    simpl firstValue. rewrite Eid, Hk. unfold resourceURIOf in Huri.
    destruct (is_truthy (l_shapeLabel c) && negb (is_truthy (Csv.currentShapeLabel st)))
      eqn:Eupd;
      destruct (Csv.hasData (l_data c)) eqn:Ed;
      destruct (existsb kept seen) eqn:Ek; simpl;
      rewrite ?Hid; simpl; rewrite ?is_truthy_or_else by discriminate; simpl;
      rewrite <- ?Hcur, ?Huri, ?Hnone, ?app_nil_r by reflexivity; auto.
Qed.

Lemma rowLoop_context (lines : list str) (seen : list LineCells) (st : Csv.LoopState)
    (i : nat) :
  loop_context st seen ->
  let st' := Csv.rowLoop cols delimiter lines i st in
  Csv.out_rows st' =
    Csv.out_rows st
    ++ contextRows shapeLabelOf resourceURIOf seen (map (lineCells cols delimiter) lines)
  /\ Csv.out_warnings st' =
       Csv.out_warnings st
       ++ (if existsb kept seen then []
           else contextWarnings i (map (lineCells cols delimiter) lines)).
Proof.
  revert seen st i. induction lines as [|line lines IH]; intros seen st i Hctx.
  - simpl. rewrite !app_nil_r. destruct (existsb kept seen); rewrite ?app_nil_r; auto.
  - cbn [Csv.rowLoop map contextRows contextWarnings].
    pose proof (rowStep_context st seen i line Hctx) as Hstep. cbv zeta in Hstep.
    specialize (IH (lineCells cols delimiter line :: seen)
                  (Csv.rowStep cols delimiter st i line) (S i)).
    cbv zeta in IH. cbn [existsb] in IH.
    set (c := lineCells cols delimiter line) in *. clearbody c.
    destruct Hstep as (Hctx' & Hrows & Hwarn). destruct (IH Hctx') as [IHr IHw].
    rewrite IHr, IHw, Hrows, Hwarn. rewrite <- !app_assoc. split; [reflexivity|].
    f_equal.
    destruct (kept c) eqn:Ek; destruct (existsb kept seen) eqn:Es; simpl;
      rewrite ?app_nil_r; try reflexivity.
    destruct (is_truthy (l_shapeID c)); reflexivity.
Qed.

End ShapeContext.

Section ShapeContextClaim.

Lemma parseCSV_rows (content : str) :
  wellHeaded content ->
  Csv.rows (Csv.parseCSV content)
  = Some (contextRows shapeLabelOf resourceURIOf [] (dataCells content))
  /\ Csv.warnings (Csv.parseCSV content)
     = Some (contextWarnings 1 (dataCells content)).
Proof.
  unfold wellHeaded, headerCells, dataCells, Csv.parseCSV.
  destruct (Csv.contentLines content) as [|header rest]; [intros []|].
  intros Hreq. apply required_columns_spec in Hreq. cbv zeta in *. rewrite Hreq.
  simpl Csv.rows. simpl Csv.warnings.
  match goal with |- context [Csv.rowLoop ?cols ?d rest 1 ?st] =>
    destruct (rowLoop_context cols d rest [] st 1) as [Hr Hw] end.
  { repeat split. }
  rewrite Hr, Hw. auto.
Qed.

Lemma definingLine_In (upto : list LineCells) (c : LineCells) :
  definingLine upto = Some c -> In c upto.
Proof.
  induction upto as [|x upto IH]; simpl; [discriminate|].
  destruct (is_truthy (l_shapeID x)).
  - intros [= ->]. now left.
  - intros H. right. apply IH, H.
Qed.

Lemma linesSince_In (upto : list LineCells) (c : LineCells) :
  In c (linesSince upto) -> In c upto /\ is_truthy (l_shapeID c) = false.
Proof.
  induction upto as [|x upto IH]; simpl; [intros []|].
  destruct (is_truthy (l_shapeID x)) eqn:E; [intros []|].
  rewrite in_app_iff. intros [H|[<-|[]]].
  - destruct (IH H). auto.
  - auto.
Qed.

Lemma firstValue_None (f : LineCells -> option str) (ls : list LineCells) :
  (forall c, In c ls -> f c = None) -> firstValue f ls = None.
Proof.
  induction ls as [|x ls IH]; simpl; intros H; [reflexivity|].
  rewrite (H x) by now left. simpl. apply IH. intros c Hc. apply H. now right.
Qed.

(** Where a resource URI comes only with a shape id, the code's resource
    URI is the one the label's rule gives. *)
Lemma contextValue_resourceURI (upto : list LineCells) :
  Forall (fun c => (is_truthy (l_resourceURI c) = false -> l_resourceURI c = None)
                   /\ uriWithShapeID c = true) upto ->
  contextValue l_resourceURI upto = resourceURIOf upto.
Proof.
  intros HQ. rewrite List.Forall_forall in HQ.
  assert (Hnone : firstValue l_resourceURI (linesSince upto) = None).
  { apply firstValue_None. intros c Hc. apply linesSince_In in Hc as [Hin Hid].
    destruct (HQ c Hin) as [Hn Hu]. apply Hn. unfold uriWithShapeID in Hu.
    rewrite Hid in Hu. simpl in Hu. now apply negb_true_iff in Hu. }
  unfold contextValue, resourceURIOf. rewrite Hnone.
  destruct (definingLine upto) as [d|] eqn:Ed; [|reflexivity].
  destruct (is_truthy (l_resourceURI d)) eqn:E; [reflexivity|].
  symmetry. apply (HQ d); [apply definingLine_In, Ed|exact E].
Qed.

Lemma contextRows_uri (Q : LineCells -> Prop) (label uri uri' : list LineCells -> option str)
    (todo seen : list LineCells) :
  (forall upto, Forall Q upto -> uri upto = uri' upto) ->
  Forall Q seen -> Forall Q todo ->
  contextRows label uri seen todo = contextRows label uri' seen todo.
Proof.
  intros Hext. revert seen. induction todo as [|c todo IH]; intros seen Hs Ht; [reflexivity|].
  inversion Ht as [|? ? Hc Ht']; subst. cbn [contextRows].
  rewrite (Hext (c :: seen)) by (constructor; assumption).
  rewrite (IH (c :: seen)) by (try constructor; assumption). reflexivity.
Qed.

Lemma dataCells_normal (content : str) :
  Forall (fun c => is_truthy (l_resourceURI c) = false -> l_resourceURI c = None)
    (dataCells content).
Proof.
  unfold dataCells. destruct (Csv.contentLines content) as [|header rest]; [constructor|].
  cbv zeta. rewrite List.Forall_forall. intros c Hc. apply in_map_iff in Hc as (line & <- & _).
  apply cell_normal.
Qed.

(** C6 (as amended). Every data line that yields a row gets the shape
    id of the nearest line at or before it that has one, and [default]
    when there is none. Label and resource URI are not carried across
    shapes: each line with a shape id sets both anew, and a missing one
    is filled in by the first later line without a shape id that has one;
    this for an input whose lines give a resource URI only together with
    a shape id. One warning is produced, at the first line that yields a
    row, when that line has no shape id. *)
Theorem parseCSV_shape_context (content : str) :
  wellHeaded content ->
  forallb uriWithShapeID (dataCells content) = true ->
  Csv.rows (Csv.parseCSV content)
  = Some (contextRows (contextValue l_shapeLabel) (contextValue l_resourceURI) []
            (dataCells content))
  /\ Csv.warnings (Csv.parseCSV content)
     = Some (contextWarnings 1 (dataCells content)).
Proof.
  intros Hhead Huri. destruct (parseCSV_rows content Hhead) as [Hr Hw].
  split; [|exact Hw]. rewrite Hr. f_equal. symmetry.
  apply contextRows_uri
    with (Q := fun c => (is_truthy (l_resourceURI c) = false -> l_resourceURI c = None)
                        /\ uriWithShapeID c = true).
  - apply contextValue_resourceURI.
  - constructor.
  - rewrite forallb_forall in Huri. pose proof (dataCells_normal content) as Hn.
    rewrite List.Forall_forall in Hn |- *. intros c Hc. split; [apply Hn, Hc|apply Huri, Hc].
Qed.

End ShapeContextClaim.

Section ShapeContextExamples.

Lemma context_csv_wellHeaded : wellHeaded context_csv.
Proof.
  unfold wellHeaded.
  change (headerCells context_csv)
    with (Some [lit "shapeID"; lit "shapeLabel"; lit "resourceURI"; lit "propertyID"]).
  exists (lit "shapeID"). split; [simpl; tauto|]. right. reflexivity.
Defined.

Lemma reset_csv_wellHeaded : wellHeaded reset_csv.
Proof.
  unfold wellHeaded.
  change (headerCells reset_csv)
    with (Some [lit "shapeID"; lit "shapeLabel"; lit "resourceURI"; lit "propertyID"]).
  exists (lit "shapeID"). split; [simpl; tauto|]. right. reflexivity.
Defined.

Lemma parseCSV_shape_context_witness :
  Csv.rows (Csv.parseCSV reset_csv)
  = Some (contextRows (contextValue l_shapeLabel) (contextValue l_resourceURI) []
            (dataCells reset_csv))
  /\ Csv.warnings (Csv.parseCSV reset_csv)
     = Some (contextWarnings 1 (dataCells reset_csv)).
Proof.
  apply (parseCSV_shape_context reset_csv).
  - exact reset_csv_wellHeaded.
  - reflexivity.
Defined.

(** C6 (as stated) fails. Every line gives its resource URI together
    with a shape id. The second shape has no label and no resource URI,
    and its two rows, one with the shape id and one with a blank shape
    id cell, have neither, although the nearest line before them with a
    label and a resource URI is the first. *)
Lemma shape_context_not_independent :
  wellHeaded reset_csv
  /\ forallb uriWithShapeID (dataCells reset_csv) = true
  /\ option_map contextOf (Csv.rows (Csv.parseCSV reset_csv))
     = Some [ (Some (lit "Book"), Some (lit "Books"), Some (lit "http://example.org/Book"));
              (Some (lit "Person"), None, None);
              (Some (lit "Person"), None, None) ]
  /\ contextOf (claimedRows (dataCells reset_csv))
     = [ (Some (lit "Book"), Some (lit "Books"), Some (lit "http://example.org/Book"));
         (Some (lit "Person"), Some (lit "Books"), Some (lit "http://example.org/Book"));
         (Some (lit "Person"), Some (lit "Books"), Some (lit "http://example.org/Book")) ]
  /\ Csv.rows (Csv.parseCSV reset_csv) <> Some (claimedRows (dataCells reset_csv)).
Proof.
  split; [exact reset_csv_wellHeaded|].
  split; [reflexivity|].
  split; [vm_compute; reflexivity|].
  split; [vm_compute; reflexivity|].
  vm_compute. discriminate.
Qed.

(** A resource URI on a line without a shape id is dropped, where a label
    on the same line is taken: the loop has the fill-in branch for the
    label only. *)
Example continuation_resourceURI_dropped :
  wellHeaded context_csv
  /\ forallb uriWithShapeID (dataCells context_csv) = false
  /\ option_map contextOf (Csv.rows (Csv.parseCSV context_csv))
     = Some [ (Some (lit "default"), None, None);
              (Some (lit "default"), None, None);
              (Some (lit "Book"), None, None);
              (Some (lit "Book"), Some (lit "Books"), None);
              (Some (lit "Book"), Some (lit "Books"), None) ]
  /\ Csv.warnings (Csv.parseCSV context_csv) = Some [Csv.noShapeWarning 2].
Proof.
  split; [exact context_csv_wellHeaded|].
  repeat split; vm_compute; reflexivity.
Qed.

End ShapeContextExamples.

(** ** Marva import: the counts returned *)

Section MarvaImportCounts.

Lemma folderFor_run (st : Marva.ImportState) (id : str) (db : Db) :
  exists fid st' db',
    Marva.folderFor st id db = Ok ((fid, st'), db')
    /\ shapes db' = shapes db /\ tables db' = tables db
    /\ Marva.st_shapes st' = Marva.st_shapes st
    /\ Marva.st_rows st' = Marva.st_rows st.
Proof.
  unfold Marva.folderFor. destruct (Marva.extractFolderName id) as [name|].
  - unfold Marva.getOrCreateFolder. destruct (Marva.folderMap st !! name) as [fid|].
    + exists (Some fid), st, db. auto.
    + eexists _, _, _. split; [reflexivity|]. simpl. auto.
  - exists None, st, db. auto.
Qed.

Lemma has_table_same_tables (db db' : Db) (id : str) :
  tables db' = tables db -> has_table db id -> has_table db' id.
Proof. unfold has_table. intros ->. auto. Qed.

Lemma importProperties_run (nss : list Namespace) (rtId : str) (props : list Marva.PT.t)
    (n : nat) (st : Marva.ImportState) (db : Db) :
  has_table db rtId ->
  exists st' db',
    Marva.importProperties nss rtId props n st db = Ok (st', db')
    /\ shapes db' = shapes db
    /\ (forall x, has_table db x -> has_table db' x)
    /\ Marva.st_shapes st' = Marva.st_shapes st
    /\ Marva.st_rows st' = Marva.st_rows st + length props.
Proof.
  revert n st db. induction props as [|p props IH]; intros n st db Ht; simpl.
  - exists st, db. repeat split; auto.
  - destruct Ht as [old Hold].
    erewrite bind_Ok by (apply row_create_run; exact Hold).
    edestruct IH as (st' & db' & Hrun & Hs & Hk & Hc1 & Hc2);
      [|exists st', db'; split; [exact Hrun|]].
    + apply with_row_keeps_tables. exists old. exact Hold.
    + split; [exact Hs|]. split; [intros x Hx; apply Hk, with_row_keeps_tables, Hx|].
      split; [exact Hc1|]. rewrite Hc2. simpl. lia.
Qed.

Lemma importLinks_run (pid : str) (rtIds : list str) (n : nat) (st : Marva.ImportState)
    (db : Db) :
  has_table db pid ->
  exists st' db',
    Marva.importLinks pid rtIds n st db = Ok (st', db')
    /\ shapes db' = shapes db
    /\ (forall x, has_table db x -> has_table db' x)
    /\ Marva.st_shapes st' = Marva.st_shapes st
    /\ Marva.st_rows st' = Marva.st_rows st + length rtIds.
Proof.
  revert n st db. induction rtIds as [|r rtIds IH]; intros n st db Ht; simpl.
  - exists st, db. repeat split; auto.
  - destruct Ht as [old Hold].
    erewrite bind_Ok by (apply row_create_run; exact Hold).
    edestruct IH as (st' & db' & Hrun & Hs & Hk & Hc1 & Hc2);
      [|exists st', db'; split; [exact Hrun|]].
    + apply with_row_keeps_tables. exists old. exact Hold.
    + split; [exact Hs|]. split; [intros x Hx; apply Hk, with_row_keeps_tables, Hx|].
      split; [exact Hc1|]. rewrite Hc2. simpl. lia.
Qed.

Lemma importResourceTemplate_run (nss : list Namespace) (st : Marva.ImportState)
    (rt : Marva.RT.t) (db : Db) :
  ~ In (Marva.RT.id rt) (shapeIds db) ->
  exists st' db',
    Marva.importResourceTemplate nss st rt db = Ok (st', db')
    /\ shapeIds db' = shapeIds db ++ [Marva.RT.id rt]
    /\ (forall x, has_table db x -> has_table db' x)
    /\ Marva.st_shapes st' = S (Marva.st_shapes st)
    /\ Marva.st_rows st' = Marva.st_rows st + length (Marva.RT.propertyTemplates rt).
Proof.
  intros Hnew. unfold Marva.importResourceTemplate.
  destruct (folderFor_run st (Marva.RT.id rt) db)
    as (fid & st1 & db1 & Hf & Hs1 & Ht1 & Hc1 & Hr1).
  erewrite bind_Ok by exact Hf. cbv beta iota zeta.
  erewrite bind_Ok;
    [|apply shape_create_run; unfold shapeIds; rewrite Hs1; exact Hnew].
  match goal with |- context [with_shape ?x db1] => set (sh := x) end.
  destruct (importProperties_run nss (Marva.RT.id rt) (Marva.RT.propertyTemplates rt) 0
              (Marva.mkState (S (Marva.st_shapes st1)) (Marva.st_rows st1)
                 (Marva.folderMap st1)) (with_shape sh db1))
    as (st' & db' & Hrun & Hs & Hk & Hc1' & Hc2').
  { apply (with_shape_has_table sh). }
  exists st', db'. split; [exact Hrun|].
  split.
  { unfold shapeIds. rewrite Hs. fold (shapeIds (with_shape sh db1)).
    rewrite with_shape_ids. unfold shapeIds. rewrite Hs1. reflexivity. }
  split.
  { intros x Hx. apply Hk, with_shape_keeps_tables.
    apply (has_table_same_tables db db1); assumption. }
  simpl in Hc1', Hc2'. split; [congruence|]. rewrite Hc2', Hr1. reflexivity.
Qed.

Lemma importResourceTemplates_run (nss : list Namespace) (rts : list Marva.RT.t)
    (st : Marva.ImportState) (db : Db) :
  NoDup (map Marva.RT.id rts) ->
  (forall id, In id (map Marva.RT.id rts) -> ~ In id (shapeIds db)) ->
  exists st' db',
    foldM (Marva.importResourceTemplate nss) rts st db = Ok (st', db')
    /\ shapeIds db' = shapeIds db ++ map Marva.RT.id rts
    /\ (forall x, has_table db x -> has_table db' x)
    /\ Marva.st_shapes st' = Marva.st_shapes st + length rts
    /\ Marva.st_rows st' = Marva.st_rows st + propertyCountOf rts.
Proof.
  revert st db. induction rts as [|rt rts IH]; intros st db Hnd Hnew; simpl.
  - exists st, db. rewrite app_nil_r. unfold propertyCountOf. simpl.
    repeat split; auto.
  - simpl in Hnd, Hnew. apply NoDup_cons in Hnd as [Hid Hnd].
    rewrite list_elem_of_In in Hid.
    destruct (importResourceTemplate_run nss st rt db)
      as (st1 & db1 & Hrun1 & Hids1 & Hk1 & Hc1 & Hr1).
    { apply Hnew. left. reflexivity. }
    destruct (IH st1 db1 Hnd) as (st' & db' & Hrun & Hids & Hk & Hc & Hr).
    { intros id Hin Hin'. rewrite Hids1 in Hin'.
      apply in_app_iff in Hin' as [Hin'|[<-|[]]].
      - apply (Hnew id); [right; exact Hin|exact Hin'].
      - apply Hid, Hin. }
    erewrite bind_Ok by exact Hrun1. exists st', db'. split; [exact Hrun|].
    split; [rewrite Hids, Hids1, <- app_assoc; reflexivity|].
    split; [intros x Hx; apply Hk, Hk1, Hx|].
    unfold propertyCountOf in *. simpl. split; lia.
Qed.

Lemma importDocument_run (nss : list Namespace) (st : Marva.ImportState)
    (doc : Marva.Doc.t) (db : Db) :
  NoDup (importedShapeIds [doc]) ->
  (forall id, In id (importedShapeIds [doc]) -> ~ In id (shapeIds db)) ->
  exists st' db',
    Marva.importDocument nss st doc db = Ok (st', db')
    /\ shapeIds db' = shapeIds db ++ importedShapeIds [doc]
    /\ Marva.st_shapes st' = Marva.st_shapes st + length (profilesOf [doc]) + templateCount [doc]
    /\ Marva.st_rows st' = Marva.st_rows st + propertyCount [doc] + templateCount [doc].
Proof.
  unfold importedShapeIds, profilesOf, templateCount, propertyCount, Marva.importDocument.
  simpl. destruct (Marva.Doc.Profile doc) as [p|]; simpl.
  - rewrite !app_nil_r. intros Hnd Hnew.
    apply NoDup_cons in Hnd as [Hpid Hnd]. rewrite list_elem_of_In in Hpid.
    destruct (folderFor_run st (Marva.Profile.id p) db)
      as (fid & st1 & db1 & Hf & Hs1 & Ht1 & Hc1 & Hr1).
    erewrite bind_Ok by exact Hf. cbv beta iota zeta.
    erewrite bind_Ok;
      [|apply shape_create_run; unfold shapeIds; rewrite Hs1; apply Hnew; left; reflexivity].
    match goal with |- context [with_shape ?x db1] => set (sh := x) end.
    destruct (importResourceTemplates_run nss (Marva.Profile.resourceTemplates p)
                (Marva.mkState (S (Marva.st_shapes st1)) (Marva.st_rows st1)
                   (Marva.folderMap st1)) (with_shape sh db1) Hnd)
      as (st2 & db2 & Hrun2 & Hids2 & Hk2 & Hc2 & Hr2).
    { intros id Hin Hin'. rewrite with_shape_ids in Hin'. unfold shapeIds in Hin'.
      rewrite Hs1 in Hin'. apply in_app_iff in Hin' as [Hin'|[<-|[]]].
      - apply (Hnew id); [right; exact Hin|exact Hin'].
      - apply Hpid, Hin. }
    destruct (importLinks_run (Marva.Profile.id p)
                (map Marva.RT.id (Marva.Profile.resourceTemplates p)) 0 st2 db2)
      as (st3 & db3 & Hrun3 & Hs3 & Hk3 & Hc3 & Hr3).
    { apply Hk2. apply (with_shape_has_table sh). }
    erewrite bind_Ok by exact Hrun2.
    exists st3, db3. split; [exact Hrun3|].
    split.
    { unfold shapeIds at 1. rewrite Hs3. fold (shapeIds db2). rewrite Hids2.
      rewrite with_shape_ids. unfold shapeIds. rewrite Hs1, <- app_assoc. reflexivity. }
    simpl in Hc2, Hr2. rewrite length_map in Hr3. lia.
  - intros _ _. exists st, db. rewrite app_nil_r. repeat split; lia.
Qed.

Lemma importedShapeIds_cons (doc : Marva.Doc.t) (docs : list Marva.Doc.t) :
  importedShapeIds (doc :: docs) = importedShapeIds [doc] ++ importedShapeIds docs
  /\ templateCount (doc :: docs) = templateCount [doc] + templateCount docs
  /\ propertyCount (doc :: docs) = propertyCount [doc] + propertyCount docs
  /\ length (profilesOf (doc :: docs)) = length (profilesOf [doc]) + length (profilesOf docs).
Proof.
  unfold importedShapeIds, templateCount, propertyCount, profilesOf. simpl.
  destruct (Marva.Doc.Profile doc); simpl; rewrite ?app_nil_r; repeat split;
    rewrite ?Nat.add_0_r; reflexivity.
Qed.

Lemma importDocuments_run (nss : list Namespace) (docs : list Marva.Doc.t)
    (st : Marva.ImportState) (db : Db) :
  NoDup (importedShapeIds docs) ->
  (forall id, In id (importedShapeIds docs) -> ~ In id (shapeIds db)) ->
  exists st' db',
    foldM (Marva.importDocument nss) docs st db = Ok (st', db')
    /\ Marva.st_shapes st' = Marva.st_shapes st + length (profilesOf docs) + templateCount docs
    /\ Marva.st_rows st' = Marva.st_rows st + propertyCount docs + templateCount docs.
Proof.
  revert st db. induction docs as [|doc docs IH]; intros st db Hnd Hnew.
  - exists st, db. unfold templateCount, propertyCount, profilesOf. simpl.
    repeat split; lia.
  - destruct (importedShapeIds_cons doc docs) as (Hi & Ht & Hp & Hl).
    rewrite Hi in Hnd, Hnew. apply NoDup_app in Hnd as (Hnd1 & Hdisj & Hnd2).
    destruct (importDocument_run nss st doc db Hnd1) as (st1 & db1 & Hrun1 & Hids1 & Hc1 & Hr1).
    { intros id Hin. apply Hnew, in_app_iff. left. exact Hin. }
    destruct (IH st1 db1 Hnd2) as (st' & db' & Hrun & Hc & Hr).
    { intros id Hin Hin'. rewrite Hids1 in Hin'. apply in_app_iff in Hin' as [Hin'|Hin'].
      - apply (Hnew id); [apply in_app_iff; right; exact Hin|exact Hin'].
      - apply (Hdisj id); apply list_elem_of_In; assumption. }
    cbn [foldM]. erewrite bind_Ok by exact Hrun1. exists st', db'. split; [exact Hrun|].
    rewrite Ht, Hp, Hl. lia.
Qed.

(** The ids are pairwise distinct and none is in use. *)
Lemma fresh_ids_dec (ids used : list str) :
  (NoDup ids /\ forall id, In id ids -> ~ In id used)
  \/ ~ (NoDup ids /\ forall id, In id ids -> ~ In id used).
Proof.
  destruct (decide (NoDup ids)) as [Hnd|Hnd]; [|right; intros [H _]; exact (Hnd H)].
  assert (Hall : (forall id, In id ids -> ~ In id used)
                 \/ ~ (forall id, In id ids -> ~ In id used)).
  { clear Hnd. induction ids as [|x ids IH]; [left; intros id []|].
    destruct (List.in_dec (List.list_eq_dec ascii_dec) x used) as [Hx|Hx].
    - right. intros H. apply (H x); [left; reflexivity|exact Hx].
    - destruct IH as [IH|IH].
      + left. intros id [<-|Hin]; [exact Hx|apply IH, Hin].
      + right. intros H. apply IH. intros id Hin. apply H. right. exact Hin. }
  destruct Hall as [Hall|Hall]; [left; auto|right; intros [_ H]; exact (Hall H)].
Qed.

Lemma importResourceTemplate_dup (nss : list Namespace) (st : Marva.ImportState)
    (rt : Marva.RT.t) (db : Db) :
  In (Marva.RT.id rt) (shapeIds db) ->
  Marva.importResourceTemplate nss st rt db = Err (UniqueConstraint "_shapes.shape_id").
Proof.
  intros Hin. unfold Marva.importResourceTemplate.
  destruct (folderFor_run st (Marva.RT.id rt) db)
    as (fid & st1 & db1 & Hf & Hs1 & Ht1 & Hc1 & Hr1).
  erewrite bind_Ok by exact Hf. cbv beta iota zeta.
  apply bind_Err, shape_create_dup. unfold shapeIds. rewrite Hs1. exact Hin.
Qed.

Lemma importResourceTemplates_dup (nss : list Namespace) (rts : list Marva.RT.t)
    (st : Marva.ImportState) (db : Db) :
  ~ (NoDup (map Marva.RT.id rts)
     /\ forall id, In id (map Marva.RT.id rts) -> ~ In id (shapeIds db)) ->
  foldM (Marva.importResourceTemplate nss) rts st db
  = Err (UniqueConstraint "_shapes.shape_id").
Proof.
  revert st db. induction rts as [|rt rts IH]; intros st db Hnot.
  - destruct Hnot. split; [constructor|intros id []].
  - cbn [foldM].
    destruct (List.in_dec (List.list_eq_dec ascii_dec) (Marva.RT.id rt) (shapeIds db))
      as [Hin|Hnew].
    + apply bind_Err, importResourceTemplate_dup, Hin.
    + destruct (importResourceTemplate_run nss st rt db Hnew)
        as (st1 & db1 & Hrun1 & Hids1 & _).
      erewrite bind_Ok by exact Hrun1. apply IH. intros [Hnd Hfresh]. apply Hnot.
      cbn [map]. split.
      * apply NoDup_cons. split; [|exact Hnd]. rewrite list_elem_of_In. intros Hin.
        apply (Hfresh _ Hin). rewrite Hids1. apply in_app_iff. right. left. reflexivity.
      * intros id [<-|Hin]; [exact Hnew|]. intros Hin'. apply (Hfresh id Hin).
        rewrite Hids1. apply in_app_iff. left. exact Hin'.
Qed.

Lemma importDocument_dup (nss : list Namespace) (st : Marva.ImportState)
    (doc : Marva.Doc.t) (db : Db) :
  ~ (NoDup (importedShapeIds [doc])
     /\ forall id, In id (importedShapeIds [doc]) -> ~ In id (shapeIds db)) ->
  Marva.importDocument nss st doc db = Err (UniqueConstraint "_shapes.shape_id").
Proof.
  unfold importedShapeIds, profilesOf, Marva.importDocument.
  simpl. destruct (Marva.Doc.Profile doc) as [p|]; simpl.
  - rewrite !app_nil_r. intros Hnot.
    destruct (folderFor_run st (Marva.Profile.id p) db)
      as (fid & st1 & db1 & Hf & Hs1 & Ht1 & Hc1 & Hr1).
    erewrite bind_Ok by exact Hf. cbv beta iota zeta.
    destruct (List.in_dec (List.list_eq_dec ascii_dec) (Marva.Profile.id p) (shapeIds db))
      as [Hin|Hnew].
    + apply bind_Err, shape_create_dup. unfold shapeIds. rewrite Hs1. exact Hin.
    + erewrite bind_Ok;
        [|apply shape_create_run; unfold shapeIds; rewrite Hs1; exact Hnew].
      match goal with |- context [with_shape ?x db1] => set (sh := x) end.
      apply bind_Err, importResourceTemplates_dup. intros [Hnd Hfresh]. apply Hnot.
      assert (Hids : shapeIds (with_shape sh db1) = shapeIds db ++ [Marva.Profile.id p]).
      { rewrite with_shape_ids. unfold shapeIds. rewrite Hs1. reflexivity. }
      split.
      * apply NoDup_cons. split; [|exact Hnd]. rewrite list_elem_of_In. intros Hin.
        apply (Hfresh _ Hin). rewrite Hids. apply in_app_iff. right. left. reflexivity.
      * intros id [<-|Hin]; [exact Hnew|]. intros Hin'. apply (Hfresh id Hin).
        rewrite Hids. apply in_app_iff. left. exact Hin'.
  - intros Hnot. destruct Hnot. split; [constructor|intros id []].
Qed.

Lemma importDocuments_dup (nss : list Namespace) (docs : list Marva.Doc.t)
    (st : Marva.ImportState) (db : Db) :
  ~ (NoDup (importedShapeIds docs)
     /\ forall id, In id (importedShapeIds docs) -> ~ In id (shapeIds db)) ->
  foldM (Marva.importDocument nss) docs st db = Err (UniqueConstraint "_shapes.shape_id").
Proof.
  revert st db. induction docs as [|doc docs IH]; intros st db Hnot.
  - destruct Hnot. split; [constructor|intros id []].
  - destruct (importedShapeIds_cons doc docs) as (Hi & _). rewrite Hi in Hnot.
    cbn [foldM].
    destruct (fresh_ids_dec (importedShapeIds [doc]) (shapeIds db)) as [[Hnd1 Hnew1]|Hdup].
    + destruct (importDocument_run nss st doc db Hnd1 Hnew1)
        as (st1 & db1 & Hrun1 & Hids1 & _).
      erewrite bind_Ok by exact Hrun1. apply IH. intros [Hnd Hfresh]. apply Hnot. split.
      * apply NoDup_app. split; [exact Hnd1|]. split; [|exact Hnd].
        intros id Hin Hin'. apply list_elem_of_In in Hin, Hin'.
        apply (Hfresh id Hin'). rewrite Hids1. apply in_app_iff. right. exact Hin.
      * intros id Hin. apply in_app_iff in Hin as [Hin|Hin]; [apply Hnew1, Hin|].
        intros Hin'. apply (Hfresh id Hin). rewrite Hids1. apply in_app_iff. left. exact Hin'.
    + apply bind_Err, importDocument_dup, Hdup.
Qed.

(** C7 (as amended). For documents that each hold a profile, and whose
    profile ids and resource-template ids are pairwise distinct, the
    import returns as [shapesCreated] the number of documents plus the
    number of resource templates, and as [rowsCreated] the number of
    property templates plus one link row per resource template. The
    store keeps shape ids unique: whenever an id repeats, the import
    throws on the unique constraint of the shapes table and returns no
    counts. *)
Theorem importMarvaProfiles_counts (workspaceName uuid : str) (docs : list Marva.Doc.t)
    (w : World) :
  w !! uuid = None ->
  Forall (fun d => is_Some (Marva.Doc.Profile d)) docs ->
  (NoDup (importedShapeIds docs) ->
   exists r w',
     Marva.importMarvaProfiles workspaceName docs uuid w = Ok (r, w')
     /\ Marva.shapesCreated r = length docs + templateCount docs
     /\ Marva.rowsCreated r = propertyCount docs + templateCount docs)
  /\ (~ NoDup (importedShapeIds docs) ->
      Marva.importMarvaProfiles workspaceName docs uuid w
      = Err (UniqueConstraint "_shapes.shape_id")).
Proof.
  intros Hfresh Hall. unfold Marva.importMarvaProfiles, workspaceService.create.
  rewrite Hfresh. unfold in_workspace. rewrite lookup_insert_eq.
  unfold Marva.importDocuments.
  erewrite bind_Ok by (unfold optionsService.update, bind, get_db, put_db; reflexivity).
  erewrite bind_Ok by (unfold namespaceService.list, bind, get_db, ret; reflexivity).
  split.
  - intros Hnd.
    match goal with |- context [bind (foldM (Marva.importDocument ?nss) docs ?st) _ ?db] =>
      destruct (importDocuments_run nss docs st db Hnd) as (st' & db' & Hrun & Hc & Hr) end.
    { intros id _ []. }
    erewrite bind_Ok by exact Hrun. unfold ret. eexists _, _. split; [reflexivity|].
    simpl in *. rewrite Hc, Hr. split; [|reflexivity]. f_equal.
    clear -Hall. unfold profilesOf.
    induction Hall as [|d ds [p Hp] _ IH]; simpl; [reflexivity|].
    rewrite Hp. simpl. f_equal. exact IH.
  - intros Hdup.
    match goal with |- context [bind (foldM (Marva.importDocument ?nss) docs ?st) _ ?db] =>
      rewrite (bind_Err _ _ _ _ (importDocuments_dup nss docs st db
                                   (fun H => Hdup (proj1 H)))) end.
    reflexivity.
Qed.

End MarvaImportCounts.

Section MarvaImportExamples.

Lemma importMarvaProfiles_counts_witness :
  (exists r w',
     Marva.importMarvaProfiles "Profiles" [work_document] "ws-1" ∅ = Ok (r, w')
     /\ Marva.shapesCreated r = length [work_document] + templateCount [work_document]
     /\ Marva.rowsCreated r = propertyCount [work_document] + templateCount [work_document])
  /\ Marva.importMarvaProfiles "Profiles" [work_document; instance_document] "ws-1" ∅
     = Err (UniqueConstraint "_shapes.shape_id").
Proof.
  split.
  - destruct (importMarvaProfiles_counts "Profiles" "ws-1" [work_document] ∅) as [Hok _].
    + reflexivity.
    + repeat constructor. simpl. eauto.
    + apply Hok. apply (bool_decide_unpack _). vm_compute. exact I.
  - destruct (importMarvaProfiles_counts "Profiles" "ws-1"
                [work_document; instance_document] ∅) as [_ Hthrows].
    + reflexivity.
    + repeat constructor; simpl; eauto.
    + apply Hthrows. intros Hnd. apply (bool_decide_pack _) in Hnd.
      vm_compute in Hnd. exact Hnd.
Defined.

(** The example of the specification: one profile, one resource
    template, one literal property. *)
Example import_one_literal_property :
  returnedCounts (Marva.importMarvaProfiles "Profiles" [work_document] "ws-1" ∅)
  = Some (2, 2).
Proof. vm_compute. reflexivity. Qed.

(** C7 (as stated) fails. Two documents that each hold a profile and
    share a resource template: the second insert of the shared id hits
    the unique constraint of the shapes table, and no counts are
    returned. *)
Lemma importMarvaProfiles_repeated_id :
  Forall (fun d => is_Some (Marva.Doc.Profile d)) [work_document; instance_document]
  /\ Marva.importMarvaProfiles "Profiles" [work_document; instance_document] "ws-1" ∅
     = Err (UniqueConstraint "_shapes.shape_id").
Proof.
  split.
  - repeat constructor; simpl; eauto.
  - vm_compute. reflexivity.
Qed.

End MarvaImportExamples.

(** ** Listings *)

Section Listings.

Context {A : Type} (le : A -> A -> bool).

Lemma insert_sorted_In (x y : A) (l : list A) :
  In y (insert_sorted le x l) <-> y = x \/ In y l.
Proof.
  induction l as [|z l IH]; simpl; [intuition auto|].
  destruct (le z x); simpl; rewrite ?IH; intuition auto.
Qed.

Lemma fold_insert_In (y : A) (l acc : list A) :
  In y (fold_left (fun acc x => insert_sorted le x acc) l acc) <-> In y l \/ In y acc.
Proof.
  revert acc. induction l as [|x l IH]; intros acc; simpl; [intuition auto|].
  rewrite IH, insert_sorted_In. intuition auto.
Qed.

Lemma sort_by_In (y : A) (l : list A) : In y (sort_by le l) <-> In y l.
Proof. unfold sort_by. rewrite fold_insert_In. simpl. intuition auto. Qed.

End Listings.

Lemma insert_sorted_Permutation {A : Type} (le : A -> A -> bool) (x : A) (l : list A) :
  Permutation (insert_sorted le x l) (x :: l).
Proof.
  induction l as [|y l IH]; [reflexivity|]. cbn [insert_sorted].
  destruct (le y x); [|reflexivity]. rewrite IH. apply perm_swap.
Qed.

Lemma sort_by_Permutation {A : Type} (le : A -> A -> bool) (l : list A) :
  Permutation (sort_by le l) l.
Proof.
  unfold sort_by.
  assert (H : forall acc,
             Permutation (fold_left (fun acc x => insert_sorted le x acc) l acc) (l ++ acc)).
  { induction l as [|x l IH]; intros acc; cbn [fold_left app]; [reflexivity|].
    rewrite IH, insert_sorted_Permutation. symmetry. apply Permutation_middle. }
  rewrite (H []), app_nil_r. reflexivity.
Qed.

Lemma find_sorted {A : Type} (le : A -> A -> bool) (p : A -> bool) (l : list A) :
  match List.find p (sort_by le l) with
  | Some x => In x l /\ p x = true
  | None => forall x, In x l -> p x = false
  end.
Proof.
  destruct (List.find p (sort_by le l)) as [x|] eqn:E.
  - apply find_some in E as [Hin Hp]. split; [|exact Hp].
    apply (proj1 (sort_by_In le x l)), Hin.
  - intros x Hx. apply (find_none _ _ E). apply (proj2 (sort_by_In le x l)), Hx.
Qed.

Section TotalOrderListings.

Context {A : Type} (le : A -> A -> bool).
Hypothesis le_total : forall a b, le a b = true \/ le b a = true.
Hypothesis le_trans : forall a b c, le a b = true -> le b c = true -> le a c = true.

Lemma insert_sorted_keeps_ascending (x : A) (l : list A) :
  ascending le l -> ascending le (insert_sorted le x l).
Proof.
  induction l as [|y l IH]; intros Hasc.
  - cbn. split; [constructor|exact I].
  - cbn [insert_sorted]. destruct Hasc as [Hy Hl].
    destruct (le y x) eqn:E.
    + split; [|apply IH, Hl]. apply List.Forall_forall. intros z Hz.
      apply insert_sorted_In in Hz. destruct Hz as [->|Hz]; [exact E|].
      rewrite List.Forall_forall in Hy. apply Hy, Hz.
    + assert (Hxy : le x y = true) by (destruct (le_total x y); congruence).
      split; [|split; assumption].
      constructor; [exact Hxy|].
      eapply Forall_impl; [exact Hy|]. cbn. intros z Hz. exact (le_trans _ _ _ Hxy Hz).
Qed.

Lemma sort_by_is_ascending (l : list A) : ascending le (sort_by le l).
Proof.
  unfold sort_by.
  assert (H : forall acc, ascending le acc ->
             ascending le (fold_left (fun acc x => insert_sorted le x acc) l acc)).
  { induction l as [|x l IH]; intros acc Hacc; [exact Hacc|].
    cbn [fold_left]. apply IH, insert_sorted_keeps_ascending, Hacc. }
  apply H. exact I.
Qed.

End TotalOrderListings.

Section CodeUnitOrder.

Lemma ascii_ltb_lt (x y : ascii) : Ascii.ltb x y = true <-> (N_of_ascii x < N_of_ascii y)%N.
Proof.
  unfold Ascii.ltb, Ascii.compare, N.lt.
  destruct (N_of_ascii x ?= N_of_ascii y)%N; split; congruence.
Qed.

Lemma ascii_eqb_eq (x y : ascii) : Ascii.eqb x y = true <-> N_of_ascii x = N_of_ascii y.
Proof.
  rewrite Ascii.eqb_eq. split; [congruence|]. intros H.
  rewrite <- (ascii_N_embedding x), <- (ascii_N_embedding y), H. reflexivity.
Qed.

Lemma ltb_cons (x y : ascii) (a b : str) :
  Str.ltb (x :: a) (y :: b) = true
  <-> (N_of_ascii x < N_of_ascii y)%N
      \/ (N_of_ascii x = N_of_ascii y /\ Str.ltb a b = true).
Proof.
  cbn [Str.ltb]. pose proof (ascii_ltb_lt x y) as Hlt. pose proof (ascii_eqb_eq x y) as Heq.
  destruct (Ascii.ltb x y); [intuition auto|].
  destruct (Ascii.eqb x y).
  - split; [intros H; right; intuition auto|].
    intros [H|[_ H]]; [|exact H]. apply Hlt in H. discriminate.
  - split; [discriminate|]. intros [H|[H _]]; [apply Hlt in H|apply Heq in H]; discriminate.
Qed.

Lemma ltb_asym (a b : str) : Str.ltb a b = true -> Str.ltb b a = false.
Proof.
  revert b. induction a as [|x a IH]; intros [|y b] H; try reflexivity; try discriminate.
  apply ltb_cons in H. apply not_true_is_false. intros H'. apply ltb_cons in H'.
  destruct H as [H|[H1 H2]], H' as [H'|[H1' H2']]; try lia.
  apply IH in H2. congruence.
Qed.

Lemma ltb_trans (a b c : str) :
  Str.ltb a b = true -> Str.ltb b c = true -> Str.ltb a c = true.
Proof.
  revert b c. induction a as [|x a IH]; intros [|y b] [|z c] H1 H2;
    try reflexivity; try discriminate.
  apply ltb_cons in H1, H2. apply ltb_cons.
  destruct H1 as [H1|[H1 H1']], H2 as [H2|[H2 H2']]; try (left; lia).
  right. split; [lia|]. exact (IH _ _ H1' H2').
Qed.

Lemma ltb_cases (a b : str) : Str.ltb a b = true \/ a = b \/ Str.ltb b a = true.
Proof.
  revert b. induction a as [|x a IH]; intros [|y b]; cbn [Str.ltb]; auto.
  destruct (IH b) as [H|[H|H]];
    destruct (N.lt_total (N_of_ascii x) (N_of_ascii y)) as [Hc|[Hc|Hc]].
  all: try (left; apply ltb_cons; auto; fail).
  all: try (right; right; apply ltb_cons; auto; fail).
  right. left. f_equal; [|exact H].
  rewrite <- (ascii_N_embedding x), <- (ascii_N_embedding y), Hc. reflexivity.
Qed.

Lemma leb_total (a b : str) : Str.leb a b = true \/ Str.leb b a = true.
Proof.
  unfold Str.leb. destruct (Str.ltb b a) eqn:E; [|now left].
  right. rewrite (ltb_asym _ _ E). reflexivity.
Qed.

Lemma leb_trans (a b c : str) :
  Str.leb a b = true -> Str.leb b c = true -> Str.leb a c = true.
Proof.
  unfold Str.leb. rewrite !negb_true_iff. intros H1 H2.
  apply not_true_is_false. intros H3.
  destruct (ltb_cases a b) as [H|[H|H]]; [|subst; congruence|congruence].
  pose proof (ltb_trans _ _ _ H3 H) as H4. congruence.
Qed.

End CodeUnitOrder.

(** ** Starting-point export: the order of the menu groups *)

Section StartingPointOrder.

Lemma shape_list_run (db : Db) : shapeService.list db = Ok (listedShapes db, db).
Proof. reflexivity. Qed.

Lemma row_list_run (db : Db) (id : str) :
  has_table db id -> rowService.list id db = Ok (listedRows db id, db).
Proof.
  intros [rows H]. unfold rowService.list, listedRows, bind, get_db. rewrite H. reflexivity.
Qed.

Lemma fold_shapeMap_lookup (l : list Shape) (m : gmap str Shape) (id : str) :
  (forall s, m !! id = Some s -> shapeId s = id) ->
  match fold_left (fun m s => <[shapeId s := s]> m) l m !! id with
  | Some s => shapeId s = id /\ (In s l \/ m !! id = Some s)
  | None => m !! id = None /\ ~ In id (map shapeId l)
  end.
Proof.
  revert m. induction l as [|x l IH]; intros m Hm; simpl.
  - destruct (m !! id) as [s|] eqn:E; auto.
  - specialize (IH (<[shapeId x := x]> m)).
    destruct (decide (shapeId x = id)) as [Hx|Hx].
    + rewrite Hx in *. rewrite lookup_insert_eq in IH.
      destruct (fold_left _ l _ !! id) as [s|].
      * destruct IH as [Hs [Hin|Heq]]; [intros s' [= <-]; exact Hx| |].
        -- auto.
        -- injection Heq as <-. auto.
      * destruct IH as [Hnone _]; [intros s' [= <-]; exact Hx|discriminate].
    + rewrite lookup_insert_ne in IH by exact Hx.
      destruct (fold_left _ l _ !! id) as [s|].
      * destruct (IH Hm) as [Hs [Hin|Heq]]; auto.
      * destruct (IH Hm) as [Hnone Hnot]. split; [exact Hnone|].
        intros [H|H]; [exact (Hx H)|exact (Hnot H)].
Qed.

Lemma shapeMapOf_lookup (l : list Shape) (id : str) :
  match StartingPoint.shapeMapOf l !! id with
  | Some s => shapeId s = id /\ In s l /\ inb id (map shapeId l) = true
  | None => inb id (map shapeId l) = false
  end.
Proof.
  pose proof (fold_shapeMap_lookup l ∅ id) as H. unfold StartingPoint.shapeMapOf.
  destruct (fold_left _ l ∅ !! id) as [s|].
  - destruct H as [Hs [Hin|Hm]]; [intros s'; rewrite lookup_empty; discriminate| |].
    + split; [exact Hs|]. split; [exact Hin|].
      apply not_false_iff_true. rewrite inb_false. intros Hn. apply Hn.
      rewrite <- Hs. apply in_map, Hin.
    + rewrite lookup_empty in Hm. discriminate.
  - destruct H as [_ Hn]; [intros s'; rewrite lookup_empty; discriminate|].
    apply inb_false, Hn.
Qed.

(** The shapes the index names, in index order: one per reference to a
    known starting-point shape. *)
Lemma referenced_in_index_order (sps : list Shape) (refs : list str) :
  Forall2 (fun id s => shapeId s = id /\ In s sps)
    (List.filter (fun id => inb id (map shapeId sps)) refs)
    (omap (fun id => StartingPoint.shapeMapOf sps !! id) refs).
Proof.
  induction refs as [|id refs IH]; simpl; [constructor|].
  pose proof (shapeMapOf_lookup sps id) as H.
  destruct (StartingPoint.shapeMapOf sps !! id) as [s|].
  - destruct H as (Hs & Hin & Hb). rewrite Hb. constructor; auto.
  - rewrite H. exact IH.
Qed.

Lemma exportGroup_run (db : Db) (s : Shape)
    (acc : list StartingPoint.StartingPointMenuGroup) :
  has_table db (shapeId s) ->
  StartingPoint.exportGroup acc s db = Ok (acc ++ groupOf db s, db).
Proof.
  intros Ht. unfold StartingPoint.exportGroup, groupOf.
  erewrite bind_Ok by (apply row_list_run, Ht).
  destruct (map StartingPoint.menuItemOf _) as [|i items]; unfold ret.
  - rewrite app_nil_r. reflexivity.
  - reflexivity.
Qed.

Lemma exportGroups_run (db : Db) (l : list Shape)
    (acc : list StartingPoint.StartingPointMenuGroup) :
  (forall s, In s l -> has_table db (shapeId s)) ->
  foldM StartingPoint.exportGroup l acc db = Ok (acc ++ flat_map (groupOf db) l, db).
Proof.
  revert acc. induction l as [|s l IH]; intros acc Ht; simpl.
  - rewrite app_nil_r. reflexivity.
  - erewrite bind_Ok by (apply exportGroup_run, Ht; left; reflexivity).
    rewrite IH by (intros s' Hs'; apply Ht; right; exact Hs').
    rewrite <- app_assoc. reflexivity.
Qed.

Lemma startingPointShapesOf_spec (db : Db) (s : Shape) :
  In s (startingPointShapesOf db) ->
  In s (shapes db)
  /\ StartingPoint.isStartingPointShape (shapeId s) = true
  /\ shapeId s <> StartingPoint.STARTING_POINT_INDEX_ID.
Proof.
  unfold startingPointShapesOf, listedShapes. intros H.
  apply filter_In in H as [Hin Hp]. apply sort_by_In in Hin.
  apply andb_true_iff in Hp as [Hsp Hidx]. apply negb_true_iff in Hidx.
  apply bool_decide_eq_false_1 in Hidx. auto.
Qed.

Lemma indexOrder_run (db : Db) :
  tables_exist db ->
  StartingPoint.indexOrder (listedShapes db) db = Ok (indexReferences db, db).
Proof.
  intros Ht. unfold StartingPoint.indexOrder, indexReferences.
  destruct (List.find _ (listedShapes db)) as [idx|] eqn:E; [|reflexivity].
  apply find_some in E as [Hin Hid]. apply bool_decide_eq_true_1 in Hid.
  apply sort_by_In in Hin. apply Ht in Hin. rewrite Hid in Hin.
  erewrite bind_Ok by (apply row_list_run, Hin). reflexivity.
Qed.

Lemma exportStartingPoints_run (uuid : str) (db : Db) :
  tables_exist db ->
  StartingPoint.exportStartingPoints uuid db
  = Ok (match startingPointShapesOf db with
        | [] => None
        | _ :: _ =>
            exportedFile uuid
              (flat_map (groupOf db)
                 (StartingPoint.orderShapes (startingPointShapesOf db) (indexReferences db)))
        end, db).
Proof.
  intros Ht. unfold StartingPoint.exportStartingPoints.
  erewrite bind_Ok by apply shape_list_run.
  fold (startingPointShapesOf db).
  destruct (startingPointShapesOf db) as [|sp0 sps'] eqn:Esps; [reflexivity|].
  rewrite <- Esps.
  erewrite bind_Ok by (apply indexOrder_run, Ht).
  erewrite bind_Ok.
  2:{ apply exportGroups_run. intros s Hin. apply Ht.
      unfold StartingPoint.orderShapes in Hin. apply in_app_iff in Hin as [Hin|Hin].
      - apply list_elem_of_In, list_elem_of_omap in Hin as (id & _ & Hl).
        pose proof (shapeMapOf_lookup (startingPointShapesOf db) id) as H.
        rewrite Hl in H. destruct H as (_ & H & _).
        apply startingPointShapesOf_spec in H. apply H.
      - apply filter_In in Hin as [Hin _].
        apply startingPointShapesOf_spec in Hin. apply Hin. }
  simpl app. unfold exportedFile. destruct (flat_map _ _); reflexivity.
Qed.

(** C8. The menu groups of an export are those of the starting-point
    shapes that index rows name, in index row order, followed by those
    of the starting-point shapes no index row names, in listing order;
    a shape contributes a group when it has a [dcterms:hasPart] row. The
    index shape is never among them, and when the index names nothing
    the groups are in listing order. Here the listing is the shapes of
    the store in ascending order of their ids, the index rows are the
    rows of the index shape in ascending [rowOrder], the references are
    their non-empty [valueShape] cells (none without an index shape),
    and the group of a shape has one item per [dcterms:hasPart] row, in
    ascending [rowOrder]. *)
Theorem exportStartingPoints_order (uuid : str) (db : Db) :
  tables_exist db ->
  let sps := startingPointShapesOf db in
  let refs := indexReferences db in
  let unreferenced := List.filter (fun s => negb (inb (shapeId s) refs)) sps in
  let indexRows := listedRows db StartingPoint.STARTING_POINT_INDEX_ID in
  exists referenced,
    Forall2 (fun id s => shapeId s = id /\ In s sps)
      (List.filter (fun id => inb id (map shapeId sps)) refs) referenced
    /\ StartingPoint.exportStartingPoints uuid db
       = Ok (match sps with
             | [] => None
             | _ :: _ => exportedFile uuid (flat_map (groupOf db) (referenced ++ unreferenced))
             end, db)
    /\ (forall s, In s (referenced ++ unreferenced) ->
          shapeId s <> StartingPoint.STARTING_POINT_INDEX_ID
          /\ StartingPoint.isStartingPointShape (shapeId s) = true)
    /\ (refs = [] -> referenced ++ unreferenced = sps)
    /\ (Permutation (listedShapes db) (shapes db)
        /\ ascending (fun a b => Str.leb (shapeId a) (shapeId b)) (listedShapes db)
        /\ sps = List.filter
                   (fun s => StartingPoint.isStartingPointShape (shapeId s)
                             && negb (bool_decide
                                        (shapeId s = StartingPoint.STARTING_POINT_INDEX_ID)))
                   (listedShapes db))
    /\ (forall id,
          Permutation (listedRows db id) (default [] (tables db !! tableName id))
          /\ ascending (fun a b => rowOrder a <=? rowOrder b)%nat (listedRows db id))
    /\ ((exists s, In s (shapes db) /\ shapeId s = StartingPoint.STARTING_POINT_INDEX_ID) ->
        refs = omap (fun r => truthy (valueShape r)) indexRows)
    /\ ((forall s, In s (shapes db) -> shapeId s <> StartingPoint.STARTING_POINT_INDEX_ID) ->
        refs = [])
    /\ (forall s,
          groupOf db s
          = match List.filter (fun r => bool_decide (propertyId r = Some (lit "dcterms:hasPart")))
                    (listedRows db (shapeId s)) with
            | [] => []
            | parts =>
                [StartingPoint.mkMenuGroup (StartingPoint.groupLabel s)
                   (map StartingPoint.menuItemOf parts)]
            end).
Proof.
  intros Ht. cbv zeta.
  rewrite (exportStartingPoints_run uuid db Ht). unfold StartingPoint.orderShapes.
  remember (startingPointShapesOf db) as sps eqn:Esps.
  remember (indexReferences db) as refs eqn:Erefs.
  exists (omap (fun id => StartingPoint.shapeMapOf sps !! id) refs).
  assert (Hmem : forall s,
             In s (omap (fun id => StartingPoint.shapeMapOf sps !! id) refs
                   ++ List.filter (fun s => negb (inb (shapeId s) refs)) sps) ->
             In s sps).
  { intros s Hin. apply in_app_iff in Hin as [Hin|Hin].
    - apply list_elem_of_In, list_elem_of_omap in Hin as (id & _ & Hl).
      pose proof (shapeMapOf_lookup sps id) as H. rewrite Hl in H. apply H.
    - apply filter_In in Hin. apply Hin. }
  pose proof (find_sorted (fun a b => Str.leb (shapeId a) (shapeId b))
                (fun s => bool_decide (shapeId s = StartingPoint.STARTING_POINT_INDEX_ID))
                (shapes db)) as Hfind.
  change (sort_by _ (shapes db)) with (listedShapes db) in Hfind.
  split; [apply referenced_in_index_order|]. split; [reflexivity|].
  split; [|split; [|split; [|split; [|split; [|split]]]]].
  - intros s Hin. apply Hmem in Hin. subst sps.
    apply startingPointShapesOf_spec in Hin. split; apply Hin.
  - intros Hnil. rewrite Hnil. simpl.
    clear. induction sps as [|s l IH]; simpl; [reflexivity|]. f_equal. exact IH.
  - split; [apply sort_by_Permutation|]. split; [|exact Esps].
    apply sort_by_is_ascending.
    + intros a b. apply leb_total.
    + intros a b c. apply leb_trans.
  - intros id. split; [apply sort_by_Permutation|].
    apply sort_by_is_ascending.
    + intros a b. destruct (Nat.leb_spec (rowOrder a) (rowOrder b)); [now left|].
      right. apply Nat.leb_le. lia.
    + intros a b c Hab Hbc. apply Nat.leb_le in Hab, Hbc. apply Nat.leb_le. lia.
  - intros (s & Hin & Hid). subst refs. unfold indexReferences.
    destruct (List.find _ (listedShapes db)) as [idx|]; [reflexivity|].
    apply Hfind in Hin. apply bool_decide_eq_false_1 in Hin. contradiction.
  - intros Hno. subst refs. unfold indexReferences.
    destruct (List.find _ (listedShapes db)) as [idx|]; [|reflexivity].
    destruct Hfind as [Hin Hid]. apply bool_decide_eq_true_1 in Hid.
    destruct (Hno idx Hin Hid).
  - intros s. unfold groupOf, StartingPoint.is_hasPart.
    destruct (List.filter _ (listedRows db (shapeId s))); reflexivity.
Qed.

End StartingPointOrder.

Section StartingPointOrderExamples.

Lemma menu_db_tables_exist : tables_exist menu_db.
Proof.
  intros s Hin. simpl in Hin.
  destruct Hin as [<-|[<-|[<-|[<-|[]]]]]; vm_compute; eexists; reflexivity.
Defined.

Lemma exportStartingPoints_order_witness :
  let db := menu_db in
  let uuid : str := "config-1" in
  let sps := startingPointShapesOf db in
  let refs := indexReferences db in
  let unreferenced := List.filter (fun s => negb (inb (shapeId s) refs)) sps in
  let indexRows := listedRows db StartingPoint.STARTING_POINT_INDEX_ID in
  exists referenced,
    Forall2 (fun id s => shapeId s = id /\ In s sps)
      (List.filter (fun id => inb id (map shapeId sps)) refs) referenced
    /\ StartingPoint.exportStartingPoints uuid db
       = Ok (match sps with
             | [] => None
             | _ :: _ => exportedFile uuid (flat_map (groupOf db) (referenced ++ unreferenced))
             end, db)
    /\ (forall s, In s (referenced ++ unreferenced) ->
          shapeId s <> StartingPoint.STARTING_POINT_INDEX_ID
          /\ StartingPoint.isStartingPointShape (shapeId s) = true)
    /\ (refs = [] -> referenced ++ unreferenced = sps)
    /\ (Permutation (listedShapes db) (shapes db)
        /\ ascending (fun a b => Str.leb (shapeId a) (shapeId b)) (listedShapes db)
        /\ sps = List.filter
                   (fun s => StartingPoint.isStartingPointShape (shapeId s)
                             && negb (bool_decide
                                        (shapeId s = StartingPoint.STARTING_POINT_INDEX_ID)))
                   (listedShapes db))
    /\ (forall id,
          Permutation (listedRows db id) (default [] (tables db !! tableName id))
          /\ ascending (fun a b => rowOrder a <=? rowOrder b)%nat (listedRows db id))
    /\ ((exists s, In s (shapes db) /\ shapeId s = StartingPoint.STARTING_POINT_INDEX_ID) ->
        refs = omap (fun r => truthy (valueShape r)) indexRows)
    /\ ((forall s, In s (shapes db) -> shapeId s <> StartingPoint.STARTING_POINT_INDEX_ID) ->
        refs = [])
    /\ (forall s,
          groupOf db s
          = match List.filter (fun r => bool_decide (propertyId r = Some (lit "dcterms:hasPart")))
                    (listedRows db (shapeId s)) with
            | [] => []
            | parts =>
                [StartingPoint.mkMenuGroup (StartingPoint.groupLabel s)
                   (map StartingPoint.menuItemOf parts)]
            end).
Proof.
  apply (exportStartingPoints_order "config-1" menu_db). exact menu_db_tables_exist.
Defined.

(** Index order first, then the shape the index does not name. *)
Example export_follows_index_order :
  exportedGroupNames (StartingPoint.exportStartingPoints "config-1" menu_db)
  = Some [lit "Serial"; lit "Monograph"; lit "Archive"].
Proof. vm_compute. reflexivity. Qed.

(** The example of the specification: an index without references. *)
Example export_standalone_in_listing_order :
  exportedGroupNames (StartingPoint.exportStartingPoints "config-1" standalone_db)
  = Some [lit "Archive"; lit "Monograph"; lit "Serial"].
Proof. vm_compute. reflexivity. Qed.

End StartingPointOrderExamples.

(** ** Listings of rows written in order *)

Section SortedListings.

Context {A : Type} (le : A -> A -> bool).

Lemma insert_sorted_last (x : A) (acc : list A) :
  Forall (fun y => le y x = true) acc -> insert_sorted le x acc = acc ++ [x].
Proof.
  induction 1 as [|y acc Hy _ IH]; simpl; [reflexivity|].
  rewrite Hy, IH. reflexivity.
Qed.

Lemma ascending_app_before (acc l : list A) (x : A) :
  ascending le (acc ++ x :: l) -> Forall (fun y => le y x = true) acc.
Proof.
  induction acc as [|a acc IH]; simpl; [constructor|].
  intros [Ha Hasc]. constructor; [|apply IH, Hasc].
  apply Forall_app in Ha as [_ Ha]. apply Forall_cons_1 in Ha. apply Ha.
Qed.

Lemma fold_insert_ascending (l acc : list A) :
  ascending le (acc ++ l) ->
  fold_left (fun acc x => insert_sorted le x acc) l acc = acc ++ l.
Proof.
  revert acc. induction l as [|x l IH]; intros acc Hasc; simpl.
  - rewrite app_nil_r. reflexivity.
  - rewrite insert_sorted_last by (eapply ascending_app_before; exact Hasc).
    rewrite IH; rewrite <- app_assoc; [reflexivity|exact Hasc].
Qed.

Lemma sort_by_ascending (l : list A) : ascending le l -> sort_by le l = l.
Proof. intros H. unfold sort_by. apply (fold_insert_ascending l []). exact H. Qed.

End SortedListings.

(** ** Starting-point import: what it stores *)

Section StartingPointImport.

Lemma shape_get_absent (db : Db) (id : str) :
  ~ In id (shapeIds db) -> shapeService.get id db = Ok (None, db).
Proof.
  intros Hn. unfold shapeService.get, bind, get_db, ret.
  destruct (List.find _ (shapes db)) as [s|] eqn:E; [|reflexivity].
  apply find_some in E as [Hin Hs]. apply bool_decide_eq_true_1 in Hs.
  exfalso. apply Hn. rewrite <- Hs. apply in_map, Hin.
Qed.

Lemma with_row_lookup (id : str) (row : StatementRow) (db : Db) (rows0 : list StatementRow) :
  tables db !! tableName id = Some rows0 ->
  tables (with_row id row db) !! tableName id = Some (rows0 ++ [row])
  /\ (forall t, t <> tableName id -> tables (with_row id row db) !! t = tables db !! t)
  /\ shapes (with_row id row db) = shapes db.
Proof.
  intros H. unfold with_row. simpl. rewrite H. simpl. split; [apply lookup_insert_eq|].
  split; [|reflexivity]. intros t Ht. apply lookup_insert_ne. congruence.
Qed.

Lemma importItems_run (id : str) (items : list StartingPoint.StartingPointMenuItem)
    (n c : nat) (db : Db) (rows0 : list StatementRow) :
  tables db !! tableName id = Some rows0 ->
  exists db',
    StartingPoint.importItems id items n c db = Ok (c + length items, db')
    /\ shapes db' = shapes db
    /\ tables db' !! tableName id = Some (rows0 ++ itemRowsFrom n items)
    /\ (forall t, t <> tableName id -> tables db' !! t = tables db !! t).
Proof.
  revert n c db rows0. induction items as [|i items IH]; intros n c db rows0 Ht; simpl.
  - exists db. rewrite app_nil_r, Nat.add_0_r. auto.
  - erewrite bind_Ok by (apply row_create_run; exact Ht).
    destruct (with_row_lookup id (storedRow n (StartingPoint.itemRow n i)) db rows0 Ht)
      as (Hl & Ho & Hs).
    destruct (IH (S n) (S c) _ _ Hl) as (db' & Hrun & Hs' & Hl' & Ho').
    exists db'. replace (c + S (length items)) with (S c + length items) by lia.
    split; [exact Hrun|]. split; [congruence|]. split.
    + rewrite Hl', <- app_assoc. reflexivity.
    + intros t Hne. rewrite Ho', Ho by exact Hne. reflexivity.
Qed.

Lemma importIndexRows_run (entries : list (str * str)) (n c : nat) (db : Db)
    (rows0 : list StatementRow) :
  tables db !! tableName StartingPoint.STARTING_POINT_INDEX_ID = Some rows0 ->
  exists db',
    StartingPoint.importIndexRows entries n c db = Ok (c + length entries, db')
    /\ shapes db' = shapes db
    /\ tables db' !! tableName StartingPoint.STARTING_POINT_INDEX_ID
       = Some (rows0 ++ indexRowsFrom n entries)
    /\ (forall t, t <> tableName StartingPoint.STARTING_POINT_INDEX_ID ->
          tables db' !! t = tables db !! t).
Proof.
  revert n c db rows0. induction entries as [|e entries IH]; intros n c db rows0 Ht; simpl.
  - exists db. rewrite app_nil_r, Nat.add_0_r. auto.
  - erewrite bind_Ok by (apply row_create_run; exact Ht).
    destruct (with_row_lookup StartingPoint.STARTING_POINT_INDEX_ID
                (storedRow n (StartingPoint.indexRow n e)) db rows0 Ht) as (Hl & Ho & Hs).
    destruct (IH (S n) (S c) _ _ Hl) as (db' & Hrun & Hs' & Hl' & Ho').
    exists db'. replace (c + S (length entries)) with (S c + length entries) by lia.
    split; [exact Hrun|]. split; [congruence|]. split.
    + rewrite Hl', <- app_assoc. reflexivity.
    + intros t Hne. rewrite Ho', Ho by exact Hne. reflexivity.
Qed.

Lemma with_shape_new_table (sh : Shape) (db : Db) :
  tables db !! tableName (shapeId sh) = None ->
  tables (with_shape sh db) !! tableName (shapeId sh) = Some []
  /\ (forall t, t <> tableName (shapeId sh) -> tables (with_shape sh db) !! t = tables db !! t)
  /\ shapes (with_shape sh db) = shapes db ++ [sh].
Proof.
  intros H. unfold with_shape. simpl. rewrite H. split; [apply lookup_insert_eq|].
  split; [|reflexivity]. intros t Ht. apply lookup_insert_ne. congruence.
Qed.

Lemma importGroup_run (folder : nat) (st : StartingPoint.ImportState)
    (g : StartingPoint.StartingPointMenuGroup) (db : Db) :
  ~ In (StartingPoint.groupShapeId g) (shapeIds db) ->
  tables db !! tableName (StartingPoint.groupShapeId g) = None ->
  exists st' db',
    StartingPoint.importGroup folder st g db = Ok (st', db')
    /\ StartingPoint.createdShapeIds st'
       = StartingPoint.createdShapeIds st
         ++ [(StartingPoint.groupShapeId g, StartingPoint.menuGroup g)]
    /\ shapes db' = shapes db ++ [groupShape folder g]
    /\ tables db' !! tableName (StartingPoint.groupShapeId g)
       = Some (itemRowsFrom 0 (StartingPoint.menuItems g))
    /\ (forall t, t <> tableName (StartingPoint.groupShapeId g) ->
          tables db' !! t = tables db !! t).
Proof.
  intros Hnew Hnone. unfold StartingPoint.importGroup.
  erewrite bind_Ok by (apply shape_get_absent, Hnew).
  erewrite bind_Ok by reflexivity.
  erewrite bind_Ok by (apply shape_create_run, Hnew).
  fold (groupShape folder g).
  destruct (with_shape_new_table (groupShape folder g) db Hnone) as (Hl & Ho & Hs).
  destruct (importItems_run (StartingPoint.groupShapeId g) (StartingPoint.menuItems g) 0
              (StartingPoint.st_rows st) _ _ Hl) as (db' & Hrun & Hs' & Hl' & Ho').
  erewrite bind_Ok by exact Hrun. unfold ret. eexists _, db'. split; [reflexivity|].
  simpl. split; [reflexivity|]. split; [congruence|]. split; [exact Hl'|].
  intros t Hne. rewrite Ho', Ho by exact Hne. reflexivity.
Qed.

Lemma importGroups_run (folder : nat) (groups : list StartingPoint.StartingPointMenuGroup)
    (st : StartingPoint.ImportState) (db : Db) :
  NoDup (map (fun g => tableName (StartingPoint.groupShapeId g)) groups) ->
  (forall g, In g groups -> ~ In (StartingPoint.groupShapeId g) (shapeIds db)) ->
  (forall g, In g groups -> tables db !! tableName (StartingPoint.groupShapeId g) = None) ->
  exists st' db',
    foldM (StartingPoint.importGroup folder) groups st db = Ok (st', db')
    /\ StartingPoint.createdShapeIds st'
       = StartingPoint.createdShapeIds st ++ indexEntries groups
    /\ shapes db' = shapes db ++ map (groupShape folder) groups
    /\ (forall g, In g groups ->
          tables db' !! tableName (StartingPoint.groupShapeId g)
          = Some (itemRowsFrom 0 (StartingPoint.menuItems g)))
    /\ (forall t, ~ In t (map (fun g => tableName (StartingPoint.groupShapeId g)) groups) ->
          tables db' !! t = tables db !! t).
Proof.
  revert st db. induction groups as [|g groups IH]; intros st db Hnd Hnew Hnone.
  - exists st, db. simpl. rewrite !app_nil_r. repeat split; auto. intros g [].
  - cbn [map] in Hnd. apply NoDup_cons in Hnd as [Hg Hnd]. rewrite list_elem_of_In in Hg.
    destruct (importGroup_run folder st g db) as (st1 & db1 & Hrun1 & Hc1 & Hs1 & Hl1 & Ho1).
    { apply Hnew. left. reflexivity. }
    { apply Hnone. left. reflexivity. }
    assert (Hne : forall h, In h groups ->
              tableName (StartingPoint.groupShapeId h)
              <> tableName (StartingPoint.groupShapeId g)).
    { intros h Hh Heq. apply Hg. rewrite <- Heq.
      apply (in_map (fun g => tableName (StartingPoint.groupShapeId g))), Hh. }
    destruct (IH st1 db1 Hnd) as (st' & db' & Hrun & Hc & Hs & Hl & Ho).
    { intros h Hh Hin. unfold shapeIds in Hin. rewrite Hs1, map_app in Hin.
      apply in_app_iff in Hin as [Hin|[Heq|[]]].
      - apply (Hnew h); [right; exact Hh|exact Hin].
      - simpl in Heq. apply (Hne h Hh). rewrite Heq. reflexivity. }
    { intros h Hh. rewrite Ho1 by (apply Hne, Hh). apply Hnone. right. exact Hh. }
    cbn [foldM]. erewrite bind_Ok by exact Hrun1. exists st', db'. split; [exact Hrun|].
    split; [rewrite Hc, Hc1, <- app_assoc; reflexivity|].
    split; [rewrite Hs, Hs1, <- app_assoc; reflexivity|].
    split.
    + intros h [<-|Hh]; [|apply Hl, Hh]. rewrite Ho by exact Hg. exact Hl1.
    + intros t Ht. cbn [map] in Ht. rewrite Ho, Ho1; [reflexivity| |];
        intros H; apply Ht; [left; congruence|right; exact H].
Qed.

End StartingPointImport.

(** ** Starting-point round trip *)

Section StartingPointRoundTrip.

Lemma startsWith_prefix (p x : str) : Str.startsWith (p ++ x) p = true.
Proof.
  induction p as [|a p IH]; simpl; [destruct x; reflexivity|].
  rewrite Ascii.eqb_refl. exact IH.
Qed.

Lemma groupShapeId_startingPoint (g : StartingPoint.StartingPointMenuGroup) :
  StartingPoint.isStartingPointShape (StartingPoint.groupShapeId g) = true.
Proof.
  unfold StartingPoint.isStartingPointShape, StartingPoint.groupShapeId, Str.toLowerCase.
  rewrite map_app. rewrite startsWith_prefix. reflexivity.
Qed.

Lemma match_nonempty {A B : Type} (l : list A) (a f : B) :
  l <> [] -> match l with [] => a | _ :: _ => f end = f.
Proof. destruct l; congruence. Qed.

Lemma folder_run (db : Db) :
  exists fid db',
    StartingPoint.getOrCreateStartingPointFolder db = Ok (fid, db')
    /\ shapes db' = shapes db /\ tables db' = tables db.
Proof.
  unfold StartingPoint.getOrCreateStartingPointFolder.
  erewrite bind_Ok by reflexivity.
  destruct (List.find _ _) as [f|].
  - exists (folder_id f), db. auto.
  - eexists _, _. split; [reflexivity|]. simpl. auto.
Qed.

Lemma NoDup_map_inj {A B : Type} (f : A -> B) (l : list A) :
  NoDup (map f l) -> forall x y, In x l -> In y l -> f x = f y -> x = y.
Proof.
  induction l as [|a l IH]; intros Hnd x y Hx Hy Heq; [destruct Hx|].
  cbn [map] in Hnd. apply NoDup_cons in Hnd as [Ha Hnd]. rewrite list_elem_of_In in Ha.
  destruct Hx as [Hx|Hx], Hy as [Hy|Hy].
  - congruence.
  - exfalso. apply Ha. subst a. rewrite Heq. apply in_map, Hy.
  - exfalso. apply Ha. subst a. rewrite <- Heq. apply in_map, Hx.
  - apply IH; assumption.
Qed.

Lemma nonempty_In {A : Type} (l : list A) : l <> [] -> exists x, In x l.
Proof. destruct l as [|x l]; [congruence|]. exists x. left. reflexivity. Qed.

Lemma exportedFile_nonempty (uuid : str) (l : list StartingPoint.StartingPointMenuGroup) :
  l <> [] -> exportedFile uuid l = Some (startingPointFile uuid l).
Proof. destruct l; [congruence|reflexivity]. Qed.

Section ImportedStore.

Variable db0 : Db.
Variable groups : list StartingPoint.StartingPointMenuGroup.

Hypothesis no_starting_points :
  forall s, In s (shapes db0) -> StartingPoint.isStartingPointShape (shapeId s) = false.
Hypothesis tables_free :
  forall t, In t (groupTables groups) -> tables db0 !! t = None.
Hypothesis tables_distinct : NoDup (groupTables groups).

Lemma not_in_db0 (id : str) :
  StartingPoint.isStartingPointShape id = true -> ~ In id (shapeIds db0).
Proof.
  intros Hsp Hin. unfold shapeIds in Hin. apply in_map_iff in Hin as (s & Hs & Hin).
  apply no_starting_points in Hin. congruence.
Qed.

Lemma group_not_index (g : StartingPoint.StartingPointMenuGroup) :
  In g groups ->
  tableName (StartingPoint.groupShapeId g)
  <> tableName StartingPoint.STARTING_POINT_INDEX_ID.
Proof.
  intros Hg Heq. unfold groupTables in tables_distinct.
  apply NoDup_app in tables_distinct as (_ & Hdisj & _).
  apply (Hdisj (tableName (StartingPoint.groupShapeId g))).
  - apply list_elem_of_In.
    apply (in_map (fun g => tableName (StartingPoint.groupShapeId g))), Hg.
  - rewrite Heq. apply list_elem_of_In. left. reflexivity.
Qed.

Lemma import_run (data : StartingPoint.StartingPointFile) :
  groupsOf data = groups ->
  groups <> [] ->
  exists r folder db,
    StartingPoint.importStartingPoints data db0 = Ok (r, db)
    /\ imported db0 folder groups db.
Proof.
  intros Hdata Hne. unfold StartingPoint.importStartingPoints. unfold groupsOf in Hdata.
  destruct (List.find _ data) as [config|]; [|congruence].
  cbv zeta. rewrite Hdata. rewrite (match_nonempty groups _ _ Hne).
  destruct (folder_run db0) as (fid & db1 & Hf & Hs1 & Ht1).
  erewrite bind_Ok by exact Hf.
  pose proof tables_distinct as Hnd. unfold groupTables in Hnd.
  apply NoDup_app in Hnd as (Hnd & _ & _).
  destruct (importGroups_run fid groups (StartingPoint.mkState 0 0 []) db1 Hnd)
    as (st & db2 & Hrun & Hc & Hs2 & Hl2 & Ho2).
  { intros g Hg. unfold shapeIds. rewrite Hs1.
    apply not_in_db0, groupShapeId_startingPoint. }
  { intros g Hg. rewrite Ht1. apply tables_free. unfold groupTables.
    apply in_app_iff. left.
    apply (in_map (fun g => tableName (StartingPoint.groupShapeId g))), Hg. }
  erewrite bind_Ok by exact Hrun.
  assert (Hidx : ~ In StartingPoint.STARTING_POINT_INDEX_ID (shapeIds db2)).
  { unfold shapeIds. rewrite Hs2, Hs1, map_app. intros Hin.
    apply in_app_iff in Hin as [Hin|Hin].
    - revert Hin. apply not_in_db0. reflexivity.
    - rewrite map_map in Hin. apply in_map_iff in Hin as (g & Hid & Hg).
      simpl in Hid. apply (group_not_index g Hg). rewrite Hid. reflexivity. }
  erewrite bind_Ok by (apply shape_get_absent, Hidx).
  erewrite bind_Ok by reflexivity.
  erewrite bind_Ok by (apply shape_create_run, Hidx).
  fold (indexShape fid).
  assert (Hnone : tables db2 !! tableName (shapeId (indexShape fid)) = None).
  { simpl shapeId. rewrite Ho2, Ht1.
    - apply tables_free. unfold groupTables. apply in_app_iff. right. left. reflexivity.
    - intros Hin. apply in_map_iff in Hin as (g & Hid & Hg).
      apply (group_not_index g Hg). exact Hid. }
  destruct (with_shape_new_table (indexShape fid) db2 Hnone) as (Hl3 & Ho3 & Hs3).
  destruct (importIndexRows_run (StartingPoint.createdShapeIds st) 0
              (StartingPoint.st_rows st) _ _ Hl3) as (db4 & Hrun4 & Hs4 & Hl4 & Ho4).
  erewrite bind_Ok by exact Hrun4. unfold ret.
  eexists _, fid, db4. split; [reflexivity|]. unfold imported.
  split; [rewrite Hs4, Hs3, Hs2, Hs1, <- app_assoc; reflexivity|].
  split.
  { intros g Hg. rewrite Ho4, Ho3 by (apply group_not_index, Hg). apply Hl2, Hg. }
  split.
  { rewrite Hl4, Hc. reflexivity. }
  intros t Ht. unfold groupTables in Ht.
  assert (Hti : t <> tableName StartingPoint.STARTING_POINT_INDEX_ID).
  { intros ->. apply Ht, in_app_iff. right. left. reflexivity. }
  assert (Htg : ~ In t (map (fun g => tableName (StartingPoint.groupShapeId g)) groups)).
  { intros H. apply Ht, in_app_iff. left. exact H. }
  rewrite Ho4, Ho3, Ho2, Ht1 by assumption. reflexivity.
Qed.

(** *** The export of what was imported *)

Hypothesis db0_tables : tables_exist db0.
Hypothesis groups_nonempty : groups <> [].
Hypothesis items_nonempty :
  Forall (fun g => StartingPoint.menuItems g <> []) groups.

Lemma itemRowsFrom_order (n : nat) (items : list StartingPoint.StartingPointMenuItem) :
  Forall (fun r => n <= rowOrder r) (itemRowsFrom n items)
  /\ ascending (fun a b => rowOrder a <=? rowOrder b)%nat (itemRowsFrom n items).
Proof.
  revert n. induction items as [|i items IH]; intros n; simpl; [split; [constructor|exact I]|].
  destruct (IH (S n)) as [Hge Hasc]. split.
  - constructor; [unfold storedRow; simpl; lia|]. eapply Forall_impl; [exact Hge|].
    simpl. intros; lia.
  - split; [|exact Hasc]. eapply Forall_impl; [exact Hge|].
    unfold storedRow. simpl. intros r Hr. apply Nat.leb_le. lia.
Qed.

Lemma indexRowsFrom_order (n : nat) (entries : list (str * str)) :
  Forall (fun r => n <= rowOrder r) (indexRowsFrom n entries)
  /\ ascending (fun a b => rowOrder a <=? rowOrder b)%nat (indexRowsFrom n entries).
Proof.
  revert n. induction entries as [|e entries IH]; intros n; simpl;
    [split; [constructor|exact I]|].
  destruct (IH (S n)) as [Hge Hasc]. split.
  - constructor; [unfold storedRow; simpl; lia|]. eapply Forall_impl; [exact Hge|].
    simpl. intros; lia.
  - split; [|exact Hasc]. eapply Forall_impl; [exact Hge|].
    unfold storedRow. simpl. intros r Hr. apply Nat.leb_le. lia.
Qed.

Lemma menuItemOf_itemRow (n : nat) (i : StartingPoint.StartingPointMenuItem) :
  StartingPoint.is_hasPart (storedRow n (StartingPoint.itemRow n i)) = true
  /\ StartingPoint.menuItemOf (storedRow n (StartingPoint.itemRow n i)) = normalItem i.
Proof.
  split; [reflexivity|].
  unfold StartingPoint.menuItemOf, normalItem, firstOnly. destruct i as [l t u]. simpl.
  f_equal.
  - destruct l; reflexivity.
  - destruct t as [|[|c s] t]; reflexivity.
  - destruct u as [|[|c s] u]; reflexivity.
Qed.

Lemma exported_items (n : nat) (items : list StartingPoint.StartingPointMenuItem) :
  map StartingPoint.menuItemOf
    (List.filter StartingPoint.is_hasPart (itemRowsFrom n items))
  = map normalItem items.
Proof.
  revert n. induction items as [|i items IH]; intros n; [reflexivity|].
  cbn [itemRowsFrom List.filter].
  destruct (menuItemOf_itemRow n i) as [Hp Hm]. rewrite Hp. cbn [map].
  rewrite Hm, IH. reflexivity.
Qed.

Lemma groupLabel_groupShape (folder : nat) (g : StartingPoint.StartingPointMenuGroup) :
  StartingPoint.groupLabel (groupShape folder g) = StartingPoint.menuGroup g.
Proof.
  unfold StartingPoint.groupLabel, groupShape, StartingPoint.groupShapeId. simpl.
  destruct (StartingPoint.menuGroup g) as [|c s]; reflexivity.
Qed.

Lemma index_references (entries : list (str * str)) :
  Forall (fun e => fst e <> []) entries ->
  forall n,
    omap (fun r => truthy (valueShape r)) (indexRowsFrom n entries) = map fst entries.
Proof.
  induction 1 as [|[id l] entries Hid _ IH]; intros n; [reflexivity|].
  cbn [indexRowsFrom omap list_omap map fst]. simpl in Hid.
  change (list_omap _ _ ?f ?l) with (omap f l). rewrite IH.
  destruct id; [congruence|reflexivity].
Qed.

Variable folder : nat.
Variable db : Db.
Hypothesis db_imported : imported db0 folder groups db.

Lemma imported_tables_exist : tables_exist db.
Proof.
  destruct db_imported as (Hs & Hg & Hi & Ho). intros s Hin. unfold has_table.
  destruct (decide (tableName (shapeId s) ∈ groupTables groups)) as [Hin'|Hnot];
    rewrite list_elem_of_In in *.
  - unfold groupTables in Hin'. apply in_app_iff in Hin' as [Hin'|[<-|[]]].
    + apply in_map_iff in Hin' as (g & <- & Hin'). rewrite (Hg g Hin'). eauto.
    + rewrite Hi. eauto.
  - rewrite (Ho _ Hnot). rewrite Hs in Hin. apply in_app_iff in Hin as [Hin|Hin].
    + apply db0_tables, Hin.
    + exfalso. apply Hnot. unfold groupTables.
      apply in_app_iff in Hin as [Hin|[<-|[]]].
      * apply in_map_iff in Hin as (g & <- & Hin). apply in_app_iff. left.
        apply (in_map (fun g => tableName (StartingPoint.groupShapeId g))), Hin.
      * apply in_app_iff. right. left. reflexivity.
Qed.

Lemma imported_starting_points (s : Shape) :
  In s (startingPointShapesOf db) <-> In s (map (groupShape folder) groups).
Proof.
  destruct db_imported as (Hs & _). split.
  - intros Hin. apply startingPointShapesOf_spec in Hin as (Hin & Hsp & Hidx).
    rewrite Hs in Hin. apply in_app_iff in Hin as [Hin|Hin].
    + apply no_starting_points in Hin. congruence.
    + apply in_app_iff in Hin as [Hin|[<-|[]]]; [exact Hin|]. exfalso. apply Hidx.
      reflexivity.
  - intros Hin. unfold startingPointShapesOf, listedShapes. apply filter_In.
    split.
    + apply sort_by_In. rewrite Hs. apply in_app_iff. right. apply in_app_iff. left.
      exact Hin.
    + apply in_map_iff in Hin as (g & <- & Hin). simpl shapeId.
      rewrite groupShapeId_startingPoint, andb_true_l. apply negb_true_iff.
      apply bool_decide_eq_false_2. intros Heq. apply (group_not_index g Hin).
      rewrite Heq. reflexivity.
Qed.

Lemma imported_index_references :
  indexReferences db = map StartingPoint.groupShapeId groups.
Proof.
  destruct db_imported as (Hs & _ & Hi & _). unfold indexReferences.
  destruct (List.find _ (listedShapes db)) as [idx|] eqn:E.
  - unfold listedRows. rewrite Hi. simpl default.
    rewrite sort_by_ascending by apply indexRowsFrom_order.
    rewrite index_references.
    + unfold indexEntries. rewrite map_map. reflexivity.
    + unfold indexEntries. apply Forall_forall. intros e He.
      apply list_elem_of_In, in_map_iff in He as (g & <- & _). discriminate.
  - exfalso. assert (Hin : In (indexShape folder) (listedShapes db)).
    { apply sort_by_In. rewrite Hs. apply in_app_iff. right. apply in_app_iff. right.
      left. reflexivity. }
    apply (find_none _ _ E) in Hin. apply bool_decide_eq_false_1 in Hin.
    apply Hin. reflexivity.
Qed.

Lemma group_by_table (g h : StartingPoint.StartingPointMenuGroup) :
  In g groups -> In h groups ->
  StartingPoint.groupShapeId g = StartingPoint.groupShapeId h -> g = h.
Proof.
  intros Hg Hh Heq.
  pose proof tables_distinct as Hnd. unfold groupTables in Hnd.
  apply NoDup_app in Hnd as (Hnd & _ & _).
  apply (NoDup_map_inj _ _ Hnd g h Hg Hh). simpl. rewrite Heq. reflexivity.
Qed.

Lemma imported_lookup (g : StartingPoint.StartingPointMenuGroup) :
  In g groups ->
  StartingPoint.shapeMapOf (startingPointShapesOf db) !! StartingPoint.groupShapeId g
  = Some (groupShape folder g).
Proof.
  intros Hg.
  pose proof (shapeMapOf_lookup (startingPointShapesOf db) (StartingPoint.groupShapeId g))
    as H.
  destruct (StartingPoint.shapeMapOf _ !! _) as [s|].
  - destruct H as (Hid & Hin & _). apply imported_starting_points in Hin.
    apply in_map_iff in Hin as (h & <- & Hh). simpl in Hid.
    rewrite (group_by_table h g Hh Hg Hid). reflexivity.
  - exfalso. apply inb_false in H. apply H.
    change (StartingPoint.groupShapeId g) with (shapeId (groupShape folder g)).
    apply in_map, imported_starting_points, in_map, Hg.
Qed.

Lemma imported_order :
  StartingPoint.orderShapes (startingPointShapesOf db) (indexReferences db)
  = map (groupShape folder) groups.
Proof.
  rewrite imported_index_references. unfold StartingPoint.orderShapes.
  assert (Hun : List.filter
                  (fun s => negb (inb (shapeId s) (map StartingPoint.groupShapeId groups)))
                  (startingPointShapesOf db) = []).
  { assert (H : forall l, (forall s, In s l -> In s (map (groupShape folder) groups)) ->
              List.filter
                (fun s => negb (inb (shapeId s) (map StartingPoint.groupShapeId groups))) l
              = []).
    { induction l as [|s l IH]; intros Hl; [reflexivity|]. cbn [List.filter].
      replace (inb (shapeId s) (map StartingPoint.groupShapeId groups)) with true.
      - apply IH. intros s' Hs'. apply Hl. right. exact Hs'.
      - symmetry. apply not_false_iff_true. rewrite inb_false. intros Hn. apply Hn.
        specialize (Hl s (or_introl eq_refl)).
        apply in_map_iff in Hl as (g & <- & Hg). simpl.
        apply in_map, Hg. }
    apply H. intros s. apply imported_starting_points. }
  rewrite Hun, app_nil_r.
  assert (H : forall l, (forall g, In g l -> In g groups) ->
            omap (fun id => StartingPoint.shapeMapOf (startingPointShapesOf db) !! id)
              (map StartingPoint.groupShapeId l)
            = map (groupShape folder) l).
  { induction l as [|g l IH]; intros Hl; [reflexivity|].
    cbn [map omap list_omap]. rewrite imported_lookup by (apply Hl; left; reflexivity).
    change (list_omap _ _ ?f ?l) with (omap f l).
    rewrite IH by (intros h Hh; apply Hl; right; exact Hh). reflexivity. }
  apply H. auto.
Qed.

Lemma imported_groupOf (g : StartingPoint.StartingPointMenuGroup) :
  In g groups -> groupOf db (groupShape folder g) = [normalGroup g].
Proof.
  intros Hg. destruct db_imported as (_ & Hrows & _).
  unfold groupOf, listedRows. simpl shapeId. rewrite (Hrows g Hg). simpl default.
  rewrite sort_by_ascending by apply itemRowsFrom_order.
  rewrite exported_items, groupLabel_groupShape.
  rewrite Forall_forall in items_nonempty.
  specialize (items_nonempty g (proj2 (list_elem_of_In _ _) Hg)).
  destruct (StartingPoint.menuItems g) as [|i items] eqn:E; [congruence|].
  unfold normalGroup. rewrite E. reflexivity.
Qed.

Lemma export_imported (uuid : str) :
  StartingPoint.exportStartingPoints uuid db
  = Ok (Some (startingPointFile uuid (map normalGroup groups)), db).
Proof.
  rewrite exportStartingPoints_run by apply imported_tables_exist.
  rewrite imported_order.
  assert (Hg : forall l, (forall g, In g l -> In g groups) ->
             flat_map (groupOf db) (map (groupShape folder) l) = map normalGroup l).
  { induction l as [|g l IH]; intros Hl; [reflexivity|].
    cbn [map flat_map]. rewrite imported_groupOf by (apply Hl; left; reflexivity).
    rewrite IH by (intros h Hh; apply Hl; right; exact Hh). reflexivity. }
  rewrite Hg by auto.
  destruct (nonempty_In groups groups_nonempty) as [g0 Hg0].
  assert (Hin : In (groupShape folder g0) (startingPointShapesOf db)).
  { apply imported_starting_points, in_map, Hg0. }
  destruct (startingPointShapesOf db) as [|s sps]; [destruct Hin|].
  apply (f_equal (fun o => Ok (o, db))), exportedFile_nonempty.
  intros E. apply map_eq_nil in E. apply groups_nonempty, E.
Qed.

End ImportedStore.


Lemma bind_ext {A B : Type} (m m' : M A) (k k' : A -> M B) (db : Db) :
  m db = m' db -> (forall a db', k a db' = k' a db') -> bind m k db = bind m' k' db.
Proof.
  intros Hm Hk. unfold bind. rewrite Hm. destruct (m' db) as [[a db']|e]; auto.
Qed.

Lemma firstOnly_idem (l : list str) : firstOnly (firstOnly l) = firstOnly l.
Proof. destruct l as [|[|c s] l]; reflexivity. Qed.

Lemma head_firstOnly (l : list str) :
  or_else (head (firstOnly l)) [] = or_else (head l) [].
Proof. destruct l as [|[|c s] l]; reflexivity. Qed.

Lemma normalGroup_idem (g : StartingPoint.StartingPointMenuGroup) :
  normalGroup (normalGroup g) = normalGroup g.
Proof.
  unfold normalGroup. simpl. f_equal. rewrite map_map. apply map_ext.
  intros i. unfold normalItem. simpl. rewrite !firstOnly_idem. reflexivity.
Qed.

Lemma itemRow_normal (n : nat) (i : StartingPoint.StartingPointMenuItem) :
  StartingPoint.itemRow n (normalItem i) = StartingPoint.itemRow n i.
Proof.
  unfold StartingPoint.itemRow, normalItem. simpl. rewrite !head_firstOnly. reflexivity.
Qed.

Lemma importItems_normal (id : str) (items : list StartingPoint.StartingPointMenuItem)
    (n c : nat) (db : Db) :
  StartingPoint.importItems id (map normalItem items) n c db
  = StartingPoint.importItems id items n c db.
Proof.
  revert n c db. induction items as [|i items IH]; intros n c db; [reflexivity|].
  cbn [map StartingPoint.importItems]. rewrite itemRow_normal.
  apply bind_ext; [reflexivity|]. intros _ db'. apply IH.
Qed.

Lemma importGroup_normal (folder : nat) (st : StartingPoint.ImportState)
    (g : StartingPoint.StartingPointMenuGroup) (db : Db) :
  StartingPoint.importGroup folder st (normalGroup g) db
  = StartingPoint.importGroup folder st g db.
Proof.
  unfold StartingPoint.importGroup.
  change (StartingPoint.groupShapeId (normalGroup g)) with (StartingPoint.groupShapeId g).
  change (StartingPoint.menuGroup (normalGroup g)) with (StartingPoint.menuGroup g).
  change (StartingPoint.menuItems (normalGroup g))
    with (map normalItem (StartingPoint.menuItems g)).
  apply bind_ext; [reflexivity|]. intros existing db1.
  apply bind_ext; [reflexivity|]. intros _ db2.
  apply bind_ext; [reflexivity|]. intros _ db3.
  apply bind_ext; [apply importItems_normal|]. reflexivity.
Qed.

Lemma importGroups_normal (folder : nat) (groups : list StartingPoint.StartingPointMenuGroup)
    (st : StartingPoint.ImportState) (db : Db) :
  foldM (StartingPoint.importGroup folder) (map normalGroup groups) st db
  = foldM (StartingPoint.importGroup folder) groups st db.
Proof.
  revert st db. induction groups as [|g groups IH]; intros st db; [reflexivity|].
  cbn [map foldM]. apply bind_ext; [apply importGroup_normal|]. intros st' db'. apply IH.
Qed.

Lemma import_exported (uuid : str) (data : StartingPoint.StartingPointFile) (db : Db) :
  groupsOf data <> [] ->
  StartingPoint.importStartingPoints
    (startingPointFile uuid (map normalGroup (groupsOf data))) db
  = StartingPoint.importStartingPoints data db.
Proof.
  intros Hne. unfold StartingPoint.importStartingPoints, startingPointFile, groupsOf in *.
  cbn [List.find StartingPoint.configType]. rewrite bool_decide_eq_true_2 by reflexivity.
  cbv zeta. cbn [StartingPoint.json].
  destruct (List.find _ data) as [config|]; [|congruence].
  destruct (StartingPoint.json config) as [|g0 gs] eqn:E; [congruence|].
  cbn [map]. apply bind_ext; [reflexivity|]. intros fid db1.
  apply bind_ext; [apply (importGroups_normal fid (g0 :: gs))|]. reflexivity.
Qed.

(** C2 (as amended). Take a file whose menu groups all have an item and
    are stored in pairwise distinct row tables, none of them that of
    the index, and import it into a workspace that has no starting-point
    shape and none of these tables. The export of the result holds the
    same menu groups in the same order, each with the same item labels
    and with, per item, the first type and the first template reference
    as singleton lists; the index rows name the groups in that order;
    and importing the export into the workspace as it was gives the
    same store again. *)
Theorem startingPoints_roundtrip (data : StartingPoint.StartingPointFile) (db0 : Db)
    (uuid : str) :
  groupsOf data <> [] ->
  Forall (fun g => StartingPoint.menuItems g <> []) (groupsOf data) ->
  NoDup (groupTables (groupsOf data)) ->
  tables_exist db0 ->
  (forall s, In s (shapes db0) -> StartingPoint.isStartingPointShape (shapeId s) = false) ->
  (forall t, In t (groupTables (groupsOf data)) -> tables db0 !! t = None) ->
  exists r db,
    StartingPoint.importStartingPoints data db0 = Ok (r, db)
    /\ StartingPoint.exportStartingPoints uuid db
       = Ok (Some (startingPointFile uuid (map normalGroup (groupsOf data))), db)
    /\ indexReferences db = map StartingPoint.groupShapeId (groupsOf data)
    /\ StartingPoint.importStartingPoints
         (startingPointFile uuid (map normalGroup (groupsOf data))) db0 = Ok (r, db)
    /\ map normalGroup (map normalGroup (groupsOf data)) = map normalGroup (groupsOf data).
Proof.
  intros Hne Hitems Hnd Htab Hsp Hfree.
  destruct (import_run db0 (groupsOf data)) with (data := data)
    as (r & folder & db & Hrun & Himp); try assumption; [reflexivity|].
  exists r, db. split; [exact Hrun|].
  split; [eapply export_imported; eassumption|].
  split; [eapply imported_index_references; eassumption|].
  split; [rewrite import_exported by exact Hne; exact Hrun|].
  rewrite map_map. apply map_ext. apply normalGroup_idem.
Qed.

End StartingPointRoundTrip.

Section StartingPointRoundTripExamples.

Lemma library_db_tables_exist : tables_exist library_db.
Proof.
  intros s Hin. simpl in Hin.
  destruct Hin as [<-|[<-|[]]]; vm_compute; eexists; reflexivity.
Defined.

Lemma startingPoints_roundtrip_witness :
  let data := monograph_serial_file in
  let db0 := library_db in
  let uuid : str := "config-1" in
  exists r db,
    StartingPoint.importStartingPoints data db0 = Ok (r, db)
    /\ StartingPoint.exportStartingPoints uuid db
       = Ok (Some (startingPointFile uuid (map normalGroup (groupsOf data))), db)
    /\ indexReferences db = map StartingPoint.groupShapeId (groupsOf data)
    /\ StartingPoint.importStartingPoints
         (startingPointFile uuid (map normalGroup (groupsOf data))) db0 = Ok (r, db)
    /\ map normalGroup (map normalGroup (groupsOf data)) = map normalGroup (groupsOf data).
Proof.
  apply (startingPoints_roundtrip monograph_serial_file library_db "config-1").
  - vm_compute. discriminate.
  - vm_compute. repeat (constructor; [discriminate|]). constructor.
  - apply (bool_decide_unpack _). vm_compute. exact I.
  - exact library_db_tables_exist.
  - intros s Hin. simpl in Hin. destruct Hin as [<-|[<-|[]]]; vm_compute; reflexivity.
  - intros t Hin. vm_compute in Hin.
    destruct Hin as [<-|[<-|[<-|[]]]]; vm_compute; reflexivity.
Defined.

(** The export of the imported [monograph_serial_file]: the second
    group's item keeps the first of its two types. *)
Example monograph_serial_export :
  option_map (map (fun g => (StartingPoint.menuGroup g,
                             map StartingPoint.type (StartingPoint.menuItems g))))
    (match exportOf "config-1"
             (StartingPoint.importStartingPoints monograph_serial_file library_db) with
     | Ok (Some [config], _) => Some (StartingPoint.json config)
     | _ => None
     end)
  = Some [ (lit "Monograph",
            [ [lit "http://id.loc.gov/ontologies/bibframe/Instance"];
              [lit "http://id.loc.gov/ontologies/bibframe/Work"] ]);
           (lit "Rare Materials",
            [ [lit "http://id.loc.gov/ontologies/bibframe/Instance"] ]) ].
Proof. vm_compute. reflexivity. Qed.

(** C2 (as stated) fails. A menu group without items is imported as a
    shape without rows and recorded in the index, but the export skips
    a shape that has no [dcterms:hasPart] row: the exported file has one
    group where the file had two, and importing it records one group
    where the index recorded two. The row tables of the two group shapes
    and of the index are distinct. *)
Lemma startingPoints_roundtrip_fails :
  let db0 := initializeWorkspaceDb "Menus" in
  let W := StartingPoint.importStartingPoints empty_group_file db0 in
  let E := exportOf "config-1" W in
  map (fun g => (StartingPoint.menuGroup g,
                 map StartingPoint.label (StartingPoint.menuItems g)))
    (groupsOf empty_group_file)
  = [ (lit "Monograph", [lit "Work"]); (lit "Drafts", []) ]
  /\ NoDup (groupTables (groupsOf empty_group_file))
  /\ recordedOrder W = Some [lit "startingpoint:Monograph"; lit "startingpoint:Drafts"]
  /\ exportedLabels E = Some [ (lit "Monograph", [lit "Work"]) ]
  /\ recordedOrder (importInto db0 E) = Some [lit "startingpoint:Monograph"]
  /\ recordedOrder (importInPlace E) = Some [lit "startingpoint:Monograph"].
Proof.
  split; [vm_compute; reflexivity|].
  split; [apply (bool_decide_unpack _); vm_compute; exact I|].
  vm_compute. repeat split; reflexivity.
Qed.

(** Apart from this, a menu group labelled [Index] shares its row table
    with the index shape (the table name folds the letter case of the
    id): the export of the workspace built by one import already lists
    the index row as a second item, and importing that export into a
    fresh workspace, or into the workspace itself, gives other item
    labels again. The round trip above excludes such groups. *)
Example index_group_shares_table :
  let db0 := initializeWorkspaceDb "Menus" in
  let W := StartingPoint.importStartingPoints index_group_file db0 in
  let E := exportOf "config-1" W in
  map (fun g => (StartingPoint.menuGroup g,
                 map StartingPoint.label (StartingPoint.menuItems g)))
    (groupsOf index_group_file)
  = [ (lit "Index", [lit "Work"]) ]
  /\ exportedLabels E = Some [ (lit "Index", [lit "Work"; lit "Index"]) ]
  /\ exportedLabels (exportOf "config-2" (importInto db0 E))
     = Some [ (lit "Index", [lit "Work"; lit "Index"; lit "Index"]);
              (lit "Index", [lit "Work"; lit "Index"; lit "Index"]) ]
  /\ exportedLabels (exportOf "config-2" (importInPlace E))
     = Some [ (lit "Index", [lit "Index"]) ].
Proof. vm_compute. repeat split; reflexivity. Qed.

End StartingPointRoundTripExamples.

(** ** CSV export and import: cells and lines *)

Section CsvCells.

Variable d : ascii.
Hypothesis d_not_quote : d <> Str.dquote.

Lemma scan_plain (s rest cur : str) (res : list str) :
  existsb (Str.is_char d) s = false ->
  existsb (Str.is_char Str.dquote) s = false ->
  Csv.parseCSVLine_from d (s ++ rest) cur false res
  = Csv.parseCSVLine_from d rest (cur ++ s) false res.
Proof.
  revert cur. induction s as [|c s IH]; intros cur Hd Hq.
  - rewrite app_nil_r. reflexivity.
  - cbn [existsb] in Hd, Hq.
    apply orb_false_iff in Hd as [Hc Hd]. apply orb_false_iff in Hq as [Hcq Hq].
    unfold Str.is_char in Hc, Hcq.
    cbn [app Csv.parseCSVLine_from]. rewrite Hcq, Hc. cbn [andb].
    rewrite IH by assumption. rewrite <- app_assoc. reflexivity.
Qed.

Lemma scan_quoted (s rest cur : str) (res : list str) :
  Csv.parseCSVLine_from d
    (Str.replaceAll Str.dquote [Str.dquote; Str.dquote] s ++ rest) cur true res
  = Csv.parseCSVLine_from d rest (cur ++ s) true res.
Proof.
  revert cur. induction s as [|c s IH]; intros cur.
  - rewrite app_nil_r. reflexivity.
  - unfold Str.replaceAll in *. cbn [flat_map].
    destruct (Ascii.eqb c Str.dquote) eqn:E.
    + apply Ascii.eqb_eq in E. subst c.
      cbn [app Csv.parseCSVLine_from]. rewrite Ascii.eqb_refl. cbn [andb].
      rewrite IH, <- app_assoc. reflexivity.
    + cbn [app Csv.parseCSVLine_from]. rewrite E, andb_false_r.
      rewrite IH, <- app_assoc. reflexivity.
Qed.

Lemma open_quote (rest cur : str) (res : list str) :
  Csv.parseCSVLine_from d (Str.dquote :: rest) cur false res
  = Csv.parseCSVLine_from d rest cur true res.
Proof.
  cbn [Csv.parseCSVLine_from]. rewrite Ascii.eqb_refl. destruct rest; reflexivity.
Qed.

Lemma at_delimiter (more cur : str) (res : list str) :
  Csv.parseCSVLine_from d (d :: more) cur false res
  = Csv.parseCSVLine_from d more [] false (res ++ [Str.trim cur]).
Proof.
  cbn [Csv.parseCSVLine_from].
  apply Ascii.eqb_neq in d_not_quote. rewrite d_not_quote, Ascii.eqb_refl. reflexivity.
Qed.

Lemma close_quote_delim (more cur : str) (res : list str) :
  Csv.parseCSVLine_from d (Str.dquote :: d :: more) cur true res
  = Csv.parseCSVLine_from d more [] false (res ++ [Str.trim cur]).
Proof.
  cbn [Csv.parseCSVLine_from]. rewrite Ascii.eqb_refl.
  pose proof d_not_quote as Hd. apply Ascii.eqb_neq in Hd. rewrite Hd.
  rewrite andb_false_r. cbn [negb]. rewrite Ascii.eqb_refl. reflexivity.
Qed.

Lemma close_quote_end (cur : str) (res : list str) :
  Csv.parseCSVLine_from d [Str.dquote] cur true res = res ++ [Str.trim cur].
Proof. cbn [Csv.parseCSVLine_from]. rewrite Ascii.eqb_refl. reflexivity. Qed.

Lemma escaped_cases (s : str) :
  (existsb (Str.is_char d) s = false /\ existsb (Str.is_char Str.dquote) s = false
   /\ escaped d s = s)
  \/ escaped d s
     = Str.dquote :: Str.replaceAll Str.dquote [Str.dquote; Str.dquote] s ++ [Str.dquote].
Proof.
  unfold escaped, Csv.escapeCSVValue. cbv zeta.
  destruct (existsb (Str.is_char d) s) eqn:Hd; [right; reflexivity|].
  destruct (existsb (Str.is_char Str.dquote) s) eqn:Hq; [right; reflexivity|].
  destruct (existsb (Str.is_char Str.nl) s) eqn:Hn; [right; reflexivity|].
  left. auto.
Qed.

Lemma scan_cell_delim (s more : str) (res : list str) :
  Csv.parseCSVLine_from d (escaped d s ++ d :: more) [] false res
  = Csv.parseCSVLine_from d more [] false (res ++ [Str.trim s]).
Proof.
  destruct (escaped_cases s) as [(Hd & Hq & ->)| ->].
  - rewrite scan_plain by assumption. apply at_delimiter.
  - cbn [app]. rewrite open_quote, <- app_assoc. cbn [app].
    rewrite scan_quoted. apply close_quote_delim.
Qed.

Lemma scan_cell_end (s : str) (res : list str) :
  Csv.parseCSVLine_from d (escaped d s) [] false res = res ++ [Str.trim s].
Proof.
  destruct (escaped_cases s) as [(Hd & Hq & ->)| ->].
  - rewrite <- (app_nil_r s) at 1. rewrite scan_plain by assumption. reflexivity.
  - rewrite open_quote, scan_quoted. apply close_quote_end.
Qed.

Lemma join_cons (x y : str) (l : list str) :
  Str.join [d] (x :: y :: l) = x ++ d :: Str.join [d] (y :: l).
Proof. reflexivity. Qed.

Lemma parse_joined_from (cells : list str) (res : list str) :
  cells <> [] ->
  Csv.parseCSVLine_from d (Str.join [d] (map (escaped d) cells)) [] false res
  = res ++ map Str.trim cells.
Proof.
  revert res. induction cells as [|c cells IH]; intros res Hne; [congruence|].
  destruct cells as [|c' cells].
  - apply scan_cell_end.
  - cbn [map] in *. rewrite join_cons, scan_cell_delim, IH by discriminate.
    rewrite <- app_assoc. reflexivity.
Qed.

(** Parsing a line of escaped cells gives the cells back, trimmed. *)
Lemma parse_joined (cells : list str) :
  cells <> [] ->
  Csv.parseCSVLine (Str.join [d] (map (escaped d) cells)) d = map Str.trim cells.
Proof. intros Hne. unfold Csv.parseCSVLine. rewrite parse_joined_from by exact Hne. reflexivity. Qed.

End CsvCells.

Section CsvLines.

Lemma splitLines_cons (c : ascii) (r : str) :
  Str.splitLines (c :: r)
  = if Ascii.eqb c Str.nl then [] :: Str.splitLines r
    else match r with
         | c' :: r' =>
             if Ascii.eqb c Str.cr && Ascii.eqb c' Str.nl then [] :: Str.splitLines r'
             else match Str.splitLines r with
                  | h :: t => (c :: h) :: t
                  | [] => [[c]]
                  end
         | [] => [[c]]
         end.
Proof. destruct r; reflexivity. Qed.

Lemma splitLines_single (l : str) : ~ In Str.nl l -> Str.splitLines l = [l].
Proof.
  induction l as [|c l IH]; intros Hn; [reflexivity|].
  rewrite splitLines_cons.
  assert (Hc : Ascii.eqb c Str.nl = false).
  { apply Ascii.eqb_neq. intros ->. apply Hn. left. reflexivity. }
  rewrite Hc. destruct l as [|c' l']; [reflexivity|].
  assert (Hc' : Ascii.eqb c' Str.nl = false).
  { apply Ascii.eqb_neq. intros ->. apply Hn. right. left. reflexivity. }
  rewrite Hc', andb_false_r, IH; [reflexivity|].
  intros H. apply Hn. right. exact H.
Qed.

Lemma splitLines_line (l rest : str) :
  ~ In Str.nl l -> last l <> Some Str.cr ->
  Str.splitLines (l ++ Str.nl :: rest) = l :: Str.splitLines rest.
Proof.
  induction l as [|c l IH]; intros Hn Hl.
  - cbn [app]. rewrite splitLines_cons, Ascii.eqb_refl. reflexivity.
  - cbn [app]. rewrite splitLines_cons.
    assert (Hc : Ascii.eqb c Str.nl = false).
    { apply Ascii.eqb_neq. intros ->. apply Hn. left. reflexivity. }
    rewrite Hc. destruct l as [|c' l'].
    + cbn [app]. assert (Hcr : Ascii.eqb c Str.cr = false).
      { apply Ascii.eqb_neq. intros ->. apply Hl. reflexivity. }
      rewrite Hcr. cbn [andb]. rewrite splitLines_cons, Ascii.eqb_refl. reflexivity.
    + assert (Hc' : Ascii.eqb c' Str.nl = false).
      { apply Ascii.eqb_neq. intros ->. apply Hn. right. left. reflexivity. }
      change ((c' :: l') ++ Str.nl :: rest) with (c' :: (l' ++ Str.nl :: rest)).
      cbv iota. rewrite Hc', andb_false_r.
      change (c' :: (l' ++ Str.nl :: rest)) with ((c' :: l') ++ Str.nl :: rest).
      rewrite IH; [reflexivity| |].
      * intros H. apply Hn. right. exact H.
      * intros H. apply Hl. rewrite last_cons, H. reflexivity.
Qed.

Lemma splitLines_join (ls : list str) :
  ls <> [] ->
  Forall (fun l => ~ In Str.nl l /\ last l <> Some Str.cr) ls ->
  Str.splitLines (Str.join [Str.nl] ls) = ls.
Proof.
  induction ls as [|l ls IH]; intros Hne Hall; [congruence|].
  apply Forall_cons in Hall as [[Hn Hl] Hall].
  destruct ls as [|l' ls].
  - apply splitLines_single, Hn.
  - rewrite (join_cons Str.nl), splitLines_line, IH by (assumption || discriminate).
    reflexivity.
Qed.

Lemma filter_all {A : Type} (p : A -> bool) (l : list A) :
  Forall (fun x => p x = true) l -> List.filter p l = l.
Proof.
  induction 1 as [|x l Hx _ IH]; [reflexivity|]. cbn [List.filter]. rewrite Hx, IH.
  reflexivity.
Qed.

Lemma hd_split (p : ascii -> bool) (h : str) (c : ascii) (rest : str) :
  existsb p h = false -> p c = true -> hd [] (Str.split p (h ++ c :: rest)) = h.
Proof.
  induction h as [|a h IH]; intros Hh Hc.
  - cbn [app Str.split]. rewrite Hc. reflexivity.
  - cbn [existsb] in Hh. apply orb_false_iff in Hh as [Ha Hh].
    cbn [app Str.split]. rewrite Ha. specialize (IH Hh Hc).
    destruct (Str.split p (h ++ c :: rest)) as [|x t]; cbn [hd] in *; congruence.
Qed.

Lemma hd_split_single (p : ascii -> bool) (h : str) :
  existsb p h = false -> hd [] (Str.split p h) = h.
Proof.
  induction h as [|a h IH]; intros Hh; [reflexivity|].
  cbn [existsb] in Hh. apply orb_false_iff in Hh as [Ha Hh].
  cbn [Str.split]. rewrite Ha. specialize (IH Hh).
  destruct (Str.split p h) as [|x t]; cbn [hd] in *; congruence.
Qed.

(** *** White space *)

Lemma has_ink_app (a b : str) : has_ink (a ++ b) = has_ink a || has_ink b.
Proof. apply existsb_app. Qed.

Lemma trimStart_ink (s : str) : has_ink (Str.trimStart s) = has_ink s.
Proof.
  induction s as [|c s IH]; [reflexivity|].
  cbn [Str.trimStart]. destruct (Str.is_ws c) eqn:E.
  - rewrite IH. unfold has_ink. cbn [existsb]. rewrite E. reflexivity.
  - reflexivity.
Qed.

Lemma has_ink_rev (s : str) : has_ink (rev s) = has_ink s.
Proof.
  induction s as [|c s IH]; [reflexivity|].
  cbn [rev]. rewrite has_ink_app, IH. unfold has_ink. cbn [existsb].
  rewrite orb_false_r. apply orb_comm.
Qed.

Lemma trim_ink (s : str) : has_ink (Str.trim s) = has_ink s.
Proof.
  unfold Str.trim, Str.trimEnd.
  rewrite has_ink_rev, trimStart_ink, has_ink_rev, trimStart_ink. reflexivity.
Qed.

Lemma ink_nonempty (s : str) : has_ink s = true -> Str.nonempty (Str.trim s) = true.
Proof.
  intros H. rewrite <- trim_ink in H. destruct (Str.trim s); [discriminate|reflexivity].
Qed.

Lemma trimStart_head (s : str) (c : ascii) :
  head (Str.trimStart s) = Some c -> Str.is_ws c = false.
Proof.
  induction s as [|a s IH]; [discriminate|].
  cbn [Str.trimStart]. destruct (Str.is_ws a) eqn:E; [exact IH|].
  cbn [head]. congruence.
Qed.

Lemma last_rev (s : str) : last (rev s) = head s.
Proof. destruct s as [|c s]; [reflexivity|]. cbn [rev]. apply last_snoc. Qed.

Lemma trim_last (s : str) (c : ascii) : last (Str.trim s) = Some c -> Str.is_ws c = false.
Proof. unfold Str.trim, Str.trimEnd. rewrite last_rev. apply trimStart_head. Qed.

End CsvLines.

(** ** CSV export: the lines of a clean workspace *)

Section CsvCleanCells.

Variable d : ascii.
Hypothesis d_not_quote : d <> Str.dquote.
Hypothesis d_not_nl : d <> Str.nl.
Hypothesis d_not_cr : d <> Str.cr.

Lemma clean_spec (s : str) :
  clean s = true <->
  s <> [] /\ Str.trim s = s /\ existsb (Str.is_char Str.nl) s = false.
Proof.
  unfold clean. rewrite !andb_true_iff, bool_decide_eq_true, negb_true_iff.
  destruct s; cbn [Str.nonempty]; intuition congruence.
Qed.

Lemma cell_trim (x : option str) :
  cleanCell x = true -> Str.trim (default [] x) = default [] x.
Proof. destruct x as [s|]; [|reflexivity]. intros H. apply clean_spec in H. apply H. Qed.

Lemma cell_nl (x : option str) :
  cleanCell x = true -> existsb (Str.is_char Str.nl) (default [] x) = false.
Proof. destruct x as [s|]; [|reflexivity]. intros H. apply clean_spec in H. apply H. Qed.

Lemma truthy_clean (x : option str) : cleanCell x = true -> truthy x = x.
Proof.
  destruct x as [s|]; [|reflexivity]. intros H. apply clean_spec in H as [Hne _].
  destruct s; [congruence|reflexivity].
Qed.

Lemma truthy_default (x : option str) : truthy (Some (default [] x)) = truthy x.
Proof. destruct x as [[|c s]|]; reflexivity. Qed.

Lemma no_ink_trimStart (s : str) : has_ink s = false -> Str.trimStart s = [].
Proof.
  induction s as [|c s IH]; [reflexivity|]. unfold has_ink. cbn [existsb Str.trimStart].
  intros H. apply orb_false_iff in H as [Hc Hs]. apply negb_false_iff in Hc.
  rewrite Hc. apply IH, Hs.
Qed.

Lemma clean_ink (s : str) : clean s = true -> has_ink s = true.
Proof.
  intros H. apply clean_spec in H as (Hne & Ht & _).
  destruct (has_ink s) eqn:E; [reflexivity|]. exfalso. apply Hne.
  rewrite <- Ht. unfold Str.trim. rewrite no_ink_trimStart by exact E. reflexivity.
Qed.

Lemma escaped_nl (c : str) :
  existsb (Str.is_char Str.nl) c = false -> ~ In Str.nl (escaped d c).
Proof.
  intros Hc. assert (Hn : ~ In Str.nl c).
  { intros Hin. apply not_true_iff_false in Hc. apply Hc, existsb_exists.
    exists Str.nl. split; [exact Hin|]. apply Ascii.eqb_refl. }
  destruct (escaped_cases d c) as [(_ & _ & ->)| ->]; [exact Hn|].
  intros [H|H]; [discriminate|]. apply in_app_iff in H as [H|[H|[]]]; [|discriminate].
  unfold Str.replaceAll in H. apply in_flat_map in H as (a & Ha & H).
  destruct (Ascii.eqb a Str.dquote).
  - destruct H as [H|[H|[]]]; discriminate.
  - destruct H as [H|[]]. subst a. exact (Hn Ha).
Qed.

Lemma escaped_last (x : option str) :
  cleanCell x = true -> last (escaped d (default [] x)) <> Some Str.cr.
Proof.
  intros Hx. destruct (escaped_cases d (default [] x)) as [(_ & _ & ->)| ->].
  - rewrite <- (cell_trim x Hx). intros H. apply trim_last in H. discriminate.
  - rewrite app_comm_cons, last_snoc. discriminate.
Qed.

Lemma escaped_ink (c : str) : has_ink c = true -> has_ink (escaped d c) = true.
Proof.
  intros Hc. destruct (escaped_cases d c) as [(_ & _ & ->)| ->]; [exact Hc|reflexivity].
Qed.

Lemma join_nl (cells : list str) :
  Forall (fun c => ~ In Str.nl c) cells -> ~ In Str.nl (Str.join [d] cells).
Proof.
  induction 1 as [|c cells Hc Hall IH]; [intros []|].
  destruct cells as [|c' cells]; [exact Hc|].
  rewrite join_cons. intros H. apply in_app_iff in H as [H|[H|H]]; auto.
Qed.

Lemma join_last (cells : list str) :
  Forall (fun c => last c <> Some Str.cr) cells -> last (Str.join [d] cells) <> Some Str.cr.
Proof.
  induction 1 as [|c cells Hc Hall IH]; [discriminate|].
  destruct cells as [|c' cells]; [exact Hc|].
  change (Str.join [d] (c :: c' :: cells)) with (c ++ d :: Str.join [d] (c' :: cells)).
  rewrite last_app, last_cons.
  destruct (last (Str.join [d] (c' :: cells))) as [y|]; [exact IH|congruence].
Qed.

Lemma join_ink (cells : list str) :
  Exists (fun c => has_ink c = true) cells -> has_ink (Str.join [d] cells) = true.
Proof.
  induction cells as [|c cells IH]; intros H; [inversion H|].
  destruct cells as [|c' cells].
  - inversion H as [? ? Hc|? ? Hc]; [exact Hc|inversion Hc].
  - rewrite join_cons, has_ink_app. inversion H as [? ? Hc|? ? Hc].
    + rewrite Hc. reflexivity.
    + change (d :: Str.join [d] (c' :: cells)) with ([d] ++ Str.join [d] (c' :: cells)).
      rewrite has_ink_app, (IH Hc), !orb_true_r. reflexivity.
Qed.

(** The line of clean cells: what the parser reads from it, and that
    it is one line of the file. *)
Lemma clean_line (opts : list (option str)) :
  opts <> [] ->
  forallb cleanCell opts = true ->
  let cells := map (default []) opts in
  let line := Str.join [d] (map (escaped d) cells) in
  Csv.parseCSVLine line d = cells
  /\ ~ In Str.nl line
  /\ last line <> Some Str.cr
  /\ (existsb is_truthy opts = true -> Str.nonempty (Str.trim line) = true).
Proof.
  intros Hne Hall cells line. rewrite forallb_forall in Hall.
  split; [|split; [|split]].
  - assert (Hc : cells <> []) by (unfold cells; destruct opts; [congruence|discriminate]).
    unfold line. rewrite (parse_joined d d_not_quote cells Hc).
    unfold cells. rewrite map_map. apply map_ext_in. intros x Hx. apply cell_trim, Hall, Hx.
  - apply join_nl. unfold cells. rewrite !Forall_map. apply Forall_forall.
    intros x Hx. apply list_elem_of_In in Hx. apply escaped_nl, cell_nl, Hall, Hx.
  - apply join_last. unfold cells. rewrite !Forall_map. apply Forall_forall.
    intros x Hx. apply list_elem_of_In in Hx. apply escaped_last, Hall, Hx.
  - intros Hex. apply ink_nonempty, join_ink. apply existsb_exists in Hex as (x & Hx & Ht).
    unfold cells. rewrite !Exists_map. apply Exists_exists. exists x.
    split; [apply list_elem_of_In, Hx|]. apply escaped_ink.
    specialize (Hall x Hx). destruct x as [[|c s]|]; try discriminate.
    apply clean_ink, Hall.
Qed.

Lemma escape_default (x : option str) :
  Csv.escapeCSVValue x d false = escaped d (default [] x).
Proof. destruct x; reflexivity. Qed.

Lemma escape_piped (x : option str) :
  Csv.escapeCSVValue x d true = escaped d (default [] (option_map piped x)).
Proof. destruct x; reflexivity. Qed.

Lemma rowLine_cells (s : Shape) (b : bool) (r : StatementRow) :
  Csv.rowLine d s b r = Str.join [d] (map (escaped d) (exportedCells s b r)).
Proof.
  unfold Csv.rowLine, exportedCells, shapeCells, statementCells.
  rewrite !escape_default, !escape_piped. destruct b; reflexivity.
Qed.

End CsvCleanCells.

(** ** CSV import: reading the exported lines back *)

Section CsvExportParse.

Variable f : Csv.format.

Lemma delimiter_not_quote : Csv.delimiterOf f <> Str.dquote.
Proof. destruct f; discriminate. Qed.

Lemma delimiter_not_nl : Csv.delimiterOf f <> Str.nl.
Proof. destruct f; discriminate. Qed.

Lemma delimiter_not_cr : Csv.delimiterOf f <> Str.cr.
Proof. destruct f; discriminate. Qed.

Lemma headerCols_eq :
  headerCols
  = [ (Csv.LcRemark, 16); (Csv.LcDataTypeURI, 15); (Csv.LcDefaultURI, 14);
      (Csv.LcDefaultLiteral, 13); (Csv.Note, 12); (Csv.ValueConstraintType, 11);
      (Csv.ValueConstraint, 10); (Csv.ValueShape, 9); (Csv.ValueDataType, 8);
      (Csv.ValueNodeType, 7); (Csv.Repeatable, 6); (Csv.Mandatory, 5);
      (Csv.PropertyLabel, 4); (Csv.PropertyId, 3); (Csv.ResourceURI, 2);
      (Csv.ShapeLabel, 1); (Csv.ShapeID, 0) ].
Proof. vm_compute. reflexivity. Qed.

Lemma cell_header (values : list str) (c : Csv.column) :
  Csv.cell headerCols values c = truthy (values !! columnIndex c).
Proof. unfold Csv.cell. rewrite headerCols_eq. destruct c; reflexivity. Qed.

Lemma header_parse :
  Csv.parseCSVLine (Str.join [Csv.delimiterOf f] Csv.headers) (Csv.delimiterOf f)
  = Csv.headers.
Proof. destruct f; vm_compute; reflexivity. Qed.

Lemma header_line :
  let line := Str.join [Csv.delimiterOf f] Csv.headers in
  existsb (Str.is_char Str.nl) line = false
  /\ ~ In Str.nl line
  /\ last line <> Some Str.cr
  /\ Str.nonempty (Str.trim line) = true.
Proof.
  assert (Hin : forall l, existsb (Str.is_char Str.nl) l = false -> ~ In Str.nl l).
  { intros l Hl Hi. apply not_true_iff_false in Hl. apply Hl, existsb_exists.
    exists Str.nl. split; [exact Hi|reflexivity]. }
  destruct f; cbv zeta; (split; [vm_compute; reflexivity|]);
    (split; [apply Hin; vm_compute; reflexivity|]);
    (split; [vm_compute; discriminate|]);
    vm_compute; reflexivity.
Qed.

Lemma detect_exported (lines : list str) :
  Csv.detectDelimiter (Str.join [Str.nl] (Str.join [Csv.delimiterOf f] Csv.headers :: lines))
  = Csv.delimiterOf f.
Proof.
  destruct header_line as (Hnl & _). unfold Csv.detectDelimiter.
  assert (Hhd : hd [] (Str.split (Str.is_char Str.nl)
                         (Str.join [Str.nl]
                            (Str.join [Csv.delimiterOf f] Csv.headers :: lines)))
                = Str.join [Csv.delimiterOf f] Csv.headers).
  { destruct lines as [|l lines].
    - apply hd_split_single, Hnl.
    - rewrite (join_cons Str.nl). apply hd_split; [exact Hnl|reflexivity]. }
  cbv zeta. rewrite Hhd. clear. destruct f; vm_compute; reflexivity.
Qed.

Lemma is_truthy_clean (s : str) : clean s = true -> is_truthy (Some s) = true.
Proof. intros H. apply clean_spec in H as [Hne _]. destruct s; [congruence|reflexivity]. Qed.

(** The line of a row: what the parser reads from it, and that it is
    one non-blank line of the file. *)
Lemma exported_line (s : Shape) (b : bool) (r : StatementRow) :
  (b = true -> clean (shapeId s) = true /\ cleanCell (shapeLabel s) = true
               /\ cleanCell (resourceURI s) = true) ->
  (b = false -> rowHasData r = true) ->
  cleanRow r = true ->
  let line := Csv.rowLine (Csv.delimiterOf f) s b r in
  Csv.parseCSVLine line (Csv.delimiterOf f) = exportedCells s b r
  /\ ~ In Str.nl line
  /\ last line <> Some Str.cr
  /\ Str.nonempty (Str.trim line) = true.
Proof.
  intros Hs Hd Hr line. unfold line. rewrite rowLine_cells. unfold exportedCells.
  destruct (clean_line (Csv.delimiterOf f) delimiter_not_quote delimiter_not_nl delimiter_not_cr
              (shapeCells s b ++ statementCells r)) as (Hp & Hn & Hl & Hi).
  - destruct b; discriminate.
  - rewrite forallb_app. apply andb_true_iff. split; [|exact Hr].
    destruct b; [|reflexivity]. destruct Hs as (H1 & H2 & H3); [reflexivity|].
    cbn [shapeCells forallb cleanCell]. rewrite H1, H2, H3. reflexivity.
  - split; [exact Hp|]. split; [exact Hn|]. split; [exact Hl|]. apply Hi.
    rewrite existsb_app. destruct b.
    + destruct Hs as (H1 & _); [reflexivity|]. cbn [shapeCells existsb].
      rewrite (is_truthy_clean _ H1). reflexivity.
    + fold (rowHasData r). rewrite Hd by reflexivity. apply orb_true_r.
Qed.

Lemma rowData_exported (s : Shape) (b : bool) (r : StatementRow) :
  cleanRow r = true -> Csv.rowData headerCols (exportedCells s b r) = requested r.
Proof.
  intros Hr. unfold Csv.rowData. rewrite !cell_header.
  unfold cleanRow, exportedCells, shapeCells, statementCells in *.
  cbn [forallb] in Hr. repeat (apply andb_true_iff in Hr as [? Hr]).
  destruct b; cbn [map app columnIndex lookup list_lookup];
    rewrite !truthy_default; rewrite !truthy_clean by assumption; reflexivity.
Qed.

Lemma shape_cells_first (s : Shape) (r : StatementRow) :
  Csv.cell headerCols (exportedCells s true r) Csv.ShapeID = truthy (Some (shapeId s))
  /\ Csv.cell headerCols (exportedCells s true r) Csv.ShapeLabel = truthy (shapeLabel s)
  /\ Csv.cell headerCols (exportedCells s true r) Csv.ResourceURI = truthy (resourceURI s).
Proof.
  rewrite !cell_header. unfold exportedCells, shapeCells.
  cbn [map app columnIndex lookup list_lookup]. rewrite !truthy_default. auto.
Qed.

Lemma shape_cells_next (s : Shape) (r : StatementRow) (c : Csv.column) :
  columnIndex c < 3 -> Csv.cell headerCols (exportedCells s false r) c = None.
Proof.
  rewrite cell_header. unfold exportedCells, shapeCells.
  destruct c; cbn [columnIndex]; intros H; try lia; reflexivity.
Qed.

Lemma hasData_requested (r : StatementRow) : Csv.hasData (requested r) = rowHasData r.
Proof. reflexivity. Qed.

Lemma rowStep_first (s : Shape) (r : StatementRow) (st : Csv.LoopState) (i : nat) :
  clean (shapeId s) = true -> cleanCell (shapeLabel s) = true ->
  cleanCell (resourceURI s) = true -> cleanRow r = true ->
  Csv.rowStep headerCols (Csv.delimiterOf f) st i (Csv.rowLine (Csv.delimiterOf f) s true r)
  = Csv.mkLoop (Some (shapeId s)) (shapeLabel s) (resourceURI s)
      (Csv.out_rows st
       ++ [Csv.Parsed.mk (Some (shapeId s)) (shapeLabel s) (resourceURI s) (requested r)])
      (Csv.out_errors st) (Csv.out_warnings st).
Proof.
  intros H1 H2 H3 Hr. unfold Csv.rowStep.
  destruct (exported_line s true r) as (Hp & _); auto; [discriminate|].
  rewrite Hp. cbv zeta.
  destruct (shape_cells_first s r) as (-> & -> & ->).
  rewrite rowData_exported by exact Hr.
  rewrite (truthy_clean (Some (shapeId s))) by exact H1.
  rewrite !truthy_clean by assumption.
  rewrite (is_truthy_clean _ H1). cbn [negb]. rewrite andb_false_r. cbv beta iota.
  rewrite (is_truthy_clean _ H1). reflexivity.
Qed.

Lemma rowStep_next (s : Shape) (r : StatementRow) (st : Csv.LoopState) (i : nat) :
  is_truthy (Csv.currentShapeID st) = true ->
  cleanRow r = true -> rowHasData r = true ->
  Csv.rowStep headerCols (Csv.delimiterOf f) st i (Csv.rowLine (Csv.delimiterOf f) s false r)
  = Csv.mkLoop (Csv.currentShapeID st) (Csv.currentShapeLabel st) (Csv.currentResourceURI st)
      (Csv.out_rows st
       ++ [Csv.Parsed.mk (Csv.currentShapeID st) (Csv.currentShapeLabel st)
             (Csv.currentResourceURI st) (requested r)])
      (Csv.out_errors st) (Csv.out_warnings st).
Proof.
  intros Hcur Hr Hd. unfold Csv.rowStep.
  destruct (exported_line s false r) as (Hp & _); auto; [discriminate|].
  rewrite Hp. cbv zeta.
  rewrite !shape_cells_next by (cbn; lia).
  rewrite rowData_exported by exact Hr.
  rewrite hasData_requested, Hd. cbn [negb andb is_truthy truthy]. cbv beta iota.
  rewrite Hcur. reflexivity.
Qed.

Lemma rowLoop_rest (s : Shape) (rs : list StatementRow) (st : Csv.LoopState) (i : nat) :
  is_truthy (Csv.currentShapeID st) = true ->
  forallb cleanRow rs = true -> forallb rowHasData rs = true ->
  Csv.rowLoop headerCols (Csv.delimiterOf f) (Csv.rowLines (Csv.delimiterOf f) s false rs) i st
  = Csv.mkLoop (Csv.currentShapeID st) (Csv.currentShapeLabel st) (Csv.currentResourceURI st)
      (Csv.out_rows st
       ++ map (Csv.Parsed.mk (Csv.currentShapeID st) (Csv.currentShapeLabel st)
                 (Csv.currentResourceURI st))
            (map requested rs))
      (Csv.out_errors st) (Csv.out_warnings st).
Proof.
  revert st i. induction rs as [|r rs IH]; intros st i Hcur Hc Hd.
  - cbn [Csv.rowLines Csv.rowLoop map]. rewrite app_nil_r. destruct st; reflexivity.
  - cbn [forallb] in Hc, Hd. apply andb_true_iff in Hc as [Hr Hc].
    apply andb_true_iff in Hd as [Hdr Hd].
    cbn [Csv.rowLines Csv.rowLoop]. rewrite rowStep_next by assumption.
    rewrite IH by assumption. cbn [Csv.currentShapeID Csv.currentShapeLabel
      Csv.currentResourceURI Csv.out_rows Csv.out_errors Csv.out_warnings map].
    rewrite <- app_assoc. reflexivity.
Qed.

Lemma parsedBlock_eq (s : Shape) (rs : list StatementRow) :
  parsedBlock s rs
  = map (Csv.Parsed.mk (Some (shapeId s)) (shapeLabel s) (resourceURI s)) (map requested rs).
Proof. unfold parsedBlock. rewrite map_map. reflexivity. Qed.

Lemma rowLoop_block (s : Shape) (r : StatementRow) (rs : list StatementRow)
    (st : Csv.LoopState) (i : nat) :
  clean (shapeId s) = true -> cleanCell (shapeLabel s) = true ->
  cleanCell (resourceURI s) = true ->
  forallb cleanRow (r :: rs) = true -> forallb rowHasData rs = true ->
  Csv.rowLoop headerCols (Csv.delimiterOf f)
    (Csv.rowLines (Csv.delimiterOf f) s true (r :: rs)) i st
  = Csv.mkLoop (Some (shapeId s)) (shapeLabel s) (resourceURI s)
      (Csv.out_rows st ++ parsedBlock s (r :: rs))
      (Csv.out_errors st) (Csv.out_warnings st).
Proof.
  intros H1 H2 H3 Hc Hd. cbn [forallb] in Hc. apply andb_true_iff in Hc as [Hr Hc].
  cbn [Csv.rowLines Csv.rowLoop]. rewrite rowStep_first by assumption.
  rewrite rowLoop_rest; try assumption; [|apply (is_truthy_clean _ H1)].
  cbn [Csv.currentShapeID Csv.currentShapeLabel Csv.currentResourceURI Csv.out_rows
       Csv.out_errors Csv.out_warnings].
  rewrite parsedBlock_eq, <- app_assoc. reflexivity.
Qed.

Lemma rowLoop_app (cols : Csv.columnIndices) (d : ascii) (l1 l2 : list str) (i : nat)
    (st : Csv.LoopState) :
  Csv.rowLoop cols d (l1 ++ l2) i st
  = Csv.rowLoop cols d l2 (length l1 + i) (Csv.rowLoop cols d l1 i st).
Proof.
  revert i st. induction l1 as [|l l1 IH]; intros i st; [reflexivity|].
  cbn [app Csv.rowLoop length]. rewrite IH. f_equal. lia.
Qed.

End CsvExportParse.

(** ** CSV export of a clean workspace, and its parse *)

Section CsvExportedFile.

Variable f : Csv.format.
Variable db : Db.

Lemma cleanShape_spec (s : Shape) :
  cleanShape db s = true ->
  clean (shapeId s) = true /\ cleanCell (shapeLabel s) = true
  /\ cleanCell (resourceURI s) = true
  /\ has_table db (shapeId s)
  /\ exists r rest, listedRows db (shapeId s) = r :: rest
                    /\ forallb cleanRow (r :: rest) = true
                    /\ forallb rowHasData rest = true.
Proof.
  unfold cleanShape, has_table. rewrite !andb_true_iff.
  intros [[[H1 H2] H3] H4].
  destruct (tables db !! tableName (shapeId s)) eqn:Et; [|discriminate].
  destruct (listedRows db (shapeId s)) as [|r rest]; [discriminate|].
  apply andb_true_iff in H4 as [Hc Hd]. repeat split; eauto.
Qed.

Lemma rest_lines_good (s : Shape) (rs : list StatementRow) :
  forallb cleanRow rs = true -> forallb rowHasData rs = true ->
  Forall (fun l => (~ In Str.nl l /\ last l <> Some Str.cr)
                   /\ Str.nonempty (Str.trim l) = true)
    (Csv.rowLines (Csv.delimiterOf f) s false rs).
Proof.
  induction rs as [|r rs IH]; intros Hc Hd; [constructor|].
  cbn [forallb] in Hc, Hd. apply andb_true_iff in Hc as [Hr Hc].
  apply andb_true_iff in Hd as [Hdr Hd]. cbn [Csv.rowLines]. constructor; [|auto].
  destruct (exported_line f s false r) as (_ & Hn & Hl & Hi); auto. discriminate.
Qed.

Lemma block_lines_good (s : Shape) :
  cleanShape db s = true ->
  Forall (fun l => (~ In Str.nl l /\ last l <> Some Str.cr)
                   /\ Str.nonempty (Str.trim l) = true)
    (blockLines (Csv.delimiterOf f) db s).
Proof.
  intros Hs. apply cleanShape_spec in Hs as (H1 & H2 & H3 & _ & r & rest & Hrows & Hc & Hd).
  unfold blockLines. rewrite Hrows. cbn [forallb] in Hc.
  apply andb_true_iff in Hc as [Hr Hc]. cbn [Csv.rowLines]. constructor.
  - destruct (exported_line f s true r) as (_ & Hn & Hl & Hi); auto. discriminate.
  - apply rest_lines_good; assumption.
Qed.

Lemma Forall_flat_map_intro {A B : Type} (P : B -> Prop) (g : A -> list B) (l : list A) :
  Forall (fun x => Forall P (g x)) l -> Forall P (flat_map g l).
Proof.
  induction 1 as [|x l Hx _ IH]; [constructor|]. cbn [flat_map].
  apply Forall_app. split; assumption.
Qed.

Lemma exported_lines_good :
  Forall (fun s => cleanShape db s = true) (listedShapes db) ->
  Forall (fun l => (~ In Str.nl l /\ last l <> Some Str.cr)
                   /\ Str.nonempty (Str.trim l) = true)
    (exportedLines f db).
Proof.
  intros Hall. unfold exportedLines. constructor.
  - destruct (header_line f) as (_ & Hn & Hl & Hi). auto.
  - apply Forall_flat_map_intro. eapply Forall_impl; [exact Hall|].
    intros s Hs. apply block_lines_good, Hs.
Qed.

Lemma rowLoop_blocks (ss : list Shape) (st : Csv.LoopState) (i : nat) :
  Forall (fun s => cleanShape db s = true) ss ->
  Csv.out_rows (Csv.rowLoop headerCols (Csv.delimiterOf f)
                  (flat_map (blockLines (Csv.delimiterOf f) db) ss) i st)
  = Csv.out_rows st ++ flat_map (fun s => parsedBlock s (listedRows db (shapeId s))) ss
  /\ Csv.out_warnings (Csv.rowLoop headerCols (Csv.delimiterOf f)
                         (flat_map (blockLines (Csv.delimiterOf f) db) ss) i st)
     = Csv.out_warnings st.
Proof.
  intros Hall. revert st i. induction Hall as [|s ss Hs _ IH]; intros st i.
  - cbn [flat_map Csv.rowLoop]. rewrite app_nil_r. auto.
  - cbn [flat_map]. rewrite rowLoop_app.
    apply cleanShape_spec in Hs as (H1 & H2 & H3 & _ & r & rest & Hrows & Hc & Hd).
    assert (Hb : blockLines (Csv.delimiterOf f) db s
                 = Csv.rowLines (Csv.delimiterOf f) s true (r :: rest)).
    { unfold blockLines. rewrite Hrows. reflexivity. }
    rewrite !Hb. rewrite rowLoop_block by assumption.
    match goal with
    | |- context [Csv.rowLoop _ _ _ ?j ?st'] => destruct (IH st' j) as [Hr Hw]
    end.
    rewrite Hr, Hw, Hrows. cbn [Csv.out_rows Csv.out_warnings]. rewrite <- app_assoc.
    split; reflexivity.
Qed.

Lemma parseCSV_run (content : str) (d : ascii) (header : str) (lines : list str) :
  Csv.detectDelimiter content = d ->
  Csv.contentLines content = header :: lines ->
  Csv.parseCSVLine header d = Csv.headers ->
  Csv.parseCSV content
  = let st := Csv.rowLoop headerCols d lines 1 (Csv.mkLoop None None None [] [] []) in
    Csv.mkParseResult (Nat.eqb (length (Csv.out_errors st)) 0)
      (Some (Csv.out_rows st)) (Some (Csv.out_errors st)) (Some (Csv.out_warnings st))
      (Some (if Ascii.eqb d Str.tab then Csv.tsv else Csv.csv)).
Proof.
  intros Hd Hl Hh. unfold Csv.parseCSV. cbv zeta. rewrite Hd, Hl, Hh.
  fold headerCols. rewrite headerCols_eq. reflexivity.
Qed.

(** What [parseCSV] reads from the export of clean shapes. *)
Lemma parseCSV_exported :
  Forall (fun s => cleanShape db s = true) (listedShapes db) ->
  Csv.parseCSV (Str.join [Str.nl] (exportedLines f db))
  = Csv.mkParseResult true
      (Some (flat_map (fun s => parsedBlock s (listedRows db (shapeId s))) (listedShapes db)))
      (Some []) (Some []) (Some f).
Proof.
  intros Hall. pose proof (exported_lines_good Hall) as Hgood.
  rewrite (parseCSV_run _ (Csv.delimiterOf f)
             (Str.join [Csv.delimiterOf f] Csv.headers)
             (flat_map (blockLines (Csv.delimiterOf f) db) (listedShapes db))).
  - cbv zeta. rewrite rowLoop_errors.
    destruct (rowLoop_blocks (listedShapes db) (Csv.mkLoop None None None [] [] []) 1 Hall)
      as [Hr Hw].
    rewrite Hr, Hw. cbn [Csv.out_rows Csv.out_errors Csv.out_warnings app length Nat.eqb].
    destruct f; reflexivity.
  - apply detect_exported.
  - unfold Csv.contentLines. rewrite splitLines_join.
    + apply filter_all. eapply Forall_impl; [exact Hgood|]. intros l [_ H]. exact H.
    + discriminate.
    + eapply Forall_impl; [exact Hgood|]. intros l [H _]. exact H.
  - apply header_parse.
Qed.

Lemma shapeLines_run (ss : list Shape) (lines : list str) :
  Forall (fun s => cleanShape db s = true) ss ->
  foldM (Csv.shapeLines (Csv.delimiterOf f)) ss lines db
  = Ok (lines ++ flat_map (blockLines (Csv.delimiterOf f) db) ss, db).
Proof.
  intros Hall. revert lines. induction Hall as [|s ss Hs _ IH]; intros lines.
  - cbn [foldM flat_map]. rewrite app_nil_r. reflexivity.
  - cbn [foldM flat_map].
    apply cleanShape_spec in Hs as (_ & _ & _ & Ht & r & rest & Hrows & _).
    unfold Csv.shapeLines at 1.
    erewrite bind_Ok; [|erewrite bind_Ok by (apply row_list_run; exact Ht); reflexivity].
    rewrite IH. unfold blockLines at 2. rewrite Hrows. cbn [length Nat.eqb].
    rewrite app_nil_r, <- app_assoc. reflexivity.
Qed.

(** The export of clean shapes: the header line and one line per row. *)
Lemma exportWorkspace_run :
  Forall (fun s => cleanShape db s = true) (listedShapes db) ->
  Csv.exportWorkspace f db = Ok (Str.join [Str.nl] (exportedLines f db), db).
Proof.
  intros Hall. unfold Csv.exportWorkspace. cbv zeta.
  erewrite bind_Ok by apply shape_list_run.
  erewrite bind_Ok by (apply shapeLines_run; exact Hall). reflexivity.
Qed.

End CsvExportedFile.

(** ** CSV import: the groups and the stored rows *)

Section CsvGroups.

Variable db : Db.

Lemma or_else_clean (s dflt : str) : clean s = true -> or_else (Some s) dflt = s.
Proof. intros H. apply clean_spec in H as [Hne _]. destruct s; [congruence|reflexivity]. Qed.

Lemma updateGroup_absent (gs : list (str * Csv.Group)) (k : str)
    (fn : Csv.Group -> Csv.Group) :
  ~ In k (map fst gs) -> Csv.updateGroup gs k fn = None.
Proof.
  intros Hk. pose proof (updateGroup_keys gs k fn) as H.
  destruct (Csv.updateGroup gs k fn) as [gs'|] eqn:E; [|reflexivity].
  exfalso. revert gs' E H. induction gs as [|[k' g] gs IH]; intros gs' E H; [discriminate|].
  cbn [Csv.updateGroup] in E. case_bool_decide as Hkk.
  - apply Hk. left. exact Hkk.
  - destruct (Csv.updateGroup gs k fn) as [gs''|] eqn:E'; [|discriminate].
    apply (IH (fun Hin => Hk (or_intror Hin)) gs'' eq_refl).
    pose proof (updateGroup_keys gs k fn) as H'. rewrite E' in H'. exact H'.
Qed.

Lemma updateGroup_last (gs : list (str * Csv.Group)) (k : str) (g : Csv.Group)
    (fn : Csv.Group -> Csv.Group) :
  ~ In k (map fst gs) ->
  Csv.updateGroup (gs ++ [(k, g)]) k fn = Some (gs ++ [(k, fn g)]).
Proof.
  induction gs as [|[k' g'] gs IH]; intros Hk.
  - cbn [app Csv.updateGroup]. rewrite bool_decide_eq_true_2 by reflexivity. reflexivity.
  - cbn [app Csv.updateGroup].
    rewrite bool_decide_eq_false_2 by (intros ->; apply Hk; left; reflexivity).
    rewrite IH by (intros Hin; apply Hk; right; exact Hin). reflexivity.
Qed.

Lemma keep_or_set (x : option str) :
  (if is_truthy x && negb (is_truthy x) then x else x) = x.
Proof. destruct (is_truthy x); reflexivity. Qed.

Lemma addRows_rest (id : str) (lbl uri : option str) (ds rows : list Req.t)
    (gs : list (str * Csv.Group)) :
  clean id = true -> ~ In id (map fst gs) ->
  fold_left Csv.addRow (map (Csv.Parsed.mk (Some id) lbl uri) ds)
    (gs ++ [(id, Csv.mkGroup lbl uri rows)])
  = gs ++ [(id, Csv.mkGroup lbl uri (rows ++ ds))].
Proof.
  intros Hid Hk. revert rows. induction ds as [|dd ds IH]; intros rows.
  - cbn [map fold_left]. rewrite app_nil_r. reflexivity.
  - cbn [map fold_left]. unfold Csv.addRow at 2.
    cbn [Csv.Parsed.shapeID Csv.Parsed.shapeLabel Csv.Parsed.resourceURI Csv.Parsed.data].
    rewrite (or_else_clean _ _ Hid). rewrite updateGroup_last by exact Hk.
    cbn [Csv.g_label Csv.g_resourceURI Csv.g_rows]. rewrite !keep_or_set.
    rewrite IH, <- app_assoc. reflexivity.
Qed.

Lemma addRows_block (s : Shape) (r : StatementRow) (rs : list StatementRow)
    (gs : list (str * Csv.Group)) :
  clean (shapeId s) = true -> ~ In (shapeId s) (map fst gs) ->
  fold_left Csv.addRow (parsedBlock s (r :: rs)) gs
  = gs ++ [(shapeId s,
            Csv.mkGroup (shapeLabel s) (resourceURI s) (map requested (r :: rs)))].
Proof.
  intros Hid Hk. rewrite parsedBlock_eq. cbn [map fold_left]. unfold Csv.addRow at 2.
  cbn [Csv.Parsed.shapeID Csv.Parsed.shapeLabel Csv.Parsed.resourceURI Csv.Parsed.data].
  rewrite (or_else_clean _ _ Hid). rewrite updateGroup_absent by exact Hk.
  cbn [Csv.g_label Csv.g_resourceURI Csv.g_rows app]. rewrite !keep_or_set.
  apply (addRows_rest (shapeId s) (shapeLabel s) (resourceURI s) (map requested rs)
           [requested r] gs Hid Hk).
Qed.

(** The groups of the parsed export: one per shape, in listing order. *)
Lemma groupRows_blocks (ss : list Shape) (gs : list (str * Csv.Group)) :
  Forall (fun s => cleanShape db s = true) ss ->
  NoDup (map shapeId ss) ->
  (forall s, In s ss -> ~ In (shapeId s) (map fst gs)) ->
  fold_left Csv.addRow
    (flat_map (fun s => parsedBlock s (listedRows db (shapeId s))) ss) gs
  = gs ++ map (csvGroup db) ss.
Proof.
  intros Hall. revert gs. induction Hall as [|s ss Hs _ IH]; intros gs Hnd Hnew.
  - cbn [flat_map fold_left map]. rewrite app_nil_r. reflexivity.
  - cbn [flat_map map] in *. rewrite fold_left_app.
    apply NoDup_cons in Hnd as [Hs' Hnd]. rewrite list_elem_of_In in Hs'.
    apply cleanShape_spec in Hs as (H1 & _ & _ & _ & r & rest & Hrows & _).
    unfold csvGroup at 1. rewrite Hrows.
    rewrite addRows_block; [|exact H1|apply Hnew; left; reflexivity].
    rewrite IH; [rewrite <- app_assoc; reflexivity|exact Hnd|].
    intros s' Hs'' Hin. rewrite map_app in Hin. apply in_app_iff in Hin as [Hin|[Hin|[]]].
    + apply (Hnew s'); [right; exact Hs''|exact Hin].
    + apply Hs'. cbn [fst] in Hin. rewrite Hin. apply in_map, Hs''.
Qed.

Lemma stored_requested (i : nat) (r : StatementRow) :
  cleanRow r = true -> storedRow i (Csv.with_rowOrder (requested r) i) = reimported i r.
Proof.
  intros Hr. unfold cleanRow, statementCells in Hr. cbn [forallb] in Hr.
  repeat (apply andb_true_iff in Hr as [? Hr]).
  unfold storedRow, Csv.with_rowOrder, requested, reimported, or_null.
  cbn [Req.propertyId Req.propertyLabel Req.mandatory Req.repeatable Req.valueNodeType
       Req.valueDataType Req.valueShape Req.valueConstraint Req.valueConstraintType
       Req.note Req.lcDefaultLiteral Req.lcDefaultURI Req.lcDataTypeURI Req.lcRemark].
  rewrite !truthy_clean by assumption. reflexivity.
Qed.

Lemma storedFrom_requested (i : nat) (rs : list StatementRow) :
  forallb cleanRow rs = true -> storedFrom i (map requested rs) = reimportedFrom i rs.
Proof.
  revert i. induction rs as [|r rs IH]; intros i Hc; [reflexivity|].
  cbn [forallb] in Hc. apply andb_true_iff in Hc as [Hr Hc].
  cbn [map storedFrom reimportedFrom]. rewrite stored_requested, IH by assumption.
  reflexivity.
Qed.

Lemma reimportedFrom_order (n : nat) (rs : list StatementRow) :
  Forall (fun r => n <= rowOrder r) (reimportedFrom n rs)
  /\ ascending (fun a b => rowOrder a <=? rowOrder b)%nat (reimportedFrom n rs).
Proof.
  revert n. induction rs as [|r rs IH]; intros n; cbn [reimportedFrom].
  - split; [constructor|exact I].
  - destruct (IH (S n)) as [Hge Hasc]. split.
    + constructor; [cbn; lia|]. eapply Forall_impl; [exact Hge|]. cbn. intros; lia.
    + split; [|exact Hasc]. eapply Forall_impl; [exact Hge|].
      cbn. intros x Hx. apply Nat.leb_le. lia.
Qed.

Lemma importRows_stored (id : str) (ds : list Req.t) (i : nat) (st st' : Csv.ImportState)
    (db0 db' : Db) (old : list StatementRow) :
  Csv.importRows id ds i st db0 = Ok (st', db') ->
  tables db0 !! tableName id = Some old ->
  tables db' !! tableName id = Some (old ++ storedFrom i ds)
  /\ (forall t, t <> tableName id -> tables db' !! t = tables db0 !! t)
  /\ shapes db' = shapes db0.
Proof.
  revert i st db0 old. induction ds as [|dd ds IH]; intros i st db0 old Hrun Hold.
  - cbn in Hrun. injection Hrun as _ <-. rewrite app_nil_r. auto.
  - cbn [Csv.importRows] in Hrun.
    erewrite bind_Ok in Hrun by (apply row_create_run; exact Hold).
    destruct (with_row_lookup id (storedRow (nextOrder (Csv.with_rowOrder dd i) old)
                                    (Csv.with_rowOrder dd i)) db0 old Hold)
      as (Hnew & Hother & Hshapes).
    destruct (IH _ _ _ _ Hrun Hnew) as (Ht & Ho & Hs).
    split; [|split].
    + rewrite Ht, <- app_assoc. reflexivity.
    + intros t Hne. rewrite Ho by exact Hne. apply Hother, Hne.
    + rewrite Hs. exact Hshapes.
Qed.

(** What the import of the groups leaves in the store. *)
Lemma importShapes_stored (ss : list Shape) (st st' : Csv.ImportState) (db0 db' : Db) :
  foldM Csv.importShape (map (csvGroup db) ss) st db0 = Ok (st', db') ->
  Forall (fun s => cleanShape db s = true) ss ->
  NoDup (map (fun s => tableName (shapeId s)) ss) ->
  (forall s, In s ss -> ~ In (shapeId s) (shapeIds db0)) ->
  (forall s, In s ss -> tables db0 !! tableName (shapeId s) = None) ->
  shapes db' = shapes db0 ++ map reimportedShape ss
  /\ (forall s, In s ss ->
        tables db' !! tableName (shapeId s)
        = Some (reimportedFrom 0 (listedRows db (shapeId s))))
  /\ (forall t, ~ In t (map (fun s => tableName (shapeId s)) ss) ->
        tables db' !! t = tables db0 !! t).
Proof.
  intros Hrun Hall. revert st db0 Hrun.
  induction Hall as [|s ss Hs Hall IH]; intros st db0 Hrun Hnd Hids Htabs.
  - cbn in Hrun. injection Hrun as _ <-. rewrite app_nil_r. split; [reflexivity|].
    split; [intros s []|reflexivity].
  - cbn [map foldM] in Hrun. apply bind_Ok_inv in Hrun as (st1 & db1 & Hshape & Hrun).
    cbn [map] in Hnd. apply NoDup_cons in Hnd as [Hs' Hnd]. rewrite list_elem_of_In in Hs'.
    apply cleanShape_spec in Hs as (H1 & H2 & H3 & _ & r & rest & Hrows & Hc & _).
    unfold Csv.importShape, csvGroup in Hshape.
    cbn [Csv.g_label Csv.g_resourceURI Csv.g_rows] in Hshape.
    erewrite bind_Ok in Hshape
      by (apply shape_create_run; apply Hids; left; reflexivity).
    unfold or_null in Hshape.
    rewrite !(truthy_clean (shapeLabel s)), !(truthy_clean (resourceURI s)) in Hshape
      by assumption.
    change (truthy None) with (@None str) in Hshape.
    fold (reimportedShape s) in Hshape.
    destruct (with_shape_new_table (reimportedShape s) db0) as (Hnew & Hother & Hshapes).
    { apply (Htabs s). left. reflexivity. }
    destruct (importRows_stored _ _ _ _ _ _ _ [] Hshape Hnew) as (Ht & Ho & Hs1).
    assert (Hdiff : forall s', In s' ss -> tableName (shapeId s') <> tableName (shapeId s)).
    { intros s' Hin Heq. apply Hs'. rewrite <- Heq.
      apply (in_map (fun s => tableName (shapeId s))), Hin. }
    destruct (IH st1 db1 Hrun Hnd) as (Hsh & Hrows' & Hkeep).
    + intros s' Hin Hid. unfold shapeIds in Hid. rewrite Hs1, Hshapes, map_app in Hid.
      apply in_app_iff in Hid as [Hid|[Hid|[]]].
      * apply (Hids s'); [right; exact Hin|exact Hid].
      * apply (Hdiff s' Hin). cbn [reimportedShape shapeId] in Hid. rewrite Hid.
        reflexivity.
    + intros s' Hin. rewrite Ho, Hother by (apply Hdiff, Hin).
      apply Htabs. right. exact Hin.
    + split; [|split].
      * rewrite Hsh, Hs1, Hshapes, <- app_assoc. reflexivity.
      * intros s' [<-|Hin]; [|apply Hrows', Hin].
        rewrite Hkeep by exact Hs'. cbn [reimportedShape shapeId] in Ht. rewrite Ht.
        cbn [app]. rewrite storedFrom_requested; [reflexivity|]. rewrite Hrows. exact Hc.
      * intros t Hn. cbn [map] in Hn.
        rewrite Hkeep by (intros Hin; apply Hn; right; exact Hin).
        cbn [reimportedShape shapeId] in Ho, Hother.
        rewrite Ho, Hother by (intros ->; apply Hn; left; reflexivity). reflexivity.
Qed.

Lemma addPlaceholders_keep (l : list str) (ws ws' : list Csv.ValidationError)
    (db0 db' : Db) :
  foldM Csv.addPlaceholder l ws db0 = Ok (ws', db') ->
  shapes db' = shapes db0 /\ tables db' = tables db0.
Proof.
  revert ws db0. induction l as [|p l IH]; intros ws db0 Hrun.
  - cbn in Hrun. injection Hrun as _ <-. auto.
  - cbn [foldM] in Hrun. apply bind_Ok_inv in Hrun as (ws1 & db1 & Hadd & Hrun).
    apply IH in Hrun as [Hs Ht]. rewrite Hs, Ht.
    unfold Csv.addPlaceholder, namespaceService.create, bind, get_db in Hadd.
    destruct (existsb _ (namespaces db0)); [discriminate|].
    cbn in Hadd. injection Hadd as _ <-. auto.
Qed.

End CsvGroups.

(** ** CSV round trip *)

Section CsvRoundTrip.

Lemma NoDup_map_back {A B : Type} (g : A -> B) (l : list A) :
  NoDup (map g l) -> NoDup l.
Proof.
  induction l as [|x l IH]; intros H; [constructor|].
  cbn [map] in H. apply NoDup_cons in H as [Hx H]. apply NoDup_cons.
  split; [|apply IH, H]. intros Hin. apply Hx.
  apply list_elem_of_In. apply in_map. apply list_elem_of_In, Hin.
Qed.

Lemma listed_clean (db : Db) :
  forallb (cleanShape db) (shapes db) = true ->
  Forall (fun s => cleanShape db s = true) (listedShapes db).
Proof.
  intros Hall. rewrite forallb_forall in Hall. apply Forall_forall. intros s Hs.
  apply Hall. apply list_elem_of_In in Hs. apply sort_by_In in Hs. exact Hs.
Qed.

Lemma listed_NoDup (db : Db) :
  NoDup (map (fun s => tableName (shapeId s)) (shapes db)) ->
  NoDup (map (fun s => tableName (shapeId s)) (listedShapes db))
  /\ NoDup (map shapeId (listedShapes db)).
Proof.
  intros Hnd.
  assert (H : NoDup (map (fun s => tableName (shapeId s)) (listedShapes db))).
  { apply (NoDup_Permutation_proper _ _
             (Permutation_map (fun s => tableName (shapeId s))
                (sort_by_Permutation (fun a b => Str.leb (shapeId a) (shapeId b))
                   (shapes db)))).
    exact Hnd. }
  split; [exact H|]. rewrite <- (map_map shapeId tableName) in H.
  apply NoDup_map_back in H. exact H.
Qed.

(** C1 (as amended). Let the workspace hold shapes in pairwise distinct
    row tables, each with a clean id, label and resource URI (not
    empty, no white space at either end, no line feed) and at least
    one row, every cell of every row clean (for [valueShape] and
    [valueConstraint]: after the pipe conversion), and every row after
    a shape's first one with a value in some statement column. Then
    the export succeeds, the import of the exported text under an
    unused workspace id succeeds, and the new workspace has the same
    shape ids, with label and resource URI, in listing order, and for
    each shape the same rows in the same order: the same statement
    columns up to the pipe conversion in [valueShape] and
    [valueConstraint], numbered from 0. *)
Theorem csv_roundtrip (f : Csv.format) (db : Db) (name uuid : str) (w : World) :
  roundTrippable db = true ->
  w !! uuid = None ->
  exists content r w' db',
    Csv.exportWorkspace f db = Ok (content, db)
    /\ Csv.importToWorkspace content name uuid w = Ok (r, w')
    /\ Csv.i_success r = true
    /\ w' !! uuid = Some db'
    /\ shapes db' = map reimportedShape (listedShapes db)
    /\ (forall id, In id (shapeIds db') <-> In id (shapeIds db))
    /\ (forall s, In s (shapes db) ->
          listedRows db' (shapeId s) = reimportedFrom 0 (listedRows db (shapeId s))).
Proof.
  intros Hrt Hfresh. unfold roundTrippable in Hrt.
  apply andb_true_iff in Hrt as [Hnd Hall]. apply bool_decide_eq_true in Hnd.
  apply listed_clean in Hall. apply listed_NoDup in Hnd as [Hnd Hids].
  destruct (importShapes_run (map (csvGroup db) (listedShapes db)) (Csv.mkImport [] [] 0)
              (initializeWorkspaceDb name))
    as (st & db1 & Hrun & Hn & Hf).
  { rewrite map_map. exact Hids. }
  { intros k _ []. }
  { split; [constructor|intros p []]. }
  destruct (addPlaceholders_run (Csv.unknown st) (Csv.allWarnings st) db1)
    as (ws' & db2 & Hrun').
  { apply Hf. }
  { rewrite Hn. apply Hf. }
  destruct (importShapes_stored db _ _ _ _ _ Hrun Hall Hnd) as (Hsh & Hrows & _).
  { intros s _ []. }
  { intros s _. apply lookup_empty. }
  destruct (addPlaceholders_keep _ _ _ _ _ Hrun') as [Hs2 Ht2].
  exists (Str.join [Str.nl] (exportedLines f db)).
  eexists. eexists. exists db2.
  split; [apply exportWorkspace_run, Hall|].
  split.
  { unfold Csv.importToWorkspace. rewrite parseCSV_exported by exact Hall.
    cbn [Csv.success Csv.rows Csv.warnings default].
    unfold Csv.groupRows. rewrite (groupRows_blocks db (listedShapes db) []);
      [|exact Hall|exact Hids|intros s _ []].
    cbn [app]. unfold workspaceService.create. rewrite Hfresh.
    unfold in_workspace. rewrite lookup_insert_eq. unfold Csv.importGroups.
    erewrite bind_Ok by exact Hrun. erewrite bind_Ok by exact Hrun'.
    unfold ret. reflexivity. }
  split; [reflexivity|].
  split; [apply lookup_insert_eq|].
  split; [rewrite Hs2, Hsh; reflexivity|].
  split.
  - intros id. unfold shapeIds. rewrite Hs2, Hsh. cbn [initializeWorkspaceDb shapes app].
    rewrite map_map. cbn [reimportedShape shapeId].
    rewrite !in_map_iff. split; intros (s & Hs & Hin); exists s; (split; [exact Hs|]);
      apply (sort_by_In (fun a b => Str.leb (shapeId a) (shapeId b))); exact Hin.
  - intros s Hs. unfold listedRows at 1. rewrite Ht2, Hrows.
    + cbn [default]. apply sort_by_ascending, reimportedFrom_order.
    + apply (sort_by_In (fun a b => Str.leb (shapeId a) (shapeId b))). exact Hs.
Qed.

End CsvRoundTrip.

Section CsvRoundTripExamples.

Lemma csv_roundtrip_witness :
  exists content r w' db',
    Csv.exportWorkspace Csv.csv catalog_db = Ok (content, catalog_db)
    /\ Csv.importToWorkspace content "Catalog copy" "ws-1" ∅ = Ok (r, w')
    /\ Csv.i_success r = true
    /\ w' !! lit "ws-1" = Some db'
    /\ shapes db' = map reimportedShape (listedShapes catalog_db)
    /\ (forall id, In id (shapeIds db') <-> In id (shapeIds catalog_db))
    /\ (forall s, In s (shapes catalog_db) ->
          listedRows db' (shapeId s)
          = reimportedFrom 0 (listedRows catalog_db (shapeId s))).
Proof.
  apply (csv_roundtrip Csv.csv catalog_db "Catalog copy" "ws-1" ∅).
  - vm_compute. reflexivity.
  - reflexivity.
Defined.

(** The rows of [Book] after the round trip of [catalog_db], in either
    format: in row order, renumbered, the two-line [valueShape] joined
    by a pipe. *)
Example catalog_roundtrip :
  option_map (fun db' => map (fun r => (rowOrder r, propertyId r, valueShape r))
                           (listedRows db' "Book"))
    (csvRoundTrip Csv.tsv "ws-1" catalog_db)
  = Some [ (0, Some (lit "dcterms:title"), None);
           (1, Some (lit "dcterms:creator"), Some (lit "Person | Organization")) ].
Proof. vm_compute. reflexivity. Qed.

(** A shape without rows comes back with one row, empty in every
    column. *)
Lemma csv_roundtrip_fails :
  roundTrippable empty_shape_db = false
  /\ listedRows empty_shape_db "Book" = []
  /\ option_map (fun db' => (shapeIds db', listedRows db' "Book"))
       (csvRoundTrip Csv.csv "ws-1" empty_shape_db)
     = Some ([lit "Book"],
             [mkRow 0 None None None None None None None None None None None None None
                None]).
Proof. vm_compute. repeat split; reflexivity. Qed.

End CsvRoundTripExamples.

(** * Further properties *)

(** ** CSV lines *)

Section CsvLineFacts.

Lemma split_cons_hd (p : ascii -> bool) (s : str) :
  Str.split p s = hd [] (Str.split p s) :: tl (Str.split p s).
Proof.
  destruct s as [|c r]; [reflexivity|]. cbn [Str.split].
  destruct (p c); [reflexivity|]. destruct (Str.split p r); reflexivity.
Qed.

Lemma scan_unquoted (d : ascii) (line cur : str) (res : list str) :
  ~ In Str.dquote line ->
  Csv.parseCSVLine_from d line cur false res
  = res ++ Str.trim (cur ++ hd [] (Str.split (Str.is_char d) line))
           :: map Str.trim (tl (Str.split (Str.is_char d) line)).
Proof.
  revert cur res. induction line as [|c r IH]; intros cur res Hq.
  - cbn. rewrite app_nil_r. reflexivity.
  - assert (Hc : Ascii.eqb c Str.dquote = false).
    { apply Ascii.eqb_neq. intros ->. apply Hq. left. reflexivity. }
    assert (Hr : ~ In Str.dquote r) by (intros H; apply Hq; right; exact H).
    cbn [Csv.parseCSVLine_from Str.split]. rewrite Hc.
    change (Str.is_char d c) with (Ascii.eqb c d).
    pose proof (split_cons_hd (Str.is_char d) r) as Hs.
    destruct (Ascii.eqb c d); cbn [andb negb]; rewrite IH by exact Hr;
      destruct (Str.split (Str.is_char d) r) as [|h t]; try discriminate Hs;
      cbn [hd tl map app]; rewrite ?app_nil_r, <- !app_assoc; reflexivity.
Qed.

(** X2. On a line without a quotation mark [parseCSVLine] is the split
    at the delimiter with every cell trimmed. *)
Theorem parseCSVLine_unquoted (line : str) (d : ascii) :
  ~ In Str.dquote line ->
  Csv.parseCSVLine line d = map Str.trim (Str.split (Str.is_char d) line).
Proof.
  intros Hq. unfold Csv.parseCSVLine. rewrite scan_unquoted by exact Hq.
  pose proof (split_cons_hd (Str.is_char d) line) as Hs.
  destruct (Str.split (Str.is_char d) line) as [|h t]; [discriminate Hs|]. reflexivity.
Qed.

Lemma parseCSVLine_unquoted_witness :
  Csv.parseCSVLine " Book ,dcterms:title,, Title " Str.comma
  = map Str.trim (Str.split (Str.is_char Str.comma) " Book ,dcterms:title,, Title ").
Proof.
  apply (parseCSVLine_unquoted " Book ,dcterms:title,, Title " Str.comma).
  vm_compute. intuition discriminate.
Defined.

(** X1. Escaping and parsing are inverse up to trimming: the line that
    joins the escaped values of a row is parsed back cell by cell,
    whatever delimiters, quotation marks or line feeds the values
    hold; an absent value comes back as the empty cell. *)
Theorem parseCSVLine_escapeCSVValue (d : ascii) (values : list (option str)) :
  d <> Str.dquote ->
  values <> [] ->
  Csv.parseCSVLine
    (Str.join [d] (map (fun v => Csv.escapeCSVValue v d false) values)) d
  = map (fun v => Str.trim (default [] v)) values.
Proof.
  intros Hd Hne.
  rewrite (map_ext (fun v => Csv.escapeCSVValue v d false)
             (fun v => escaped d (default [] v))) by (intros v; apply escape_default).
  rewrite <- (map_map (default []) (escaped d)).
  rewrite parse_joined; [apply map_map|exact Hd|].
  destruct values; [congruence|discriminate].
Qed.

Lemma parseCSVLine_escapeCSVValue_witness :
  Csv.parseCSVLine
    (Str.join [Str.comma]
       (map (fun v => Csv.escapeCSVValue v Str.comma false)
          [Some (lit "Title, main"); None; Some (lit "the " ++ quoted "main" ++ lit " title");
           Some (lit "two" ++ [Str.nl] ++ lit "lines")]))
    Str.comma
  = map (fun v => Str.trim (default [] v))
      [Some (lit "Title, main"); None; Some (lit "the " ++ quoted "main" ++ lit " title");
       Some (lit "two" ++ [Str.nl] ++ lit "lines")].
Proof.
  apply (parseCSVLine_escapeCSVValue Str.comma); discriminate.
Defined.

End CsvLineFacts.

(** ** CSV header *)

Section CsvHeaderFacts.

Lemma headerIndices_app (l1 l2 : list str) (i : nat) (acc : Csv.columnIndices) :
  Csv.headerIndices (l1 ++ l2) i acc
  = Csv.headerIndices l2 (i + length l1) (Csv.headerIndices l1 i acc).
Proof.
  revert i acc. induction l1 as [|h l1 IH]; intros i acc.
  - cbn. rewrite Nat.add_0_r. reflexivity.
  - cbn [app Csv.headerIndices length].
    destruct (Csv.lookup_mapping (Csv.normalizeHeader h));
      rewrite IH; f_equal; lia.
Qed.

Lemma headerIndices_other (l : list str) (i : nat) (acc : Csv.columnIndices)
    (c : Csv.column) :
  (forall y, In y l -> Csv.lookup_mapping (Csv.normalizeHeader y) <> Some c) ->
  Csv.index_of (Csv.headerIndices l i acc) c = Csv.index_of acc c.
Proof.
  revert i acc. induction l as [|h l IH]; intros i acc Hl; [reflexivity|].
  cbn [Csv.headerIndices].
  assert (Hl' : forall y, In y l -> Csv.lookup_mapping (Csv.normalizeHeader y) <> Some c)
    by (intros y Hy; apply Hl; right; exact Hy).
  destruct (Csv.lookup_mapping (Csv.normalizeHeader h)) as [m|] eqn:E.
  - rewrite IH by exact Hl'. unfold Csv.index_of. cbn [List.find fst].
    destruct (Csv.column_eqb m c) eqn:Em; [|reflexivity].
    apply column_eqb_eq in Em. subst m. exfalso. apply (Hl h); [left; reflexivity|exact E].
  - apply IH, Hl'.
Qed.

(** X3. When several header cells name the same column, the last of
    them is the one the rows are read from. *)
Theorem header_last_column_wins (before after : list str) (h : str) (c : Csv.column)
    (values : list str) :
  Csv.lookup_mapping (Csv.normalizeHeader h) = Some c ->
  (forall y, In y after -> Csv.lookup_mapping (Csv.normalizeHeader y) <> Some c) ->
  let cols := Csv.headerIndices (before ++ h :: after) 0 [] in
  Csv.index_of cols c = Some (length before)
  /\ Csv.cell cols values c = truthy (values !! length before).
Proof.
  intros Hh Hafter cols.
  assert (H : Csv.index_of cols c = Some (length before)).
  { unfold cols. rewrite headerIndices_app. cbn [Csv.headerIndices]. rewrite Hh.
    rewrite headerIndices_other by exact Hafter.
    unfold Csv.index_of. cbn [List.find fst].
    rewrite (proj2 (column_eqb_eq c c) eq_refl). reflexivity. }
  split; [exact H|]. unfold Csv.cell. rewrite H. reflexivity.
Qed.

Lemma header_last_column_wins_witness :
  let cols :=
    Csv.headerIndices ([lit "shapeID"; lit "Property ID"] ++ lit "property_id" :: [lit "note"])
      0 [] in
  Csv.index_of cols Csv.PropertyId = Some 2
  /\ Csv.cell cols [lit "Book"; lit "dcterms:title"; lit "dcterms:creator"; lit "x"]
       Csv.PropertyId
     = truthy ([lit "Book"; lit "dcterms:title"; lit "dcterms:creator"; lit "x"] !! 2).
Proof.
  apply (header_last_column_wins [lit "shapeID"; lit "Property ID"] [lit "note"]
           "property_id" Csv.PropertyId).
  - vm_compute. reflexivity.
  - intros y [<-|[]]. vm_compute. discriminate.
Defined.

End CsvHeaderFacts.

(** ** CSV import: what it reports and what it leaves behind *)

Section CsvImportFacts.

Lemma checkPrefix_total (id : str) (i : nat) (d : Req.t) (st : Csv.ImportState) :
  Csv.totalRows (Csv.checkPrefix id i d st) = Csv.totalRows st.
Proof.
  unfold Csv.checkPrefix.
  repeat match goal with
         | |- context [match ?x with _ => _ end] => destruct x
         end; reflexivity.
Qed.

Lemma importRows_total (id : str) (rows : list Req.t) (i : nat)
    (st st' : Csv.ImportState) (db db' : Db) :
  Csv.importRows id rows i st db = Ok (st', db') ->
  Csv.totalRows st' = Csv.totalRows st + length rows.
Proof.
  revert i st db. induction rows as [|r rows IH]; intros i st db Hrun.
  - cbn in Hrun. injection Hrun as <- _. cbn. lia.
  - cbn [Csv.importRows] in Hrun. apply bind_Ok_inv in Hrun as (row & db1 & _ & Hrun).
    apply IH in Hrun. rewrite Hrun. cbn [Csv.totalRows length].
    rewrite checkPrefix_total. lia.
Qed.

Lemma importShapes_total (groups : list (str * Csv.Group)) (st st' : Csv.ImportState)
    (db db' : Db) :
  foldM Csv.importShape groups st db = Ok (st', db') ->
  Csv.totalRows st' = Csv.totalRows st + rowsOfGroups groups.
Proof.
  revert st db. induction groups as [|[id g] groups IH]; intros st db Hrun.
  - cbn in Hrun. injection Hrun as <- _. cbn. lia.
  - cbn [foldM] in Hrun. apply bind_Ok_inv in Hrun as (st1 & db1 & Hshape & Hrun).
    apply IH in Hrun. unfold Csv.importShape in Hshape.
    apply bind_Ok_inv in Hshape as (sh & db0 & _ & Hrows).
    apply importRows_total in Hrows. rewrite Hrun, Hrows.
    unfold rowsOfGroups. simpl. lia.
Qed.

Lemma updateGroup_rows (gs gs' : list (str * Csv.Group)) (k : str)
    (fn : Csv.Group -> Csv.Group) :
  (forall g, length (Csv.g_rows (fn g)) = S (length (Csv.g_rows g))) ->
  Csv.updateGroup gs k fn = Some gs' ->
  rowsOfGroups gs' = S (rowsOfGroups gs) /\ In k (map fst gs).
Proof.
  intros Hfn. revert gs'. induction gs as [|[k' g] gs IH]; intros gs' H; [discriminate|].
  cbn [Csv.updateGroup] in H. case_bool_decide as Hk.
  - injection H as <-. unfold rowsOfGroups. simpl.
    rewrite Hfn. split; [lia|]. left. exact Hk.
  - destruct (Csv.updateGroup gs k fn) as [gs''|]; [|discriminate].
    injection H as <-. destruct (IH gs'' eq_refl) as [IH1 IH2].
    unfold rowsOfGroups in *. simpl in *. split; [lia|].
    right. exact IH2.
Qed.

Lemma addRow_facts (gs : list (str * Csv.Group)) (r : Csv.ParsedRow) :
  rowsOfGroups (Csv.addRow gs r) = S (rowsOfGroups gs)
  /\ forall k, In k (map fst (Csv.addRow gs r)) <-> In k (map fst gs) \/ k = shapeKey r.
Proof.
  unfold Csv.addRow. fold (shapeKey r).
  match goal with |- context [Csv.updateGroup gs ?k ?f] =>
    pose proof (updateGroup_keys gs k f) as Hk;
    pose proof (fun gs' => updateGroup_rows gs gs' k f) as Hr;
    destruct (Csv.updateGroup gs k f) as [gs'|] end.
  - destruct (Hr gs') as [Hsum Hin];
      [intros g; cbv beta; cbn [Csv.g_rows]; rewrite length_app; cbn [length];
       apply Nat.add_1_r|reflexivity|].
    split; [exact Hsum|]. intros k. rewrite Hk. split; [auto|].
    intros [H| ->]; [exact H|exact Hin].
  - split.
    + unfold rowsOfGroups. rewrite map_app, list_sum_app. cbn. lia.
    + intros k. rewrite map_app, in_app_iff. cbn. intuition auto.
Qed.

Lemma groupRows_facts (parsed : list Csv.ParsedRow) :
  rowsOfGroups (Csv.groupRows parsed) = length parsed
  /\ forall k, In k (map fst (Csv.groupRows parsed)) <-> In k (map shapeKey parsed).
Proof.
  unfold Csv.groupRows.
  assert (H : forall gs,
             rowsOfGroups (fold_left Csv.addRow parsed gs) = rowsOfGroups gs + length parsed
             /\ forall k, In k (map fst (fold_left Csv.addRow parsed gs))
                          <-> In k (map fst gs) \/ In k (map shapeKey parsed)).
  { induction parsed as [|r parsed IH]; intros gs; cbn [fold_left length map].
    - split; [lia|]. intros k. cbn. intuition auto.
    - destruct (IH (Csv.addRow gs r)) as [IH1 IH2].
      destruct (addRow_facts gs r) as [H1 H2]. split; [lia|].
      intros k. rewrite IH2, H2. cbn. intuition auto. }
  destruct (H []) as [H1 H2]. split; [exact H1|].
  intros k. rewrite H2. cbn. intuition auto.
Qed.

(** X4. The counts of a successful import: [rowsImported] is the
    number of parsed rows; [shapesCreated] is the number of groups,
    one per distinct shape id of the parsed rows (a row without one
    counts under [default]); no other workspace is touched. *)
Theorem importToWorkspace_counts (content workspaceName uuid : str) (w : World)
    (parsed : list Csv.ParsedRow) :
  Csv.success (Csv.parseCSV content) = true ->
  Csv.rows (Csv.parseCSV content) = Some parsed ->
  w !! uuid = None ->
  exists r w' ids,
    Csv.importToWorkspace content workspaceName uuid w = Ok (r, w')
    /\ Csv.rowsImported r = Some (length parsed)
    /\ Csv.shapesCreated r = Some (length ids)
    /\ NoDup ids
    /\ (forall k, In k ids <-> In k (map shapeKey parsed))
    /\ (forall k, k <> uuid -> w' !! k = w !! k).
Proof.
  intros Hs Hr Hfresh. unfold Csv.importToWorkspace. rewrite Hs, Hr.
  unfold workspaceService.create. rewrite Hfresh.
  unfold in_workspace. rewrite lookup_insert_eq. unfold Csv.importGroups.
  set (ws := default [] (Csv.warnings (Csv.parseCSV content))).
  destruct (importShapes_run (Csv.groupRows parsed) (Csv.mkImport [] ws 0)
              (initializeWorkspaceDb workspaceName))
    as (st & db & Hrun & Hn & Hf).
  { apply groupRows_NoDup. }
  { intros k _ []. }
  { split; [constructor|intros p []]. }
  destruct (addPlaceholders_run (Csv.unknown st) (Csv.allWarnings st) db)
    as (ws' & db' & Hrun').
  { apply Hf. }
  { rewrite Hn. apply Hf. }
  erewrite bind_Ok by exact Hrun. erewrite bind_Ok by exact Hrun'.
  apply importShapes_total in Hrun. destruct (groupRows_facts parsed) as [Hsum Hkeys].
  unfold ret. eexists _, _, (map fst (Csv.groupRows parsed)).
  split; [reflexivity|]. cbn [Csv.rowsImported Csv.shapesCreated].
  split; [rewrite Hrun, Hsum; reflexivity|].
  split; [rewrite length_map; reflexivity|].
  split; [apply groupRows_NoDup|].
  split; [exact Hkeys|].
  intros k Hk. rewrite !lookup_insert_ne by congruence. reflexivity.
Qed.

Lemma importToWorkspace_counts_witness :
  exists r w' ids,
    Csv.importToWorkspace bare_valueShape_csv "Library" "ws-1" ∅ = Ok (r, w')
    /\ Csv.rowsImported r
       = Some (length (default [] (Csv.rows (Csv.parseCSV bare_valueShape_csv))))
    /\ Csv.shapesCreated r = Some (length ids)
    /\ NoDup ids
    /\ (forall k, In k ids
                  <-> In k (map shapeKey
                              (default [] (Csv.rows (Csv.parseCSV bare_valueShape_csv)))))
    /\ (forall k, k <> lit "ws-1" -> w' !! k = (∅ : World) !! k).
Proof.
  apply (importToWorkspace_counts bare_valueShape_csv "Library" "ws-1" ∅).
  - vm_compute. reflexivity.
  - vm_compute. reflexivity.
  - reflexivity.
Defined.

Lemma indexOf_take (c : ascii) (s : str) (n : nat) :
  Str.indexOf c s = Some (S n) -> take (S n) s <> [].
Proof. destruct s as [|a r]; [discriminate|]. intros _. discriminate. Qed.

Lemma checkPrefix_plain (id : str) (i : nat) (d : Req.t) (st : Csv.ImportState) :
  Forall (fun p => p <> [] /\ p <> lit "http" /\ p <> lit "https") (Csv.unknown st) ->
  Forall (fun p => p <> [] /\ p <> lit "http" /\ p <> lit "https")
    (Csv.unknown (Csv.checkPrefix id i d st)).
Proof.
  intros Hf. unfold Csv.checkPrefix.
  destruct (truthy (Req.propertyId d)) as [pid|]; [|exact Hf].
  destruct (Str.indexOf Str.colon pid) as [[|n]|] eqn:Ei; try exact Hf.
  destruct (bool_decide (take (S n) pid = lit "http")
            || bool_decide (take (S n) pid = lit "https")) eqn:Eh; [exact Hf|].
  destruct (negb (inb _ Csv.knownPrefixes) && negb (inb _ (Csv.unknown st)));
    [|exact Hf].
  apply orb_false_iff in Eh as [E1 E2].
  apply bool_decide_eq_false in E1. apply bool_decide_eq_false in E2.
  cbn [Csv.unknown]. apply Forall_app. split; [exact Hf|].
  constructor; [|constructor]. split; [|split]; try assumption.
  apply (indexOf_take _ _ _ Ei).
Qed.

Lemma importRows_plain (id : str) (rows : list Req.t) (i : nat)
    (st st' : Csv.ImportState) (db db' : Db) :
  Csv.importRows id rows i st db = Ok (st', db') ->
  Forall (fun p => p <> [] /\ p <> lit "http" /\ p <> lit "https") (Csv.unknown st) ->
  Forall (fun p => p <> [] /\ p <> lit "http" /\ p <> lit "https") (Csv.unknown st').
Proof.
  revert i st db. induction rows as [|r rows IH]; intros i st db Hrun Hf.
  - cbn in Hrun. injection Hrun as <- _. exact Hf.
  - cbn [Csv.importRows] in Hrun. apply bind_Ok_inv in Hrun as (row & db1 & _ & Hrun).
    apply IH in Hrun; [exact Hrun|]. cbn [Csv.unknown]. apply checkPrefix_plain, Hf.
Qed.

Lemma importShapes_plain (groups : list (str * Csv.Group)) (st st' : Csv.ImportState)
    (db db' : Db) :
  foldM Csv.importShape groups st db = Ok (st', db') ->
  Forall (fun p => p <> [] /\ p <> lit "http" /\ p <> lit "https") (Csv.unknown st) ->
  Forall (fun p => p <> [] /\ p <> lit "http" /\ p <> lit "https") (Csv.unknown st').
Proof.
  revert st db. induction groups as [|[id g] groups IH]; intros st db Hrun Hf.
  - cbn in Hrun. injection Hrun as <- _. exact Hf.
  - cbn [foldM] in Hrun. apply bind_Ok_inv in Hrun as (st1 & db1 & Hshape & Hrun).
    apply IH in Hrun; [exact Hrun|]. unfold Csv.importShape in Hshape.
    apply bind_Ok_inv in Hshape as (sh & db0 & _ & Hrows).
    apply (importRows_plain _ _ _ _ _ _ _ Hrows Hf).
Qed.

Lemma addPlaceholders_namespaces (l : list str) (ws ws' : list Csv.ValidationError)
    (db db' : Db) :
  foldM Csv.addPlaceholder l ws db = Ok (ws', db') ->
  namespaces db' = namespaces db ++ map placeholder l.
Proof.
  revert ws db. induction l as [|p l IH]; intros ws db Hrun.
  - cbn in Hrun. injection Hrun as _ <-. rewrite app_nil_r. reflexivity.
  - cbn [foldM] in Hrun. apply bind_Ok_inv in Hrun as (ws1 & db1 & Hadd & Hrun).
    apply IH in Hrun. rewrite Hrun.
    unfold Csv.addPlaceholder, namespaceService.create, bind, get_db in Hadd.
    destruct (existsb _ (namespaces db)); [discriminate|].
    cbn in Hadd. injection Hadd as _ <-. cbn [namespaces map].
    rewrite <- app_assoc. reflexivity.
Qed.

(** X5. The namespaces of the imported workspace are the defaults
    followed by one placeholder [http://example.org/<prefix>/] per
    reported unknown prefix, in the order reported; the reported
    prefixes are pairwise distinct, not empty, none of the defaults and
    neither [http] nor [https]; so the prefixes of the new workspace
    are pairwise distinct. *)
Theorem importToWorkspace_namespaces (content workspaceName uuid : str) (w : World)
    (parsed : list Csv.ParsedRow) :
  Csv.success (Csv.parseCSV content) = true ->
  Csv.rows (Csv.parseCSV content) = Some parsed ->
  w !! uuid = None ->
  exists r w' db',
    Csv.importToWorkspace content workspaceName uuid w = Ok (r, w')
    /\ w' !! uuid = Some db'
    /\ namespaces db'
       = DEFAULT_NAMESPACES ++ map placeholder (default [] (Csv.unknownNamespaces r))
    /\ NoDup (default [] (Csv.unknownNamespaces r))
    /\ (forall p, In p (default [] (Csv.unknownNamespaces r)) ->
          ~ In p Csv.knownPrefixes /\ p <> [] /\ p <> lit "http" /\ p <> lit "https")
    /\ NoDup (map prefix (namespaces db')).
Proof.
  intros Hs Hr Hfresh. unfold Csv.importToWorkspace. rewrite Hs, Hr.
  unfold workspaceService.create. rewrite Hfresh.
  unfold in_workspace. rewrite lookup_insert_eq. unfold Csv.importGroups.
  set (ws := default [] (Csv.warnings (Csv.parseCSV content))).
  destruct (importShapes_run (Csv.groupRows parsed) (Csv.mkImport [] ws 0)
              (initializeWorkspaceDb workspaceName))
    as (st & db & Hrun & Hn & Hf).
  { apply groupRows_NoDup. }
  { intros k _ []. }
  { split; [constructor|intros p []]. }
  destruct (addPlaceholders_run (Csv.unknown st) (Csv.allWarnings st) db)
    as (ws' & db' & Hrun').
  { apply Hf. }
  { rewrite Hn. apply Hf. }
  erewrite bind_Ok by exact Hrun. erewrite bind_Ok by exact Hrun'.
  pose proof (importShapes_plain _ _ _ _ _ Hrun (Forall_nil_2 _)) as Hplain.
  apply addPlaceholders_namespaces in Hrun'. rewrite Hn in Hrun'.
  assert (Hu : default [] (Csv.non_empty (Csv.unknown st)) = Csv.unknown st)
    by (destruct (Csv.unknown st); reflexivity).
  unfold ret. eexists _, _, db'. split; [reflexivity|].
  cbn [Csv.unknownNamespaces]. rewrite Hu.
  split; [apply lookup_insert_eq|].
  split; [exact Hrun'|].
  split; [apply Hf|].
  split.
  - intros p Hp. split; [apply Hf, Hp|].
    rewrite Forall_forall in Hplain. apply Hplain, list_elem_of_In, Hp.
  - rewrite Hrun', map_app, map_map. cbn [placeholder prefix]. rewrite map_id.
    apply NoDup_app. split; [|split; [|apply Hf]].
    + apply (bool_decide_unpack _). vm_compute. exact I.
    + intros p Hp Hp'. apply list_elem_of_In in Hp. apply list_elem_of_In in Hp'.
      destruct Hf as [_ Hk]. exact (Hk p Hp' Hp).
Qed.

Lemma importToWorkspace_namespaces_witness :
  exists r w' db',
    Csv.importToWorkspace unknown_prefix_csv "Library" "ws-1" ∅ = Ok (r, w')
    /\ w' !! lit "ws-1" = Some db'
    /\ namespaces db'
       = DEFAULT_NAMESPACES ++ map placeholder (default [] (Csv.unknownNamespaces r))
    /\ NoDup (default [] (Csv.unknownNamespaces r))
    /\ (forall p, In p (default [] (Csv.unknownNamespaces r)) ->
          ~ In p Csv.knownPrefixes /\ p <> [] /\ p <> lit "http" /\ p <> lit "https")
    /\ NoDup (map prefix (namespaces db')).
Proof.
  apply (importToWorkspace_namespaces unknown_prefix_csv "Library" "ws-1" ∅
           (default [] (Csv.rows (Csv.parseCSV unknown_prefix_csv)))).
  - vm_compute. reflexivity.
  - vm_compute. reflexivity.
  - reflexivity.
Defined.

End CsvImportFacts.

(** ** The store: names, shapes, rows, namespaces *)

Section SortedOutput.

Context {A : Type} (key : A -> nat).

Lemma insert_sorted_ascending (x : A) (l : list A) :
  ascending (fun a b => key a <=? key b)%nat l ->
  ascending (fun a b => key a <=? key b)%nat
    (insert_sorted (fun a b => key a <=? key b)%nat x l).
Proof.
  induction l as [|y l IH]; intros Hasc.
  - cbn. split; [constructor|exact I].
  - cbn [insert_sorted]. destruct Hasc as [Hy Hl].
    destruct (key y <=? key x)%nat eqn:E.
    + split; [|apply IH, Hl]. apply Forall_forall. intros z Hz.
      apply list_elem_of_In, insert_sorted_In in Hz. destruct Hz as [->|Hz]; [exact E|].
      rewrite Forall_forall in Hy. apply Hy, list_elem_of_In, Hz.
    + apply Nat.leb_gt in E. split; [|split; assumption].
      constructor; [apply Nat.leb_le; lia|].
      eapply Forall_impl; [exact Hy|]. cbn. intros z Hz.
      apply Nat.leb_le in Hz. apply Nat.leb_le. lia.
Qed.

Lemma sort_by_sorted (l : list A) :
  ascending (fun a b => key a <=? key b)%nat (sort_by (fun a b => key a <=? key b)%nat l).
Proof.
  unfold sort_by.
  assert (H : forall acc,
             ascending (fun a b => key a <=? key b)%nat acc ->
             ascending (fun a b => key a <=? key b)%nat
               (fold_left (fun acc x => insert_sorted (fun a b => key a <=? key b)%nat x acc)
                  l acc)).
  { induction l as [|x l IH]; intros acc Hacc; [exact Hacc|].
    cbn [fold_left]. apply IH, insert_sorted_ascending, Hacc. }
  apply H. exact I.
Qed.

Lemma sort_by_snoc (l : list A) (x : A) :
  Forall (fun y => key y <= key x) l ->
  sort_by (fun a b => key a <=? key b)%nat (l ++ [x])
  = sort_by (fun a b => key a <=? key b)%nat l ++ [x].
Proof.
  intros Hl. unfold sort_by. rewrite fold_left_app. cbn [fold_left].
  apply insert_sorted_last. apply Forall_forall. intros y Hy.
  apply list_elem_of_In in Hy.
  change (In y (sort_by (fun a b => key a <=? key b)%nat l)) in Hy.
  apply (proj1 (sort_by_In _ y l)) in Hy.
  rewrite Forall_forall in Hl. apply Nat.leb_le, Hl, list_elem_of_In, Hy.
Qed.

Lemma ascending_map {B : Type} (g : B -> A) (keyB : B -> nat) (l : list B) :
  (forall b, key (g b) = keyB b) ->
  ascending (fun a b => keyB a <=? keyB b)%nat l ->
  ascending (fun a b => key a <=? key b)%nat (map g l).
Proof.
  intros Hg. induction l as [|b l IH]; intros Hasc; [exact I|].
  cbn [map]. destruct Hasc as [Hb Hl]. split; [|apply IH, Hl].
  rewrite Forall_map. eapply Forall_impl; [exact Hb|].
  cbn. intros z Hz. rewrite !Hg. exact Hz.
Qed.

End SortedOutput.

Section TableNames.

Lemma sanitize_char (c : ascii) :
  let c' := Str.lower_char (if Str.is_word c then c else "_"%char) in
  is_table_char c' = true
  /\ Str.lower_char (if Str.is_word c' then c' else "_"%char) = c'.
Proof.
  destruct c as [[] [] [] [] [] [] [] []]; vm_compute; split; reflexivity.
Qed.

(** X6. A table name is made of [a-z], [0-9] and [_] only, so it
    holds no quotation mark; sanitizing keeps the length and is
    idempotent. *)
Theorem sanitizeTableName_safe (name : str) :
  forallb is_table_char (tableName name) = true
  /\ ~ In Str.dquote (tableName name)
  /\ length (sanitizeTableName name) = length name
  /\ sanitizeTableName (sanitizeTableName name) = sanitizeTableName name.
Proof.
  assert (Hsafe : forallb is_table_char (tableName name) = true).
  { unfold tableName. rewrite forallb_app. apply andb_true_iff. split; [reflexivity|].
    unfold sanitizeTableName, Str.toLowerCase. rewrite map_map.
    induction name as [|c name IH]; [reflexivity|]. cbn [map forallb].
    rewrite (proj1 (sanitize_char c)). exact IH. }
  split; [exact Hsafe|]. split; [|split].
  - intros Hin. rewrite forallb_forall in Hsafe. specialize (Hsafe _ Hin). discriminate.
  - unfold sanitizeTableName, Str.toLowerCase. rewrite !length_map. reflexivity.
  - unfold sanitizeTableName, Str.toLowerCase. rewrite !map_map.
    apply map_ext. intros c. apply (proj2 (sanitize_char c)).
Qed.

End TableNames.

Section ShapeFacts.

Lemma find_app_first {A : Type} (p : A -> bool) (l1 l2 : list A) :
  List.find p (l1 ++ l2)
  = match List.find p l1 with Some x => Some x | None => List.find p l2 end.
Proof.
  induction l1 as [|x l1 IH]; [reflexivity|]. cbn. destruct (p x); [reflexivity|exact IH].
Qed.

Lemma shape_get_run (id : str) (db : Db) :
  shapeService.get id db
  = Ok (List.find (fun s => bool_decide (shapeId s = id)) (shapes db), db).
Proof. reflexivity. Qed.

Lemma find_shape_None (id : str) (l : list Shape) :
  List.find (fun s => bool_decide (shapeId s = id)) l = None <-> ~ In id (map shapeId l).
Proof.
  induction l as [|s l IH]; cbn; [tauto|]. case_bool_decide as E.
  - split; [discriminate|]. intros H. exfalso. apply H. left. exact E.
  - rewrite IH. tauto.
Qed.

Lemma shape_delete_run (id : str) (db : Db) :
  In id (shapeIds db) -> shapeService.delete id db = Ok (true, without_shape id db).
Proof.
  intros Hin. unfold shapeService.delete. rewrite (bind_Ok _ _ _ _ _ (shape_get_run id db)).
  destruct (List.find _ (shapes db)) eqn:E; [reflexivity|].
  apply find_shape_None in E. contradiction.
Qed.

Lemma shape_delete_missing (id : str) (db : Db) :
  ~ In id (shapeIds db) -> shapeService.delete id db = Ok (false, db).
Proof.
  intros Hn. unfold shapeService.delete. rewrite (bind_Ok _ _ _ _ _ (shape_get_run id db)).
  apply find_shape_None in Hn. unfold shapeIds in *. rewrite Hn. reflexivity.
Qed.

Lemma without_shape_ids (id : str) (db : Db) :
  ~ In id (shapeIds (without_shape id db))
  /\ forall k, In k (shapeIds (without_shape id db)) <-> In k (shapeIds db) /\ k <> id.
Proof.
  unfold shapeIds, without_shape. cbn [shapes].
  assert (H : forall k, In k (map shapeId
                                (List.filter (fun s => negb (bool_decide (shapeId s = id)))
                                   (shapes db)))
                        <-> In k (map shapeId (shapes db)) /\ k <> id).
  { intros k. rewrite !in_map_iff. split.
    - intros (s & <- & Hs). apply filter_In in Hs as [Hs Hne].
      apply negb_true_iff, bool_decide_eq_false in Hne. eauto.
    - intros [(s & <- & Hs) Hne]. exists s. split; [reflexivity|].
      apply filter_In. split; [exact Hs|]. apply negb_true_iff, bool_decide_eq_false, Hne. }
  split; [|exact H]. intros Hin. apply H in Hin. tauto.
Qed.

Lemma filter_absent (id : str) (l : list Shape) :
  ~ In id (map shapeId l) ->
  List.filter (fun s => negb (bool_decide (shapeId s = id))) l = l.
Proof.
  induction l as [|s l IH]; intros Hn; [reflexivity|]. cbn [List.filter].
  rewrite bool_decide_eq_false_2 by (intros E; apply Hn; left; exact E). cbn [negb].
  rewrite IH; [reflexivity|]. intros H. apply Hn. right. exact H.
Qed.

(** X7. Creating a shape whose id and row table are not in use and
    deleting it again gives back the store as it was; in between the
    shape is found under its id and has an empty row table. *)
Theorem shape_create_delete (id : str) (label uri : option str) (folder : option nat)
    (descr : option str) (db : Db) :
  ~ In id (shapeIds db) ->
  tables db !! tableName id = None ->
  exists sh db1,
    shapeService.create id label uri folder descr db = Ok (sh, db1)
    /\ shapeService.get id db1 = Ok (Some sh, db1)
    /\ rowService.list id db1 = Ok ([], db1)
    /\ shapeService.delete id db1 = Ok (true, db).
Proof.
  intros Hn Ht.
  pose (sh := mkShape id (or_null label) (or_null descr) (or_null uri) folder).
  exists sh, (with_shape sh db).
  destruct (with_shape_new_table sh db Ht) as (Hnew & Hother & Hshapes).
  split; [apply shape_create_run, Hn|]. split; [|split].
  - rewrite shape_get_run, Hshapes, find_app_first.
    rewrite (proj2 (find_shape_None id (shapes db)) Hn).
    cbn. rewrite bool_decide_eq_true_2 by reflexivity. reflexivity.
  - unfold rowService.list, bind, get_db. cbn [shapeId sh] in Hnew. rewrite Hnew. reflexivity.
  - rewrite shape_delete_run by (rewrite with_shape_ids, in_app_iff; right; left; reflexivity).
    f_equal. f_equal. unfold without_shape.
    rewrite Hshapes, List.filter_app, filter_absent by exact Hn.
    cbn [List.filter shapeId sh]. rewrite bool_decide_eq_true_2 by reflexivity.
    cbn [negb]. rewrite app_nil_r.
    unfold with_shape. cbn [shapeId sh tables db_name namespaces folders folder_seq
                              useLCColumns]. rewrite Ht, delete_insert_id by exact Ht.
    destruct db; reflexivity.
Qed.

Lemma shape_create_delete_witness :
  exists sh db1,
    shapeService.create "Place" (Some (lit "Place")) None None None library_db = Ok (sh, db1)
    /\ shapeService.get "Place" db1 = Ok (Some sh, db1)
    /\ rowService.list "Place" db1 = Ok ([], db1)
    /\ shapeService.delete "Place" db1 = Ok (true, library_db).
Proof.
  apply (shape_create_delete "Place" (Some (lit "Place")) None None None library_db).
  - vm_compute. intuition discriminate.
  - vm_compute. reflexivity.
Defined.

End ShapeFacts.

Section ShapeUpdateFacts.

Lemma renameTable_run (a b : str) (db db1 : Db) (u : unit) :
  renameTable a b db = Ok (u, db1) ->
  exists rows,
    tables db !! a = Some rows /\ tables db !! b = None
    /\ db1 = mkDb (db_name db) (namespaces db) (folders db) (folder_seq db) (shapes db)
               (<[b := rows]> (base.delete a (tables db))) (useLCColumns db).
Proof.
  unfold renameTable, bind, get_db, put_db, throw.
  destruct (tables db !! a) as [rows|]; [|discriminate].
  destruct (tables db !! b); [discriminate|].
  intros H. injection H as _ <-. eauto.
Qed.

Lemma renameTable_ok (a b : str) (db : Db) (rows : list StatementRow) :
  tables db !! a = Some rows -> tables db !! b = None ->
  renameTable a b db
  = Ok (tt, mkDb (db_name db) (namespaces db) (folders db) (folder_seq db) (shapes db)
              (<[b := rows]> (base.delete a (tables db))) (useLCColumns db)).
Proof.
  intros Ha Hb. unfold renameTable, bind, get_db, put_db. rewrite Ha, Hb. reflexivity.
Qed.

Lemma NoDup_filter_ids (id : str) (l : list Shape) :
  NoDup (map shapeId l) ->
  NoDup (map shapeId (List.filter (fun s => negb (bool_decide (shapeId s = id))) l)).
Proof.
  induction l as [|s l IH]; intros H; [constructor|].
  cbn [map] in H. apply NoDup_cons in H as [Hs H]. cbn [List.filter].
  destruct (negb (bool_decide (shapeId s = id))); [|apply IH, H].
  cbn [map]. apply NoDup_cons. split; [|apply IH, H].
  intros Hin. apply Hs. apply list_elem_of_In. apply list_elem_of_In in Hin.
  apply in_map_iff in Hin as (x & Hx & Hin). apply filter_In in Hin as [Hin _].
  rewrite <- Hx. apply in_map, Hin.
Qed.

Lemma replaced_ids (id : str) (sh : Shape) (l : list Shape) :
  map shapeId (map (fun s => if bool_decide (shapeId s = id) then sh else s) l)
  = map (fun k => if bool_decide (k = id) then shapeId sh else k) (map shapeId l).
Proof.
  rewrite !map_map. apply map_ext. intros s. case_bool_decide; reflexivity.
Qed.

Lemma NoDup_replaced (id new : str) (ids : list str) :
  NoDup ids -> (new = id \/ ~ In new ids) ->
  NoDup (map (fun k => if bool_decide (k = id) then new else k) ids).
Proof.
  intros Hnd [->|Hnew].
  - rewrite (map_ext _ (fun k => k)), map_id; [exact Hnd|].
    intros k. case_bool_decide; congruence.
  - induction ids as [|k ids IH]; [constructor|].
    apply NoDup_cons in Hnd as [Hk Hnd]. rewrite list_elem_of_In in Hk.
    cbn [map]. apply NoDup_cons. split.
    + rewrite list_elem_of_In, in_map_iff. intros (x & Hx & Hin).
      case_bool_decide as E1; case_bool_decide as E2.
      * apply Hk. rewrite E2, <- E1. exact Hin.
      * apply Hnew. left. congruence.
      * apply Hnew. right. rewrite <- Hx. exact Hin.
      * apply Hk. rewrite <- Hx. exact Hin.
    + apply IH; [exact Hnd|]. intros H. apply Hnew. right. exact H.
Qed.

Lemma existsb_shapeId (id : str) (l : list Shape) :
  existsb (fun s => bool_decide (shapeId s = id)) l = true <-> In id (map shapeId l).
Proof.
  rewrite existsb_exists, in_map_iff. split.
  - intros (s & Hs & E). apply bool_decide_eq_true in E. eauto.
  - intros (s & E & Hs). exists s. split; [exact Hs|]. apply bool_decide_eq_true, E.
Qed.

(** X8. The shape ids of a workspace stay pairwise distinct: whenever
    [create], [update] or [delete] returns, the ids of the store it
    leaves are pairwise distinct again. *)
Theorem shape_ids_stay_distinct (db : Db) :
  NoDup (shapeIds db) ->
  (forall id label uri folder descr sh db',
      shapeService.create id label uri folder descr db = Ok (sh, db') ->
      NoDup (shapeIds db'))
  /\ (forall id updates r db',
        shapeService_update id updates db = Ok (r, db') -> NoDup (shapeIds db'))
  /\ (forall id b db',
        shapeService.delete id db = Ok (b, db') -> NoDup (shapeIds db')).
Proof.
  intros Hnd. split; [|split].
  - intros id label uri folder descr sh db' Hrun.
    destruct (List.in_dec (List.list_eq_dec ascii_dec) id (shapeIds db)) as [Hin|Hn].
    + rewrite shape_create_dup in Hrun by exact Hin. discriminate.
    + rewrite shape_create_run in Hrun by exact Hn. injection Hrun as _ <-.
      rewrite with_shape_ids. apply NoDup_app. split; [exact Hnd|].
      split; [|apply NoDup_singleton]. intros k Hk Hk'.
      apply list_elem_of_In in Hk. apply list_elem_of_In in Hk'.
      destruct Hk' as [<-|[]]. exact (Hn Hk).
  - intros id updates r db' Hrun. unfold shapeService_update in Hrun.
    rewrite (bind_Ok _ _ _ _ _ (shape_get_run id db)) in Hrun.
    destruct (List.find _ (shapes db)) as [existing|].
    2:{ injection Hrun as _ <-. exact Hnd. }
    cbv zeta in Hrun. apply bind_Ok_inv in Hrun as (u & db1 & Hren & Hrun).
    assert (Hs1 : shapes db1 = shapes db).
    { destruct (_ && _) in Hren.
      - apply renameTable_run in Hren as (rows & _ & _ & ->). reflexivity.
      - injection Hren as _ <-. reflexivity. }
    unfold bind at 1, get_db in Hrun.
    destruct (negb _ && existsb _ (shapes db1)) eqn:E; [discriminate|].
    cbn in Hrun. injection Hrun as _ <-. unfold shapeIds. cbn [shapes].
    rewrite Hs1, replaced_ids. cbn [shapeId]. apply NoDup_replaced; [exact Hnd|].
    apply andb_false_iff in E as [E|E].
    + left. apply negb_false_iff, bool_decide_eq_true in E. exact E.
    + right. rewrite Hs1 in E. intros Hin. apply existsb_shapeId in Hin. congruence.
  - intros id b db' Hrun.
    destruct (List.in_dec (List.list_eq_dec ascii_dec) id (shapeIds db)) as [Hin|Hn].
    + rewrite shape_delete_run in Hrun by exact Hin. injection Hrun as _ <-.
      apply NoDup_filter_ids, Hnd.
    + rewrite shape_delete_missing in Hrun by exact Hn. injection Hrun as _ <-. exact Hnd.
Qed.

Lemma shape_ids_stay_distinct_witness :
  (forall id label uri folder descr sh db',
      shapeService.create id label uri folder descr library_db = Ok (sh, db') ->
      NoDup (shapeIds db'))
  /\ (forall id updates r db',
        shapeService_update id updates library_db = Ok (r, db') -> NoDup (shapeIds db'))
  /\ (forall id b db',
        shapeService.delete id library_db = Ok (b, db') -> NoDup (shapeIds db')).
Proof.
  apply (shape_ids_stay_distinct library_db).
  apply (bool_decide_unpack _). vm_compute. exact I.
Defined.

Lemma find_replaced (id new : str) (sh : Shape) (l : list Shape) :
  shapeId sh = new -> new <> id -> In id (map shapeId l) -> ~ In new (map shapeId l) ->
  List.find (fun s => bool_decide (shapeId s = new))
    (map (fun s => if bool_decide (shapeId s = id) then sh else s) l) = Some sh
  /\ List.find (fun s => bool_decide (shapeId s = id))
       (map (fun s => if bool_decide (shapeId s = id) then sh else s) l) = None.
Proof.
  intros Hsh Hne Hin Hnew. split.
  - induction l as [|s l IH]; [destruct Hin|]. cbn [map List.find].
    destruct (bool_decide (shapeId s = id)) eqn:E.
    + rewrite bool_decide_eq_true_2 by exact Hsh. reflexivity.
    + apply bool_decide_eq_false in E.
      rewrite bool_decide_eq_false_2 by (intros E'; apply Hnew; left; exact E').
      apply IH.
      * destruct Hin as [Hin|Hin]; [contradiction|exact Hin].
      * intros H. apply Hnew. right. exact H.
  - apply find_shape_None. rewrite replaced_ids. rewrite in_map_iff.
    intros (k & Hk & _). case_bool_decide; congruence.
Qed.

(** X9. Renaming a shape to an unused id with an unused row table
    moves its rows: the shape is found under the new id and no longer
    under the old one, and the rows listed under the new id are those
    listed under the old one before. *)
Theorem shape_rename_moves_rows (id new : str) (updates : ShapeUpdates) (db : Db)
    (rows : list StatementRow) :
  In id (shapeIds db) ->
  new_shapeId updates = Some new -> new <> [] -> new <> id ->
  ~ In new (shapeIds db) ->
  tables db !! tableName id = Some rows ->
  tables db !! tableName new = None ->
  exists sh db',
    shapeService_update id updates db = Ok (Some sh, db')
    /\ shapeId sh = new
    /\ shapeService.get new db' = Ok (Some sh, db')
    /\ shapeService.get id db' = Ok (None, db')
    /\ rowService.list new db' = Ok (listedRows db id, db')
    /\ tables db' !! tableName id = None.
Proof.
  intros Hin Hu Hne Hdiff Hnew Hold Hfree.
  assert (Htn : tableName id <> tableName new) by congruence.
  unfold shapeService_update. rewrite (bind_Ok _ _ _ _ _ (shape_get_run id db)).
  destruct (List.find _ (shapes db)) as [existing|] eqn:Ef.
  2:{ apply find_shape_None in Ef. contradiction. }
  cbv zeta. rewrite Hu.
  assert (Hor : or_else (Some new) id = new) by (destruct new; [congruence|reflexivity]).
  assert (Ht : is_truthy (Some new) = true) by (destruct new; [congruence|reflexivity]).
  rewrite Hor, Ht, bool_decide_eq_false_2 by congruence. cbn [negb andb].
  rewrite (bind_Ok _ _ _ _ _ (renameTable_ok _ _ db rows Hold Hfree)).
  unfold bind at 1, get_db at 1. cbn [shapes].
  rewrite bool_decide_eq_false_2 by exact Hdiff. cbn [negb andb].
  replace (existsb (fun s => bool_decide (shapeId s = new)) (shapes db)) with false
    by (symmetry; apply not_true_is_false; intros H; apply existsb_shapeId in H;
        contradiction).
  cbn [bind put_db ret]. unfold bind, put_db, ret.
  eexists _, _. split; [reflexivity|]. split; [reflexivity|].
  match goal with
  | |- context [mkShape new ?a ?b ?c ?d] =>
      destruct (find_replaced id new (mkShape new a b c d) (shapes db) eq_refl Hdiff Hin Hnew)
        as [Hf1 Hf2]
  end.
  split; [rewrite shape_get_run; cbn [shapes]; rewrite Hf1; reflexivity|].
  split; [rewrite shape_get_run; cbn [shapes]; rewrite Hf2; reflexivity|].
  split.
  - unfold rowService.list, bind, get_db. cbn [tables].
    rewrite lookup_insert_eq. unfold listedRows. rewrite Hold. reflexivity.
  - cbn [tables]. rewrite lookup_insert_ne by congruence. apply lookup_delete_eq.
Qed.

Lemma shape_rename_moves_rows_witness :
  exists sh db',
    shapeService_update "Book" (mkUpdates (Some (lit "Monograph")) None None None None)
      library_db = Ok (Some sh, db')
    /\ shapeId sh = lit "Monograph"
    /\ shapeService.get "Monograph" db' = Ok (Some sh, db')
    /\ shapeService.get "Book" db' = Ok (None, db')
    /\ rowService.list "Monograph" db' = Ok (listedRows library_db "Book", db')
    /\ tables db' !! tableName "Book" = None.
Proof.
  apply (shape_rename_moves_rows "Book" "Monograph"
           (mkUpdates (Some (lit "Monograph")) None None None None) library_db [book_row]).
  - vm_compute. tauto.
  - reflexivity.
  - discriminate.
  - discriminate.
  - vm_compute. intuition discriminate.
  - vm_compute. reflexivity.
  - vm_compute. reflexivity.
Defined.

(** X10. A shape cannot be renamed to an id whose row table is in
    use; an id with the same table name as the old one (one that
    differs only in letter case or in characters outside [a-zA-Z0-9_])
    is such an id: the update throws. *)
Theorem shape_rename_refused (id new : str) (updates : ShapeUpdates) (db : Db) :
  In id (shapeIds db) ->
  new_shapeId updates = Some new -> new <> [] -> new <> id ->
  is_Some (tables db !! tableName id) ->
  (tableName new = tableName id \/ is_Some (tables db !! tableName new)) ->
  shapeService_update id updates db
  = Err (Thrown (lit "there is already another table or index with this name: "
                 ++ tableName new)).
Proof.
  intros Hin Hu Hne Hdiff [rows Hold] Hused.
  assert (Hnewt : is_Some (tables db !! tableName new)).
  { destruct Hused as [->|H]; [eauto|exact H]. }
  destruct Hnewt as [rows' Hnewt].
  unfold shapeService_update. rewrite (bind_Ok _ _ _ _ _ (shape_get_run id db)).
  destruct (List.find _ (shapes db)) as [existing|] eqn:Ef.
  2:{ apply find_shape_None in Ef. contradiction. }
  cbv zeta. rewrite Hu.
  assert (Hor : or_else (Some new) id = new) by (destruct new; [congruence|reflexivity]).
  assert (Ht : is_truthy (Some new) = true) by (destruct new; [congruence|reflexivity]).
  rewrite Hor, Ht, bool_decide_eq_false_2 by congruence. cbn [negb andb].
  unfold bind at 1. unfold renameTable, bind, get_db. rewrite Hold, Hnewt.
  reflexivity.
Qed.

Lemma shape_rename_refused_witness :
  shapeService_update "Book" (mkUpdates (Some (lit "book")) None None None None) library_db
  = Err (Thrown (lit "there is already another table or index with this name: "
                 ++ tableName "book")).
Proof.
  apply (shape_rename_refused "Book" "book"
           (mkUpdates (Some (lit "book")) None None None None) library_db).
  - vm_compute. tauto.
  - reflexivity.
  - discriminate.
  - discriminate.
  - vm_compute. eauto.
  - left. vm_compute. reflexivity.
Defined.

End ShapeUpdateFacts.

Section UsageFacts.

Lemma count_existsb {A : Type} (p : A -> bool) (l : list A) :
  (0 <? length (List.filter p l))%nat = existsb p l.
Proof.
  induction l as [|x l IH]; [reflexivity|]. cbn [List.filter existsb].
  destruct (p x); [reflexivity|exact IH].
Qed.

Lemma listedShapes_In (db : Db) (s : Shape) : In s (listedShapes db) <-> In s (shapes db).
Proof. unfold listedShapes. apply sort_by_In. Qed.

Lemma listedRows_In (db : Db) (k : str) (r : StatementRow) :
  In r (listedRows db k) <-> In r (default [] (tables db !! tableName k)).
Proof. unfold listedRows. apply sort_by_In. Qed.

Lemma usagesIn_run (id : str) (db : Db) (l : list Shape) (acc : list str) :
  (forall s, In s l -> has_table db (shapeId s)) ->
  usagesIn id l acc db = Ok (acc ++ map shapeId (List.filter (usesShape db id) l), db).
Proof.
  revert acc. induction l as [|s l IH]; intros acc Hl.
  - cbn. rewrite app_nil_r. reflexivity.
  - cbn [usagesIn List.filter]. unfold usesShape at 1.
    destruct (bool_decide (shapeId s = id)) eqn:E; cbn [negb andb].
    + apply IH. intros s' Hs'. apply Hl. right. exact Hs'.
    + destruct (Hl s (or_introl eq_refl)) as [rows Hrows].
      unfold bind at 1, get_db at 1. rewrite Hrows.
      change (default [] (Some rows)) with rows.
      rewrite count_existsb, IH by (intros s' Hs'; apply Hl; right; exact Hs').
      destruct (existsb _ rows); cbn [map]; [rewrite <- app_assoc|]; reflexivity.
Qed.

(** X11. In a store where every shape has its row table,
    [getUsages] returns, in listing order, the ids of the other
    shapes that have a row whose [valueShape] cell is exactly the
    given id; the shape itself is never among them. *)
Theorem getUsages_whole_cell (id : str) (db : Db) :
  tables_exist db ->
  exists usages,
    shapeService_getUsages id db = Ok (usages, db)
    /\ usages = map shapeId (List.filter (usesShape db id) (listedShapes db))
    /\ ~ In id usages
    /\ forall k,
         In k usages
         <-> k <> id /\ In k (shapeIds db)
             /\ exists r, In r (listedRows db k) /\ valueShape r = Some id.
Proof.
  intros Hex. eexists. split; [|split; [reflexivity|]].
  - unfold shapeService_getUsages. rewrite (bind_Ok _ _ _ _ _ (shape_list_run db)).
    rewrite usagesIn_run; [reflexivity|].
    intros s Hs. apply Hex, listedShapes_In, Hs.
  - assert (H : forall k,
               In k (map shapeId (List.filter (usesShape db id) (listedShapes db)))
               <-> k <> id /\ In k (shapeIds db)
                   /\ exists r, In r (listedRows db k) /\ valueShape r = Some id).
    { intros k. rewrite in_map_iff. split.
      - intros (s & <- & Hs). apply filter_In in Hs as [Hs Hu].
        apply listedShapes_In in Hs.
        unfold usesShape in Hu. apply andb_true_iff in Hu as [Hne Hu].
        apply negb_true_iff, bool_decide_eq_false in Hne.
        apply existsb_exists in Hu as (r & Hr & Hv). apply bool_decide_eq_true in Hv.
        split; [exact Hne|]. split; [apply in_map, Hs|].
        exists r. split; [|exact Hv]. apply listedRows_In, Hr.
      - intros (Hne & Hk & r & Hr & Hv). apply in_map_iff in Hk as (s & <- & Hs).
        exists s. split; [reflexivity|]. apply filter_In.
        split; [apply listedShapes_In, Hs|].
        unfold usesShape. apply andb_true_iff.
        split; [apply negb_true_iff, bool_decide_eq_false, Hne|].
        apply existsb_exists. exists r. split; [|apply bool_decide_eq_true, Hv].
        apply listedRows_In, Hr. }
    split; [|exact H]. intros Hin. apply H in Hin. tauto.
Qed.

Lemma getUsages_whole_cell_witness :
  exists usages,
    shapeService_getUsages "Person" library_db = Ok (usages, library_db)
    /\ usages = map shapeId (List.filter (usesShape library_db "Person")
                               (listedShapes library_db))
    /\ ~ In (lit "Person") usages
    /\ forall k,
         In k usages
         <-> k <> lit "Person" /\ In k (shapeIds library_db)
             /\ exists r, In r (listedRows library_db k)
                          /\ valueShape r = Some (lit "Person").
Proof.
  apply (getUsages_whole_cell "Person" library_db).
  intros s [<-|[<-|[]]]; vm_compute; eauto.
Defined.

End UsageFacts.

Section RowFacts.

Lemma list_max_In (l : list nat) : l <> [] -> In (list_max l) l.
Proof.
  induction l as [|a l IH]; [congruence|]. intros _.
  change (list_max (a :: l)) with (Nat.max a (list_max l)).
  destruct l as [|b l].
  - left. cbn. lia.
  - destruct (Nat.max_spec a (list_max (b :: l))) as [[_ ->]|[_ ->]].
    + right. apply IH. discriminate.
    + left. reflexivity.
Qed.

Lemma to_double_exact (n : N) : (n < 2 ^ 53)%N -> to_double n = n.
Proof.
  intros Hn. unfold to_double.
  assert (Hsize : (N.size n <= 53)%N).
  { destruct (N.le_gt_cases (N.size n) 53) as [H|H]; [exact H|]. exfalso.
    assert (Hp : (2 ^ 54 <= 2 ^ N.size n)%N) by (apply N.pow_le_mono_r; lia).
    pose proof (N.size_le n) as Hle. rewrite N.succ_double_spec in Hle.
    change (2 ^ 54)%N with (2 * 2 ^ 53)%N in Hp. lia. }
  replace (N.size n - 53)%N with 0%N by lia. reflexivity.
Qed.

Lemma js_succ_exact (m : nat) : (N.of_nat m < 2 ^ 53)%N -> js_succ m = S m.
Proof.
  intros Hm. unfold js_succ. rewrite (to_double_exact _ Hm).
  destruct (N.eq_dec (N.of_nat m + 1)%N (2 ^ 53)%N) as [E|E].
  - rewrite E. change (to_double (2 ^ 53)%N) with (2 ^ 53)%N. rewrite <- E. lia.
  - rewrite to_double_exact by lia. lia.
Qed.

(** From [2^53] on the sum is no longer exact: after a row of order
    [2^53] the next order is [2^53] again. *)
Example order_repeats_from_2_53 :
  to_double (to_double (2 ^ 53) + 1) = (2 ^ 53)%N.
Proof. vm_compute. reflexivity. Qed.

(** X13. When the row orders of a shape are below [2^53], a row created
    without a row order gets an order above all rows of the shape and is
    listed last; the rows of tables with another name are not touched. *)
Theorem row_create_appends (id : str) (data : Req.t) (db : Db) :
  has_table db id -> Req.rowOrder data = None ->
  (forall r, In r (listedRows db id) -> (N.of_nat (rowOrder r) < 2 ^ 53)%N) ->
  exists row db',
    rowService.create id data db = Ok (row, db')
    /\ (forall r, In r (listedRows db id) -> rowOrder r < rowOrder row)
    /\ rowService.list id db' = Ok (listedRows db id ++ [row], db')
    /\ forall other, tableName other <> tableName id ->
                     listedRows db' other = listedRows db other.
Proof.
  intros [rows Hrows] Hord Hsafe.
  exists (storedRow (nextOrder data rows) data),
    (with_row id (storedRow (nextOrder data rows) data) db).
  destruct (with_row_lookup id (storedRow (nextOrder data rows) data) db rows Hrows)
    as (Hnew & Hother & _).
  assert (Hmax : forall r, In r rows -> rowOrder r < nextOrder data rows).
  { intros r Hr. unfold nextOrder. rewrite Hord. destruct rows as [|r0 rows']; [destruct Hr|].
    set (l := r0 :: rows') in *.
    assert (Hle : Forall (fun k => k <= list_max (map rowOrder l)) (map rowOrder l))
      by (apply list_max_le, Nat.le_refl).
    assert (Hin : In (list_max (map rowOrder l)) (map rowOrder l))
      by (apply list_max_In; discriminate).
    apply in_map_iff in Hin as (top & Htop & Hin).
    rewrite js_succ_exact.
    - apply Nat.lt_succ_r. rewrite Forall_forall in Hle.
      apply Hle, list_elem_of_In, in_map, Hr.
    - rewrite <- Htop. apply Hsafe, listedRows_In. rewrite Hrows. exact Hin. }
  split; [apply row_create_run, Hrows|]. split; [|split].
  - intros r Hr. apply listedRows_In in Hr. rewrite Hrows in Hr.
    cbn [rowOrder storedRow]. apply Hmax, Hr.
  - unfold rowService.list, bind, get_db. rewrite Hnew. unfold ret. f_equal. f_equal.
    unfold listedRows. rewrite Hrows. change (default [] (Some rows)) with rows.
    apply (sort_by_snoc rowOrder). apply Forall_forall. intros r Hr.
    apply list_elem_of_In in Hr. cbn [rowOrder storedRow]. apply Nat.lt_le_incl, Hmax, Hr.
  - intros other Hne. unfold listedRows. rewrite Hother by exact Hne. reflexivity.
Qed.

Lemma row_create_appends_witness :
  exists row db',
    rowService.create "Book" (requested person_row) library_db = Ok (row, db')
    /\ (forall r, In r (listedRows library_db "Book") -> rowOrder r < rowOrder row)
    /\ rowService.list "Book" db' = Ok (listedRows library_db "Book" ++ [row], db')
    /\ forall other, tableName other <> tableName "Book" ->
                     listedRows db' other = listedRows library_db other.
Proof.
  apply (row_create_appends "Book" (requested person_row) library_db).
  - vm_compute. eauto.
  - reflexivity.
  - intros r Hr. vm_compute in Hr. destruct Hr as [<-|[]]. reflexivity.
Defined.

End RowFacts.

Section CopyFacts.

Lemma copyRows_run (id : str) (rows : list StatementRow) (db : Db)
    (rows0 : list StatementRow) :
  tables db !! tableName id = Some rows0 ->
  exists db',
    copyRows id rows db = Ok (tt, db')
    /\ tables db' !! tableName id = Some (rows0 ++ map storedCopy rows)
    /\ shapes db' = shapes db
    /\ forall t, t <> tableName id -> tables db' !! t = tables db !! t.
Proof.
  revert db rows0. induction rows as [|r rows IH]; intros db rows0 Ht.
  - exists db. cbn. rewrite app_nil_r. auto.
  - cbn [copyRows].
    rewrite (bind_Ok _ _ _ _ _ (row_create_run db id (copyRequest r) rows0 Ht)).
    change (storedRow (nextOrder (copyRequest r) rows0) (copyRequest r))
      with (storedCopy r).
    destruct (with_row_lookup id (storedCopy r) db rows0 Ht) as (Hnew & Hother & Hsh).
    destruct (IH _ _ Hnew) as (db' & Hrun & Ht' & Hsh' & Hother').
    exists db'. split; [exact Hrun|]. split; [|split].
    + rewrite Ht', <- app_assoc. reflexivity.
    + congruence.
    + intros t Hne. rewrite Hother', Hother by exact Hne. reflexivity.
Qed.

Lemma copyInto_run (id : str) (sh : Shape) (rows : list StatementRow) (db : Db) :
  shapeId sh = id ->
  (In id (shapeIds db) \/ tables db !! tableName id = None) ->
  exists res db',
    copyInto id sh rows db = Ok (res, db')
    /\ rowsCopied res = length rows
    /\ (overwrote res = true <-> In id (shapeIds db))
    /\ copied_shape res
       = mkShape id (truthy (shapeLabel sh)) (truthy (description sh))
           (truthy (resourceURI sh)) None
    /\ shapeService.get id db' = Ok (Some (copied_shape res), db')
    /\ tables db' !! tableName id = Some (map storedCopy rows)
    /\ forall t, t <> tableName id -> tables db' !! t = tables db !! t.
Proof.
  intros Hid Hfree. unfold copyInto.
  rewrite (bind_Ok _ _ _ _ _ (shape_get_run id db)).
  set (existing := List.find (fun s => bool_decide (shapeId s = id)) (shapes db)).
  assert (Hex : (exists e, existing = Some e /\ In id (shapeIds db))
                \/ (existing = None /\ ~ In id (shapeIds db))).
  { destruct existing as [e|] eqn:E.
    - left. exists e. split; [reflexivity|]. apply find_some in E as [He E'].
      apply bool_decide_eq_true in E'. rewrite <- E'. apply in_map, He.
    - right. split; [reflexivity|]. apply find_shape_None, E. }
  assert (Hstep : exists db0,
             (match existing with
              | Some _ => shapeService.delete id
              | None => ret false
              end) db
             = Ok (match existing with Some _ => true | None => false end, db0)
             /\ ~ In id (shapeIds db0)
             /\ tables db0 !! tableName id = None
             /\ forall t, t <> tableName id -> tables db0 !! t = tables db !! t).
  { destruct Hex as [(e & -> & Hin)|[-> Hn]].
    - exists (without_shape id db). split; [apply shape_delete_run, Hin|].
      split; [apply without_shape_ids|]. unfold without_shape. cbn [tables].
      split; [apply lookup_delete_eq|]. intros t Hne. apply lookup_delete_ne. congruence.
    - exists db. split; [reflexivity|]. split; [exact Hn|].
      destruct Hfree as [Hin|Hnone]; [contradiction|]. split; [exact Hnone|]. reflexivity. }
  destruct Hstep as (db0 & Hdel & Hn0 & Ht0 & Hother0).
  rewrite (bind_Ok _ _ _ _ _ Hdel). rewrite Hid.
  pose (new := mkShape id (or_null (truthy (shapeLabel sh)))
                 (or_null (truthy (description sh))) (or_null (truthy (resourceURI sh)))
                 None).
  rewrite (bind_Ok _ _ _ _ _
             (shape_create_run db0 id (truthy (shapeLabel sh)) (truthy (resourceURI sh))
                None (truthy (description sh)) Hn0)).
  fold new.
  destruct (with_shape_new_table new db0 Ht0) as (Hnew & Hother1 & Hshapes).
  cbn [shapeId new] in Hnew, Hother1.
  destruct (copyRows_run id rows _ [] Hnew) as (db' & Hcopy & Ht' & Hsh' & Hother').
  rewrite (bind_Ok _ _ _ _ _ Hcopy).
  eexists _, db'. split; [reflexivity|]. cbn [rowsCopied overwrote copied_shape].
  split; [reflexivity|]. split.
  { destruct Hex as [(e & -> & Hin)|[-> Hn]]; [tauto|].
    split; [discriminate|contradiction]. }
  split.
  { unfold new, or_null. f_equal; (match goal with |- truthy (truthy ?x) = _ =>
                                     destruct x as [[|? ?]|]; reflexivity end). }
  split.
  { rewrite shape_get_run, Hsh', Hshapes, find_app_first.
    rewrite (proj2 (find_shape_None id (shapes db0)) Hn0).
    cbn. rewrite bool_decide_eq_true_2 by reflexivity. reflexivity. }
  split; [exact Ht'|].
  intros t Hne. rewrite Hother', Hother1, Hother0 by exact Hne. reflexivity.
Qed.

Lemma storedCopy_order (r : StatementRow) : rowOrder (storedCopy r) = rowOrder r.
Proof. reflexivity. Qed.

(** X12. Copying a shape into another workspace leaves the source
    workspace as it was and replaces the shape of that id in the
    target: its rows are listed there in the order of the source,
    each one a copy with the same row order, [rowsCopied] is their
    number, [overwrote] tells whether the target had the shape, and
    the folder assignment is not copied. *)
Theorem copyToWorkspace_copies_rows (source target id : str) (w : World) (sdb tdb : Db) :
  source <> target ->
  w !! source = Some sdb -> w !! target = Some tdb ->
  In id (shapeIds sdb) -> has_table sdb id ->
  (In id (shapeIds tdb) \/ tables tdb !! tableName id = None) ->
  exists res w' tdb',
    shapeService_copyToWorkspace source id target w = Ok (res, w')
    /\ w' !! source = Some sdb
    /\ w' !! target = Some tdb'
    /\ (forall other, other <> source -> other <> target -> w' !! other = w !! other)
    /\ rowService.list id tdb' = Ok (map storedCopy (listedRows sdb id), tdb')
    /\ shapeService.get id tdb' = Ok (Some (copied_shape res), tdb')
    /\ shapeId (copied_shape res) = id
    /\ folderId (copied_shape res) = None
    /\ rowsCopied res = length (listedRows sdb id)
    /\ (overwrote res = true <-> In id (shapeIds tdb))
    /\ forall k, tableName k <> tableName id -> listedRows tdb' k = listedRows tdb k.
Proof.
  intros Hst Hs Ht Hin Htab Hfree.
  unfold shapeService_copyToWorkspace, in_workspace. rewrite Hs, shape_get_run.
  destruct (List.find _ (shapes sdb)) as [sh|] eqn:Ef.
  2:{ apply find_shape_None in Ef. contradiction. }
  assert (Hid : shapeId sh = id).
  { apply find_some in Ef as [_ E]. apply bool_decide_eq_true in E. exact E. }
  rewrite lookup_insert_ne, Ht by exact Hst.
  rewrite lookup_insert_eq, (row_list_run sdb id Htab).
  rewrite lookup_insert_ne by exact Hst. rewrite lookup_insert_ne, Ht by exact Hst.
  destruct (copyInto_run id sh (listedRows sdb id) tdb Hid Hfree)
    as (res & tdb' & Hrun & Hcount & Hover & Hshape & Hget & Htable & Hother).
  rewrite Hrun. exists res. eexists. exists tdb'. split; [reflexivity|].
  split; [rewrite lookup_insert_ne by congruence; rewrite lookup_insert_eq; reflexivity|].
  split; [apply lookup_insert_eq|].
  split.
  { intros other H1 H2. rewrite !lookup_insert_ne by congruence. reflexivity. }
  split.
  { unfold rowService.list, bind, get_db. rewrite Htable. unfold ret. f_equal. f_equal.
    apply sort_by_ascending.
    apply (ascending_map rowOrder storedCopy rowOrder); [reflexivity|].
    apply (sort_by_sorted rowOrder). }
  split; [exact Hget|]. rewrite Hshape. cbn [shapeId folderId].
  split; [reflexivity|]. split; [reflexivity|]. split; [exact Hcount|].
  split; [exact Hover|].
  intros k Hne. unfold listedRows. rewrite Hother by exact Hne. reflexivity.
Qed.

Lemma copyToWorkspace_copies_rows_witness :
  exists res w' tdb',
    shapeService_copyToWorkspace "ws-library" "Book" "ws-new" two_workspaces = Ok (res, w')
    /\ w' !! lit "ws-library" = Some library_db
    /\ w' !! lit "ws-new" = Some tdb'
    /\ (forall other, other <> lit "ws-library" -> other <> lit "ws-new" ->
                      w' !! other = two_workspaces !! other)
    /\ rowService.list "Book" tdb'
       = Ok (map storedCopy (listedRows library_db "Book"), tdb')
    /\ shapeService.get "Book" tdb' = Ok (Some (copied_shape res), tdb')
    /\ shapeId (copied_shape res) = lit "Book"
    /\ folderId (copied_shape res) = None
    /\ rowsCopied res = length (listedRows library_db "Book")
    /\ (overwrote res = true <-> In (lit "Book") (shapeIds (initializeWorkspaceDb "New")))
    /\ forall k, tableName k <> tableName "Book" ->
                 listedRows tdb' k = listedRows (initializeWorkspaceDb "New") k.
Proof.
  apply (copyToWorkspace_copies_rows "ws-library" "ws-new" "Book" two_workspaces
           library_db (initializeWorkspaceDb "New")).
  - discriminate.
  - vm_compute. reflexivity.
  - vm_compute. reflexivity.
  - vm_compute. tauto.
  - vm_compute. eauto.
  - right. vm_compute. reflexivity.
Defined.

End CopyFacts.

Section NamespaceFacts.

Lemma ns_get_run (pfx : str) (db : Db) :
  namespaceService_get pfx db
  = Ok (List.find (fun n => bool_decide (prefix n = pfx)) (namespaces db), db).
Proof. reflexivity. Qed.

Lemma find_prefix_None (pfx : str) (l : list Namespace) :
  List.find (fun n => bool_decide (prefix n = pfx)) l = None <-> ~ In pfx (map prefix l).
Proof.
  induction l as [|n l IH]; cbn; [tauto|]. case_bool_decide as E.
  - split; [discriminate|]. intros H. exfalso. apply H. left. exact E.
  - rewrite IH. tauto.
Qed.

Lemma existsb_prefix (pfx : str) (l : list Namespace) :
  existsb (fun n => bool_decide (prefix n = pfx)) l = true <-> In pfx (map prefix l).
Proof.
  rewrite existsb_exists, in_map_iff. split.
  - intros (n & Hn & E). apply bool_decide_eq_true in E. eauto.
  - intros (n & E & Hn). exists n. split; [exact Hn|]. apply bool_decide_eq_true, E.
Qed.

Lemma ns_create_run (pfx uri : str) (db : Db) :
  ~ In pfx (map prefix (namespaces db)) ->
  namespaceService.create pfx uri db
  = Ok (mkNamespace pfx uri,
        mkDb (db_name db) (namespaces db ++ [mkNamespace pfx uri]) (folders db)
          (folder_seq db) (shapes db) (tables db) (useLCColumns db)).
Proof.
  intros Hn. unfold namespaceService.create, bind, get_db.
  replace (existsb _ (namespaces db)) with false; [reflexivity|].
  symmetry. apply not_true_is_false. intros H. apply existsb_prefix in H. contradiction.
Qed.

Lemma updated_prefixes (pfx uri : str) (l : list Namespace) :
  map prefix (map (fun n => if bool_decide (prefix n = pfx)
                            then mkNamespace (prefix n) uri else n) l)
  = map prefix l.
Proof.
  rewrite map_map. apply map_ext. intros n. case_bool_decide; reflexivity.
Qed.

Lemma NoDup_filter_prefixes (pfx : str) (l : list Namespace) :
  NoDup (map prefix l) ->
  NoDup (map prefix (List.filter (fun n => negb (bool_decide (prefix n = pfx))) l)).
Proof.
  induction l as [|n l IH]; intros H; [constructor|].
  cbn [map] in H. apply NoDup_cons in H as [Hn H]. cbn [List.filter].
  destruct (negb (bool_decide (prefix n = pfx))); [|apply IH, H].
  cbn [map]. apply NoDup_cons. split; [|apply IH, H].
  intros Hin. apply Hn. apply list_elem_of_In. apply list_elem_of_In in Hin.
  apply in_map_iff in Hin as (x & Hx & Hin). apply filter_In in Hin as [Hin _].
  rewrite <- Hx. apply in_map, Hin.
Qed.

(** X14. The namespace prefixes of a workspace stay pairwise
    distinct: whenever [create], [update] or [delete] of a namespace
    returns, the prefixes of the store it leaves are pairwise distinct
    again; an update keeps the list of prefixes. *)
Theorem namespace_prefixes_stay_distinct (db : Db) :
  NoDup (map prefix (namespaces db)) ->
  (forall pfx uri ns db',
      namespaceService.create pfx uri db = Ok (ns, db') ->
      NoDup (map prefix (namespaces db')))
  /\ (forall pfx uri r db',
        namespaceService_update pfx uri db = Ok (r, db') ->
        map prefix (namespaces db') = map prefix (namespaces db))
  /\ (forall pfx b db',
        namespaceService_delete pfx db = Ok (b, db') ->
        NoDup (map prefix (namespaces db'))).
Proof.
  intros Hnd. split; [|split].
  - intros pfx uri ns db' Hrun. unfold namespaceService.create, bind, get_db in Hrun.
    destruct (existsb _ (namespaces db)) eqn:E; [discriminate|].
    cbn in Hrun. injection Hrun as _ <-. cbn [namespaces]. rewrite map_app.
    apply NoDup_app. split; [exact Hnd|]. split; [|apply NoDup_singleton].
    intros k Hk Hk'. apply list_elem_of_In in Hk. apply list_elem_of_In in Hk'.
    destruct Hk' as [Hk'|[]]. cbn in Hk'. subst k.
    apply existsb_prefix in Hk. congruence.
  - intros pfx uri r db' Hrun. unfold namespaceService_update in Hrun.
    rewrite (bind_Ok _ _ _ _ _ (ns_get_run pfx db)) in Hrun.
    destruct (List.find _ (namespaces db)).
    + cbn in Hrun. injection Hrun as _ <-. cbn [namespaces]. apply updated_prefixes.
    + injection Hrun as _ <-. reflexivity.
  - intros pfx b db' Hrun. unfold namespaceService_delete in Hrun.
    rewrite (bind_Ok _ _ _ _ _ (ns_get_run pfx db)) in Hrun.
    destruct (List.find _ (namespaces db)).
    + cbn in Hrun. injection Hrun as _ <-. cbn [namespaces].
      apply NoDup_filter_prefixes, Hnd.
    + injection Hrun as _ <-. exact Hnd.
Qed.

Lemma namespace_prefixes_stay_distinct_witness :
  (forall pfx uri ns db',
      namespaceService.create pfx uri (initializeWorkspaceDb "Library") = Ok (ns, db') ->
      NoDup (map prefix (namespaces db')))
  /\ (forall pfx uri r db',
        namespaceService_update pfx uri (initializeWorkspaceDb "Library") = Ok (r, db') ->
        map prefix (namespaces db')
        = map prefix (namespaces (initializeWorkspaceDb "Library")))
  /\ (forall pfx b db',
        namespaceService_delete pfx (initializeWorkspaceDb "Library") = Ok (b, db') ->
        NoDup (map prefix (namespaces db'))).
Proof.
  apply (namespace_prefixes_stay_distinct (initializeWorkspaceDb "Library")).
  apply (bool_decide_unpack _). vm_compute. exact I.
Defined.

Lemma filter_prefix_absent (pfx : str) (l : list Namespace) :
  ~ In pfx (map prefix l) ->
  List.filter (fun n => negb (bool_decide (prefix n = pfx))) l = l.
Proof.
  induction l as [|n l IH]; intros Hn; [reflexivity|]. cbn [List.filter].
  rewrite bool_decide_eq_false_2 by (intros E; apply Hn; left; exact E). cbn [negb].
  rewrite IH; [reflexivity|]. intros H. apply Hn. right. exact H.
Qed.

Lemma map_update_absent (pfx uri : str) (l : list Namespace) :
  ~ In pfx (map prefix l) ->
  map (fun n => if bool_decide (prefix n = pfx) then mkNamespace (prefix n) uri else n) l
  = l.
Proof.
  induction l as [|n l IH]; intros Hn; [reflexivity|]. cbn [map].
  rewrite bool_decide_eq_false_2 by (intros E; apply Hn; left; exact E).
  rewrite IH; [reflexivity|]. intros H. apply Hn. right. exact H.
Qed.

(** X15. The life of a namespace. For a prefix the workspace does not
    have, [update] returns null and [delete] false, both leaving the
    store as it is; [create] stores it, [get] then finds it, [update]
    changes its URI and no other prefix's, and [delete] gives back
    the store as it was. *)
Theorem namespace_lifecycle (pfx uri uri' : str) (db : Db) :
  ~ In pfx (map prefix (namespaces db)) ->
  namespaceService_update pfx uri' db = Ok (None, db)
  /\ namespaceService_delete pfx db = Ok (false, db)
  /\ exists db1 db2,
       namespaceService.create pfx uri db = Ok (mkNamespace pfx uri, db1)
       /\ namespaceService_get pfx db1 = Ok (Some (mkNamespace pfx uri), db1)
       /\ namespaceService_update pfx uri' db1 = Ok (Some (mkNamespace pfx uri'), db2)
       /\ namespaceService_get pfx db2 = Ok (Some (mkNamespace pfx uri'), db2)
       /\ (forall q, q <> pfx ->
                     exists r, namespaceService_get q db = Ok (r, db)
                               /\ namespaceService_get q db2 = Ok (r, db2))
       /\ namespaceService_delete pfx db2 = Ok (true, db).
Proof.
  intros Hn. assert (Hf := proj2 (find_prefix_None pfx (namespaces db)) Hn).
  split; [|split].
  - unfold namespaceService_update. rewrite (bind_Ok _ _ _ _ _ (ns_get_run pfx db)), Hf.
    reflexivity.
  - unfold namespaceService_delete. rewrite (bind_Ok _ _ _ _ _ (ns_get_run pfx db)), Hf.
    reflexivity.
  - eexists _, _. split; [apply ns_create_run, Hn|].
    assert (Hf1 : List.find (fun n => bool_decide (prefix n = pfx))
                    (namespaces db ++ [mkNamespace pfx uri]) = Some (mkNamespace pfx uri)).
    { rewrite find_app_first, Hf. cbn. rewrite bool_decide_eq_true_2 by reflexivity.
      reflexivity. }
    split; [rewrite ns_get_run; cbn [namespaces]; rewrite Hf1; reflexivity|].
    split.
    { unfold namespaceService_update. rewrite (bind_Ok _ _ _ _ _ (ns_get_run pfx _)).
      cbn [namespaces]. rewrite Hf1. reflexivity. }
    cbn [namespaces db_name folders folder_seq shapes tables useLCColumns prefix].
    rewrite map_app, map_update_absent by exact Hn. cbn [map prefix].
    rewrite bool_decide_eq_true_2 by reflexivity.
    assert (Hf2 : List.find (fun n => bool_decide (prefix n = pfx))
                    (namespaces db ++ [mkNamespace pfx uri'])
                  = Some (mkNamespace pfx uri')).
    { rewrite find_app_first, Hf. cbn. rewrite bool_decide_eq_true_2 by reflexivity.
      reflexivity. }
    split; [rewrite ns_get_run; cbn [namespaces]; rewrite Hf2; reflexivity|].
    split.
    { intros q Hq. eexists. split; [apply ns_get_run|].
      rewrite ns_get_run. cbn [namespaces]. rewrite find_app_first.
      destruct (List.find (fun n => bool_decide (prefix n = q)) (namespaces db));
        [reflexivity|].
      cbn. rewrite bool_decide_eq_false_2 by congruence. reflexivity. }
    unfold namespaceService_delete. rewrite (bind_Ok _ _ _ _ _ (ns_get_run pfx _)).
    cbn [namespaces]. rewrite Hf2. cbn.
    rewrite List.filter_app, filter_prefix_absent by exact Hn.
    cbn [List.filter prefix]. rewrite bool_decide_eq_true_2 by reflexivity.
    cbn [negb]. rewrite app_nil_r. destruct db; reflexivity.
Qed.

Lemma namespace_lifecycle_witness :
  namespaceService_update "ex" "http://example.com/" library_db = Ok (None, library_db)
  /\ namespaceService_delete "ex" library_db = Ok (false, library_db)
  /\ exists db1 db2,
       namespaceService.create "ex" "http://example.org/ex/" library_db
       = Ok (mkNamespace "ex" "http://example.org/ex/", db1)
       /\ namespaceService_get "ex" db1
          = Ok (Some (mkNamespace "ex" "http://example.org/ex/"), db1)
       /\ namespaceService_update "ex" "http://example.com/" db1
          = Ok (Some (mkNamespace "ex" "http://example.com/"), db2)
       /\ namespaceService_get "ex" db2
          = Ok (Some (mkNamespace "ex" "http://example.com/"), db2)
       /\ (forall q, q <> lit "ex" ->
                     exists r, namespaceService_get q library_db = Ok (r, library_db)
                               /\ namespaceService_get q db2 = Ok (r, db2))
       /\ namespaceService_delete "ex" db2 = Ok (true, library_db).
Proof.
  apply (namespace_lifecycle "ex" "http://example.org/ex/" "http://example.com/" library_db).
  vm_compute. intuition discriminate.
Defined.

End NamespaceFacts.

(** ** Starting points: folder, import counts, empty export *)

Section StartingPointFacts.

Lemma folder_list_run (db : Db) :
  folderService.list db
  = Ok (sort_by (fun a b => Str.leb (folder_name a) (folder_name b)) (folders db), db).
Proof. reflexivity. Qed.

(** X18. [getOrCreateStartingPointFolder] is idempotent: a second
    call returns the same folder id and changes nothing, the first
    adds at most the one folder named [Starting Points], and
    [isInStartingPointFolder] recognises the id it returns. *)
Theorem startingPointFolder_idempotent (db : Db) :
  NoDup (map folder_id (folders db)) ->
  Forall (fun f => folder_id f <= folder_seq db) (folders db) ->
  exists fid db1,
    StartingPoint.getOrCreateStartingPointFolder db = Ok (fid, db1)
    /\ StartingPoint.getOrCreateStartingPointFolder db1 = Ok (fid, db1)
    /\ StartingPoint.isInStartingPointFolder (Some fid) db1 = Ok (true, db1)
    /\ (folders db1 = folders db
        \/ folders db1
           = folders db ++ [mkFolder fid StartingPoint.STARTING_POINT_FOLDER_NAME])
    /\ shapes db1 = shapes db /\ tables db1 = tables db.
Proof.
  intros Hnd Hseq.
  set (byName := fun f : Folder =>
                   bool_decide (folder_name f = StartingPoint.STARTING_POINT_FOLDER_NAME)).
  set (le := fun a b : Folder => Str.leb (folder_name a) (folder_name b)).
  assert (Hrun : forall d,
             StartingPoint.getOrCreateStartingPointFolder d
             = match List.find byName (sort_by le (folders d)) with
               | Some f => Ok (folder_id f, d)
               | None =>
                   Ok (S (folder_seq d),
                       mkDb (db_name d) (namespaces d)
                         (folders d
                          ++ [mkFolder (S (folder_seq d))
                                StartingPoint.STARTING_POINT_FOLDER_NAME])
                         (S (folder_seq d)) (shapes d) (tables d) (useLCColumns d))
               end).
  { intros d. unfold StartingPoint.getOrCreateStartingPointFolder.
    rewrite (bind_Ok _ _ _ _ _ (folder_list_run d)). fold byName le.
    destruct (List.find byName (sort_by le (folders d))); reflexivity. }
  assert (Hin : forall d fid,
             (forall f g, In f (folders d) -> In g (folders d) ->
                          folder_id f = folder_id g -> f = g) ->
             In (mkFolder fid StartingPoint.STARTING_POINT_FOLDER_NAME) (folders d)
             \/ (exists f, In f (folders d) /\ folder_id f = fid /\ byName f = true) ->
             StartingPoint.isInStartingPointFolder (Some fid) d = Ok (true, d)).
  { intros d fid Hinj Hf.
    assert (Hf' : exists f, In f (folders d) /\ folder_id f = fid /\ byName f = true).
    { destruct Hf as [Hf|Hf]; [|exact Hf]. eexists. split; [exact Hf|].
      split; [reflexivity|]. apply bool_decide_eq_true_2. reflexivity. }
    destruct Hf' as (f & Hfin & Hfid & Hname).
    unfold StartingPoint.isInStartingPointFolder.
    rewrite (bind_Ok _ _ _ _ _ (folder_list_run d)). fold le.
    pose proof (find_sorted le (fun g => Nat.eqb (folder_id g) fid) (folders d)) as Hfind.
    destruct (List.find _ (sort_by le (folders d))) as [g|].
    - destruct Hfind as [Hg Hgid]. apply Nat.eqb_eq in Hgid.
      assert (g = f) by (apply Hinj; [exact Hg|exact Hfin|congruence]). subst g.
      unfold byName in Hname. unfold ret. rewrite Hname. reflexivity.
    - specialize (Hfind f Hfin). apply Nat.eqb_neq in Hfind. contradiction. }
  assert (Hinj : forall f g, In f (folders db) -> In g (folders db) ->
                             folder_id f = folder_id g -> f = g)
    by (apply NoDup_map_inj, Hnd).
  rewrite Hrun.
  pose proof (find_sorted le byName (folders db)) as Hfind.
  destruct (List.find byName (sort_by le (folders db))) as [f|] eqn:Ef.
  - exists (folder_id f), db. split; [reflexivity|].
    split; [rewrite Hrun, Ef; reflexivity|].
    split; [|auto].
    apply Hin; [exact Hinj|]. right. exists f. destruct Hfind. auto.
  - eexists _, _. split; [reflexivity|].
    set (new := mkFolder (S (folder_seq db)) StartingPoint.STARTING_POINT_FOLDER_NAME).
    assert (Hnew : forall g, In g (folders db ++ [new]) -> byName g = true -> g = new).
    { intros g Hg Hp. apply in_app_iff in Hg as [Hg|[Hg|[]]]; [|auto].
      rewrite (Hfind g Hg) in Hp. discriminate. }
    split.
    { rewrite Hrun. cbn [folders folder_seq db_name namespaces shapes tables useLCColumns].
      pose proof (find_sorted le byName (folders db ++ [new])) as Hfind'.
      destruct (List.find byName (sort_by le (folders db ++ [new]))) as [g|].
      - destruct Hfind' as [Hg Hp]. rewrite (Hnew g Hg Hp). reflexivity.
      - assert (H : byName new = false)
          by (apply Hfind', in_app_iff; right; left; reflexivity).
        discriminate H. }
    split; [|cbn; auto].
    apply Hin.
    + cbn [folders]. intros a b Ha Hb Hab.
      rewrite Forall_forall in Hseq.
      apply in_app_iff in Ha as [Ha|[<-|[]]]; apply in_app_iff in Hb as [Hb|[<-|[]]].
      * apply Hinj; assumption.
      * apply list_elem_of_In, Hseq in Ha. cbn in Hab. lia.
      * apply list_elem_of_In, Hseq in Hb. cbn in Hab. lia.
      * reflexivity.
    + left. cbn [folders]. apply in_app_iff. right. left. reflexivity.
Qed.

Lemma startingPointFolder_idempotent_witness :
  exists fid db1,
    StartingPoint.getOrCreateStartingPointFolder library_db = Ok (fid, db1)
    /\ StartingPoint.getOrCreateStartingPointFolder db1 = Ok (fid, db1)
    /\ StartingPoint.isInStartingPointFolder (Some fid) db1 = Ok (true, db1)
    /\ (folders db1 = folders library_db
        \/ folders db1
           = folders library_db
             ++ [mkFolder fid StartingPoint.STARTING_POINT_FOLDER_NAME])
    /\ shapes db1 = shapes library_db /\ tables db1 = tables library_db.
Proof.
  apply (startingPointFolder_idempotent library_db).
  - constructor.
  - constructor.
Defined.

Lemma row_create_folders (id : str) (d : Req.t) (db db' : Db) (r : StatementRow) :
  rowService.create id d db = Ok (r, db') ->
  folders db' = folders db /\ shapes db' = shapes db.
Proof.
  unfold rowService.create, bind, get_db. destruct (tables db !! tableName id); [|discriminate].
  cbn. intros H. injection H as _ <-. auto.
Qed.

Lemma importItems_folders (id : str) (items : list StartingPoint.StartingPointMenuItem)
    (n c c' : nat) (db db' : Db) :
  StartingPoint.importItems id items n c db = Ok (c', db') -> folders db' = folders db.
Proof.
  revert n c db. induction items as [|i items IH]; intros n c db H.
  - injection H as _ <-. reflexivity.
  - cbn [StartingPoint.importItems] in H.
    apply bind_Ok_inv in H as (r & db1 & Hc & H).
    apply row_create_folders in Hc as [Hc _]. apply IH in H. congruence.
Qed.

Lemma importIndexRows_folders (entries : list (str * str)) (n c c' : nat) (db db' : Db) :
  StartingPoint.importIndexRows entries n c db = Ok (c', db') ->
  folders db' = folders db /\ shapes db' = shapes db.
Proof.
  revert n c db. induction entries as [|e entries IH]; intros n c db H.
  - injection H as _ <-. auto.
  - cbn [StartingPoint.importIndexRows] in H.
    apply bind_Ok_inv in H as (r & db1 & Hc & H).
    apply row_create_folders in Hc as [Hc Hc']. apply IH in H as [H H']. split; congruence.
Qed.

(** Replacing a shape: delete it when it exists, then create it. *)
Lemma replace_shape_run (id : str) (label : option str) (folder : option nat) (db : Db) :
  exists b db0,
    (match List.find (fun s => bool_decide (shapeId s = id)) (shapes db) with
     | Some _ => shapeService.delete id
     | None => ret false
     end) db = Ok (b, db0)
    /\ folders db0 = folders db
    /\ exists rows0,
         let sh := mkShape id (or_null label) (or_null None) (or_null None) folder in
         shapeService.create id label None folder None db0 = Ok (sh, with_shape sh db0)
         /\ tables (with_shape sh db0) !! tableName id = Some rows0
         /\ folders (with_shape sh db0) = folders db
         /\ shapes (with_shape sh db0) = shapes db0 ++ [sh].
Proof.
  assert (H : exists b db0,
             (match List.find (fun s => bool_decide (shapeId s = id)) (shapes db) with
              | Some _ => shapeService.delete id
              | None => ret false
              end) db = Ok (b, db0)
             /\ folders db0 = folders db /\ ~ In id (shapeIds db0)).
  { destruct (List.find _ (shapes db)) as [e|] eqn:E.
    - exists true, (without_shape id db). split; [|split; [reflexivity|]].
      + apply shape_delete_run. apply find_some in E as [He E'].
        apply bool_decide_eq_true in E'. rewrite <- E'. apply in_map, He.
      + apply without_shape_ids.
    - exists false, db. split; [reflexivity|]. split; [reflexivity|].
      apply find_shape_None, E. }
  destruct H as (b & db0 & Hrun & Hf & Hn). exists b, db0. split; [exact Hrun|].
  split; [exact Hf|].
  pose (sh := mkShape id (or_null label) (or_null None) (or_null None) folder).
  destruct (with_shape_has_table sh db0) as [rows0 Hrows0]. exists rows0. cbv zeta.
  split; [apply shape_create_run, Hn|]. split; [exact Hrows0|]. split; [exact Hf|].
  reflexivity.
Qed.

Lemma importGroup_total (folder : nat) (st : StartingPoint.ImportState)
    (g : StartingPoint.StartingPointMenuGroup) (db : Db) :
  exists st' db',
    StartingPoint.importGroup folder st g db = Ok (st', db')
    /\ StartingPoint.st_shapes st' = S (StartingPoint.st_shapes st)
    /\ StartingPoint.st_rows st'
       = StartingPoint.st_rows st + length (StartingPoint.menuItems g)
    /\ length (StartingPoint.createdShapeIds st')
       = S (length (StartingPoint.createdShapeIds st))
    /\ folders db' = folders db.
Proof.
  unfold StartingPoint.importGroup. cbv zeta.
  rewrite (bind_Ok _ _ _ _ _ (shape_get_run _ db)).
  destruct (replace_shape_run (StartingPoint.groupShapeId g)
              (Some (StartingPoint.menuGroup g)) (Some folder) db)
    as (b & db0 & Hdel & Hf0 & rows0 & Hcreate & Hrows0 & Hf1 & _).
  rewrite (bind_Ok _ _ _ _ _ Hdel). cbv zeta in Hcreate.
  rewrite (bind_Ok _ _ _ _ _ Hcreate).
  destruct (importItems_run (StartingPoint.groupShapeId g) (StartingPoint.menuItems g) 0
              (StartingPoint.st_rows st) _ _ Hrows0) as (db' & Hrun & _).
  rewrite (bind_Ok _ _ _ _ _ Hrun). unfold ret. eexists _, db'. split; [reflexivity|].
  cbn [StartingPoint.st_shapes StartingPoint.st_rows StartingPoint.createdShapeIds].
  split; [reflexivity|]. split; [reflexivity|].
  split; [rewrite length_app; cbn; lia|].
  apply importItems_folders in Hrun. congruence.
Qed.

Lemma importGroups_total (folder : nat) (groups : list StartingPoint.StartingPointMenuGroup)
    (st : StartingPoint.ImportState) (db : Db) :
  exists st' db',
    foldM (StartingPoint.importGroup folder) groups st db = Ok (st', db')
    /\ StartingPoint.st_shapes st' = StartingPoint.st_shapes st + length groups
    /\ StartingPoint.st_rows st'
       = StartingPoint.st_rows st
         + list_sum (map (fun g => length (StartingPoint.menuItems g)) groups)
    /\ length (StartingPoint.createdShapeIds st')
       = length (StartingPoint.createdShapeIds st) + length groups
    /\ folders db' = folders db.
Proof.
  revert st db. induction groups as [|g groups IH]; intros st db.
  - exists st, db. cbn. split; [reflexivity|]. repeat split; lia.
  - destruct (importGroup_total folder st g db) as (st1 & db1 & H1 & Hs1 & Hr1 & Hc1 & Hf1).
    destruct (IH st1 db1) as (st' & db' & H & Hs & Hr & Hc & Hf).
    exists st', db'. cbn [foldM]. rewrite (bind_Ok _ _ _ _ _ H1).
    split; [exact H|]. simpl. repeat split; try lia. congruence.
Qed.

(** X16. A starting-point import cannot fail once the file has a
    [startingPoints] config with a menu group, whatever the workspace
    holds: it reports one shape per group plus the index, one row per
    menu item plus one index row per group, and the id of a folder
    named [Starting Points] that the workspace then has; afterwards
    [hasStartingPoints] is true. *)
Theorem importStartingPoints_counts (data : StartingPoint.StartingPointFile) (db : Db) :
  groupsOf data <> [] ->
  exists r db',
    StartingPoint.importStartingPoints data db = Ok (r, db')
    /\ StartingPoint.shapesCreated r = S (length (groupsOf data))
    /\ StartingPoint.rowsCreated r
       = list_sum (map (fun g => length (StartingPoint.menuItems g)) (groupsOf data))
         + length (groupsOf data)
    /\ In (mkFolder (StartingPoint.result_folderId r)
             StartingPoint.STARTING_POINT_FOLDER_NAME) (folders db')
    /\ In StartingPoint.STARTING_POINT_INDEX_ID (shapeIds db')
    /\ StartingPoint.hasStartingPoints db' = Ok (true, db').
Proof.
  intros Hne. unfold StartingPoint.importStartingPoints. unfold groupsOf in *.
  destruct (List.find _ data) as [config|]; [|congruence].
  cbv zeta. set (groups := StartingPoint.json config) in *.
  rewrite (match_nonempty groups _ _ Hne).
  assert (Hfolder : exists fid db1,
             StartingPoint.getOrCreateStartingPointFolder db = Ok (fid, db1)
             /\ In (mkFolder fid StartingPoint.STARTING_POINT_FOLDER_NAME) (folders db1)).
  { unfold StartingPoint.getOrCreateStartingPointFolder.
    rewrite (bind_Ok _ _ _ _ _ (folder_list_run db)).
    pose proof (find_sorted (fun a b => Str.leb (folder_name a) (folder_name b))
                  (fun f => bool_decide
                              (folder_name f = StartingPoint.STARTING_POINT_FOLDER_NAME))
                  (folders db)) as Hfind.
    destruct (List.find _ (sort_by _ (folders db))) as [f|].
    - exists (folder_id f), db. split; [reflexivity|]. destruct Hfind as [Hin Hname].
      apply bool_decide_eq_true in Hname. rewrite <- Hname. destruct f. exact Hin.
    - eexists _, _. split; [reflexivity|]. cbn [folders folder_id].
      apply in_app_iff. right. left. reflexivity. }
  destruct Hfolder as (fid & db1 & Hfolder & Hfin).
  rewrite (bind_Ok _ _ _ _ _ Hfolder).
  destruct (importGroups_total fid groups (StartingPoint.mkState 0 0 []) db1)
    as (st & db2 & Hrun & Hs & Hr & Hc & Hf2).
  rewrite (bind_Ok _ _ _ _ _ Hrun).
  rewrite (bind_Ok _ _ _ _ _ (shape_get_run _ db2)).
  destruct (replace_shape_run StartingPoint.STARTING_POINT_INDEX_ID
              (Some (lit "Starting Point Index")) (Some fid) db2)
    as (b & db3 & Hdel & Hf3 & rows0 & Hcreate & Hrows0 & Hf4 & Hsh4).
  rewrite (bind_Ok _ _ _ _ _ Hdel). cbv zeta in Hcreate.
  rewrite (bind_Ok _ _ _ _ _ Hcreate).
  destruct (importIndexRows_run (StartingPoint.createdShapeIds st) 0
              (StartingPoint.st_rows st) _ _ Hrows0) as (db' & Hidx & Hshapes & _).
  rewrite (bind_Ok _ _ _ _ _ Hidx). unfold ret. eexists _, db'. split; [reflexivity|].
  cbn [StartingPoint.shapesCreated StartingPoint.rowsCreated StartingPoint.result_folderId].
  cbn in Hs, Hr, Hc.
  split; [rewrite Hs; reflexivity|]. split; [rewrite Hr, Hc; reflexivity|].
  apply importIndexRows_folders in Hidx as [Hf5 _].
  split; [rewrite Hf5, Hf4, Hf2; exact Hfin|].
  assert (Hin : In StartingPoint.STARTING_POINT_INDEX_ID (shapeIds db')).
  { unfold shapeIds. rewrite Hshapes, Hsh4, map_app, in_app_iff. right. left. reflexivity. }
  split; [exact Hin|].
  unfold StartingPoint.hasStartingPoints.
  rewrite (bind_Ok _ _ _ _ _ (shape_list_run db')). unfold ret. f_equal. f_equal.
  apply existsb_exists. unfold shapeIds in Hin. apply in_map_iff in Hin as (s & Hid & Hs').
  exists s. split; [apply listedShapes_In, Hs'|]. rewrite Hid. reflexivity.
Qed.

Lemma importStartingPoints_counts_witness :
  exists r db',
    StartingPoint.importStartingPoints monograph_serial_file library_db = Ok (r, db')
    /\ StartingPoint.shapesCreated r = S (length (groupsOf monograph_serial_file))
    /\ StartingPoint.rowsCreated r
       = list_sum (map (fun g => length (StartingPoint.menuItems g))
                     (groupsOf monograph_serial_file))
         + length (groupsOf monograph_serial_file)
    /\ In (mkFolder (StartingPoint.result_folderId r)
             StartingPoint.STARTING_POINT_FOLDER_NAME) (folders db')
    /\ In StartingPoint.STARTING_POINT_INDEX_ID (shapeIds db')
    /\ StartingPoint.hasStartingPoints db' = Ok (true, db').
Proof.
  apply (importStartingPoints_counts monograph_serial_file library_db).
  vm_compute. discriminate.
Defined.

Lemma groupOf_nil (db : Db) (s : Shape) :
  groupOf db s = []
  <-> forall r, In r (listedRows db (shapeId s)) -> StartingPoint.is_hasPart r = false.
Proof.
  unfold groupOf.
  destruct (List.filter StartingPoint.is_hasPart (listedRows db (shapeId s)))
    as [|r0 rest] eqn:E.
  - cbn. split; [|reflexivity]. intros _ r Hr.
    destruct (StartingPoint.is_hasPart r) eqn:Ep; [|reflexivity].
    assert (H : In r []) by (rewrite <- E; apply filter_In; auto). destruct H.
  - cbn. split; [discriminate|]. intros H. exfalso.
    assert (Hin : In r0 (List.filter StartingPoint.is_hasPart (listedRows db (shapeId s))))
      by (rewrite E; left; reflexivity).
    apply filter_In in Hin as [Hin Hp]. rewrite (H r0 Hin) in Hp. discriminate.
Qed.

Lemma flat_map_nil {A B : Type} (f : A -> list B) (l : list A) :
  flat_map f l = [] <-> forall x, In x l -> f x = [].
Proof.
  induction l as [|a l IH]; cbn; [tauto|]. split.
  - intros H. apply app_eq_nil in H as [Ha Hl]. intros x [<-|Hx]; [exact Ha|].
    apply IH; assumption.
  - intros H. rewrite (H a (or_introl eq_refl)). cbn. apply IH. intros x Hx. apply H.
    right. exact Hx.
Qed.

Lemma startingPointShapesOf_In (db : Db) (s : Shape) :
  In s (startingPointShapesOf db)
  <-> In s (shapes db)
      /\ StartingPoint.isStartingPointShape (shapeId s) = true
      /\ shapeId s <> StartingPoint.STARTING_POINT_INDEX_ID.
Proof.
  split; [apply startingPointShapesOf_spec|]. intros (Hin & Hsp & Hidx).
  unfold startingPointShapesOf. apply filter_In. split; [apply listedShapes_In, Hin|].
  rewrite Hsp. cbn. apply negb_true_iff, bool_decide_eq_false, Hidx.
Qed.

(** X17. In a store where every shape has its row table, the
    starting-point export returns null exactly when no starting-point
    shape other than the index has a [dcterms:hasPart] row; it does so
    in particular whenever [hasStartingPoints] is false. *)
Theorem exportStartingPoints_null (uuid : str) (db : Db) :
  tables_exist db ->
  (StartingPoint.exportStartingPoints uuid db = Ok (None, db)
   <-> forall s r,
         In s (shapes db) ->
         StartingPoint.isStartingPointShape (shapeId s) = true ->
         shapeId s <> StartingPoint.STARTING_POINT_INDEX_ID ->
         In r (listedRows db (shapeId s)) -> StartingPoint.is_hasPart r = false)
  /\ (StartingPoint.hasStartingPoints db = Ok (false, db) ->
      StartingPoint.exportStartingPoints uuid db = Ok (None, db)).
Proof.
  intros Ht.
  assert (Hiff : StartingPoint.exportStartingPoints uuid db = Ok (None, db)
                 <-> forall s r,
                       In s (shapes db) ->
                       StartingPoint.isStartingPointShape (shapeId s) = true ->
                       shapeId s <> StartingPoint.STARTING_POINT_INDEX_ID ->
                       In r (listedRows db (shapeId s)) ->
                       StartingPoint.is_hasPart r = false).
  { rewrite (exportStartingPoints_run uuid db Ht).
    set (sps := startingPointShapesOf db). set (refs := indexReferences db).
    assert (Hmem : forall s, In s (StartingPoint.orderShapes sps refs) -> In s sps).
    { intros s Hin. unfold StartingPoint.orderShapes in Hin.
      apply in_app_iff in Hin as [Hin|Hin].
      - apply list_elem_of_In, list_elem_of_omap in Hin as (id & _ & Hl).
        pose proof (shapeMapOf_lookup sps id) as H. rewrite Hl in H. apply H.
      - apply filter_In in Hin. apply Hin. }
    assert (Hcov : forall s, In s sps ->
               exists s', In s' (StartingPoint.orderShapes sps refs)
                          /\ shapeId s' = shapeId s).
    { intros s Hs. unfold StartingPoint.orderShapes.
      destruct (inb (shapeId s) refs) eqn:Ei.
      - pose proof (shapeMapOf_lookup sps (shapeId s)) as H.
        destruct (StartingPoint.shapeMapOf sps !! shapeId s) as [s'|] eqn:El.
        + exists s'. split; [|apply H]. apply in_app_iff. left.
          apply list_elem_of_In, list_elem_of_omap. exists (shapeId s).
          split; [|exact El]. apply list_elem_of_In.
          apply not_false_iff_true in Ei. rewrite inb_false in Ei.
          destruct (List.in_dec (List.list_eq_dec ascii_dec) (shapeId s) refs);
            [assumption|contradiction].
        + apply inb_false in H. exfalso. apply H, in_map, Hs.
      - exists s. split; [|reflexivity]. apply in_app_iff. right. apply filter_In.
        split; [exact Hs|]. rewrite Ei. reflexivity. }
    assert (Hnone : (match sps with
                     | [] => None
                     | _ :: _ =>
                         exportedFile uuid
                           (flat_map (groupOf db) (StartingPoint.orderShapes sps refs))
                     end = None)
                    <-> forall s, In s sps -> groupOf db s = []).
    { split.
      - intros H s Hs. destruct sps as [|s0 sps'] eqn:E; [destruct Hs|]. rewrite <- E in *.
        assert (Hnil : flat_map (groupOf db) (StartingPoint.orderShapes sps refs) = []).
        { destruct (flat_map _ _); [reflexivity|discriminate H]. }
        destruct (Hcov s Hs) as (s' & Hs' & Hid).
        pose proof (proj1 (flat_map_nil _ _) Hnil s' Hs') as Hg.
        apply groupOf_nil. rewrite <- Hid. apply groupOf_nil, Hg.
      - intros H. destruct sps as [|s0 sps'] eqn:E; [reflexivity|]. rewrite <- E in *.
        replace (flat_map (groupOf db) (StartingPoint.orderShapes sps refs)) with
          (@nil StartingPoint.StartingPointMenuGroup); [reflexivity|].
        symmetry. apply flat_map_nil. intros s Hs. apply H, Hmem, Hs. }
    split.
    - intros H s r Hs Hsp Hidx Hr. injection H as H.
      pose proof (proj1 Hnone H) as H'.
      assert (Hin : In s sps) by (apply startingPointShapesOf_In; auto).
      exact (proj1 (groupOf_nil db s) (H' s Hin) r Hr).
    - intros H. f_equal. f_equal. apply (proj2 Hnone). intros s Hs.
      apply startingPointShapesOf_In in Hs as (Hin & Hsp & Hidx).
      apply groupOf_nil. intros r Hr. exact (H s r Hin Hsp Hidx Hr). }
  split; [exact Hiff|].
  intros Hhas. apply Hiff. intros s r Hs Hsp _ _. exfalso.
  unfold StartingPoint.hasStartingPoints in Hhas.
  rewrite (bind_Ok _ _ _ _ _ (shape_list_run db)) in Hhas. unfold ret in Hhas.
  injection Hhas as Hhas. apply not_true_iff_false in Hhas. apply Hhas.
  apply existsb_exists. exists s. split; [apply listedShapes_In, Hs|exact Hsp].
Qed.

Lemma exportStartingPoints_null_witness :
  (StartingPoint.exportStartingPoints "config-1" library_db = Ok (None, library_db)
   <-> forall s r,
         In s (shapes library_db) ->
         StartingPoint.isStartingPointShape (shapeId s) = true ->
         shapeId s <> StartingPoint.STARTING_POINT_INDEX_ID ->
         In r (listedRows library_db (shapeId s)) -> StartingPoint.is_hasPart r = false)
  /\ (StartingPoint.hasStartingPoints library_db = Ok (false, library_db) ->
      StartingPoint.exportStartingPoints "config-1" library_db = Ok (None, library_db)).
Proof.
  apply (exportStartingPoints_null "config-1" library_db).
  intros s [<-|[<-|[]]]; vm_compute; eauto.
Defined.

End StartingPointFacts.

(** ** Strings: splitting, joining, trimming *)

Section StringFacts.

Lemma split_app (p : ascii -> bool) (h : str) (c : ascii) (rest : str) :
  existsb p h = false -> p c = true ->
  Str.split p (h ++ c :: rest) = h :: Str.split p rest.
Proof.
  induction h as [|a h IH]; intros Hh Hc.
  - cbn [app Str.split]. rewrite Hc. reflexivity.
  - cbn [existsb] in Hh. apply orb_false_iff in Hh as [Ha Hh].
    cbn [app Str.split]. rewrite Ha, (IH Hh Hc). reflexivity.
Qed.

Lemma split_plain (p : ascii -> bool) (h : str) :
  existsb p h = false -> Str.split p h = [h].
Proof.
  induction h as [|a h IH]; intros Hh; [reflexivity|].
  cbn [existsb] in Hh. apply orb_false_iff in Hh as [Ha Hh].
  cbn [Str.split]. rewrite Ha, (IH Hh). reflexivity.
Qed.

Lemma split_join (p : ascii -> bool) (d : ascii) (cells : list str) :
  p d = true -> cells <> [] -> Forall (fun c => existsb p c = false) cells ->
  Str.split p (Str.join [d] cells) = cells.
Proof.
  intros Hd Hne Hall. revert Hne.
  induction Hall as [|c cells Hc Hall IH]; intros Hne; [exfalso; apply Hne; reflexivity|].
  destruct cells as [|c' cells].
  - cbn [Str.join]. apply split_plain, Hc.
  - change (Str.join [d] (c :: c' :: cells)) with (c ++ d :: Str.join [d] (c' :: cells)).
    rewrite split_app by assumption. rewrite IH by discriminate. reflexivity.
Qed.

Lemma split_pieces (p : ascii -> bool) (s : str) :
  Forall (fun c => existsb p c = false) (Str.split p s).
Proof.
  induction s as [|a s IH]; [repeat constructor|]. cbn [Str.split].
  destruct (p a) eqn:Ea; [constructor; [reflexivity|exact IH]|].
  destruct (Str.split p s) as [|h t]; [repeat constructor; cbn; rewrite Ea; reflexivity|].
  inversion IH as [|? ? Hh Ht]; subst. constructor; [|exact Ht].
  cbn [existsb]. rewrite Ea. exact Hh.
Qed.

Lemma split_sub (p : ascii -> bool) (s piece : str) (c : ascii) :
  In piece (Str.split p s) -> In c piece -> In c s.
Proof.
  revert piece. induction s as [|a s IH]; intros piece Hp Hc.
  - destruct Hp as [<-|[]]. destruct Hc.
  - cbn [Str.split] in Hp. destruct (p a).
    + destruct Hp as [<-|Hp]; [destruct Hc|]. right. eapply IH; eassumption.
    + destruct (Str.split p s) as [|h t].
      * destruct Hp as [<-|[]]. destruct Hc as [<-|[]]. left. reflexivity.
      * destruct Hp as [<-|Hp].
        -- destruct Hc as [<-|Hc]; [left; reflexivity|]. right.
           apply (IH h); [left; reflexivity|exact Hc].
        -- right. apply (IH piece); [right; exact Hp|exact Hc].
Qed.

Lemma trimStart_sub (s : str) (c : ascii) : In c (Str.trimStart s) -> In c s.
Proof.
  induction s as [|a s IH]; [intros []|]. cbn [Str.trimStart].
  destruct (Str.is_ws a); [|auto]. intros H. right. apply IH, H.
Qed.

Lemma trim_sub (s : str) (c : ascii) : In c (Str.trim s) -> In c s.
Proof.
  unfold Str.trim, Str.trimEnd. intros H. apply in_rev in H. apply trimStart_sub in H.
  apply in_rev in H. apply trimStart_sub, H.
Qed.

Lemma trimStart_id (s : str) :
  (forall c, head s = Some c -> Str.is_ws c = false) -> Str.trimStart s = s.
Proof.
  destruct s as [|a s]; [reflexivity|]. intros H. cbn [Str.trimStart].
  rewrite (H a eq_refl). reflexivity.
Qed.

Lemma trimStart_last (s : str) (c : ascii) :
  last (Str.trimStart s) = Some c -> last s = Some c.
Proof.
  induction s as [|a s IH]; [discriminate|]. cbn [Str.trimStart].
  destruct (Str.is_ws a); [|auto]. intros H. apply IH in H.
  destruct s; [discriminate|exact H].
Qed.

Lemma head_rev (s : str) : head (rev s) = last s.
Proof. rewrite <- (rev_involutive s) at 2. rewrite last_rev. reflexivity. Qed.

Lemma trim_idem (s : str) : Str.trim (Str.trim s) = Str.trim s.
Proof.
  assert (Hhead : forall c, head (Str.trim s) = Some c -> Str.is_ws c = false).
  { intros c. unfold Str.trim, Str.trimEnd. rewrite head_rev. intros H.
    apply trimStart_last in H. rewrite last_rev in H. apply trimStart_head in H. exact H. }
  assert (Hlast : forall c, last (Str.trim s) = Some c -> Str.is_ws c = false)
    by (intros c; apply trim_last).
  unfold Str.trim at 1. rewrite (trimStart_id _ Hhead). unfold Str.trimEnd.
  rewrite trimStart_id; [apply rev_involutive|].
  intros c. rewrite head_rev. apply Hlast.
Qed.

Lemma splitNewlines_join (l : list str) :
  Forall (fun x => x <> [] /\ Str.trim x = x /\ ~ In Str.nl x) l ->
  Marva.splitNewlines (Str.join [Str.nl] l) = l.
Proof.
  intros Hl. destruct l as [|x l'] eqn:E; [reflexivity|]. rewrite <- E in *.
  unfold Marva.splitNewlines. rewrite split_join.
  - assert (Hl' : Forall (fun x => x <> [] /\ Str.trim x = x /\ ~ In Str.nl x) l)
      by exact Hl.
    clear E. induction Hl' as [|y l0 (Hne & Ht & _) _ IH]; [reflexivity|].
    cbn [map List.filter]. rewrite Ht. destruct y; [congruence|]. cbn [Str.nonempty].
    f_equal. apply IH. inversion Hl; assumption.
  - reflexivity.
  - rewrite E. discriminate.
  - eapply Forall_impl; [exact Hl|]. cbn. intros y (_ & _ & Hnl).
    apply not_true_is_false. intros H. apply Hnl. apply existsb_exists in H as (c & Hc & E').
    unfold Str.is_char in E'. apply Ascii.eqb_eq in E'. subst c. exact Hc.
Qed.

Lemma flattenCommas_tidy (l : list str) :
  Forall (fun x => ~ In Str.nl x) l ->
  Forall (fun x => x <> [] /\ Str.trim x = x /\ ~ In Str.nl x) (Marva.flattenCommas l).
Proof.
  intros Hl. apply Forall_forall. intros y Hy. apply list_elem_of_In in Hy.
  unfold Marva.flattenCommas in Hy. apply in_flat_map in Hy as (x & Hx & Hy).
  apply filter_In in Hy as [Hy Hne]. apply in_map_iff in Hy as (piece & <- & Hpiece).
  split; [destruct (Str.trim piece); [discriminate|discriminate]|].
  split; [apply trim_idem|].
  intros Hnl. apply trim_sub in Hnl. apply (split_sub _ _ _ _ Hpiece) in Hnl.
  rewrite Forall_forall in Hl. apply (Hl x); [apply list_elem_of_In, Hx|exact Hnl].
Qed.

Lemma join_nonempty (d : str) (l : list str) :
  l <> [] -> Forall (fun x => x <> []) l -> Str.join d l <> [].
Proof.
  intros Hne Hl. destruct Hl as [|x l Hx Hl]; [exfalso; apply Hne; reflexivity|].
  destruct x as [|a x]; [exfalso; apply Hx; reflexivity|].
  destruct l; cbn [Str.join app]; discriminate.
Qed.

End StringFacts.

(** ** Marva profiles: folders and property types *)

Section MarvaFacts.

Lemma extractFolderName_some (id folder : str) :
  Marva.extractFolderName id = Some folder ->
  ~ In Str.colon folder
  /\ exists type group more,
       Str.split (Str.is_char Str.colon) id = lit "lc" :: type :: group :: more
       /\ type <> [] /\ group <> [] /\ length group <= 20
       /\ (folder = type ++ lit "_" ++ group
           \/ exists fourth rest,
                more = fourth :: rest /\ type = lit "RT" /\ fourth <> []
                /\ length fourth <= 30
                /\ folder = type ++ lit "_" ++ group ++ lit "_" ++ fourth).
Proof.
  unfold Marva.extractFolderName.
  pose proof (split_pieces (Str.is_char Str.colon) id) as Hp.
  destruct (Str.split (Str.is_char Str.colon) id) as [|root [|type [|group more]]];
    try discriminate.
  inversion Hp as [|? ? _ Hp1]; subst. inversion Hp1 as [|? ? Ht Hp2]; subst.
  inversion Hp2 as [|? ? Hg Hp3]; subst.
  assert (Hno : forall s, existsb (Str.is_char Str.colon) s = false -> ~ In Str.colon s).
  { intros s Hs Hin. apply not_true_iff_false in Hs. apply Hs. apply existsb_exists.
    exists Str.colon. split; [exact Hin|reflexivity]. }
  assert (Hglue : forall a b, ~ In Str.colon a -> ~ In Str.colon b ->
                              ~ In Str.colon (a ++ lit "_" ++ b)).
  { intros a b Ha Hb H. apply in_app_iff in H as [H|H]; [exact (Ha H)|].
    destruct H as [H|H]; [discriminate H|exact (Hb H)]. }
  assert (Htwo : ~ In Str.colon (type ++ lit "_" ++ group))
    by (apply Hglue; apply Hno; assumption).
  destruct (bool_decide (root = lit "lc") && Str.nonempty type && Marva.short_tag 20 group)
    eqn:E; [|discriminate].
  apply andb_true_iff in E as [E Hshort]. apply andb_true_iff in E as [Hroot Htype].
  apply bool_decide_eq_true in Hroot. subst root.
  unfold Marva.short_tag in Hshort. apply andb_true_iff in Hshort as [Hshort _].
  apply andb_true_iff in Hshort as [Hgne Hglen]. apply Nat.leb_le in Hglen.
  assert (Hbase : type <> [] /\ group <> [] /\ length group <= 20).
  { split; [destruct type; [discriminate|discriminate]|].
    split; [destruct group; [discriminate|discriminate]|exact Hglen]. }
  destruct more as [|fourth rest].
  - intros [= <-]. split; [exact Htwo|]. exists type, group, []. split; [reflexivity|].
    destruct Hbase as (? & ? & ?). auto.
  - destruct (bool_decide (type = lit "RT") && Marva.short_tag 30 fourth) eqn:E4.
    + intros [= <-]. apply andb_true_iff in E4 as [Hrt H4].
      apply bool_decide_eq_true in Hrt.
      unfold Marva.short_tag in H4. apply andb_true_iff in H4 as [H4 _].
      apply andb_true_iff in H4 as [H4ne H4len]. apply Nat.leb_le in H4len.
      inversion Hp3 as [|? ? Hf _]; subst. split.
      * apply Hglue; [apply Hno, Ht|]. apply Hglue; apply Hno; assumption.
      * exists (lit "RT"), group, (fourth :: rest). split; [reflexivity|].
        destruct Hbase as (? & ? & ?). repeat (split; [assumption|]).
        right. exists fourth, rest. repeat (split; [reflexivity|]).
        split; [destruct fourth; [discriminate|discriminate]|]. split; [exact H4len|].
        reflexivity.
    + intros [= <-]. split; [exact Htwo|]. exists type, group, (fourth :: rest).
      split; [reflexivity|]. destruct Hbase as (? & ? & ?). auto.
Qed.

Lemma short_tag_spec (n : nat) (s : str) :
  Marva.short_tag n s = true <-> s <> [] /\ length s <= n /\ ~ In " "%char s.
Proof.
  unfold Marva.short_tag. rewrite !andb_true_iff, negb_true_iff, Nat.leb_le.
  assert (H1 : Str.nonempty s = true <-> s <> []) by (destruct s; cbn; split; congruence).
  assert (H2 : existsb (Str.is_char " "%char) s = false <-> ~ In " "%char s).
  { split.
    - intros H Hin. apply not_true_iff_false in H. apply H, existsb_exists.
      exists " "%char. split; [exact Hin|reflexivity].
    - intros H. apply not_true_is_false. intros E.
      apply existsb_exists in E as (c & Hc & E). unfold Str.is_char in E.
      apply Ascii.eqb_eq in E. subst c. exact (H Hc). }
  rewrite H1, H2. tauto.
Qed.

(** X19. The folder [extractFolderName] derives from a shape id. An id
    gets a folder exactly when its colon-separated parts begin [lc], a
    non-empty type and a non-empty group of at most 20 characters
    without a space. The folder is [type_group_fourth] exactly when the
    type is [RT] and there is a fourth part that is non-empty, at most
    30 characters long and without a space; otherwise it is
    [type_group]. It never holds a colon. *)
Theorem extractFolderName_parts (id folder : str) :
  (Marva.extractFolderName id = Some folder
   <-> exists type group more,
         Str.split (Str.is_char Str.colon) id = lit "lc" :: type :: group :: more
         /\ type <> [] /\ group <> [] /\ length group <= 20 /\ ~ In " "%char group
         /\ ((exists fourth rest,
                more = fourth :: rest /\ type = lit "RT" /\ fourth <> []
                /\ length fourth <= 30 /\ ~ In " "%char fourth
                /\ folder = type ++ lit "_" ++ group ++ lit "_" ++ fourth)
             \/ (~ (exists fourth rest,
                      more = fourth :: rest /\ type = lit "RT" /\ fourth <> []
                      /\ length fourth <= 30 /\ ~ In " "%char fourth)
                 /\ folder = type ++ lit "_" ++ group)))
  /\ (Marva.extractFolderName id = Some folder -> ~ In Str.colon folder).
Proof.
  split; [|intros H; apply (extractFolderName_some id folder H)].
  unfold Marva.extractFolderName.
  destruct (Str.split (Str.is_char Str.colon) id) as [|root [|type [|group more]]];
    try (split; [discriminate|intros (t & g & m & E & _); discriminate E]).
  assert (Hne : Str.nonempty type = true <-> type <> [])
    by (destruct type; cbn; split; congruence).
  destruct (bool_decide (root = lit "lc") && Str.nonempty type && Marva.short_tag 20 group)
    eqn:E.
  - apply andb_true_iff in E as [E Hshort]. apply andb_true_iff in E as [Hroot Htype].
    apply bool_decide_eq_true in Hroot. subst root. apply Hne in Htype.
    apply short_tag_spec in Hshort as (Hg & Hglen & Hgsp).
    destruct more as [|fourth rest].
    + split.
      * intros [= <-]. exists type, group, []. split; [reflexivity|].
        repeat (split; [assumption|]). right. split; [|reflexivity].
        intros (f & r & E & _). discriminate E.
      * intros (t & g & m & E & _ & _ & _ & _ & Hcase). injection E as <- <- <-.
        destruct Hcase as [(f & r & E & _)|[_ ->]]; [discriminate E|reflexivity].
    + destruct (bool_decide (type = lit "RT") && Marva.short_tag 30 fourth) eqn:E4.
      * apply andb_true_iff in E4 as [Hrt H4]. apply bool_decide_eq_true in Hrt.
        apply short_tag_spec in H4 as (Hf & Hflen & Hfsp). split.
        -- intros [= <-]. exists type, group, (fourth :: rest). split; [reflexivity|].
           repeat (split; [assumption|]). left. exists fourth, rest.
           repeat (split; [first [reflexivity|assumption]|]). reflexivity.
        -- intros (t & g & m & E & _ & _ & _ & _ & Hcase). injection E as <- <- <-.
           destruct Hcase as [(f & r & E & _ & _ & _ & _ & ->)|[Hno _]].
           ++ injection E as <- <-. reflexivity.
           ++ exfalso. apply Hno. exists fourth, rest. auto 10.
      * assert (Hno : ~ (exists f r, fourth :: rest = f :: r /\ type = lit "RT" /\ f <> []
                                     /\ length f <= 30 /\ ~ In " "%char f)).
        { intros (f & r & E & Hrt & Hf & Hflen & Hfsp). injection E as <- <-.
          apply not_true_iff_false in E4. apply E4. apply andb_true_iff.
          split; [apply bool_decide_eq_true, Hrt|]. apply short_tag_spec. auto. }
        split.
        -- intros [= <-]. exists type, group, (fourth :: rest). split; [reflexivity|].
           repeat (split; [assumption|]). right. split; [exact Hno|reflexivity].
        -- intros (t & g & m & E & _ & _ & _ & _ & Hcase). injection E as <- <- <-.
           destruct Hcase as [(f & r & E & H1 & H2 & H3 & H4 & _)|[_ ->]];
             [|reflexivity].
           exfalso. apply Hno. exists f, r. auto 10.
  - split; [discriminate|].
    intros (t & g & m & E' & Ht & Hg & Hglen & Hgsp & _). injection E' as -> <- <- <-.
    apply not_true_iff_false in E. exfalso. apply E.
    rewrite !andb_true_iff. split; [split|].
    + apply bool_decide_eq_true. reflexivity.
    + apply Hne, Ht.
    + apply short_tag_spec. auto.
Qed.

Lemma extractFolderName_parts_witness :
  Marva.extractFolderName "lc:RT:bf2:Title:LookupTitleLc" = Some (lit "RT_bf2_Title")
  /\ ~ In Str.colon (lit "RT_bf2_Title").
Proof.
  destruct (extractFolderName_parts "lc:RT:bf2:Title:LookupTitleLc" "RT_bf2_Title")
    as [[_ Hback] Hcolon].
  assert (H : Marva.extractFolderName "lc:RT:bf2:Title:LookupTitleLc"
              = Some (lit "RT_bf2_Title")).
  { apply Hback. exists (lit "RT"), (lit "bf2"), [lit "Title"; lit "LookupTitleLc"].
    split; [vm_compute; reflexivity|].
    split; [discriminate|]. split; [discriminate|]. split; [cbn; lia|].
    split; [cbn; intuition discriminate|].
    left. exists (lit "Title"), [lit "LookupTitleLc"].
    split; [reflexivity|]. split; [reflexivity|]. split; [discriminate|].
    split; [cbn; lia|]. split; [cbn; intuition discriminate|reflexivity]. }
  split; [exact H|exact (Hcolon H)].
Defined.

Lemma joined_cases (l : list str) :
  Forall (fun x => x <> [] /\ Str.trim x = x /\ ~ In Str.nl x) l ->
  (l = [] /\ truthy (Some (Str.join [Str.nl] l)) = None)
  \/ (exists x l', l = x :: l')
     /\ truthy (Some (Str.join [Str.nl] l)) = Some (Str.join [Str.nl] l)
     /\ or_else (Some (Str.join [Str.nl] l)) [] = Str.join [Str.nl] l
     /\ Marva.splitNewlines (Str.join [Str.nl] l) = l.
Proof.
  intros Hl. destruct l as [|x l'] eqn:E; [left; split; reflexivity|]. rewrite <- E in *.
  right. assert (Hne : l <> []) by (rewrite E; discriminate).
  split; [rewrite E; eauto|].
  assert (Hj : Str.join [Str.nl] l <> []).
  { apply join_nonempty; [exact Hne|]. eapply Forall_impl; [exact Hl|]. cbn. tauto. }
  assert (Ht : truthy (Some (Str.join [Str.nl] l)) = Some (Str.join [Str.nl] l)).
  { destruct (Str.join [Str.nl] l); [exfalso; apply Hj; reflexivity|reflexivity]. }
  split; [exact Ht|]. split; [unfold or_else; rewrite Ht; reflexivity|].
  apply splitNewlines_join, Hl.
Qed.

Lemma rowToProperty_fields (ns : list Namespace) (r : StatementRow) :
  let kind :=
    if Marva.is_ (valueNodeType r) "literal" then (Marva.literal, [], [])
    else if Marva.is_ (valueNodeType r) "bnode" && is_truthy (valueShape r)
    then (Marva.resource, Marva.splitNewlines (or_else (valueShape r) []), [])
    else if Marva.is_ (valueConstraintType r) "IRIstem" && is_truthy (valueConstraint r)
    then (Marva.lookup, [], Marva.splitNewlines (or_else (valueConstraint r) []))
    else if is_truthy (valueShape r)
    then (Marva.resource, Marva.splitNewlines (or_else (valueShape r) []), [])
    else (Marva.literal, [], []) in
  let q := Marva.rowToProperty ns r in
  let vc := default Marva.VC.empty (Marva.PT.valueConstraint q) in
  Marva.PT.type q = fst (fst kind)
  /\ Marva.VC.valueTemplateRefs vc = snd (fst kind)
  /\ Marva.VC.useValuesFrom vc = snd kind
  /\ Marva.PT.propertyLabel q = or_else (propertyLabel r) []
  /\ Marva.PT.mandatory q = or_else (mandatory r) "false".
Proof.
  cbv zeta. unfold Marva.rowToProperty.
  destruct (if Marva.is_ (valueNodeType r) "literal" then _ else _) as [[t rf] vl].
  cbn. auto.
Qed.

(** X20. What survives of a property template's type when it is
    imported and exported again (references without line breaks): a
    [literal] stays one; a [resource] or [list] with at least one
    reference comes back as [resource] with the references flattened;
    a [lookup] with at least one source comes back as [lookup] with
    the sources flattened; without references they all come back as
    [literal]. Label and mandatory flag are kept, an empty one
    becoming [false]. *)
Theorem marva_type_roundtrip (p : Marva.PT.t) (n : nat) (ns ns' : list Namespace) :
  let vc := default Marva.VC.empty (Marva.PT.valueConstraint p) in
  let q := Marva.rowToProperty ns' (storedRow n (Marva.propertyTemplateToRow p n ns)) in
  let vc' := default Marva.VC.empty (Marva.PT.valueConstraint q) in
  Forall (fun x => ~ In Str.nl x) (Marva.VC.valueTemplateRefs vc) ->
  Forall (fun x => ~ In Str.nl x) (Marva.VC.useValuesFrom vc) ->
  Marva.PT.type q = returnedType p
  /\ Marva.VC.valueTemplateRefs vc'
     = match returnedType p with
       | Marva.resource => Marva.flattenCommas (Marva.VC.valueTemplateRefs vc)
       | _ => []
       end
  /\ Marva.VC.useValuesFrom vc'
     = match returnedType p with
       | Marva.lookup => Marva.flattenCommas (Marva.VC.useValuesFrom vc)
       | _ => []
       end
  /\ Marva.PT.propertyLabel q = Marva.PT.propertyLabel p
  /\ Marva.PT.mandatory q = or_else (Some (Marva.PT.mandatory p)) "false".
Proof.
  cbv zeta. intros Hrefs Hvals.
  apply flattenCommas_tidy in Hrefs. apply flattenCommas_tidy in Hvals.
  destruct (rowToProperty_fields ns' (storedRow n (Marva.propertyTemplateToRow p n ns)))
    as (-> & -> & -> & -> & ->).
  destruct p as [uri label mand rep type remark vc].
  unfold returnedType.
  cbn [Marva.PT.type Marva.PT.valueConstraint Marva.PT.propertyLabel Marva.PT.mandatory] in *.
  set (c := default Marva.VC.empty vc) in *.
  assert (Hr0 : Marva.VC.valueTemplateRefs c = [] ->
                Marva.flattenCommas (Marva.VC.valueTemplateRefs c) = [])
    by (intros ->; reflexivity).
  assert (Hv0 : Marva.VC.useValuesFrom c = [] ->
                Marva.flattenCommas (Marva.VC.useValuesFrom c) = [])
    by (intros ->; reflexivity).
  pose proof (joined_cases _ Hrefs) as Jr. pose proof (joined_cases _ Hvals) as Jv.
  unfold Marva.propertyTemplateToRow, storedRow, or_null.
  cbn [Marva.PT.type Marva.PT.valueConstraint Marva.PT.propertyLabel Marva.PT.mandatory
         Marva.PT.repeatable Marva.PT.remark Marva.PT.propertyURI
         Req.rowOrder Req.propertyId Req.propertyLabel Req.mandatory Req.repeatable
         Req.valueNodeType Req.valueDataType Req.valueShape Req.valueConstraint
         Req.valueConstraintType Req.note Req.lcDefaultLiteral Req.lcDefaultURI
         Req.lcDataTypeURI Req.lcRemark
         valueNodeType valueShape valueConstraint valueConstraintType propertyLabel
         mandatory].
  fold c.
  set (Fr := Marva.flattenCommas (Marva.VC.valueTemplateRefs c)) in *.
  set (Fv := Marva.flattenCommas (Marva.VC.useValuesFrom c)) in *.
  clearbody Fr Fv.
  assert (Hlabel : or_else (truthy (Some label)) [] = label)
    by (destruct label; reflexivity).
  assert (Hmand : or_else (truthy (Some mand)) "false" = or_else (Some mand) "false")
    by (destruct mand; reflexivity).
  rewrite Hlabel, Hmand. clear Hlabel Hmand Hrefs Hvals.
  destruct type.
  - cbn. destruct Fr, Fv; auto.
  - destruct (Marva.VC.valueTemplateRefs c) as [|r0 rs].
    + rewrite (Hr0 eq_refl). cbn. auto.
    + destruct Jr as [[-> Jr]|((x & l' & ->) & Jr1 & Jr2 & Jr3)].
      * cbn. auto.
      * cbv beta iota zeta. unfold is_truthy. rewrite !Jr1. cbn [truthy andb].
        rewrite ?Jr1.
        replace (Marva.is_ (Some (lit "bnode")) "literal") with false by reflexivity.
        replace (Marva.is_ (Some (lit "bnode")) "bnode") with true by reflexivity.
        cbn [andb fst snd]. rewrite Jr2, Jr3. auto.
  - destruct (Marva.VC.useValuesFrom c) as [|v0 vs].
    + rewrite (Hv0 eq_refl). cbn. auto.
    + destruct Jv as [[-> Jv]|((x & l' & ->) & Jv1 & Jv2 & Jv3)].
      * cbn. auto.
      * cbv beta iota zeta. unfold is_truthy. rewrite !Jv1. cbn [truthy andb].
        rewrite ?Jv1.
        replace (Marva.is_ None "literal") with false by reflexivity.
        replace (Marva.is_ None "bnode") with false by reflexivity.
        replace (Marva.is_ (Some (lit "IRIstem")) "IRIstem") with true by reflexivity.
        cbn [andb fst snd]. rewrite Jv2, Jv3. auto.
  - destruct (Marva.VC.valueTemplateRefs c) as [|r0 rs].
    + rewrite (Hr0 eq_refl). cbn. auto.
    + destruct Jr as [[-> Jr]|((x & l' & ->) & Jr1 & Jr2 & Jr3)].
      * cbn. auto.
      * cbv beta iota zeta. unfold is_truthy. rewrite !Jr1. cbn [truthy andb].
        rewrite ?Jr1.
        replace (Marva.is_ (Some (lit "bnode")) "literal") with false by reflexivity.
        replace (Marva.is_ (Some (lit "bnode")) "bnode") with true by reflexivity.
        cbn [andb fst snd]. rewrite Jr2, Jr3. auto.
Qed.

Lemma marva_type_roundtrip_witness :
  let p := list_property in
  let vc := default Marva.VC.empty (Marva.PT.valueConstraint p) in
  let q := Marva.rowToProperty DEFAULT_NAMESPACES
             (storedRow 0 (Marva.propertyTemplateToRow p 0 DEFAULT_NAMESPACES)) in
  let vc' := default Marva.VC.empty (Marva.PT.valueConstraint q) in
  Marva.PT.type q = returnedType p
  /\ Marva.VC.valueTemplateRefs vc'
     = match returnedType p with
       | Marva.resource => Marva.flattenCommas (Marva.VC.valueTemplateRefs vc)
       | _ => []
       end
  /\ Marva.VC.useValuesFrom vc'
     = match returnedType p with
       | Marva.lookup => Marva.flattenCommas (Marva.VC.useValuesFrom vc)
       | _ => []
       end
  /\ Marva.PT.propertyLabel q = Marva.PT.propertyLabel p
  /\ Marva.PT.mandatory q = or_else (Some (Marva.PT.mandatory p)) "false".
Proof.
  apply (marva_type_roundtrip list_property 0 DEFAULT_NAMESPACES DEFAULT_NAMESPACES).
  - repeat constructor; vm_compute; intuition discriminate.
  - constructor.
Defined.

End MarvaFacts.

Section MarvaExportFacts.

Lemma indexOf_parts (c : ascii) (s : str) (i : nat) :
  Str.indexOf c s = Some i -> take i s ++ c :: drop (i + 1) s = s.
Proof.
  revert i. induction s as [|a s IH]; intros i H; [discriminate|].
  cbn [Str.indexOf] in H. destruct (Ascii.eqb_spec a c) as [->|Hne].
  - injection H as <-. reflexivity.
  - destruct (Str.indexOf c s) as [j|]; [|discriminate]. injection H as <-.
    cbn. f_equal. apply IH. reflexivity.
Qed.

(** X22. Expanding a prefixed name and compressing the result gives
    the name back, provided the expansion happened (a colon, no
    [://], a known prefix) and the namespace used is the first one of
    the table that the expanded URI starts with. *)
Theorem prefix_expand_roundtrip (name : str) (nss : list Namespace) (ns : Namespace)
    (i : nat) :
  Str.indexOf Str.colon name = Some i ->
  Str.includes name "://" = false ->
  List.find (fun n => bool_decide (prefix n = take i name)) nss = Some ns ->
  List.find (fun n => Str.startsWith (namespace ns ++ drop (i + 1) name) (namespace n)) nss
  = Some ns ->
  Ns.expandUri name nss = namespace ns ++ drop (i + 1) name
  /\ Ns.prefixUri (Ns.expandUri name nss) nss = name.
Proof.
  intros Hi Hinc Hpfx Hfirst.
  assert (He : Ns.expandUri name nss = namespace ns ++ drop (i + 1) name).
  { unfold Ns.expandUri. rewrite Hi, Hinc, Hpfx. reflexivity. }
  split; [exact He|]. rewrite He.
  destruct (prefixUri_first _ _ _ Hfirst) as (-> & _ & _).
  apply find_some in Hpfx as [_ Hp]. apply bool_decide_eq_true in Hp. rewrite Hp.
  rewrite drop_app_length. apply (indexOf_parts Str.colon name i Hi).
Qed.

Lemma prefix_expand_roundtrip_witness :
  Ns.expandUri "dcterms:title" DEFAULT_NAMESPACES
  = namespace (mkNamespace "dcterms" "http://purl.org/dc/terms/")
    ++ drop (7 + 1) (lit "dcterms:title")
  /\ Ns.prefixUri (Ns.expandUri "dcterms:title" DEFAULT_NAMESPACES) DEFAULT_NAMESPACES
     = lit "dcterms:title".
Proof.
  apply (prefix_expand_roundtrip "dcterms:title" DEFAULT_NAMESPACES
           (mkNamespace "dcterms" "http://purl.org/dc/terms/") 7).
  - vm_compute. reflexivity.
  - vm_compute. reflexivity.
  - vm_compute. reflexivity.
  - vm_compute. reflexivity.
Defined.

Lemma inFolder_run (f : option nat) (db : Db) :
  exists b, StartingPoint.isInStartingPointFolder f db = Ok (b, db).
Proof.
  unfold StartingPoint.isInStartingPointFolder. destruct f as [fid|]; [|eexists; reflexivity].
  rewrite (bind_Ok _ _ _ _ _ (folder_list_run db)).
  destruct (List.find _ _); eexists; reflexivity.
Qed.

Lemma exportableShapes_run (l : list Shape) (db : Db) :
  exists l',
    Marva.exportableShapes l db = Ok (l', db)
    /\ forall s, In s l' ->
                 In s l /\ StartingPoint.isStartingPointShape (shapeId s) = false.
Proof.
  induction l as [|s l (l' & IH & Hl')]; [exists []; split; [reflexivity|intros s []]|].
  cbn [Marva.exportableShapes].
  destruct (StartingPoint.isStartingPointShape (shapeId s)) eqn:Esp.
  - rewrite (bind_Ok _ _ _ _ _ (eq_refl : ret true db = Ok (true, db))).
    rewrite (bind_Ok _ _ _ _ _ IH). exists l'. split; [reflexivity|].
    intros x Hx. destruct (Hl' x Hx) as [H1 H2]. split; [right; exact H1|exact H2].
  - destruct (inFolder_run (folderId s) db) as [b Hb].
    rewrite (bind_Ok _ _ _ _ _ Hb), (bind_Ok _ _ _ _ _ IH).
    destruct b.
    + exists l'. split; [reflexivity|]. intros x Hx.
      destruct (Hl' x Hx) as [H1 H2]. split; [right; exact H1|exact H2].
    + exists (s :: l'). split; [reflexivity|].
      intros x [<-|Hx]; [split; [left; reflexivity|exact Esp]|].
      destruct (Hl' x Hx) as [H1 H2]. split; [right; exact H1|exact H2].
Qed.

Lemma findProfile_run (s : Shape) (acc : list (Shape * list str)) (db : Db) :
  has_table db (shapeId s) ->
  exists acc1,
    Marva.findProfile acc s db = Ok (acc1, db)
    /\ (acc1 = acc
        \/ exists ids,
             acc1 = acc ++ [(s, ids)]
             /\ forall id, In id ids -> StartingPoint.isStartingPointShape id = false).
Proof.
  intros Ht. unfold Marva.findProfile.
  rewrite (bind_Ok _ _ _ _ _ (row_list_run db (shapeId s) Ht)).
  destruct (List.filter Marva.is_link (listedRows db (shapeId s))) as [|r0 rs];
    [exists acc; split; [reflexivity|left; reflexivity]|].
  set (ids := List.filter (fun id => negb (StartingPoint.isStartingPointShape id)) _).
  assert (Hids : forall id, In id ids -> StartingPoint.isStartingPointShape id = false).
  { intros id Hid. apply filter_In in Hid as [_ Hid]. apply negb_true_iff, Hid. }
  destruct ids as [|i0 is0]; [exists acc; split; [reflexivity|left; reflexivity]|].
  eexists. split; [reflexivity|]. right. eauto.
Qed.

Lemma findProfiles_run (shapes : list Shape) (acc : list (Shape * list str)) (db : Db) :
  (forall s, In s shapes -> has_table db (shapeId s)) ->
  exists acc',
    foldM Marva.findProfile shapes acc db = Ok (acc', db)
    /\ forall pi, In pi acc' ->
         In pi acc
         \/ forall id, In id (snd pi) -> StartingPoint.isStartingPointShape id = false.
Proof.
  revert acc. induction shapes as [|s shapes IH]; intros acc Ht.
  - exists acc. split; [reflexivity|]. auto.
  - cbn [foldM].
    destruct (findProfile_run s acc db (Ht s (or_introl eq_refl))) as (acc1 & H1 & Hacc1).
    rewrite (bind_Ok _ _ _ _ _ H1).
    destruct (IH acc1) as (acc' & Hrun & Hacc).
    { intros x Hx. apply Ht. right. exact Hx. }
    exists acc'. split; [exact Hrun|]. intros pi Hpi.
    destruct (Hacc pi Hpi) as [Hin|Hnew]; [|right; exact Hnew].
    destruct Hacc1 as [->|(ids & -> & Hids)]; [left; exact Hin|].
    apply in_app_iff in Hin as [Hin|[<-|[]]]; [left; exact Hin|]. right. exact Hids.
Qed.

Lemma exportLinked_run (ns : list Namespace) (shapes : list Shape) (linked : list str)
    (acc : list Marva.RT.t) (db : Db) :
  (forall s, In s shapes -> has_table db (shapeId s)) ->
  exists acc',
    foldM (Marva.exportLinked ns shapes) linked acc db = Ok (acc', db)
    /\ forall rt, In rt acc' ->
         In rt acc
         \/ (In (Marva.RT.id rt) linked /\ In (Marva.RT.id rt) (map shapeId shapes)).
Proof.
  intros Ht. revert acc. induction linked as [|id linked IH]; intros acc.
  - exists acc. split; [reflexivity|]. auto.
  - cbn [foldM]. unfold Marva.exportLinked at 1.
    destruct (List.find (fun s => bool_decide (shapeId s = id)) shapes) as [sh|] eqn:Ef.
    + apply find_some in Ef as [Hsh Hid]. apply bool_decide_eq_true in Hid.
      assert (Htab : has_table db id) by (rewrite <- Hid; apply Ht, Hsh).
      rewrite (bind_Ok _ _ _ _ _
                 (bind_Ok _ _ _ _ _ (row_list_run db id Htab))).
      destruct (IH (acc ++ [Marva.resourceTemplateOf ns sh
                              (map (Marva.rowToProperty ns) (listedRows db id))]))
        as (acc' & Hrun & Hacc).
      exists acc'. split; [exact Hrun|]. intros rt Hrt.
      destruct (Hacc rt Hrt) as [Hin|[H1 H2]]; [|right; split; [right; exact H1|exact H2]].
      apply in_app_iff in Hin as [Hin|[<-|[]]]; [left; exact Hin|]. right.
      cbn [Marva.resourceTemplateOf Marva.RT.id]. rewrite Hid.
      split; [left; reflexivity|]. rewrite <- Hid. apply in_map, Hsh.
    + rewrite (bind_Ok _ _ _ _ _ eq_refl).
      destruct (IH acc) as (acc' & Hrun & Hacc). exists acc'. split; [exact Hrun|].
      intros rt Hrt. destruct (Hacc rt Hrt) as [Hin|[H1 H2]]; [left; exact Hin|].
      right. split; [right; exact H1|exact H2].
Qed.

Lemma exportProfiles_run (env : Marva.Env) (ns : list Namespace) (shapes : list Shape)
    (profs : list (Shape * list str)) (docs : list Marva.Doc.t) (db : Db) :
  (forall s, In s shapes -> has_table db (shapeId s)) ->
  (forall pi id, In pi profs -> In id (snd pi) ->
                 StartingPoint.isStartingPointShape id = false) ->
  exists docs',
    foldM (Marva.exportProfile env ns shapes) profs docs db = Ok (docs', db)
    /\ forall doc, In doc docs' ->
         In doc docs
         \/ exists p, Marva.Doc.Profile doc = Some p
                      /\ forall rt, In rt (Marva.Profile.resourceTemplates p) ->
                           StartingPoint.isStartingPointShape (Marva.RT.id rt) = false
                           /\ In (Marva.RT.id rt) (map shapeId shapes).
Proof.
  intros Ht. revert docs. induction profs as [|[shape linked] profs IH]; intros docs Hsp.
  - exists docs. split; [reflexivity|]. auto.
  - cbn [foldM]. unfold Marva.exportProfile at 1.
    destruct (exportLinked_run ns shapes linked [] db Ht) as (rts & Hrts & Hin).
    rewrite (bind_Ok _ _ _ _ _ (bind_Ok _ _ _ _ _ Hrts)).
    match goal with
    | |- context [foldM _ profs (docs ++ [?d])] =>
        destruct (IH (docs ++ [d])) as (docs' & Hrun & Hdocs)
    end.
    { intros pi id Hpi Hid. apply (Hsp pi id); [right; exact Hpi|exact Hid]. }
    exists docs'. split; [exact Hrun|]. intros doc Hdoc.
    destruct (Hdocs doc Hdoc) as [Hold|Hnew]; [|right; exact Hnew].
    apply in_app_iff in Hold as [Hold|[<-|[]]]; [left; exact Hold|]. right.
    eexists. split; [reflexivity|]. cbn [Marva.Profile.resourceTemplates].
    intros rt Hrt. destruct (Hin rt Hrt) as [[]|[H1 H2]]. split; [|exact H2].
    apply (Hsp (shape, linked) (Marva.RT.id rt)); [left; reflexivity|exact H1].
Qed.

Lemma exportFallback_run (ns : list Namespace) (shapes : list Shape)
    (acc : list Marva.RT.t) (db : Db) :
  (forall s, In s shapes -> has_table db (shapeId s)) ->
  exists acc',
    foldM (Marva.exportFallbackTemplate ns) shapes acc db = Ok (acc', db)
    /\ forall rt, In rt acc' -> In rt acc \/ In (Marva.RT.id rt) (map shapeId shapes).
Proof.
  revert acc. induction shapes as [|s shapes IH]; intros acc Ht.
  - exists acc. split; [reflexivity|]. auto.
  - cbn [foldM]. unfold Marva.exportFallbackTemplate at 1.
    rewrite (bind_Ok _ _ _ _ _
               (bind_Ok _ _ _ _ _
                  (row_list_run db (shapeId s) (Ht s (or_introl eq_refl))))).
    match goal with
    | |- context [foldM _ shapes (acc ++ [?t])] =>
        destruct (IH (acc ++ [t])) as (acc' & Hrun & Hacc)
    end.
    { intros x Hx. apply Ht. right. exact Hx. }
    exists acc'. split; [exact Hrun|]. intros rt Hrt.
    destruct (Hacc rt Hrt) as [Hin|Hin]; [|right; right; exact Hin].
    apply in_app_iff in Hin as [Hin|[<-|[]]]; [left; exact Hin|].
    right. left. reflexivity.
Qed.

(** X21. In a store where every shape has its row table the Marva
    export cannot fail and changes nothing; every document it returns
    carries a profile, and every resource template in it is a shape
    of the workspace whose id is not a starting-point id. *)
Theorem exportMarvaProfiles_templates (env : Marva.Env) (db : Db) :
  tables_exist db ->
  exists docs,
    Marva.exportMarvaProfiles env db = Ok (docs, db)
    /\ forall doc, In doc docs ->
         exists p, Marva.Doc.Profile doc = Some p
                   /\ forall rt, In rt (Marva.Profile.resourceTemplates p) ->
                        In (Marva.RT.id rt) (shapeIds db)
                        /\ StartingPoint.isStartingPointShape (Marva.RT.id rt) = false.
Proof.
  intros Ht. unfold Marva.exportMarvaProfiles.
  rewrite (bind_Ok _ _ _ _ _ (eq_refl : get_db db = Ok (db, db))).
  rewrite (bind_Ok _ _ _ _ _ eq_refl).
  rewrite (bind_Ok _ _ _ _ _ (shape_list_run db)).
  destruct (exportableShapes_run (listedShapes db) db) as (shapes & Hshapes & Hsub).
  rewrite (bind_Ok _ _ _ _ _ Hshapes).
  assert (Htab : forall s, In s shapes -> has_table db (shapeId s)).
  { intros s Hs. apply Ht, listedShapes_In, Hsub, Hs. }
  assert (Hids : forall id, In id (map shapeId shapes) ->
                            In id (shapeIds db)
                            /\ StartingPoint.isStartingPointShape id = false).
  { intros id Hid. apply in_map_iff in Hid as (s & <- & Hs).
    destruct (Hsub s Hs) as [Hin Hsp]. split; [|exact Hsp].
    apply in_map, listedShapes_In, Hin. }
  destruct (findProfiles_run shapes [] db Htab) as (profs & Hprofs & Hlinked).
  rewrite (bind_Ok _ _ _ _ _ Hprofs).
  destruct (exportProfiles_run env (sort_by (fun a b => Str.leb (prefix a) (prefix b))
                                      (namespaces db)) shapes profs [] db Htab)
    as (docs & Hdocs & Hin).
  { intros pi id Hpi Hid. destruct (Hlinked pi Hpi) as [[]|H]. apply H, Hid. }
  rewrite (bind_Ok _ _ _ _ _ Hdocs).
  assert (Hgood : forall doc, In doc docs ->
             exists p, Marva.Doc.Profile doc = Some p
                       /\ forall rt, In rt (Marva.Profile.resourceTemplates p) ->
                            In (Marva.RT.id rt) (shapeIds db)
                            /\ StartingPoint.isStartingPointShape (Marva.RT.id rt)
                               = false).
  { intros doc Hdoc. destruct (Hin doc Hdoc) as [[]|(p & Hp & Hrts)].
    exists p. split; [exact Hp|]. intros rt Hrt. apply Hids, Hrts, Hrt. }
  destruct docs as [|d0 docs']; [|exists (d0 :: docs'); split; [reflexivity|exact Hgood]].
  destruct shapes as [|s0 shapes'] eqn:Es; [exists []; split; [reflexivity|intros ? []]|].
  rewrite <- Es in *.
  destruct (exportFallback_run (sort_by (fun a b => Str.leb (prefix a) (prefix b))
                                  (namespaces db)) shapes [] db Htab)
    as (rts & Hrts & Hfrom).
  rewrite (bind_Ok _ _ _ _ _ Hrts). eexists. split; [reflexivity|].
  intros doc [<-|[]]. eexists. split; [reflexivity|].
  cbn [Marva.Profile.resourceTemplates]. intros rt Hrt.
  destruct (Hfrom rt Hrt) as [[]|H]. apply Hids, H.
Qed.

Lemma exportMarvaProfiles_templates_witness :
  exists docs,
    Marva.exportMarvaProfiles (Marva.mkEnv (fun _ => lit "id") (fun _ => lit "now"))
      library_db = Ok (docs, library_db)
    /\ forall doc, In doc docs ->
         exists p, Marva.Doc.Profile doc = Some p
                   /\ forall rt, In rt (Marva.Profile.resourceTemplates p) ->
                        In (Marva.RT.id rt) (shapeIds library_db)
                        /\ StartingPoint.isStartingPointShape (Marva.RT.id rt) = false.
Proof.
  apply (exportMarvaProfiles_templates
           (Marva.mkEnv (fun _ => lit "id") (fun _ => lit "now")) library_db).
  intros s [<-|[<-|[]]]; vm_compute; eauto.
Defined.

End MarvaExportFacts.

(** ** Validation and the multi-value editor *)

Section ValidationFacts.

Lemma validateRow_run (r : StatementRow) (shapes : list str) (nss : list Namespace)
    (db : Db) :
  Validation.validateRow r (Some shapes) (Some nss) db
  = Ok (Validation.checkRow shapes nss r, db).
Proof. reflexivity. Qed.

Lemma validateRow_defaults (r : StatementRow) (db : Db) :
  Validation.validateRow r None None db
  = Ok (Validation.checkRow (map shapeId (listedShapes db))
          (sort_by (fun a b => Str.leb (prefix a) (prefix b)) (namespaces db)) r, db).
Proof. reflexivity. Qed.

Lemma validateRows_run (shapes : list str) (nss : list Namespace) (rows : list StatementRow)
    (i : nat) (es ws : list Validation.ValidationError) (db : Db) :
  Validation.validateRows shapes nss rows i es ws db
  = Ok ((es ++ rowFindings Validation.errors shapes nss rows i,
         ws ++ rowFindings Validation.warnings shapes nss rows i), db).
Proof.
  revert i es ws. induction rows as [|r rows IH]; intros i es ws.
  - cbn. rewrite !app_nil_r. reflexivity.
  - cbn [Validation.validateRows rowFindings].
    rewrite (bind_Ok _ _ _ _ _ (validateRow_run r shapes nss db)), IH, <- !app_assoc.
    reflexivity.
Qed.

Lemma rowFindings_nil (pick : Validation.ValidationResult -> list Validation.ValidationError)
    (shapes : list str) (nss : list Namespace) (rows : list StatementRow) (i : nat) :
  rowFindings pick shapes nss rows i = []
  <-> forall r, In r rows -> pick (Validation.checkRow shapes nss r) = [].
Proof.
  revert i. induction rows as [|r rows IH]; intros i; cbn [rowFindings].
  - split; [intros _ r []|reflexivity].
  - split.
    + intros H. apply app_eq_nil in H as [H1 H2]. intros x [<-|Hx].
      * destruct (pick _); [reflexivity|discriminate H1].
      * apply (proj1 (IH (S i)) H2 x Hx).
    + intros H. rewrite (H r (or_introl eq_refl)). cbn.
      apply IH. intros x Hx. apply H. right. exact Hx.
Qed.

Lemma length_zero {A : Type} (l : list A) : Nat.eqb (length l) 0 = true <-> l = [].
Proof. destruct l; cbn; split; congruence. Qed.

Lemma rowFindings_imap
    (pick : Validation.ValidationResult -> list Validation.ValidationError)
    (shapes : list str) (nss : list Namespace) (rows : list StatementRow) (i : nat) :
  rowFindings pick shapes nss rows i
  = concat (imap (fun k res' => map (Validation.at_row (i + k)) (pick res'))
              (map (Validation.checkRow shapes nss) rows)).
Proof.
  revert i. induction rows as [|r rows IH]; intros i; [reflexivity|].
  cbn [rowFindings map]. rewrite imap_cons. cbn [concat]. rewrite Nat.add_0_r. f_equal.
  rewrite IH. f_equal. apply imap_ext. intros k x _. cbn. rewrite Nat.add_succ_r.
  reflexivity.
Qed.

(** X23. [validateShape] cannot fail and changes nothing. Its errors
    are exactly the errors [validateRow] finds for each row, in row
    order and each tagged with the index of its row, and so are its
    warnings; it calls the shape valid exactly when [validateRow] calls
    every row valid. *)
Theorem validateShape_rows (rows : list StatementRow) (db : Db) :
  exists res results,
    Validation.validateShape rows db = Ok (res, db)
    /\ Forall2 (fun r res' => Validation.validateRow r None None db = Ok (res', db))
         rows results
    /\ Validation.errors res
       = concat (imap (fun k res' => map (Validation.at_row k) (Validation.errors res'))
                   results)
    /\ Validation.warnings res
       = concat (imap (fun k res' => map (Validation.at_row k) (Validation.warnings res'))
                   results)
    /\ (Validation.valid res = true
        <-> Forall (fun res' => Validation.valid res' = true) results).
Proof.
  unfold Validation.validateShape.
  rewrite (bind_Ok _ _ _ _ _ (shape_list_run db)).
  rewrite (bind_Ok _ _ _ _ _ eq_refl).
  rewrite (bind_Ok _ _ _ _ _ (validateRows_run _ _ rows 0 [] [] db)).
  set (shapes := map shapeId (listedShapes db)).
  set (nss := sort_by (fun a b => Str.leb (prefix a) (prefix b)) (namespaces db)).
  eexists. exists (map (Validation.checkRow shapes nss) rows). split; [reflexivity|].
  cbn [Validation.valid Validation.errors Validation.warnings fst snd app].
  split; [|split; [|split]].
  - clear. induction rows as [|r rows IH]; cbn [map]; constructor; [|exact IH].
    apply validateRow_defaults.
  - apply (rowFindings_imap Validation.errors shapes nss rows 0).
  - apply (rowFindings_imap Validation.warnings shapes nss rows 0).
  - rewrite length_zero, rowFindings_nil, Forall_map, Forall_forall. split.
    + intros H r Hr. apply list_elem_of_In in Hr.
      change (Nat.eqb (length (Validation.errors (Validation.checkRow shapes nss r))) 0
              = true).
      apply length_zero, H, Hr.
    + intros H r Hr. apply list_elem_of_In in Hr. apply length_zero. exact (H r Hr).
Qed.

Lemma lower_in_node_types (t : str) :
  inb (Str.toLowerCase t) (map Str.toLowerCase Validation.VALUE_NODE_TYPES) = true ->
  Str.toLowerCase t = lit "literal"
  \/ Str.toLowerCase t = lit "iri" \/ Str.toLowerCase t = lit "bnode".
Proof.
  intros H. apply not_false_iff_true in H. rewrite inb_false in H.
  destruct (List.in_dec (List.list_eq_dec ascii_dec) (Str.toLowerCase t)
              (map Str.toLowerCase Validation.VALUE_NODE_TYPES)) as [Hin|Hn];
    [|contradiction].
  cbn in Hin. destruct Hin as [Hin|[Hin|[Hin|[]]]]; rewrite <- Hin; auto.
Qed.

(** X24. A row that sets a node type, a datatype and a shape
    reference is never valid, whatever the three values are: either
    the node type is none of IRI, literal and bnode, or it is literal
    and excludes the shape reference, or it is not and excludes the
    datatype. *)
Theorem validateRow_conflict (r : StatementRow) (shapes : list str)
    (nss : list Namespace) (db : Db) :
  is_truthy (valueNodeType r) = true ->
  is_truthy (valueDataType r) = true ->
  is_truthy (valueShape r) = true ->
  exists res,
    Validation.validateRow r (Some shapes) (Some nss) db = Ok (res, db)
    /\ Validation.valid res = false
    /\ exists e, In e (Validation.errors res)
                 /\ In (Validation.column e)
                      [lit "valueNodeType"; lit "valueDataType"; lit "valueShape"].
Proof.
  intros Hn Hd Hs. rewrite validateRow_run. eexists. split; [reflexivity|].
  assert (He : exists e,
             In e (Validation.rule3 r ++ Validation.rule4 r ++ Validation.rule6 r)
             /\ In (Validation.column e)
                  [lit "valueNodeType"; lit "valueDataType"; lit "valueShape"]).
  { unfold Validation.rule3, Validation.rule4, Validation.rule6, Validation.nodeTypeLower.
    rewrite Hd, Hs. unfold is_truthy in Hn.
    destruct (truthy (valueNodeType r)) as [t|] eqn:Et; [|discriminate].
    assert (Hv : valueNodeType r = Some t).
    { destruct (valueNodeType r) as [[|a v]|]; try discriminate. injection Et as <-.
      reflexivity. }
    rewrite Hv. cbn [option_map andb].
    assert (Hlow : is_truthy (Some (Str.toLowerCase t)) = true).
    { destruct t; [rewrite Hv in Et; discriminate|reflexivity]. }
    rewrite Hlow. cbn [andb].
    destruct (inb (Str.toLowerCase t) (map Str.toLowerCase Validation.VALUE_NODE_TYPES))
      eqn:Ein.
    - cbn [negb app]. apply lower_in_node_types in Ein.
      destruct (bool_decide (Some (Str.toLowerCase t) = Some (lit "literal"))) eqn:El.
      + cbn [negb app]. eexists. split; [left; reflexivity|]. cbn. auto.
      + cbn [negb app]. eexists. split; [left; reflexivity|]. cbn. auto.
    - cbn [negb app]. eexists. split; [left; reflexivity|]. cbn. auto. }
  destruct He as (e & He & Hcol).
  assert (Hin : In e (Validation.errors (Validation.checkRow shapes nss r))).
  { cbn [Validation.checkRow Validation.errors].
    rewrite !in_app_iff in *. tauto. }
  split; [|exists e; auto].
  change (Validation.valid (Validation.checkRow shapes nss r))
    with (Nat.eqb (length (Validation.errors (Validation.checkRow shapes nss r))) 0).
  destruct (Validation.errors (Validation.checkRow shapes nss r));
    [destruct Hin|reflexivity].
Qed.

Lemma validateRow_conflict_witness :
  exists res,
    Validation.validateRow conflicting_row (Some [lit "Person"]) (Some DEFAULT_NAMESPACES)
      library_db = Ok (res, library_db)
    /\ Validation.valid res = false
    /\ exists e, In e (Validation.errors res)
                 /\ In (Validation.column e)
                      [lit "valueNodeType"; lit "valueDataType"; lit "valueShape"].
Proof.
  apply (validateRow_conflict conflicting_row [lit "Person"] DEFAULT_NAMESPACES library_db).
  - reflexivity.
  - reflexivity.
  - reflexivity.
Defined.

End ValidationFacts.

Section EditorFacts.

Lemma split_multiline (v : str) :
  Str.split (Str.is_char Str.nl) (multilineValue v) = Str.split is_multi_delimiter v.
Proof.
  induction v as [|c v IH]; [reflexivity|].
  cbn [multilineValue map Str.split]. fold (multilineValue v). rewrite IH.
  unfold is_multi_delimiter, Str.is_char.
  destruct (Ascii.eqb c Str.comma) eqn:E1; [reflexivity|].
  destruct (Ascii.eqb c Str.pipe) eqn:E2; [reflexivity|].
  cbn [orb]. reflexivity.
Qed.

Lemma decoded_tidy (v : str) :
  Forall (fun x => x <> [] /\ Str.trim x = x /\ existsb is_multi_delimiter x = false)
    (List.filter Str.nonempty (map Str.trim (Str.split is_multi_delimiter v))).
Proof.
  apply Forall_forall. intros y Hy. apply list_elem_of_In in Hy.
  apply filter_In in Hy as [Hy Hne]. apply in_map_iff in Hy as (piece & <- & Hpiece).
  split; [destruct (Str.trim piece); [discriminate|discriminate]|].
  split; [apply trim_idem|].
  apply not_true_is_false. intros H. apply existsb_exists in H as (c & Hc & Hd).
  apply trim_sub in Hc.
  pose proof (split_pieces is_multi_delimiter v) as Hp. rewrite Forall_forall in Hp.
  specialize (Hp piece (proj2 (list_elem_of_In _ _) Hpiece)).
  apply not_true_iff_false in Hp. apply Hp. apply existsb_exists. eauto.
Qed.

Lemma decode_tidy (l : list str) :
  Forall (fun x => x <> [] /\ Str.trim x = x /\ existsb is_multi_delimiter x = false) l ->
  getMultilineValues (Some (Str.join [Str.pipe] l)) = l.
Proof.
  intros Hl. destruct l as [|x l'] eqn:E; [reflexivity|]. rewrite <- E in *.
  assert (Hne : l <> []) by (rewrite E; discriminate).
  assert (Hj : Str.join [Str.pipe] l <> []).
  { apply join_nonempty; [exact Hne|]. eapply Forall_impl; [exact Hl|]. cbn. tauto. }
  unfold getMultilineValues.
  assert (Ht : truthy (Some (Str.join [Str.pipe] l)) = Some (Str.join [Str.pipe] l)).
  { destruct (Str.join [Str.pipe] l); [exfalso; apply Hj; reflexivity|reflexivity]. }
  rewrite Ht. rewrite split_join.
  - clear E Hne Hj Ht. induction Hl as [|y l0 (Hy & Hty & _) _ IH]; [reflexivity|].
    cbn [map List.filter]. rewrite Hty. destruct y; [congruence|]. cbn [Str.nonempty].
    f_equal. exact IH.
  - reflexivity.
  - exact Hne.
  - eapply Forall_impl; [exact Hl|]. cbn. tauto.
Qed.

Lemma decode_string (v : str) :
  getMultilineValues (Some v)
  = List.filter Str.nonempty (map Str.trim (Str.split is_multi_delimiter v)).
Proof. destruct v; reflexivity. Qed.

Lemma joined_delimiters (l : list str) :
  Forall (fun x => x <> [] /\ Str.trim x = x /\ existsb is_multi_delimiter x = false) l ->
  hasMultipleValues (Some (Str.join [Str.pipe] l)) = (2 <=? length l)%nat.
Proof.
  intros Hl. destruct Hl as [|x l (Hx & _ & Hd) Hl]; [reflexivity|].
  destruct l as [|y l].
  - cbn [Str.join length Nat.leb]. unfold hasMultipleValues.
    destruct x; [congruence|]. cbn [truthy]. exact Hd.
  - change (Str.join [Str.pipe] (x :: y :: l))
      with (x ++ Str.pipe :: Str.join [Str.pipe] (y :: l)).
    unfold hasMultipleValues. destruct x as [|a x]; [congruence|].
    cbn [existsb] in Hd. apply orb_false_iff in Hd as [Ha Hd].
    cbn [app truthy existsb length]. rewrite Ha, existsb_app. cbn [existsb]. rewrite Hd.
    replace (is_multi_delimiter Str.pipe) with true by reflexivity. reflexivity.
Qed.

(** X26. Editing a multi-value cell in the text area does not change
    its values: what the editor stores for the text it shows is the
    values of the cell joined by [|], so it decodes to the same list
    of values, showing and storing it once more changes nothing, and
    the stored text counts as multi-valued exactly when the cell has
    two values or more. *)
Theorem multiline_edit_roundtrip (v : str) :
  handleMultilineInput (multilineValue v)
  = Str.join [Str.pipe] (getMultilineValues (Some v))
  /\ getMultilineValues (Some (handleMultilineInput (multilineValue v)))
     = getMultilineValues (Some v)
  /\ handleMultilineInput (multilineValue (handleMultilineInput (multilineValue v)))
     = handleMultilineInput (multilineValue v)
  /\ hasMultipleValues (Some (handleMultilineInput (multilineValue v)))
     = (2 <=? length (getMultilineValues (Some v)))%nat.
Proof.
  assert (H1 : forall s, handleMultilineInput (multilineValue s)
                         = Str.join [Str.pipe] (getMultilineValues (Some s))).
  { intros s. unfold handleMultilineInput. rewrite split_multiline, decode_string.
    reflexivity. }
  assert (H2 : getMultilineValues (Some (handleMultilineInput (multilineValue v)))
               = getMultilineValues (Some v)).
  { rewrite H1, (decode_string v). apply decode_tidy, decoded_tidy. }
  split; [apply H1|]. split; [exact H2|]. split.
  - rewrite (H1 (handleMultilineInput (multilineValue v))), H2, <- H1. reflexivity.
  - rewrite H1, (decode_string v). apply joined_delimiters, decoded_tidy.
Qed.

(** X25. Rule 7 of the validator reads a [valueShape] cell as the
    editor does: a row passes the rule exactly when every value the
    editor shows for the cell is the id of a shape, and the message
    of the error lists the other ones in their order. *)
Theorem rule7_multiline_values (shapes : list str) (r : StatementRow) :
  (Validation.rule7 shapes r = []
   <-> forall v, In v (getMultilineValues (valueShape r)) -> In v shapes)
  /\ forall e, In e (Validation.rule7 shapes r) ->
       Validation.column e = lit "valueShape"
       /\ Validation.severity e = lit "error"
       /\ Validation.message e
          = lit "valueShape references non-existent shape(s): "
            ++ Str.join ", "
                 (List.filter (fun v => negb (inb v shapes))
                    (getMultilineValues (valueShape r))).
Proof.
  assert (Hinv : Validation.invalidShapes shapes r
                 = List.filter (fun v => negb (inb v shapes))
                     (getMultilineValues (valueShape r))).
  { unfold Validation.invalidShapes, getMultilineValues.
    destruct (truthy (valueShape r)); reflexivity. }
  unfold Validation.rule7. rewrite Hinv.
  set (vals := getMultilineValues (valueShape r)).
  split.
  - split.
    + intros H v Hv.
      destruct (List.filter (fun v => negb (inb v shapes)) vals) as [|x l] eqn:E;
        [|discriminate H].
      destruct (inb v shapes) eqn:Ei.
      * apply not_false_iff_true in Ei. rewrite inb_false in Ei.
        destruct (List.in_dec (List.list_eq_dec ascii_dec) v shapes); [assumption|].
        contradiction.
      * assert (Hin : In v []) by (rewrite <- E; apply filter_In; rewrite Ei; auto).
        destruct Hin.
    + intros H.
      destruct (List.filter (fun v => negb (inb v shapes)) vals) as [|x l] eqn:E;
        [reflexivity|]. exfalso.
      assert (Hx : In x (List.filter (fun v => negb (inb v shapes)) vals))
        by (rewrite E; left; reflexivity).
      apply filter_In in Hx as [Hx Hn]. apply negb_true_iff, inb_false in Hn.
      exact (Hn (H x Hx)).
  - intros e He.
    destruct (List.filter (fun v => negb (inb v shapes)) vals) as [|x l]; [destruct He|].
    destruct He as [<-|[]]. auto.
Qed.

End EditorFacts.

